(** * The credential vault of eb-secure-browser

    A shallow embedding of the password manager's main-process engine:

    - [src/password-manager/main/encryption.js]  (class PasswordEncryption)
    - [src/password-manager/main/database.js]    (class PasswordDatabase)
    - the orchestrating class PasswordManager    (IPC-facing operations)

    JavaScript strings are sequences of UTF-16 code units, buffers are
    sequences of bytes.  The primitives of [node:crypto] (PBKDF2, AES-256-GCM)
    are an interface ([NodeCrypto]) with the contract the code relies on; the
    random source and the clock are explicit inputs. *)

From Stdlib Require Import ZArith List String Ascii Bool Lia Permutation Sorted.
From Stdlib.Strings Require Import Byte.
Import ListNotations.
Local Open Scope Z_scope.


(* ================================================================== *)
(** * JavaScript strings and Node buffers *)
(* ================================================================== *)

Module JS.

(** A JS string is a list of UTF-16 code units. *)
Definition jsstring := list Z.

(** A Buffer is a list of bytes. *)
Definition bytes := list byte.

Definition Z_of_byte (b : byte) : Z := Z.of_N (Byte.to_N b).

Definition byte_of_Z (z : Z) : byte :=
  match Byte.of_N (Z.to_N (z mod 256)) with
  | Some b => b
  | None => x00
  end.

(** String literals of the source, as code units. *)
Definition js (s : string) : jsstring :=
  map (fun a => Z.of_N (N_of_ascii a)) (list_ascii_of_string s).

Fixpoint jsstring_eqb (a b : jsstring) : bool :=
  match a, b with
  | [], [] => true
  | x :: a', y :: b' => (x =? y) && jsstring_eqb a' b'
  | _, _ => false
  end.

(** JS truthiness of a possibly-absent string: [undefined], [null] and the
    empty string are falsy. *)
Definition truthy (o : option jsstring) : bool :=
  match o with
  | Some (_ :: _) => true
  | _ => false
  end.

(** [x || d] on possibly-absent strings. *)
Definition or_else (o : option jsstring) (d : jsstring) : jsstring :=
  match o with
  | Some (c :: s) => c :: s
  | _ => d
  end.

(** [x || null]. *)
Definition or_null (o : option jsstring) : option jsstring :=
  if truthy o then o else None.

(** ** UTF-8, as [Buffer.from(s, 'utf8')] and [buf.toString('utf8')] *)

Definition is_high_surrogate (c : Z) : bool := (0xD800 <=? c) && (c <=? 0xDBFF).
Definition is_low_surrogate (c : Z) : bool := (0xDC00 <=? c) && (c <=? 0xDFFF).

Definition utf8_of_code_point (cp : Z) : bytes :=
  if cp <? 0x80 then [byte_of_Z cp]
  else if cp <? 0x800 then
    [byte_of_Z (0xC0 + cp / 64); byte_of_Z (0x80 + cp mod 64)]
  else if cp <? 0x10000 then
    [byte_of_Z (0xE0 + cp / 4096); byte_of_Z (0x80 + (cp / 64) mod 64);
     byte_of_Z (0x80 + cp mod 64)]
  else
    [byte_of_Z (0xF0 + cp / 262144); byte_of_Z (0x80 + (cp / 4096) mod 64);
     byte_of_Z (0x80 + (cp / 64) mod 64); byte_of_Z (0x80 + cp mod 64)].

(** U+FFFD, which replaces an unpaired surrogate. *)
Definition replacement_bytes : bytes := [xef; xbf; xbd].

Fixpoint utf8_encode (s : jsstring) : bytes :=
  match s with
  | [] => []
  | c :: rest =>
      if is_high_surrogate c then
        match rest with
        | d :: rest' =>
            if is_low_surrogate d then
              utf8_of_code_point (0x10000 + (c - 0xD800) * 1024 + (d - 0xDC00))
                ++ utf8_encode rest'
            else replacement_bytes ++ utf8_encode rest
        | [] => replacement_bytes
        end
      else if is_low_surrogate c then replacement_bytes ++ utf8_encode rest
      else utf8_of_code_point c ++ utf8_encode rest
  end.

(** The decoder is the usual byte-at-a-time automaton: [needed] continuation
    bytes are outstanding, [seen] of them were read, and the next one has to
    lie in [lower..upper]. *)
Record utf8_state := {
  needed : Z;
  seen : Z;
  acc : Z;
  lower : Z;
  upper : Z
}.

Definition utf8_start : utf8_state :=
  {| needed := 0; seen := 0; acc := 0; lower := 0x80; upper := 0xBF |}.

Definition units_of_code_point (cp : Z) : jsstring :=
  if cp <? 0x10000 then [cp]
  else [0xD800 + (cp - 0x10000) / 1024; 0xDC00 + (cp - 0x10000) mod 1024].

Definition utf8_lead (b : Z) : utf8_state * jsstring :=
  if b <=? 0x7F then (utf8_start, [b])
  else if (0xC2 <=? b) && (b <=? 0xDF) then
    ({| needed := 1; seen := 0; acc := b - 0xC0; lower := 0x80; upper := 0xBF |}, [])
  else if (0xE0 <=? b) && (b <=? 0xEF) then
    ({| needed := 2; seen := 0; acc := b - 0xE0;
        lower := if b =? 0xE0 then 0xA0 else 0x80;
        upper := if b =? 0xED then 0x9F else 0xBF |}, [])
  else if (0xF0 <=? b) && (b <=? 0xF4) then
    ({| needed := 3; seen := 0; acc := b - 0xF0;
        lower := if b =? 0xF0 then 0x90 else 0x80;
        upper := if b =? 0xF4 then 0x8F else 0xBF |}, [])
  else (utf8_start, [0xFFFD]).

Definition utf8_step (st : utf8_state) (b : Z) : utf8_state * jsstring :=
  if needed st =? 0 then utf8_lead b
  else if (b <? lower st) || (upper st <? b) then
    let (st', out) := utf8_lead b in (st', 0xFFFD :: out)
  else
    let acc' := acc st * 64 + (b - 0x80) in
    if seen st + 1 =? needed st then (utf8_start, units_of_code_point acc')
    else ({| needed := needed st; seen := seen st + 1; acc := acc';
             lower := 0x80; upper := 0xBF |}, []).

Fixpoint utf8_decode_from (st : utf8_state) (bs : bytes) : jsstring :=
  match bs with
  | [] => if needed st =? 0 then [] else [0xFFFD]
  | b :: rest =>
      let (st', out) := utf8_step st (Z_of_byte b) in
      out ++ utf8_decode_from st' rest
  end.

Definition utf8_decode (bs : bytes) : jsstring := utf8_decode_from utf8_start bs.

(** A Unicode scalar value: a code point that is not a surrogate. *)
Definition scalar (cp : Z) : Prop :=
  0 <= cp < 0x110000 /\ ~ (0xD800 <= cp <= 0xDFFF).

(** A string is well formed when every surrogate is half of a pair. *)
Fixpoint well_formed (s : jsstring) : bool :=
  match s with
  | [] => true
  | c :: rest =>
      if is_high_surrogate c then
        match rest with
        | d :: rest' => is_low_surrogate d && well_formed rest'
        | [] => false
        end
      else negb (is_low_surrogate c) && (0 <=? c) && (c <? 0x10000)
           && well_formed rest
  end.

(** ** Base64, as [buf.toString('base64')] and [Buffer.from(s, 'base64')] *)

Definition base64_alphabet : jsstring :=
  js "ABCDEFGHIJKLMNOPQRSTUVWXYZabcdefghijklmnopqrstuvwxyz0123456789+/".

Definition char_of_sextet (n : Z) : Z := nth (Z.to_nat n) base64_alphabet 0.

Definition pad : Z := 61. (* '=' *)

Fixpoint base64_encode (bs : bytes) : jsstring :=
  match bs with
  | [] => []
  | [a] =>
      let n := Z_of_byte a in
      [char_of_sextet (n / 4); char_of_sextet ((n mod 4) * 16); pad; pad]
  | [a; b] =>
      let n := Z_of_byte a * 256 + Z_of_byte b in
      [char_of_sextet (n / 1024); char_of_sextet ((n / 16) mod 64);
       char_of_sextet ((n mod 16) * 4); pad]
  | a :: b :: c :: rest =>
      let n := Z_of_byte a * 65536 + Z_of_byte b * 256 + Z_of_byte c in
      char_of_sextet (n / 262144) :: char_of_sextet ((n / 4096) mod 64)
        :: char_of_sextet ((n / 64) mod 64) :: char_of_sextet (n mod 64)
        :: base64_encode rest
  end.

(** The decoder accepts both the standard and the URL-safe alphabet. *)
Definition sextet_of_char (c : Z) : option Z :=
  if (65 <=? c) && (c <=? 90) then Some (c - 65)
  else if (97 <=? c) && (c <=? 122) then Some (c - 71)
  else if (48 <=? c) && (c <=? 57) then Some (c + 4)
  else if (c =? 43) || (c =? 45) then Some 62
  else if (c =? 47) || (c =? 95) then Some 63
  else None.

(** Characters outside the alphabet are skipped; the first '=' ends the
    input. *)
Fixpoint base64_sextets (s : jsstring) : list Z :=
  match s with
  | [] => []
  | c :: rest =>
      if c =? pad then []
      else match sextet_of_char c with
           | Some n => n :: base64_sextets rest
           | None => base64_sextets rest
           end
  end.

Fixpoint bytes_of_sextets (l : list Z) : bytes :=
  match l with
  | a :: b :: c :: d :: rest =>
      let n := a * 262144 + b * 4096 + c * 64 + d in
      byte_of_Z (n / 65536) :: byte_of_Z ((n / 256) mod 256)
        :: byte_of_Z (n mod 256) :: bytes_of_sextets rest
  | [a; b; c] =>
      let n := a * 4096 + b * 64 + c in
      [byte_of_Z (n / 1024); byte_of_Z ((n / 4) mod 256)]
  | [a; b] => [byte_of_Z ((a * 64 + b) / 16)]
  | _ => []
  end.

Definition base64_decode (s : jsstring) : bytes :=
  bytes_of_sextets (base64_sextets s).

(** ** Hexadecimal, as [buf.toString('hex')] and [Buffer.from(s, 'hex')] *)

Definition hex_digit (n : Z) : Z := nth (Z.to_nat n) (js "0123456789abcdef") 0.

Definition hex_value (c : Z) : option Z :=
  if (48 <=? c) && (c <=? 57) then Some (c - 48)
  else if (97 <=? c) && (c <=? 102) then Some (c - 87)
  else if (65 <=? c) && (c <=? 70) then Some (c - 55)
  else None.

Definition hex_encode (bs : bytes) : jsstring :=
  flat_map (fun b => [hex_digit (Z_of_byte b / 16); hex_digit (Z_of_byte b mod 16)]) bs.

(** Decoding stops at the first pair that is not two hex digits. *)
Fixpoint hex_decode (s : jsstring) : bytes :=
  match s with
  | hi :: lo :: rest =>
      match hex_value hi, hex_value lo with
      | Some h, Some l => byte_of_Z (h * 16 + l) :: hex_decode rest
      | _, _ => []
      end
  | _ => []
  end.

End JS.

Import JS.


(* ================================================================== *)
(** * The tables of passwords.db *)
(* ================================================================== *)

(** DATETIME columns hold [CURRENT_TIMESTAMP], which has a resolution of one
    second: a timestamp is a number of seconds.  A column that may be NULL is
    an [option]. *)
Definition timestamp := Z.

(** The [tags] column holds the text [JSON.stringify] produced; it is kept
    here as the JSON value that text denotes: an array of strings, or a
    string (when [savePassword] was handed a string for [tags]). *)
Inductive json := 
| JsonArray (items : list jsstring)
| JsonString (text : jsstring).

Module Settings.
Record row := {
  id : Z;
  salt : jsstring;
  iterations : Z;
  verification_hash : jsstring;
  created_at : timestamp;
  last_accessed : option timestamp
}.
End Settings.

Module Passwords.
Record row := {
  id : jsstring;
  domain : jsstring;
  username : jsstring;
  encrypted_password : jsstring;
  encrypted_notes : option jsstring;
  favicon : option jsstring;
  created_at : timestamp;
  modified_at : timestamp;
  last_used : option timestamp;
  use_count : Z;
  tags : json
}.
End Passwords.

Module History.
Record row := {
  id : Z;
  password_id : jsstring;
  encrypted_old_password : jsstring;
  changed_at : timestamp
}.
End History.

Module Notes.
Record row := {
  id : jsstring;
  title : jsstring;
  encrypted_content : jsstring;
  created_at : timestamp;
  modified_at : timestamp
}.
End Notes.

(* ================================================================== *)
(** * JSON text *)
(* ================================================================== *)

(** [JSON.stringify] on the values the [tags] column can hold. *)
Module JSON.

(** Four lower-case hexadecimal digits. *)
Definition hex4 (c : Z) : jsstring :=
  [hex_digit (c / 4096); hex_digit ((c / 256) mod 16);
   hex_digit ((c / 16) mod 16); hex_digit (c mod 16)].

(** [\uXXXX] *)
Definition unicode_escape (c : Z) : jsstring := [92; 117] ++ hex4 c.

(** One character that is not a surrogate, inside the quotes. *)
Definition quote_unit (c : Z) : jsstring :=
  if c =? 0x08 then [92; 98]
  else if c =? 0x09 then [92; 116]
  else if c =? 0x0A then [92; 110]
  else if c =? 0x0C then [92; 102]
  else if c =? 0x0D then [92; 114]
  else if c =? 0x22 then [92; 34]
  else if c =? 0x5C then [92; 92]
  else if c <? 0x20 then unicode_escape c
  else [c].

(** A surrogate pair is copied; a surrogate on its own is escaped. *)
Fixpoint quote_units (s : jsstring) : jsstring :=
  match s with
  | [] => []
  | c :: rest =>
      if is_high_surrogate c then
        match rest with
        | d :: rest' =>
            if is_low_surrogate d then c :: d :: quote_units rest'
            else unicode_escape c ++ quote_units rest
        | [] => unicode_escape c
        end
      else if is_low_surrogate c then unicode_escape c ++ quote_units rest
      else quote_unit c ++ quote_units rest
  end.

(** [JSON.stringify(s)] for a string [s]. *)
Definition quote (s : jsstring) : jsstring := [34] ++ quote_units s ++ [34].

(** [items.join(sep)] *)
Fixpoint join (sep : jsstring) (items : list jsstring) : jsstring :=
  match items with
  | [] => []
  | [x] => x
  | x :: rest => x ++ sep ++ join sep rest
  end.

Definition stringify (v : json) : jsstring :=
  match v with
  | JsonArray items => js "[" ++ join (js ",") (map quote items) ++ js "]"
  | JsonString text => quote text
  end.

End JSON.

(* ================================================================== *)
(** * The platform: node:crypto, the random source, thrown errors *)
(* ================================================================== *)

(** [crypto.pbkdf2Sync(password, salt, iterations, keylen, 'sha256')] and
    AES-256-GCM through [createCipheriv]/[createDecipheriv].  [gcm_seal key iv
    plaintext] is the pair (ciphertext, auth tag); [gcm_open key iv tag
    ciphertext] is [None] where [decipher.final()] (or an earlier call)
    throws.  The laws are the ones the vault relies on, for the key and
    nonce sizes it uses. *)
Class NodeCrypto := {
  pbkdf2Sync : jsstring -> bytes -> Z -> nat -> bytes;
  gcm_seal : bytes -> bytes -> bytes -> bytes * bytes;
  gcm_open : bytes -> bytes -> bytes -> bytes -> option bytes;
  pbkdf2Sync_length :
    forall password salt iterations keylen,
      List.length (pbkdf2Sync password salt iterations keylen) = keylen;
  gcm_tag_length :
    forall key iv plaintext,
      List.length key = 32%nat -> List.length iv = 16%nat ->
      List.length (snd (gcm_seal key iv plaintext)) = 16%nat;
  gcm_open_seal :
    forall key iv plaintext,
      List.length key = 32%nat -> List.length iv = 16%nat ->
      gcm_open key iv (snd (gcm_seal key iv plaintext))
               (fst (gcm_seal key iv plaintext)) = Some plaintext
}.

(** The operating system's random source: an unbounded supply of draws and
    the position of the next one. *)
Record entropy := {
  draws : nat -> Z;
  cursor : nat
}.

(** [crypto.randomBytes(n)]. *)
Definition randomBytes (n : nat) (r : entropy) : bytes * entropy :=
  (map (fun i => byte_of_Z (draws r i)) (seq (cursor r) n),
   {| draws := draws r; cursor := (cursor r + n)%nat |}).

(** [crypto.randomInt(0, max)]: an integer in [0, max); a RangeError when
    [max <= 0]. *)
Definition randomInt (max : Z) (r : entropy) : option Z * entropy :=
  if max <=? 0 then (None, r)
  else (Some (draws r (cursor r) mod max),
        {| draws := draws r; cursor := S (cursor r) |}).

(** [uuidv4()]: sixteen random bytes with the version and variant bits set,
    printed as 8-4-4-4-12 hexadecimal digits. *)
Definition uuidv4 (r : entropy) : jsstring * entropy :=
  let (b, r') := randomBytes 16 r in
  let z i := Z_of_byte (nth i b x00) in
  let b6 := byte_of_Z (Z.lor (Z.land (z 6%nat) 0x0f) 0x40) in
  let b8 := byte_of_Z (Z.lor (Z.land (z 8%nat) 0x3f) 0x80) in
  let dash := js "-" in
  (hex_encode (firstn 4 b) ++ dash
   ++ hex_encode (firstn 2 (skipn 4 b)) ++ dash
   ++ hex_encode (b6 :: firstn 1 (skipn 7 b)) ++ dash
   ++ hex_encode (b8 :: firstn 1 (skipn 9 b)) ++ dash
   ++ hex_encode (skipn 10 b), r').

(** The result of a call that may throw; [Throw] carries [error.message]. *)
Inductive outcome (A : Type) : Type :=
| Return (a : A)
| Throw (message : jsstring).
Arguments Return {A} a.
Arguments Throw {A} message.

(* ================================================================== *)
(** * encryption.js: class PasswordEncryption *)
(* ================================================================== *)

Module PasswordEncryption.

(** The fields the constructor sets once. *)
Definition iterations : Z := 100000.
Definition keyLength : nat := 32.
Definition saltLength : nat := 32.
Definition ivLength : nat := 16.
Definition tagLength : nat := 16.

(** The mutable fields.  [masterKey] is a reference to a Buffer: [memory]
    holds the contents of every key buffer [deriveKey] has allocated, and
    [masterKey = Some l] points at cell [l].  A buffer that is no longer
    referenced keeps its contents until something overwrites it. *)
Record t := {
  masterKey : option nat;
  salt : option bytes;
  memory : list bytes
}.

(** [new PasswordEncryption()]. *)
Definition create : t := {| masterKey := None; salt := None; memory := [] |}.

Definition read (l : nat) (e : t) : bytes := nth l (memory e) [].

Fixpoint write (l : nat) (b : bytes) (m : list bytes) : list bytes :=
  match m, l with
  | [], _ => []
  | _ :: m', O => b :: m'
  | x :: m', S l' => x :: write l' b m'
  end.

Definition not_initialized : jsstring :=
  js "Encryption not initialized. Call initialize() first.".

(** The message of the error [decipher.final()] throws. *)
Definition unable_to_authenticate : jsstring :=
  js "Unsupported state or unable to authenticate data".

Definition verificationData : jsstring := js "EB_PASSWORD_MANAGER_VERIFICATION".

Definition generateSalt (r : entropy) : bytes * entropy := randomBytes saltLength r.

Definition generateIV (r : entropy) : bytes * entropy := randomBytes ivLength r.

(** [buf.slice(start, end)] and [buf.slice(start)]. *)
Definition slice (start stop : nat) (b : bytes) : bytes :=
  firstn (stop - start) (skipn start b).
Definition slice_from (start : nat) (b : bytes) : bytes := skipn start b.

Section WithCrypto.
Context {crypto : NodeCrypto}.

Definition deriveKey (masterPassword : jsstring) (s : bytes) : bytes :=
  pbkdf2Sync masterPassword s iterations keyLength.

(** The cipher proper, on an explicit key: what [encrypt] and [decrypt] do
    once [this.masterKey] has been read. *)
Definition seal (key iv : bytes) (plaintext : jsstring) : jsstring :=
  let (encrypted, authTag) := gcm_seal key iv (utf8_encode plaintext) in
  base64_encode (iv ++ authTag ++ encrypted).

Definition open (key : bytes) (encryptedData : jsstring) : outcome jsstring :=
  let combined := base64_decode encryptedData in
  let iv := slice 0 ivLength combined in
  let authTag := slice ivLength (ivLength + tagLength) combined in
  let encrypted := slice_from (ivLength + tagLength) combined in
  match gcm_open key iv authTag encrypted with
  | Some decrypted => Return (utf8_decode decrypted)
  | None => Throw unable_to_authenticate
  end.

Definition encrypt (plaintext : jsstring) (e : t) (r : entropy)
  : outcome jsstring * entropy :=
  match masterKey e with
  | None => (Throw not_initialized, r)
  | Some l =>
      let (iv, r') := generateIV r in
      (Return (seal (read l e) iv plaintext), r')
  end.

(** The message of the TypeError [cipher.update(undefined, 'utf8')] throws. *)
Definition invalid_data_argument : jsstring :=
  js "The " ++ [34] ++ js "data" ++ [34]
  ++ js " argument must be of type string or an instance of Buffer, TypedArray, or DataView. Received undefined".

(** [encrypt(x)] where [x] may be [undefined]: the nonce is drawn before
    [cipher.update] rejects the argument. *)
Definition encrypt_value (x : option jsstring) (e : t) (r : entropy)
  : outcome jsstring * entropy :=
  match x with
  | Some plaintext => encrypt plaintext e r
  | None =>
      match masterKey e with
      | None => (Throw not_initialized, r)
      | Some _ => (Throw invalid_data_argument, snd (generateIV r))
      end
  end.

Definition decrypt (encryptedData : jsstring) (e : t) : outcome jsstring :=
  match masterKey e with
  | None => Throw not_initialized
  | Some l => open (read l e) encryptedData
  end.

(** [this.salt = salt; this.masterKey = this.deriveKey(masterPassword, salt)]:
    the derived key lands in a fresh buffer. *)
Definition install_key (masterPassword : jsstring) (s : bytes) (e : t) : t :=
  {| masterKey := Some (List.length (memory e));
     salt := Some s;
     memory := memory e ++ [deriveKey masterPassword s] |}.

Record master_settings := {
  ms_salt : jsstring;
  ms_verificationHash : jsstring;
  ms_iterations : Z
}.

(** [initialize(masterPassword)], always called without a salt. *)
Definition initialize (masterPassword : jsstring) (e : t) (r : entropy)
  : outcome master_settings * t * entropy :=
  let (s, r1) := generateSalt r in
  let e1 := install_key masterPassword s e in
  match encrypt verificationData e1 r1 with
  | (Return encrypted, r2) =>
      (Return {| ms_salt := hex_encode s;
                 ms_verificationHash := encrypted;
                 ms_iterations := iterations |}, e1, r2)
  | (Throw m, r2) => (Throw m, e1, r2)
  end.

(** The key is installed before the check and stays installed whatever the
    check says. *)
Definition verifyMasterPassword (masterPassword saltHex verificationHash : jsstring)
           (e : t) : bool * t :=
  let s := hex_decode saltHex in
  let e1 := install_key masterPassword s e in
  match decrypt verificationHash e1 with
  | Return decrypted => (jsstring_eqb decrypted verificationData, e1)
  | Throw _ => (false, e1)
  end.

End WithCrypto.

(** A password entry as the renderer sends it; every property may be
    missing. *)
Inductive tags_input :=
| TagsArray (tags : list jsstring)
| TagsText (text : jsstring).

Record passwordEntry := {
  pe_id : option jsstring;
  pe_domain : option jsstring;
  pe_username : option jsstring;
  pe_password : option jsstring;
  pe_notes : option jsstring;
  pe_favicon : option jsstring;
  pe_tags : option tags_input
}.

(** The object [encryptPasswordEntry] builds and [savePassword] binds.  Its
    [created_at] and [modified_at] properties are left out: [savePassword]
    does not read them. *)
Record encryptedEntry := {
  ee_id : option jsstring;
  ee_domain : option jsstring;
  ee_username : option jsstring;
  ee_encrypted_password : option jsstring;
  ee_encrypted_notes : option jsstring;
  ee_favicon : option jsstring;
  ee_tags : option tags_input
}.

Section WithCrypto.
Context {crypto : NodeCrypto}.

(** [if (x) out = this.encrypt(x)] *)
Definition encrypt_if_truthy (x : option jsstring) (e : t) (r : entropy)
  : outcome (option jsstring) * entropy :=
  if truthy x then
    match encrypt (or_else x []) e r with
    | (Return c, r') => (Return (Some c), r')
    | (Throw m, r') => (Throw m, r')
    end
  else (Return None, r).

Definition encryptPasswordEntry (p : passwordEntry) (e : t) (r : entropy)
  : outcome encryptedEntry * entropy :=
  match encrypt_if_truthy (pe_password p) e r with
  | (Throw m, r1) => (Throw m, r1)
  | (Return encrypted_password, r1) =>
      match encrypt_if_truthy (pe_notes p) e r1 with
      | (Throw m, r2) => (Throw m, r2)
      | (Return encrypted_notes, r2) =>
          (Return {| ee_id := pe_id p;
                     ee_domain := pe_domain p;
                     ee_username := pe_username p;
                     ee_encrypted_password := encrypted_password;
                     ee_encrypted_notes := encrypted_notes;
                     ee_favicon := pe_favicon p;
                     ee_tags := pe_tags p |}, r2)
      end
  end.

(** What [decryptPasswordEntry] returns. *)
Record decryptedEntry := {
  de_id : jsstring;
  de_domain : jsstring;
  de_username : jsstring;
  de_favicon : option jsstring;
  de_tags : json;
  de_created_at : timestamp;
  de_modified_at : timestamp;
  de_last_used : option timestamp;
  de_use_count : Z;
  de_password : option jsstring;
  de_notes : option jsstring
}.

(** [if (x) out = this.decrypt(x)] *)
Definition decrypt_if_truthy (x : option jsstring) (e : t)
  : outcome (option jsstring) :=
  if truthy x then
    match decrypt (or_else x []) e with
    | Return p => Return (Some p)
    | Throw m => Throw m
    end
  else Return None.

Definition decryptPasswordEntry (row : Passwords.row) (e : t)
  : outcome decryptedEntry :=
  match decrypt_if_truthy (Some (Passwords.encrypted_password row)) e with
  | Throw m => Throw m
  | Return password =>
      match decrypt_if_truthy (Passwords.encrypted_notes row) e with
      | Throw m => Throw m
      | Return notes =>
          Return {| de_id := Passwords.id row;
                    de_domain := Passwords.domain row;
                    de_username := Passwords.username row;
                    de_favicon := Passwords.favicon row;
                    de_tags := Passwords.tags row;
                    de_created_at := Passwords.created_at row;
                    de_modified_at := Passwords.modified_at row;
                    de_last_used := Passwords.last_used row;
                    de_use_count := Passwords.use_count row;
                    de_password := password;
                    de_notes := notes |}
      end
  end.

End WithCrypto.

(** [lock()]: [crypto.randomFillSync] overwrites the key buffer in place,
    then the reference is dropped. *)
Definition lock (e : t) (r : entropy) : t * entropy :=
  match masterKey e with
  | Some l =>
      let (fill, r') := randomBytes (List.length (read l e)) r in
      ({| masterKey := None; salt := None; memory := write l fill (memory e) |}, r')
  | None => ({| masterKey := None; salt := None; memory := memory e |}, r)
  end.

Definition isUnlocked (e : t) : bool :=
  match masterKey e with
  | Some _ => true
  | None => false
  end.

(** ** Password generation *)

Record options := {
  length : option Z;
  uppercase : option bool;
  lowercase : option bool;
  numbers : option bool;
  symbols : option bool;
  excludeSimilar : option bool;
  excludeAmbiguous : option bool
}.

(** [{ ...defaults, ...options }] *)
Definition with_default {A : Type} (d : A) (o : option A) : A :=
  match o with
  | Some a => a
  | None => d
  end.

Definition lowercase_letters : jsstring := js "abcdefghijklmnopqrstuvwxyz".
Definition uppercase_letters : jsstring := js "ABCDEFGHIJKLMNOPQRSTUVWXYZ".
Definition digits : jsstring := js "0123456789".
Definition symbol_characters : jsstring := js "!@#$%^&*()_+-=[]{}|;:,.<>?".

(** The class [ilLI|1oO0]. *)
Definition similar_characters : jsstring := js "ilLI|1oO0".

(** The class of the second [replace]: braces, brackets, parentheses, slash,
    backslash, both quotes, tilde, comma, semicolon, full stop, angle
    brackets. *)
Definition ambiguous_characters : jsstring :=
  js "{}[]()/\'" ++ [34] ++ js "~,;.<>".

Definition member (c : Z) (class : jsstring) : bool := existsb (Z.eqb c) class.

(** [charset.replace(/[class]/g, '')] *)
Definition remove_class (class charset : jsstring) : jsstring :=
  filter (fun c => negb (member c class)) charset.

Definition build_charset (o : options) : jsstring :=
  let charset := [] in
  let charset := if with_default true (lowercase o)
                 then charset ++ lowercase_letters else charset in
  let charset := if with_default true (uppercase o)
                 then charset ++ uppercase_letters else charset in
  let charset := if with_default true (numbers o)
                 then charset ++ digits else charset in
  let charset := if with_default true (symbols o)
                 then charset ++ symbol_characters else charset in
  let charset := if with_default false (excludeSimilar o)
                 then remove_class similar_characters charset else charset in
  let charset := if with_default false (excludeAmbiguous o)
                 then remove_class ambiguous_characters charset else charset in
  charset.

(** The message of the RangeError [crypto.randomInt(0, 0)] throws. *)
Definition max_out_of_range : jsstring :=
  js "The value of " ++ [34] ++ js "max" ++ [34]
  ++ js " is out of range. It must be greater than the value of "
  ++ [34] ++ js "min" ++ [34] ++ js " (0). Received 0".

(** The loop [for (let i = 0; i < opts.length; i++)], [n] rounds to go. *)
Fixpoint generate_loop (n : nat) (charset password : jsstring) (r : entropy)
  : outcome jsstring * entropy :=
  match n with
  | O => (Return password, r)
  | S n' =>
      match randomInt (Z.of_nat (List.length charset)) r with
      | (Some randomIndex, r') =>
          generate_loop n' charset
                        (password ++ [nth (Z.to_nat randomIndex) charset 0]) r'
      | (None, r') => (Throw max_out_of_range, r')
      end
  end.

Definition generatePassword (o : options) (r : entropy)
  : outcome jsstring * entropy :=
  generate_loop (Z.to_nat (with_default 16 (length o))) (build_charset o) [] r.

(** ** Password strength *)

Definition is_lower (c : Z) : bool := (97 <=? c) && (c <=? 122).
Definition is_upper (c : Z) : bool := (65 <=? c) && (c <=? 90).
Definition is_digit (c : Z) : bool := (48 <=? c) && (c <=? 57).
Definition is_alpha (c : Z) : bool := is_lower c || is_upper c.
Definition is_alnum (c : Z) : bool := is_alpha c || is_digit c.

(** The characters [.] does not match. *)
Definition is_line_terminator (c : Z) : bool :=
  (c =? 10) || (c =? 13) || (c =? 0x2028) || (c =? 0x2029).

(** [/(.)\1{2,}/.test(s)]: some character other than a line terminator
    occurs three times in a row. *)
Fixpoint has_repeat (s : jsstring) : bool :=
  match s with
  | [] => false
  | a :: rest =>
      match rest with
      | b :: c :: _ => negb (is_line_terminator a) && (a =? b) && (b =? c)
      | _ => false
      end || has_repeat rest
  end.

(** [/^[class]+$/.test(s)] *)
Definition all_of (class : Z -> bool) (s : jsstring) : bool :=
  match s with
  | [] => false
  | _ => forallb class s
  end.

Record strength_report := {
  score : Z;
  strength : jsstring;
  feedback : list jsstring
}.

Definition checkPasswordStrength (password : jsstring) : strength_report :=
  let len := Z.of_nat (List.length password) in
  let score := 0 in
  let feedback := [] in
  let score := if 8 <=? len then score + 1 else score in
  let score := if 12 <=? len then score + 1 else score in
  let score := if 16 <=? len then score + 1 else score in
  let score := if existsb is_lower password then score + 1 else score in
  let score := if existsb is_upper password then score + 1 else score in
  let score := if existsb is_digit password then score + 1 else score in
  let score := if existsb (fun c => negb (is_alnum c)) password
               then score + 1 else score in
  let '(score, feedback) :=
    if has_repeat password
    then (score - 1, feedback ++ [js "Avoid repeating characters"])
    else (score, feedback) in
  let '(score, feedback) :=
    if all_of is_digit password
    then (score - 1, feedback ++ [js "Use more than just numbers"])
    else (score, feedback) in
  let '(score, feedback) :=
    if all_of is_alpha password
    then (score - 1, feedback ++ [js "Add numbers or symbols"])
    else (score, feedback) in
  let strength :=
    if 7 <=? score then js "Very Strong"
    else if 5 <=? score then js "Strong"
    else if 3 <=? score then js "Fair"
    else if 2 <=? score then js "Weak"
    else js "Very Weak" in
  {| score := Z.max 0 (Z.min score 10);
     strength := strength;
     feedback := feedback |}.

End PasswordEncryption.

(* ================================================================== *)
(** * database.js: class PasswordDatabase *)
(* ================================================================== *)

Module PasswordDatabase.

(** The contents of passwords.db.  [history_sequence] is the AUTOINCREMENT
    counter of [password_history].  [foreign_keys] is the connection's
    foreign-key enforcement: database.js never sets the pragma, so it is
    the default of the driver's SQLite build, which enforces foreign keys
    ([true]); every operation is described for both settings. *)
Record t := {
  foreign_keys : bool;
  password_settings : list Settings.row;
  passwords : list Passwords.row;
  password_history : list History.row;
  history_sequence : Z;
  secure_notes : list Notes.row
}.

(** The freshly created file, after [createTables]. *)
Definition empty (fk : bool) : t :=
  {| foreign_keys := fk; password_settings := []; passwords := [];
     password_history := []; history_sequence := 0; secure_notes := [] |}.

Definition with_settings (l : list Settings.row) (db : t) : t :=
  {| foreign_keys := foreign_keys db; password_settings := l;
     passwords := passwords db; password_history := password_history db;
     history_sequence := history_sequence db; secure_notes := secure_notes db |}.

Definition with_passwords (l : list Passwords.row) (db : t) : t :=
  {| foreign_keys := foreign_keys db; password_settings := password_settings db;
     passwords := l; password_history := password_history db;
     history_sequence := history_sequence db; secure_notes := secure_notes db |}.

Definition with_history (l : list History.row) (db : t) : t :=
  {| foreign_keys := foreign_keys db; password_settings := password_settings db;
     passwords := passwords db; password_history := l;
     history_sequence := history_sequence db; secure_notes := secure_notes db |}.

Definition with_notes (l : list Notes.row) (db : t) : t :=
  {| foreign_keys := foreign_keys db; password_settings := password_settings db;
     passwords := passwords db; password_history := password_history db;
     history_sequence := history_sequence db; secure_notes := l |}.

(** ** SQL *)

(** [ORDER BY]: [before a b] says that [a] sorts strictly before [b].  Rows
    with equal keys stay in table order (SQLite promises no order there). *)
Fixpoint insert_sorted {A : Type} (before : A -> A -> bool) (x : A) (l : list A)
  : list A :=
  match l with
  | [] => [x]
  | y :: l' => if before y x then y :: insert_sorted before x l' else x :: y :: l'
  end.

Definition order_by {A : Type} (before : A -> A -> bool) (l : list A) : list A :=
  fold_right (insert_sorted before) [] l.

(** NULL sorts below every value. *)
Definition null_ltb (a b : option timestamp) : bool :=
  match a, b with
  | None, Some _ => true
  | Some x, Some y => x <? y
  | _, None => false
  end.

Definition null_eqb (a b : option timestamp) : bool :=
  match a, b with
  | None, None => true
  | Some x, Some y => x =? y
  | _, _ => false
  end.

(** [ORDER BY modified_at DESC] *)
Definition by_modified_desc (a b : Passwords.row) : bool :=
  Passwords.modified_at b <? Passwords.modified_at a.

(** [ORDER BY last_used DESC, modified_at DESC] *)
Definition by_last_used_desc (a b : Passwords.row) : bool :=
  null_ltb (Passwords.last_used b) (Passwords.last_used a)
  || (null_eqb (Passwords.last_used b) (Passwords.last_used a)
      && (Passwords.modified_at b <? Passwords.modified_at a)).

(** [LIKE]: ['%'] matches any run of characters, ['_'] any one character,
    and ASCII letters match without regard to case.  Characters are UTF-16
    units here.  SQLite reads both operands as UTF-8, by code points and up
    to the first U+0000: that is the same matching on text without
    surrogates and without U+0000. *)
Definition fold_case (c : Z) : Z :=
  if (97 <=? c) && (c <=? 122) then c - 32 else c.

Fixpoint suffixes (s : jsstring) : list jsstring :=
  s :: match s with
       | [] => []
       | _ :: s' => suffixes s'
       end.

Fixpoint like (pattern text : jsstring) {struct pattern} : bool :=
  match pattern with
  | [] => match text with [] => true | _ => false end
  | c :: pattern' =>
      if c =? 37 then existsb (like pattern') (suffixes text)
      else match text with
           | [] => false
           | x :: text' =>
               ((c =? 95) || (fold_case c =? fold_case x)) && like pattern' text'
           end
  end.

(** The template [`%${x}%`]. *)
Definition contains_pattern (x : jsstring) : jsstring := [37] ++ x ++ [37].

(** The driver binds [undefined] and [null] as NULL.  A NULL in a column
    declared NOT NULL aborts the statement, under [INSERT OR REPLACE] too
    (the column has no default), before any row is deleted or written; the
    columns are checked in the order of the table's declaration.  This is
    the message of the error. *)
Definition not_null_failed (table column : string) : jsstring :=
  js "NOT NULL constraint failed: " ++ js table ++ js "." ++ js column.

Definition foreign_key_failed : jsstring := js "FOREIGN KEY constraint failed".

(** ** Master settings *)

Definition hasMasterPassword (db : t) : bool :=
  0 <? Z.of_nat (List.length (password_settings db)).

Definition saveMasterPasswordSettings (salt verificationHash : jsstring)
           (iterations : Z) (now : timestamp) (db : t) : t :=
  with_settings
    [{| Settings.id := 1; Settings.salt := salt;
        Settings.iterations := iterations;
        Settings.verification_hash := verificationHash;
        Settings.created_at := now; Settings.last_accessed := None |}] db.

Definition getMasterPasswordSettings (db : t) : option Settings.row :=
  hd_error (password_settings db).

Definition updateLastAccessed (now : timestamp) (db : t) : t :=
  with_settings
    (map (fun s => {| Settings.id := Settings.id s; Settings.salt := Settings.salt s;
                      Settings.iterations := Settings.iterations s;
                      Settings.verification_hash := Settings.verification_hash s;
                      Settings.created_at := Settings.created_at s;
                      Settings.last_accessed := Some now |})
         (password_settings db)) db.

(** ** Password entries *)

(** Text is kept as the code units of the JavaScript string.  The driver
    hands a string to SQLite as UTF-8, writing an unpaired surrogate as
    U+FFFD: what is stored and compared is the string itself when it has no
    unpaired surrogate. *)
Definition has_id (id : jsstring) (p : Passwords.row) : bool :=
  jsstring_eqb (Passwords.id p) id.

Definition refers_to (id : jsstring) (h : History.row) : bool :=
  jsstring_eqb (History.password_id h) id.

Definition getPassword (id : jsstring) (db : t) : option Passwords.row :=
  find (has_id id) (passwords db).

(** [DELETE FROM passwords WHERE id = ?], which is also what the REPLACE of
    [INSERT OR REPLACE] does to the row in the way.  With foreign keys
    enforced, deleting a row deletes its history ([ON DELETE CASCADE]). *)
Definition delete_password_row (id : jsstring) (db : t) : t :=
  let cascade := foreign_keys db && existsb (has_id id) (passwords db) in
  with_passwords (filter (fun p => negb (has_id id p)) (passwords db))
    (if cascade
     then with_history (filter (fun h => negb (refers_to id h)) (password_history db)) db
     else db).

(** [JSON.stringify(passwordData.tags || [])] *)
Definition stringify_tags (x : option PasswordEncryption.tags_input) : json :=
  match x with
  | Some (PasswordEncryption.TagsArray l) => JsonArray l
  | Some (PasswordEncryption.TagsText (c :: s)) => JsonString (c :: s)
  | _ => JsonArray []
  end.

Definition savePassword (passwordData : PasswordEncryption.encryptedEntry)
           (now : timestamp) (db : t) (r : entropy)
  : outcome jsstring * t * entropy :=
  let (id, r1) :=
    if truthy (PasswordEncryption.ee_id passwordData)
    then (or_else (PasswordEncryption.ee_id passwordData) [], r)
    else uuidv4 r in
  match PasswordEncryption.ee_domain passwordData,
        PasswordEncryption.ee_encrypted_password passwordData with
  | Some domain, Some encrypted_password =>
      let db1 := delete_password_row id db in
      (Return id,
       with_passwords
         (passwords db1 ++
          [{| Passwords.id := id;
              Passwords.domain := domain;
              Passwords.username :=
                or_else (PasswordEncryption.ee_username passwordData) [];
              Passwords.encrypted_password := encrypted_password;
              Passwords.encrypted_notes :=
                or_null (PasswordEncryption.ee_encrypted_notes passwordData);
              Passwords.favicon :=
                or_null (PasswordEncryption.ee_favicon passwordData);
              Passwords.created_at := now;
              Passwords.modified_at := now;
              Passwords.last_used := None;
              Passwords.use_count := 0;
              Passwords.tags :=
                stringify_tags (PasswordEncryption.ee_tags passwordData) |}]) db1,
       r1)
  | None, _ => (Throw (not_null_failed "passwords" "domain"), db, r1)
  | Some _, None =>
      (Throw (not_null_failed "passwords" "encrypted_password"), db, r1)
  end.

Definition getPasswords (domain : option jsstring) (db : t) : list Passwords.row :=
  if truthy domain then
    order_by by_last_used_desc
      (filter (fun p => like (contains_pattern (or_else domain []))
                             (Passwords.domain p))
              (passwords db))
  else order_by by_modified_desc (passwords db).

Definition updatePasswordUsage (id : jsstring) (now : timestamp) (db : t) : t :=
  with_passwords
    (map (fun p =>
            if has_id id p then
              {| Passwords.id := Passwords.id p;
                 Passwords.domain := Passwords.domain p;
                 Passwords.username := Passwords.username p;
                 Passwords.encrypted_password := Passwords.encrypted_password p;
                 Passwords.encrypted_notes := Passwords.encrypted_notes p;
                 Passwords.favicon := Passwords.favicon p;
                 Passwords.created_at := Passwords.created_at p;
                 Passwords.modified_at := Passwords.modified_at p;
                 Passwords.last_used := Some now;
                 Passwords.use_count := Passwords.use_count p + 1;
                 Passwords.tags := Passwords.tags p |}
            else p)
         (passwords db)) db.

(** ** Password history *)

(** [ORDER BY changed_at DESC] *)
Definition by_changed_desc (a b : History.row) : bool :=
  History.changed_at b <? History.changed_at a.

(** The first statement of [addToPasswordHistory]: the INSERT.  With foreign
    keys enforced it fails unless the entry exists. *)
Definition insert_history (passwordId encryptedPassword : jsstring)
           (now : timestamp) (db : t) : outcome t :=
  if foreign_keys db && negb (existsb (has_id passwordId) (passwords db))
  then Throw foreign_key_failed
  else
    let id := history_sequence db + 1 in
    Return
      {| foreign_keys := foreign_keys db;
         password_settings := password_settings db;
         passwords := passwords db;
         password_history :=
           password_history db ++
           [{| History.id := id; History.password_id := passwordId;
               History.encrypted_old_password := encryptedPassword;
               History.changed_at := now |}];
         history_sequence := id;
         secure_notes := secure_notes db |}.

(** The sub-select: the ids of the five newest rows of the entry. *)
Definition newest_five (passwordId : jsstring) (db : t) : list Z :=
  map History.id
      (firstn 5 (order_by by_changed_desc
                          (filter (refers_to passwordId) (password_history db)))).

(** The second statement: the DELETE that keeps only those five. *)
Definition prune_history (passwordId : jsstring) (db : t) : t :=
  let keep := newest_five passwordId db in
  with_history
    (filter (fun h => negb (refers_to passwordId h
                            && negb (existsb (Z.eqb (History.id h)) keep)))
            (password_history db)) db.

Definition addToPasswordHistory (passwordId encryptedPassword : jsstring)
           (now : timestamp) (db : t) : outcome t :=
  match insert_history passwordId encryptedPassword now db with
  | Return db1 => Return (prune_history passwordId db1)
  | Throw m => Throw m
  end.

Definition getPasswordHistory (passwordId : jsstring) (db : t) : list History.row :=
  order_by by_changed_desc (filter (refers_to passwordId) (password_history db)).

Definition deletePassword (id : jsstring) (now : timestamp) (db : t) : outcome t :=
  match getPassword id db with
  | Some password =>
      match addToPasswordHistory id (Passwords.encrypted_password password) now db with
      | Return db1 => Return (delete_password_row id db1)
      | Throw m => Throw m
      end
  | None => Return (delete_password_row id db)
  end.

(** ** Secure notes *)

(** A note as [saveSecureNote] receives it. *)
Record noteData := {
  nd_id : option jsstring;
  nd_title : option jsstring;
  nd_content : option jsstring;
  nd_encrypted_content : option jsstring
}.

Definition note_has_id (id : jsstring) (n : Notes.row) : bool :=
  jsstring_eqb (Notes.id n) id.

Definition saveSecureNote (n : noteData) (now : timestamp) (db : t) (r : entropy)
  : outcome jsstring * t * entropy :=
  let (id, r1) :=
    if truthy (nd_id n) then (or_else (nd_id n) [], r) else uuidv4 r in
  match nd_title n, nd_encrypted_content n with
  | Some title, Some encrypted_content =>
      (Return id,
       with_notes
         (filter (fun x => negb (note_has_id id x)) (secure_notes db) ++
          [{| Notes.id := id; Notes.title := title;
              Notes.encrypted_content := encrypted_content;
              Notes.created_at := now; Notes.modified_at := now |}]) db,
       r1)
  | None, _ => (Throw (not_null_failed "secure_notes" "title"), db, r1)
  | Some _, None =>
      (Throw (not_null_failed "secure_notes" "encrypted_content"), db, r1)
  end.

Definition getSecureNotes (db : t) : list Notes.row :=
  order_by (fun a b => Notes.modified_at b <? Notes.modified_at a) (secure_notes db).

Definition deleteSecureNote (id : jsstring) (db : t) : t :=
  with_notes (filter (fun x => negb (note_has_id id x)) (secure_notes db)) db.

(** ** Search, tags, duplicates, statistics *)

Definition searchPasswords (query : jsstring) (db : t) : list Passwords.row :=
  order_by by_last_used_desc
    (filter (fun p => like (contains_pattern query) (Passwords.domain p)
                      || like (contains_pattern query) (Passwords.username p))
            (passwords db)).

(** The template [`%"${tag}"%`]. *)
Definition quoted_pattern (tag : jsstring) : jsstring := [37; 34] ++ tag ++ [34; 37].

(** [tags LIKE ?] reads the column as the text [JSON.stringify] wrote. *)
Definition getPasswordsByTag (tag : jsstring) (db : t) : list Passwords.row :=
  order_by by_modified_desc
    (filter (fun p => like (quoted_pattern tag) (JSON.stringify (Passwords.tags p)))
            (passwords db)).

(** String comparison by code units, as [Array.prototype.sort] does. *)
Fixpoint jsstring_ltb (a b : jsstring) : bool :=
  match a, b with
  | _, [] => false
  | [], _ :: _ => true
  | x :: a', y :: b' => (x <? y) || ((x =? y) && jsstring_ltb a' b')
  end.

(** [tagSet.add(tag)] *)
Definition set_add (tag : jsstring) (tagSet : list jsstring) : list jsstring :=
  if existsb (jsstring_eqb tag) tagSet then tagSet else tagSet ++ [tag].

(** A [tags] value that is not an array makes [tags.forEach] throw, and the
    surrounding [try] ignores the entry. *)
Definition getAllTags (db : t) : list jsstring :=
  order_by jsstring_ltb
    (fold_left (fun tagSet p =>
                  match Passwords.tags p with
                  | JsonArray tags => fold_left (fun s tag => set_add tag s) tags tagSet
                  | JsonString _ => tagSet
                  end)
               (getPasswords None db) []).

(** [passwordMap]: a Map from [encrypted_password] to the entries that carry
    it, in insertion order. *)
Fixpoint map_push (p : Passwords.row) (m : list (jsstring * list Passwords.row))
  : list (jsstring * list Passwords.row) :=
  match m with
  | [] => [(Passwords.encrypted_password p, [p])]
  | (k, entries) :: m' =>
      if jsstring_eqb k (Passwords.encrypted_password p)
      then (k, entries ++ [p]) :: m'
      else (k, entries) :: map_push p m'
  end.

Definition findDuplicatePasswords (db : t) : list (list Passwords.row) :=
  let passwordMap := fold_left (fun m p => map_push p m) (getPasswords None db) [] in
  map snd (filter (fun kv => (1 <? List.length (snd kv))%nat) passwordMap).

Record statistics := {
  totalPasswords : Z;
  totalNotes : Z;
  recentlyUsed : Z;
  duplicateCount : Z;
  allTags : list jsstring
}.

Definition seven_days : Z := 7 * 24 * 60 * 60.

Definition getStatistics (now : timestamp) (db : t) : statistics :=
  {| totalPasswords := Z.of_nat (List.length (passwords db));
     totalNotes := Z.of_nat (List.length (secure_notes db));
     recentlyUsed :=
       Z.of_nat (List.length
                   (filter (fun p => null_ltb (Some (now - seven_days))
                                              (Passwords.last_used p))
                           (passwords db)));
     duplicateCount := Z.of_nat (List.length (findDuplicatePasswords db));
     allTags := getAllTags db |}.

(** ** Backup *)

Record exported := {
  ex_settings : option Settings.row;
  ex_passwords : list Passwords.row;
  ex_notes : list Notes.row;
  ex_exportDate : timestamp
}.

Definition exportData (now : timestamp) (db : t) : exported :=
  {| ex_settings := getMasterPasswordSettings db;
     ex_passwords := getPasswords None db;
     ex_notes := getSecureNotes db;
     ex_exportDate := now |}.

(** The bundle handed to [importData]; either list may be missing. *)
Record bundle := {
  b_passwords : option (list PasswordEncryption.encryptedEntry);
  b_notes : option (list noteData)
}.

(** [list.forEach(x => save(x))]: the first throw ends the loop and keeps
    what was saved before it. *)
Fixpoint for_each {A : Type}
         (save : A -> t -> entropy -> outcome jsstring * t * entropy)
         (l : list A) (db : t) (r : entropy) : outcome unit * t * entropy :=
  match l with
  | [] => (Return tt, db, r)
  | x :: l' =>
      match save x db r with
      | (Return _, db1, r1) => for_each save l' db1 r1
      | (Throw m, db1, r1) => (Throw m, db1, r1)
      end
  end.

Record imported := {
  passwordsImported : Z;
  notesImported : Z
}.

Definition count_of {A : Type} (l : option (list A)) : Z :=
  match l with
  | Some l => Z.of_nat (List.length l)
  | None => 0
  end.

Definition importData (data : bundle) (now : timestamp) (db : t) (r : entropy)
  : outcome imported * t * entropy :=
  match for_each (fun p => savePassword p now)
                 (PasswordEncryption.with_default [] (b_passwords data)) db r with
  | (Throw m, db1, r1) => (Throw m, db1, r1)
  | (Return _, db1, r1) =>
      match for_each (fun n => saveSecureNote n now)
                     (PasswordEncryption.with_default [] (b_notes data)) db1 r1 with
      | (Throw m, db2, r2) => (Throw m, db2, r2)
      | (Return _, db2, r2) =>
          (Return {| passwordsImported := count_of (b_passwords data);
                     notesImported := count_of (b_notes data) |}, db2, r2)
      end
  end.

Definition clearAllData (db : t) : t :=
  {| foreign_keys := foreign_keys db; password_settings := []; passwords := [];
     password_history := []; history_sequence := history_sequence db;
     secure_notes := [] |}.

End PasswordDatabase.

(* ================================================================== *)
(** * The orchestrator: class PasswordManager *)
(* ================================================================== *)

Module PasswordManager.

Import PasswordEncryption.

(** A note with its decrypted [content]: [{ ...note, content }]. *)
Record decryptedNote := {
  note : Notes.row;
  content : jsstring
}.

(** The properties a reply carries besides [success] and [error]. *)
Inductive payload :=
| Nothing
| Message (message : jsstring)
| Strength (strength : strength_report)
| Saved (id message : jsstring)
| PasswordList (passwords : list decryptedEntry)
| Password (password : decryptedEntry)
| Generated (password : jsstring) (strength : strength_report)
| NoteList (notes : list decryptedNote)
| Statistics (statistics : PasswordDatabase.statistics)
| Duplicates (duplicates : list (list decryptedEntry))
| Tags (tags : list jsstring)
| Exported (data : PasswordDatabase.exported)
| Imported (counts : PasswordDatabase.imported).

Record reply := {
  success : bool;
  error : option jsstring;
  body : payload
}.

Definition ok (p : payload) : reply :=
  {| success := true; error := None; body := p |}.

Definition failed (message : jsstring) : reply :=
  {| success := false; error := Some message; body := Nothing |}.

(** The error vocabulary of the interface, as the messages the code
    returns. *)
Definition VaultLocked : reply := failed (js "Password manager is locked").
Definition AuthenticationFailure : reply := failed (js "Incorrect master password").
Definition NotFound : reply := failed (js "Password not found").
Definition WeakPassword (s : strength_report) : reply :=
  {| success := false;
     error := Some (js "Password is too weak. Please use a stronger password.");
     body := Strength s |}.

(** The manager, the random source its calls draw from and the lines written
    with [console.error].  [autoLockTimer] is the time (in milliseconds) at
    which the pending timeout fires.  The database is open: [initialize()]
    has run. *)
Record t := {
  encryption : PasswordEncryption.t;
  database : PasswordDatabase.t;
  isLocked : bool;
  autoLockTimer : option Z;
  random : entropy;
  console : list (jsstring * jsstring)
}.

Definition autoLockDelay : Z := 15 * 60 * 1000.

(** [new PasswordManager().initialize()] on a database file. *)
Definition create (db : PasswordDatabase.t) (r : entropy) : t :=
  {| encryption := PasswordEncryption.create; database := db; isLocked := true;
     autoLockTimer := None; random := r; console := [] |}.

Definition with_encryption (e : PasswordEncryption.t) (m : t) : t :=
  {| encryption := e; database := database m; isLocked := isLocked m;
     autoLockTimer := autoLockTimer m; random := random m; console := console m |}.

Definition with_database (db : PasswordDatabase.t) (m : t) : t :=
  {| encryption := encryption m; database := db; isLocked := isLocked m;
     autoLockTimer := autoLockTimer m; random := random m; console := console m |}.

Definition with_isLocked (b : bool) (m : t) : t :=
  {| encryption := encryption m; database := database m; isLocked := b;
     autoLockTimer := autoLockTimer m; random := random m; console := console m |}.

Definition with_timer (x : option Z) (m : t) : t :=
  {| encryption := encryption m; database := database m; isLocked := isLocked m;
     autoLockTimer := x; random := random m; console := console m |}.

Definition with_random (r : entropy) (m : t) : t :=
  {| encryption := encryption m; database := database m; isLocked := isLocked m;
     autoLockTimer := autoLockTimer m; random := r; console := console m |}.

(** [console.error(label, detail)] *)
Definition console_error (label detail : jsstring) (m : t) : t :=
  {| encryption := encryption m; database := database m; isLocked := isLocked m;
     autoLockTimer := autoLockTimer m; random := random m;
     console := console m ++ [(label, detail)] |}.

(** The [catch] block every operation ends with. *)
Definition caught (label message : jsstring) (m : t) : reply * t :=
  (failed message, console_error label message m).

Definition clearAutoLockTimer (m : t) : t := with_timer None m.

Definition resetAutoLockTimer (now : timestamp) (m : t) : t :=
  with_timer (Some (now * 1000 + autoLockDelay)) m.

Definition hasMasterPassword (m : t) : bool :=
  PasswordDatabase.hasMasterPassword (database m).

Section WithCrypto.
Context {crypto : NodeCrypto}.

Definition setupMasterPassword (masterPassword : jsstring) (now : timestamp) (m : t)
  : reply * t :=
  let strength := checkPasswordStrength masterPassword in
  if score strength <? 3 then (WeakPassword strength, m)
  else
    match initialize masterPassword (encryption m) (random m) with
    | (Return settings, e1, r1) =>
        let db1 := PasswordDatabase.saveMasterPasswordSettings
                     (ms_salt settings) (ms_verificationHash settings)
                     (ms_iterations settings) now (database m) in
        (ok (Message (js "Master password set successfully")),
         resetAutoLockTimer now
           (with_isLocked false
              (with_database db1 (with_random r1 (with_encryption e1 m)))))
    | (Throw message, e1, r1) =>
        caught (js "[PasswordManager] Setup error:") message
               (with_random r1 (with_encryption e1 m))
    end.

Definition unlock (masterPassword : jsstring) (now : timestamp) (m : t) : reply * t :=
  match PasswordDatabase.getMasterPasswordSettings (database m) with
  | None => (failed (js "No master password set"), m)
  | Some settings =>
      let (isValid, e1) :=
        verifyMasterPassword masterPassword (Settings.salt settings)
                             (Settings.verification_hash settings) (encryption m) in
      if isValid then
        (ok (Message (js "Password manager unlocked")),
         resetAutoLockTimer now
           (with_database (PasswordDatabase.updateLastAccessed now (database m))
              (with_isLocked false (with_encryption e1 m))))
      else (AuthenticationFailure, with_encryption e1 m)
  end.

End WithCrypto.

Definition lock (m : t) : reply * t :=
  let (e1, r1) := PasswordEncryption.lock (encryption m) (random m) in
  (ok (Message (js "Password manager locked")),
   clearAutoLockTimer (with_isLocked true (with_random r1 (with_encryption e1 m)))).

(** The callback [resetAutoLockTimer] schedules. *)
Definition autoLock (m : t) : t := snd (lock m).

(** [destroy()]; closing the database leaves the file as it is. *)
Definition destroy (m : t) : t :=
  let m := clearAutoLockTimer m in
  let (e1, r1) := PasswordEncryption.lock (encryption m) (random m) in
  with_random r1 (with_encryption e1 m).

Section WithCrypto.
Context {crypto : NodeCrypto}.

Definition addPassword (passwordData : passwordEntry) (now : timestamp) (m : t)
  : reply * t :=
  if isLocked m then (VaultLocked, m)
  else
    let m := resetAutoLockTimer now m in
    let label := js "[PasswordManager] Add password error:" in
    let (id, r0) :=
      if truthy (pe_id passwordData)
      then (or_else (pe_id passwordData) [], random m)
      else uuidv4 (random m) in
    let passwordData :=
      {| pe_id := Some id; pe_domain := pe_domain passwordData;
         pe_username := pe_username passwordData;
         pe_password := pe_password passwordData;
         pe_notes := pe_notes passwordData;
         pe_favicon := pe_favicon passwordData;
         pe_tags := pe_tags passwordData |} in
    match encryptPasswordEntry passwordData (encryption m) r0 with
    | (Throw message, r1) => caught label message (with_random r1 m)
    | (Return encrypted, r1) =>
        match PasswordDatabase.savePassword encrypted now (database m) r1 with
        | (Throw message, db1, r2) =>
            caught label message (with_database db1 (with_random r2 m))
        | (Return id, db1, r2) =>
            (ok (Saved id (js "Password saved successfully")),
             with_database db1 (with_random r2 m))
        end
    end.

(** [rows.map(entry => { try { decrypt } catch { return null } })
        .filter(entry => entry !== null)];
    [flag] is what the [catch] does with the entry before returning null. *)
Fixpoint decrypt_each (flag : Passwords.row -> t -> t) (rows : list Passwords.row)
         (m : t) : list decryptedEntry * t :=
  match rows with
  | [] => ([], m)
  | entry :: rest =>
      match decryptPasswordEntry entry (encryption m) with
      | Return d =>
          let (ds, m') := decrypt_each flag rest m in (d :: ds, m')
      | Throw _ => decrypt_each flag rest (flag entry m)
      end
  end.

Definition log_failed_entry (entry : Passwords.row) (m : t) : t :=
  console_error (js "Failed to decrypt entry:") (Passwords.id entry) m.

Definition ignore_entry (entry : Passwords.row) (m : t) : t := m.

Definition getPasswords (domain : option jsstring) (now : timestamp) (m : t)
  : reply * t :=
  if isLocked m then (VaultLocked, m)
  else
    let m := resetAutoLockTimer now m in
    let encrypted := PasswordDatabase.getPasswords domain (database m) in
    let (decrypted, m) := decrypt_each log_failed_entry encrypted m in
    (ok (PasswordList decrypted), m).

Definition getPassword (id : jsstring) (now : timestamp) (m : t) : reply * t :=
  if isLocked m then (VaultLocked, m)
  else
    let m := resetAutoLockTimer now m in
    match PasswordDatabase.getPassword id (database m) with
    | None => (NotFound, m)
    | Some encrypted =>
        match decryptPasswordEntry encrypted (encryption m) with
        | Throw message =>
            caught (js "[PasswordManager] Get password error:") message m
        | Return decrypted =>
            (ok (Password decrypted),
             with_database (PasswordDatabase.updatePasswordUsage id now (database m)) m)
        end
    end.

Definition updatePassword (id : jsstring) (passwordData : passwordEntry)
           (now : timestamp) (m : t) : reply * t :=
  if isLocked m then (VaultLocked, m)
  else
    let m := resetAutoLockTimer now m in
    let label := js "[PasswordManager] Update password error:" in
    match PasswordDatabase.getPassword id (database m) with
    | None => (NotFound, m)
    | Some existing =>
        let history :=
          if truthy (pe_password passwordData)
             && truthy (Some (Passwords.encrypted_password existing))
          then PasswordDatabase.addToPasswordHistory
                 id (Passwords.encrypted_password existing) now (database m)
          else Return (database m) in
        match history with
        | Throw message => caught label message m
        | Return db1 =>
            let m := with_database db1 m in
            let passwordData :=
              {| pe_id := Some id; pe_domain := pe_domain passwordData;
                 pe_username := pe_username passwordData;
                 pe_password := pe_password passwordData;
                 pe_notes := pe_notes passwordData;
                 pe_favicon := pe_favicon passwordData;
                 pe_tags := pe_tags passwordData |} in
            match encryptPasswordEntry passwordData (encryption m) (random m) with
            | (Throw message, r1) => caught label message (with_random r1 m)
            | (Return encrypted, r1) =>
                match PasswordDatabase.savePassword encrypted now (database m) r1 with
                | (Throw message, db2, r2) =>
                    caught label message (with_database db2 (with_random r2 m))
                | (Return _, db2, r2) =>
                    (ok (Message (js "Password updated successfully")),
                     with_database db2 (with_random r2 m))
                end
            end
        end
    end.

Definition deletePassword (id : jsstring) (now : timestamp) (m : t) : reply * t :=
  if isLocked m then (VaultLocked, m)
  else
    let m := resetAutoLockTimer now m in
    match PasswordDatabase.deletePassword id now (database m) with
    | Throw message =>
        caught (js "[PasswordManager] Delete password error:") message m
    | Return db1 =>
        (ok (Message (js "Password deleted successfully")), with_database db1 m)
    end.

Definition searchPasswords (query : jsstring) (now : timestamp) (m : t) : reply * t :=
  if isLocked m then (VaultLocked, m)
  else
    let m := resetAutoLockTimer now m in
    let encrypted := PasswordDatabase.searchPasswords query (database m) in
    let (decrypted, m) := decrypt_each ignore_entry encrypted m in
    (ok (PasswordList decrypted), m).

End WithCrypto.

Definition generatePassword (o : options) (m : t) : reply * t :=
  match PasswordEncryption.generatePassword o (random m) with
  | (Return password, r1) =>
      (ok (Generated password (checkPasswordStrength password)), with_random r1 m)
  | (Throw message, r1) =>
      caught (js "[PasswordManager] Generate password error:") message
             (with_random r1 m)
  end.

Definition checkPasswordStrength (password : jsstring) (m : t) : reply * t :=
  (ok (Strength (PasswordEncryption.checkPasswordStrength password)), m).

Section WithCrypto.
Context {crypto : NodeCrypto}.

Definition addSecureNote (noteData : PasswordDatabase.noteData) (now : timestamp)
           (m : t) : reply * t :=
  if isLocked m then (VaultLocked, m)
  else
    let m := resetAutoLockTimer now m in
    let label := js "[PasswordManager] Add note error:" in
    let (id, r0) :=
      if truthy (PasswordDatabase.nd_id noteData)
      then (or_else (PasswordDatabase.nd_id noteData) [], random m)
      else uuidv4 (random m) in
    match encrypt_value (PasswordDatabase.nd_content noteData) (encryption m) r0 with
    | (Throw message, r1) => caught label message (with_random r1 m)
    | (Return encrypted_content, r1) =>
        let noteData :=
          {| PasswordDatabase.nd_id := Some id;
             PasswordDatabase.nd_title := PasswordDatabase.nd_title noteData;
             PasswordDatabase.nd_content := PasswordDatabase.nd_content noteData;
             PasswordDatabase.nd_encrypted_content := Some encrypted_content |} in
        match PasswordDatabase.saveSecureNote noteData now (database m) r1 with
        | (Throw message, db1, r2) =>
            caught label message (with_database db1 (with_random r2 m))
        | (Return id, db1, r2) =>
            (ok (Saved id (js "Note saved successfully")),
             with_database db1 (with_random r2 m))
        end
    end.

(** [encrypted.map(note => ({ ...note, content: this.encryption.decrypt(...) }))]:
    nothing catches inside the loop, so the first note that fails to decrypt
    ends it. *)
Fixpoint decrypt_notes (notes : list Notes.row) (e : PasswordEncryption.t)
  : outcome (list decryptedNote) :=
  match notes with
  | [] => Return []
  | n :: rest =>
      match decrypt (Notes.encrypted_content n) e with
      | Throw message => Throw message
      | Return c =>
          match decrypt_notes rest e with
          | Throw message => Throw message
          | Return ds => Return ({| note := n; content := c |} :: ds)
          end
      end
  end.

Definition getSecureNotes (now : timestamp) (m : t) : reply * t :=
  if isLocked m then (VaultLocked, m)
  else
    let m := resetAutoLockTimer now m in
    match decrypt_notes (PasswordDatabase.getSecureNotes (database m)) (encryption m) with
    | Return decrypted => (ok (NoteList decrypted), m)
    | Throw message => caught (js "[PasswordManager] Get notes error:") message m
    end.

End WithCrypto.

Definition deleteSecureNote (id : jsstring) (now : timestamp) (m : t) : reply * t :=
  if isLocked m then (VaultLocked, m)
  else
    let m := resetAutoLockTimer now m in
    (ok (Message (js "Note deleted successfully")),
     with_database (PasswordDatabase.deleteSecureNote id (database m)) m).

Definition getStatistics (now : timestamp) (m : t) : reply * t :=
  if isLocked m then (VaultLocked, m)
  else
    let m := resetAutoLockTimer now m in
    (ok (Statistics (PasswordDatabase.getStatistics now (database m))), m).

Section WithCrypto.
Context {crypto : NodeCrypto}.

Definition findDuplicatePasswords (now : timestamp) (m : t) : reply * t :=
  if isLocked m then (VaultLocked, m)
  else
    let m := resetAutoLockTimer now m in
    let duplicates := PasswordDatabase.findDuplicatePasswords (database m) in
    (ok (Duplicates (map (fun group => fst (decrypt_each ignore_entry group m))
                         duplicates)), m).

End WithCrypto.

Definition getAllTags (now : timestamp) (m : t) : reply * t :=
  if isLocked m then (VaultLocked, m)
  else
    let m := resetAutoLockTimer now m in
    (ok (Tags (PasswordDatabase.getAllTags (database m))), m).

Definition exportData (now : timestamp) (m : t) : reply * t :=
  if isLocked m then (VaultLocked, m)
  else
    let m := resetAutoLockTimer now m in
    (ok (Exported (PasswordDatabase.exportData now (database m))), m).

Definition importData (data : PasswordDatabase.bundle) (now : timestamp) (m : t)
  : reply * t :=
  if isLocked m then (VaultLocked, m)
  else
    let m := resetAutoLockTimer now m in
    match PasswordDatabase.importData data now (database m) (random m) with
    | (Return counts, db1, r1) =>
        (ok (Imported counts), with_database db1 (with_random r1 m))
    | (Throw message, db1, r1) =>
        caught (js "[PasswordManager] Import error:") message
               (with_database db1 (with_random r1 m))
    end.

(** ** The IPC surface: [initializeIPCHandlers] *)

Inductive request :=
| pm_has_master_password
| pm_setup_master_password (masterPassword : jsstring)
| pm_unlock (masterPassword : jsstring)
| pm_lock
| pm_is_locked
| pm_add_password (passwordData : passwordEntry)
| pm_get_passwords (domain : option jsstring)
| pm_get_password (id : jsstring)
| pm_update_password (id : jsstring) (passwordData : passwordEntry)
| pm_delete_password (id : jsstring)
| pm_search_passwords (query : jsstring)
| pm_generate_password (o : options)
| pm_check_strength (password : jsstring)
| pm_add_note (noteData : PasswordDatabase.noteData)
| pm_get_notes
| pm_delete_note (id : jsstring)
| pm_get_statistics
| pm_export_data
| pm_import_data (data : PasswordDatabase.bundle)
| pm_find_duplicates
| pm_get_tags.

Inductive response :=
| Flag (b : bool)
| Reply (r : reply).

Definition replying (x : reply * t) : response * t := (Reply (fst x), snd x).

Section WithCrypto.
Context {crypto : NodeCrypto}.

Definition handle (q : request) (now : timestamp) (m : t) : response * t :=
  match q with
  | pm_has_master_password => (Flag (hasMasterPassword m), m)
  | pm_setup_master_password masterPassword =>
      replying (setupMasterPassword masterPassword now m)
  | pm_unlock masterPassword => replying (unlock masterPassword now m)
  | pm_lock => replying (lock m)
  | pm_is_locked => (Flag (isLocked m), m)
  | pm_add_password passwordData => replying (addPassword passwordData now m)
  | pm_get_passwords domain => replying (getPasswords domain now m)
  | pm_get_password id => replying (getPassword id now m)
  | pm_update_password id passwordData =>
      replying (updatePassword id passwordData now m)
  | pm_delete_password id => replying (deletePassword id now m)
  | pm_search_passwords query => replying (searchPasswords query now m)
  | pm_generate_password o => replying (generatePassword o m)
  | pm_check_strength password => replying (checkPasswordStrength password m)
  | pm_add_note noteData => replying (addSecureNote noteData now m)
  | pm_get_notes => replying (getSecureNotes now m)
  | pm_delete_note id => replying (deleteSecureNote id now m)
  | pm_get_statistics => replying (getStatistics now m)
  | pm_export_data => replying (exportData now m)
  | pm_import_data data => replying (importData data now m)
  | pm_find_duplicates => replying (findDuplicatePasswords now m)
  | pm_get_tags => replying (getAllTags now m)
  end.

(** What can happen to a manager: a request arrives at some time, the
    auto-lock timer fires, or the application quits ([destroy()]) and a new
    manager is created on the same database file. *)
Inductive event :=
| Request (q : request) (now : timestamp)
| TimerFired
| Relaunched.

Definition apply_event (m : t) (ev : event) : t :=
  match ev with
  | Request q now => snd (handle q now m)
  | TimerFired =>
      match autoLockTimer m with
      | Some _ => autoLock m
      | None => m
      end
  | Relaunched => create (database m) (random (destroy m))
  end.

(** The manager after a run of events, starting from a new manager on an
    empty database. *)
Definition run (fk : bool) (r : entropy) (events : list event) : t :=
  fold_left apply_event events (create (PasswordDatabase.empty fk) r).

End WithCrypto.

End PasswordManager.

(* ================================================================== *)
(** * Vocabulary of the specification *)
(* ================================================================== *)

Module Spec.

Import PasswordManager.

(** The operations that read or change the encrypted store: credentials,
    notes, statistics, export and import. *)
Definition store_operation (q : request) : bool :=
  match q with
  | pm_add_password _ | pm_get_passwords _ | pm_get_password _
  | pm_update_password _ _ | pm_delete_password _ | pm_search_passwords _
  | pm_add_note _ | pm_get_notes | pm_delete_note _
  | pm_get_statistics | pm_export_data | pm_import_data _
  | pm_find_duplicates | pm_get_tags => true
  | _ => false
  end.

(** The row after [recordUsage]: one more use, last used now, every other
    column as before. *)
Definition used (now : timestamp) (p : Passwords.row) : Passwords.row :=
  {| Passwords.id := Passwords.id p;
     Passwords.domain := Passwords.domain p;
     Passwords.username := Passwords.username p;
     Passwords.encrypted_password := Passwords.encrypted_password p;
     Passwords.encrypted_notes := Passwords.encrypted_notes p;
     Passwords.favicon := Passwords.favicon p;
     Passwords.created_at := Passwords.created_at p;
     Passwords.modified_at := Passwords.modified_at p;
     Passwords.last_used := Some now;
     Passwords.use_count := Passwords.use_count p + 1;
     Passwords.tags := Passwords.tags p |}.

(** ** The session *)

(** The key [masterKey] points at has the size AES-256 takes. *)
Definition key_well_formed (e : PasswordEncryption.t) : Prop :=
  forall l, PasswordEncryption.masterKey e = Some l ->
            List.length (PasswordEncryption.read l e) = 32%nat.

(** An Unlocked manager holds a key, and the key it holds is well formed. *)
Definition session_invariant (m : t) : Prop :=
  key_well_formed (encryption m)
  /\ (isLocked m = false -> PasswordEncryption.masterKey (encryption m) <> None).

(** ** Credential history *)

(** The history rows of one credential, in table order. *)
Definition history_of (passwordId : jsstring) (db : PasswordDatabase.t)
  : list History.row :=
  filter (PasswordDatabase.refers_to passwordId) (PasswordDatabase.password_history db).

(** The last [n] elements of a list. *)
Definition lastn {A : Type} (n : nat) (l : list A) : list A :=
  skipn (List.length l - n) l.

(** History ids are the ones AUTOINCREMENT handed out: distinct and not above
    the counter. *)
Definition history_ids_fresh (db : PasswordDatabase.t) : Prop :=
  NoDup (map History.id (PasswordDatabase.password_history db))
  /\ Forall (fun h => History.id h <= PasswordDatabase.history_sequence db)
            (PasswordDatabase.password_history db).

(** No credential has more than five history rows. *)
Definition history_bounded (db : PasswordDatabase.t) : Prop :=
  forall passwordId, (List.length (history_of passwordId db) <= 5)%nat.

Definition history_invariant (db : PasswordDatabase.t) : Prop :=
  history_ids_fresh db /\ history_bounded db.

(** Membership of a row's id in a list of ids. *)
Definition kept (keep : list Z) (h : History.row) : bool :=
  existsb (Z.eqb (History.id h)) keep.

(** Rows appear in the order of strictly increasing change time. *)
Definition increasing (rows : list History.row) : Prop :=
  StronglySorted (fun a b => History.changed_at a < History.changed_at b) rows.

(** What a history row records: the replaced ciphertext and when. *)
Definition record_of (h : History.row) : jsstring * timestamp :=
  (History.encrypted_old_password h, History.changed_at h).

(** The row [addToPasswordHistory] inserts. *)
Definition pushed_row (passwordId encryptedPassword : jsstring) (now : timestamp)
           (db : PasswordDatabase.t) : History.row :=
  {| History.id := PasswordDatabase.history_sequence db + 1;
     History.password_id := passwordId;
     History.encrypted_old_password := encryptedPassword;
     History.changed_at := now |}.

(** The stored ciphertext of a credential's password. *)
Definition current_ciphertext (id : jsstring) (m : t) : jsstring :=
  match PasswordDatabase.getPassword id (database m) with
  | Some p => Passwords.encrypted_password p
  | None => []
  end.

(** A change of password the code accepts: a password and a domain are
    given. *)
Definition complete_change (change : PasswordEncryption.passwordEntry * timestamp)
  : Prop :=
  truthy (PasswordEncryption.pe_password (fst change)) = true
  /\ PasswordEncryption.pe_domain (fst change) <> None.

Section WithCrypto.
Context {crypto : NodeCrypto}.

(** One credential updated again and again. *)
Fixpoint update_repeatedly (id : jsstring)
         (changes : list (PasswordEncryption.passwordEntry * timestamp)) (m : t) : t :=
  match changes with
  | [] => m
  | (passwordData, now) :: rest =>
      update_repeatedly id rest (snd (updatePassword id passwordData now m))
  end.

(** The ciphertexts those updates replace, oldest first. *)
Fixpoint replaced (id : jsstring)
         (changes : list (PasswordEncryption.passwordEntry * timestamp)) (m : t)
  : list jsstring :=
  match changes with
  | [] => []
  | (passwordData, now) :: rest =>
      current_ciphertext id m
        :: replaced id rest (snd (updatePassword id passwordData now m))
  end.

(** Every one of those updates is answered with a success. *)
Fixpoint updates_succeed (id : jsstring)
         (changes : list (PasswordEncryption.passwordEntry * timestamp)) (m : t) : bool :=
  match changes with
  | [] => true
  | (passwordData, now) :: rest =>
      success (fst (updatePassword id passwordData now m))
      && updates_succeed id rest (snd (updatePassword id passwordData now m))
  end.

(** The vault is ready for an update of credential [id] at a time later than
    every change recorded for it. *)
Definition ready_for_update (id : jsstring) (now : timestamp) (m : t) : Prop :=
  PasswordDatabase.foreign_keys (database m) = false
  /\ isLocked m = false
  /\ PasswordEncryption.masterKey (encryption m) <> None
  /\ current_ciphertext id m <> []
  /\ history_invariant (database m)
  /\ increasing (history_of id (database m))
  /\ Forall (fun h => History.changed_at h < now) (history_of id (database m)).

(** "The history write is part of the same atomic write as the update": an
    update that fails leaves the history as it was. *)
Definition update_is_atomic : Prop :=
  forall (m : t) (id : jsstring) (passwordData : PasswordEncryption.passwordEntry)
         (now : timestamp),
    success (fst (updatePassword id passwordData now m)) = false ->
    PasswordDatabase.password_history (database (snd (updatePassword id passwordData now m)))
    = PasswordDatabase.password_history (database m).

(** "For every stored credential id, [getCredential(id)] while Unlocked
    returns the decrypted entry, adds 1 to its use count and sets its last
    use to the current time", on the managers a run of events reaches. *)
Definition reading_records_usage : Prop :=
  forall (fk : bool) (r : entropy) (events : list event) (id : jsstring)
         (now : timestamp) (row : Passwords.row),
    let m := run fk r events in
    isLocked m = false ->
    PasswordDatabase.getPassword id (database m) = Some row ->
    success (fst (getPassword id now m)) = true
    /\ PasswordDatabase.getPassword id (database (snd (getPassword id now m)))
       = Some (used now row).

(** The entries that decrypt, as a list of none or one. *)
Definition decryptable (e : PasswordEncryption.t) (row : Passwords.row)
  : list PasswordEncryption.decryptedEntry :=
  match PasswordEncryption.decryptPasswordEntry row e with
  | Return d => [d]
  | Throw _ => []
  end.

End WithCrypto.

(** ** Password strength, in the words of the specification *)

Definition indicator (b : bool) : Z := if b then 1 else 0.

Definition clamp (lo hi x : Z) : Z := Z.max lo (Z.min x hi).

Definition symbol (c : Z) : bool := negb (PasswordEncryption.is_alnum c).

(** +1 at each of the lengths 8, 12 and 16. *)
Definition length_points (password : jsstring) : Z :=
  let n := Z.of_nat (List.length password) in
  indicator (8 <=? n) + indicator (12 <=? n) + indicator (16 <=? n).

(** +1 for each character class that is present. *)
Definition class_points (password : jsstring) : Z :=
  indicator (existsb PasswordEncryption.is_lower password)
  + indicator (existsb PasswordEncryption.is_upper password)
  + indicator (existsb PasswordEncryption.is_digit password)
  + indicator (existsb symbol password).

(** Position [i] starts three equal characters. *)
Definition run_of_three_at (password : jsstring) (i : nat) (c : Z) : Prop :=
  nth_error password i = Some c
  /\ nth_error password (S i) = Some c
  /\ nth_error password (S (S i)) = Some c.

(** The password is one or more characters, all of the class. *)
Definition consists_of (class : Z -> bool) (password : jsstring) : Prop :=
  password <> [] /\ Forall (fun c => class c = true) password.

(** -1 for an all-digit password, an all-alphabetic password, a run of three
    or more repeated characters. *)
Definition penalty_points (password : jsstring) : Z :=
  indicator (PasswordEncryption.has_repeat password)
  + indicator (PasswordEncryption.all_of PasswordEncryption.is_digit password)
  + indicator (PasswordEncryption.all_of PasswordEncryption.is_alpha password).

Definition points (password : jsstring) : Z :=
  length_points password + class_points password - penalty_points password.

Definition strength_score (password : jsstring) : Z := clamp 0 10 (points password).

(** The labels as the claim gives them. *)
Definition claimed_label (score : Z) : jsstring :=
  if score <? 3 then js "Weak"
  else if score <? 5 then js "Fair"
  else if score <? 7 then js "Strong"
  else js "Very Strong".

(** The labels as the code gives them. *)
Definition label (score : Z) : jsstring :=
  if score <? 2 then js "Very Weak"
  else if score <? 3 then js "Weak"
  else if score <? 5 then js "Fair"
  else if score <? 7 then js "Strong"
  else js "Very Strong".

(** The least score [setupMasterPassword] accepts. *)
Definition minimum_score : Z := 3.

(** ** Password generation, in the words of the specification *)

Import PasswordEncryption.

(** [c] belongs to one of the enabled classes. *)
Definition enabled (o : options) (c : Z) : bool :=
  (with_default true (lowercase o) && member c lowercase_letters)
  || (with_default true (uppercase o) && member c uppercase_letters)
  || (with_default true (numbers o) && member c digits)
  || (with_default true (symbols o) && member c symbol_characters).

(** [c] is removed by an exclusion that was asked for. *)
Definition excluded (o : options) (c : Z) : bool :=
  (with_default false (excludeSimilar o) && member c similar_characters)
  || (with_default false (excludeAmbiguous o) && member c ambiguous_characters).

Definition allowed (o : options) (c : Z) : bool := enabled o c && negb (excluded o c).

Definition some_class_enabled (o : options) : bool :=
  with_default true (lowercase o) || with_default true (uppercase o)
  || with_default true (numbers o) || with_default true (symbols o).

Definition requested_length (o : options) : Z := with_default 16 (length o).

End Spec.

(* ================================================================== *)
(** * The renderer: class PasswordUI *)
(* ================================================================== *)

(** The decisions [passwordUI.js] takes on the values of its forms, without
    the document they are read from and written to. *)
Module PasswordUI.

Import PasswordEncryption.

(** [validateSetupForm()]: the value it gives [submitBtn.disabled]. *)
Definition validateSetupForm (masterPassword confirmPassword : jsstring) : bool :=
  let isValid :=
    (8 <=? Z.of_nat (List.length masterPassword))
    && existsb is_upper masterPassword
    && existsb is_lower masterPassword
    && existsb is_digit masterPassword
    && jsstring_eqb masterPassword confirmPassword in
  negb isValid.

(** What the strength meter shows: the class of the bar and the text beside
    it. *)
Record meter := {
  className : jsstring;
  textContent : jsstring
}.

(** The branches on [strength.score]. *)
Definition strengthMeter (strength : strength_report) : meter :=
  if score strength <? 3 then
    {| className := js "password-strength-bar weak"; textContent := js "Weak" |}
  else if score strength <? 5 then
    {| className := js "password-strength-bar fair"; textContent := js "Fair" |}
  else if score strength <? 7 then
    {| className := js "password-strength-bar strong"; textContent := js "Strong" |}
  else
    {| className := js "password-strength-bar very-strong";
       textContent := js "Very Strong" |}.

(** [checkPasswordStrength(password)]: the meter it leaves, where [shown] is
    the meter before the call and [result] the answer of the main process to
    [checkStrength(password)].  An empty password clears the meter and
    nothing is asked; an answer that is no success leaves the meter as it
    was.  A success carries a strength.  (The five requirement lines the
    function also rewrites are not part of the meter.) *)
Definition checkPasswordStrength (password : jsstring) (result : PasswordManager.reply)
           (shown : meter) : meter :=
  if negb (truthy (Some password)) then
    {| className := js "password-strength-bar"; textContent := [] |}
  else if PasswordManager.success result then
    match PasswordManager.body result with
    | PasswordManager.Strength strength => strengthMeter strength
    | _ => shown
    end
  else shown.

End PasswordUI.

(* ================================================================== *)
(** * Vocabulary for the behaviour of the store *)
(* ================================================================== *)

Module Behaviour.

Import PasswordManager.

(** [text] contains [query], ASCII letters compared without regard to
    case. *)
Definition contains (query text : jsstring) : Prop :=
  exists before found after,
    text = before ++ found ++ after
    /\ map PasswordDatabase.fold_case found = map PasswordDatabase.fold_case query.

(** A character [JSON.stringify] copies as it is. *)
Definition plain (c : Z) : bool :=
  (0x20 <=? c) && negb (c =? 0x22) && negb (c =? 0x5C)
  && negb (is_high_surrogate c) && negb (is_low_surrogate c).

(** What unlocks the vault: the salt and the verification ciphertext of each
    settings row. *)
Definition credentials (db : PasswordDatabase.t) : list (jsstring * jsstring) :=
  map (fun s => (Settings.salt s, Settings.verification_hash s))
      (PasswordDatabase.password_settings db).

(** The event is a request to set up a master password. *)
Definition is_setup (ev : event) : bool :=
  match ev with
  | Request (pm_setup_master_password _) _ => true
  | _ => false
  end.

(** A timer is pending exactly while the manager is Unlocked. *)
Definition timer_invariant (m : t) : Prop :=
  isLocked m = true <-> autoLockTimer m = None.

(** The requests that are answered without looking at the lock or the
    store. *)
Definition stateless (q : request) : bool :=
  match q with
  | pm_generate_password _ | pm_check_strength _ => true
  | _ => false
  end.

(** Ids are primary keys: no two rows of a table share one, and none is the
    empty string. *)
Definition ids_invariant (db : PasswordDatabase.t) : Prop :=
  NoDup (map Passwords.id (PasswordDatabase.passwords db))
  /\ Forall (fun p => Passwords.id p <> []) (PasswordDatabase.passwords db)
  /\ NoDup (map Notes.id (PasswordDatabase.secure_notes db))
  /\ Forall (fun n => Notes.id n <> []) (PasswordDatabase.secure_notes db).

(** ** A backup handed back to [importData] *)

(** A row of [passwords] as [exportData] returns it, read by [savePassword]:
    the [tags] property is the text of the column. *)
Definition entry_of_row (p : Passwords.row) : PasswordEncryption.encryptedEntry :=
  {| PasswordEncryption.ee_id := Some (Passwords.id p);
     PasswordEncryption.ee_domain := Some (Passwords.domain p);
     PasswordEncryption.ee_username := Some (Passwords.username p);
     PasswordEncryption.ee_encrypted_password := Some (Passwords.encrypted_password p);
     PasswordEncryption.ee_encrypted_notes := Passwords.encrypted_notes p;
     PasswordEncryption.ee_favicon := Passwords.favicon p;
     PasswordEncryption.ee_tags :=
       Some (PasswordEncryption.TagsText (JSON.stringify (Passwords.tags p))) |}.

(** A row of [secure_notes], read by [saveSecureNote]. *)
Definition note_of_row (n : Notes.row) : PasswordDatabase.noteData :=
  {| PasswordDatabase.nd_id := Some (Notes.id n);
     PasswordDatabase.nd_title := Some (Notes.title n);
     PasswordDatabase.nd_content := None;
     PasswordDatabase.nd_encrypted_content := Some (Notes.encrypted_content n) |}.

(** The object [exportData] returned, passed to [importData]. *)
Definition backup (x : PasswordDatabase.exported) : PasswordDatabase.bundle :=
  {| PasswordDatabase.b_passwords :=
       Some (map entry_of_row (PasswordDatabase.ex_passwords x));
     PasswordDatabase.b_notes := Some (map note_of_row (PasswordDatabase.ex_notes x)) |}.

(** What an exported entry is after the import at [now]. *)
Definition restored (now : timestamp) (p : Passwords.row) : Passwords.row :=
  {| Passwords.id := Passwords.id p;
     Passwords.domain := Passwords.domain p;
     Passwords.username := Passwords.username p;
     Passwords.encrypted_password := Passwords.encrypted_password p;
     Passwords.encrypted_notes := or_null (Passwords.encrypted_notes p);
     Passwords.favicon := or_null (Passwords.favicon p);
     Passwords.created_at := now;
     Passwords.modified_at := now;
     Passwords.last_used := None;
     Passwords.use_count := 0;
     Passwords.tags := JsonString (JSON.stringify (Passwords.tags p)) |}.

Definition restored_note (now : timestamp) (n : Notes.row) : Notes.row :=
  {| Notes.id := Notes.id n;
     Notes.title := Notes.title n;
     Notes.encrypted_content := Notes.encrypted_content n;
     Notes.created_at := now;
     Notes.modified_at := now |}.

(** An entry [savePassword] can store: a domain and a ciphertext are
    there. *)
Definition complete (p : PasswordEncryption.encryptedEntry) : bool :=
  match PasswordEncryption.ee_domain p, PasswordEncryption.ee_encrypted_password p with
  | Some _, Some _ => true
  | _, _ => false
  end.

(** The constraint an entry that is not complete runs into. *)
Definition refusal (p : PasswordEncryption.encryptedEntry) : jsstring :=
  match PasswordEncryption.ee_domain p with
  | None => PasswordDatabase.not_null_failed "passwords" "domain"
  | Some _ => PasswordDatabase.not_null_failed "passwords" "encrypted_password"
  end.

(** ** Duplicates, listings and history *)

(** The rows of [rows] whose stored password ciphertext is [k], in the order
    of [rows]. *)
Definition carrying (k : jsstring) (rows : list Passwords.row) : list Passwords.row :=
  filter (fun p => jsstring_eqb k (Passwords.encrypted_password p)) rows.

(** [a] may come before [b] in a listing by last use: an entry that was used
    never comes after one that was not, a later use never after an earlier
    one, and of two entries used at the same time or never, the one modified
    earlier never comes first. *)
Definition used_not_after (a b : Passwords.row) : Prop :=
  (forall t, Passwords.last_used b = Some t ->
             exists s, Passwords.last_used a = Some s /\ t <= s)
  /\ (Passwords.last_used a = Passwords.last_used b ->
      Passwords.modified_at b <= Passwords.modified_at a).

(** Every row of the history belongs to a stored entry. *)
Definition no_orphans (db : PasswordDatabase.t) : Prop :=
  forall h, In h (PasswordDatabase.password_history db) ->
            PasswordDatabase.getPassword (History.password_id h) db <> None.

(** The database enforces foreign keys or not as [fk] says and, when it
    does, has no orphans. *)
Definition referential (fk : bool) (db : PasswordDatabase.t) : Prop :=
  PasswordDatabase.foreign_keys db = fk /\ (fk = true -> no_orphans db).

(** ** Text as the database holds it *)

(** The driver hands a string to SQLite as UTF-8, where an unpaired
    surrogate is written as U+FFFD, and SQLite compares the text it holds.
    On strings that are [well_formed] (no unpaired surrogate) this is the
    comparison of code units the model makes.  LIKE, besides, reads its
    operands up to the first U+0000 and steps through them by code points: on
    strings of [simple] units, without U+0000 and without surrogates, a code
    point is a unit. *)
Definition simple (c : Z) : bool :=
  negb (c =? 0) && negb (is_high_surrogate c) && negb (is_low_surrogate c).

(** SQLite refuses a LIKE pattern of more than 50000 bytes.  A pattern
    [`%${x}%`] with [x] of [simple] units stays below that when [x] has at
    most this many units (three bytes for a unit at most). *)
Definition longest_query : Z := 16000.

(** A field that is absent or well formed. *)
Definition well_formed_field (x : option jsstring) : Prop :=
  forall s, x = Some s -> well_formed s = true.

End Behaviour.

(* ================================================================== *)
(** * A small instance of the platform, to run the model *)
(* ================================================================== *)

Module Toy.

Definition zeros (n : nat) : bytes := repeat x00 n.

Definition pbkdf2 (password : jsstring) (salt : bytes) (iterations : Z) (keylen : nat)
  : bytes :=
  firstn keylen (utf8_encode password ++ salt ++ zeros keylen).

Definition tag_of (key : bytes) : bytes := firstn 16 (key ++ zeros 16).

Definition bytes_eqb (a b : bytes) : bool :=
  if list_eq_dec Byte.byte_eq_dec a b then true else false.

Definition seal (key iv plaintext : bytes) : bytes * bytes :=
  (plaintext, tag_of key).

Definition open (key iv tag ciphertext : bytes) : option bytes :=
  if bytes_eqb tag (tag_of key) then Some ciphertext else None.

(** A random source that counts upwards. *)
Definition counter : entropy := {| draws := fun i => Z.of_nat i; cursor := 0 |}.

End Toy.

(** The toy platform satisfies the contract. *)

Lemma toy_pbkdf2_length password salt iterations keylen :
  List.length (Toy.pbkdf2 password salt iterations keylen) = keylen.
Proof.
  unfold Toy.pbkdf2, Toy.zeros. rewrite length_firstn, !length_app, repeat_length. lia.
Qed.

Lemma toy_tag_length key : List.length (Toy.tag_of key) = 16%nat.
Proof.
  unfold Toy.tag_of, Toy.zeros. rewrite length_firstn, length_app, repeat_length. lia.
Qed.

Lemma toy_bytes_eqb_refl a : Toy.bytes_eqb a a = true.
Proof.
  unfold Toy.bytes_eqb. destruct (list_eq_dec Byte.byte_eq_dec a a); congruence.
Qed.

Lemma toy_seal_tag_length (key iv plaintext : bytes) :
  List.length key = 32%nat -> List.length iv = 16%nat ->
  List.length (snd (Toy.seal key iv plaintext)) = 16%nat.
Proof. intros _ _. apply toy_tag_length. Qed.

Lemma toy_open_seal (key iv plaintext : bytes) :
  List.length key = 32%nat -> List.length iv = 16%nat ->
  Toy.open key iv (snd (Toy.seal key iv plaintext)) (fst (Toy.seal key iv plaintext))
  = Some plaintext.
Proof.
  intros _ _. unfold Toy.open, Toy.seal. cbn [fst snd].
  rewrite toy_bytes_eqb_refl. reflexivity.
Qed.

#[export] Instance toy_crypto : NodeCrypto := {|
  pbkdf2Sync := Toy.pbkdf2;
  gcm_seal := Toy.seal;
  gcm_open := Toy.open;
  pbkdf2Sync_length := toy_pbkdf2_length;
  gcm_tag_length := toy_seal_tag_length;
  gcm_open_seal := toy_open_seal
|}.

(** Concrete vaults on the toy platform. *)
Module Scenario.

Import PasswordManager.

Definition example_entry : PasswordEncryption.passwordEntry :=
  {| PasswordEncryption.pe_id := None;
     PasswordEncryption.pe_domain := Some (js "example.com");
     PasswordEncryption.pe_username := Some (js "a@b.com");
     PasswordEncryption.pe_password := Some (js "hunter2");
     PasswordEncryption.pe_notes := None;
     PasswordEncryption.pe_favicon := None;
     PasswordEncryption.pe_tags := None |}.

(** Set up with a master password and one credential stored. *)
Definition unlocked_vault (fk : bool) : t :=
  run fk Toy.counter
      [Request (pm_setup_master_password (js "Tr0ub4dor&3")) 100;
       Request (pm_add_password example_entry) 101].

(** The same vault after [lock()]. *)
Definition locked_vault (fk : bool) : t :=
  apply_event (unlocked_vault fk) (Request pm_lock 102).

(** A change of password for the stored credential. *)
Definition new_password (password : string) : PasswordEncryption.passwordEntry :=
  {| PasswordEncryption.pe_id := None;
     PasswordEncryption.pe_domain := Some (js "example.com");
     PasswordEncryption.pe_username := Some (js "a@b.com");
     PasswordEncryption.pe_password := Some (js password);
     PasswordEncryption.pe_notes := None;
     PasswordEncryption.pe_favicon := None;
     PasswordEncryption.pe_tags := None |}.

(** A change that names the new password and nothing else. *)
Definition password_only (password : string) : PasswordEncryption.passwordEntry :=
  {| PasswordEncryption.pe_id := None;
     PasswordEncryption.pe_domain := None;
     PasswordEncryption.pe_username := None;
     PasswordEncryption.pe_password := Some (js password);
     PasswordEncryption.pe_notes := None;
     PasswordEncryption.pe_favicon := None;
     PasswordEncryption.pe_tags := None |}.

(** The id [uuidv4] gave the stored credential. *)
Definition example_id : jsstring := js "30313233-3435-4637-b839-3a3b3c3d3e3f".

(** Ten changes of password, one per minute. *)
Definition ten_changes : list (PasswordEncryption.passwordEntry * timestamp) :=
  [(new_password "p1", 160); (new_password "p2", 220); (new_password "p3", 280);
   (new_password "p4", 340); (new_password "p5", 400); (new_password "p6", 460);
   (new_password "p7", 520); (new_password "p8", 580); (new_password "p9", 640);
   (new_password "p10", 700)].

(** The vault after the first five of those changes: the credential has five
    history rows. *)
Definition vault_with_full_history : t :=
  Spec.update_repeatedly example_id (firstn 5 ten_changes) (unlocked_vault false).

(** Two notes stored, then a third imported whose content is not a blob of
    this vault. *)
Definition vault_with_bad_note : t :=
  fold_left apply_event
    [Request (pm_add_note {| PasswordDatabase.nd_id := None;
                             PasswordDatabase.nd_title := Some (js "first");
                             PasswordDatabase.nd_content := Some (js "one");
                             PasswordDatabase.nd_encrypted_content := None |}) 110;
     Request (pm_add_note {| PasswordDatabase.nd_id := None;
                             PasswordDatabase.nd_title := Some (js "second");
                             PasswordDatabase.nd_content := Some (js "two");
                             PasswordDatabase.nd_encrypted_content := None |}) 111;
     Request (pm_import_data
                {| PasswordDatabase.b_passwords := None;
                   PasswordDatabase.b_notes :=
                     Some [{| PasswordDatabase.nd_id := Some (js "n3");
                              PasswordDatabase.nd_title := Some (js "third");
                              PasswordDatabase.nd_content := None;
                              PasswordDatabase.nd_encrypted_content :=
                                Some (js "AAAA") |}] |}) 112]
    (unlocked_vault false).

Definition blank_row : Passwords.row :=
  {| Passwords.id := []; Passwords.domain := []; Passwords.username := [];
     Passwords.encrypted_password := []; Passwords.encrypted_notes := None;
     Passwords.favicon := None; Passwords.created_at := 0;
     Passwords.modified_at := 0; Passwords.last_used := None;
     Passwords.use_count := 0; Passwords.tags := JsonArray [] |}.

Definition blank_note : Notes.row :=
  {| Notes.id := []; Notes.title := []; Notes.encrypted_content := [];
     Notes.created_at := 0; Notes.modified_at := 0 |}.

(** The same password stored for a second site. *)
Definition vault_with_reused_password : t :=
  apply_event (unlocked_vault false)
    (Request (pm_add_password
                {| PasswordEncryption.pe_id := None;
                   PasswordEncryption.pe_domain := Some (js "example.org");
                   PasswordEncryption.pe_username := Some (js "a@b.com");
                   PasswordEncryption.pe_password := Some (js "hunter2");
                   PasswordEncryption.pe_notes := None;
                   PasswordEncryption.pe_favicon := None;
                   PasswordEncryption.pe_tags := None |}) 120).

End Scenario.

(** More concrete vaults. *)
Module Cases.

Import PasswordManager.

(** A credential with two tags. *)
Definition tagged_entry : PasswordEncryption.passwordEntry :=
  {| PasswordEncryption.pe_id := Some (js "e1");
     PasswordEncryption.pe_domain := Some (js "GitHub.com");
     PasswordEncryption.pe_username := Some (js "octocat");
     PasswordEncryption.pe_password := Some (js "correct horse");
     PasswordEncryption.pe_notes := Some (js "2FA on");
     PasswordEncryption.pe_favicon := None;
     PasswordEncryption.pe_tags :=
       Some (PasswordEncryption.TagsArray [js "Work"; js "code"]) |}.

(** The example vault with that credential added. *)
Definition tagged_vault : t :=
  apply_event (Scenario.unlocked_vault false) (Request (pm_add_password tagged_entry) 130).

(** An entry as [importData] receives it, and one without a domain. *)
Definition good_entry : PasswordEncryption.encryptedEntry :=
  {| PasswordEncryption.ee_id := Some (js "g1");
     PasswordEncryption.ee_domain := Some (js "a.example");
     PasswordEncryption.ee_username := None;
     PasswordEncryption.ee_encrypted_password := Some (js "AAAA");
     PasswordEncryption.ee_encrypted_notes := None;
     PasswordEncryption.ee_favicon := None;
     PasswordEncryption.ee_tags := None |}.

Definition bad_entry : PasswordEncryption.encryptedEntry :=
  {| PasswordEncryption.ee_id := Some (js "b1");
     PasswordEncryption.ee_domain := None;
     PasswordEncryption.ee_username := None;
     PasswordEncryption.ee_encrypted_password := Some (js "AAAA");
     PasswordEncryption.ee_encrypted_notes := None;
     PasswordEncryption.ee_favicon := None;
     PasswordEncryption.ee_tags := None |}.

(** A note as the renderer sends it. *)
Definition example_note : PasswordDatabase.noteData :=
  {| PasswordDatabase.nd_id := None;
     PasswordDatabase.nd_title := Some (js "wifi");
     PasswordDatabase.nd_content := Some (js "the key is under the mat");
     PasswordDatabase.nd_encrypted_content := None |}.

(** Setting up the example vault, as a run of events. *)
Definition set_up : list event :=
  [Request (pm_setup_master_password (js "Tr0ub4dor&3")) 100].

(** A master password set up, a credential stored, and a master password
    set up again: the key of the second set-up does not open what the first
    one sealed. *)
Definition set_up_again : list event :=
  [Request (pm_setup_master_password (js "Tr0ub4dor&3")) 100;
   Request (pm_add_password Scenario.example_entry) 101;
   Request (pm_setup_master_password (js "An0ther&Pass")) 102].

End Cases.

(* ================================================================== *)
(** * Facts about strings and buffers *)
(* ================================================================== *)

Section BufferFacts.

Lemma Z_of_byte_range (b : byte) : 0 <= Z_of_byte b < 256.
Proof.
  unfold Z_of_byte. pose proof (Byte.to_N_bounded b) as H. lia.
Qed.

Lemma byte_of_Z_of_byte (b : byte) : byte_of_Z (Z_of_byte b) = b.
Proof.
  unfold byte_of_Z. pose proof (Z_of_byte_range b) as R.
  rewrite Z.mod_small by exact R. unfold Z_of_byte.
  rewrite N2Z.id, Byte.of_to_N. reflexivity.
Qed.

Lemma Z_of_byte_of_Z (z : Z) : 0 <= z < 256 -> Z_of_byte (byte_of_Z z) = z.
Proof.
  intros R. unfold byte_of_Z, Z_of_byte. rewrite Z.mod_small by exact R.
  destruct (Byte.of_N (Z.to_N z)) as [b|] eqn:E.
  - apply Byte.to_of_N in E. rewrite E. lia.
  - apply Byte.of_N_None_iff in E. lia.
Qed.

Lemma jsstring_eqb_eq (a b : jsstring) : jsstring_eqb a b = true <-> a = b.
Proof.
  revert b. induction a as [|x a IH]; intros [|y b]; simpl; split; intros H;
    try reflexivity; try discriminate.
  - apply andb_true_iff in H. destruct H as [H1 H2].
    apply Z.eqb_eq in H1. apply IH in H2. congruence.
  - injection H as -> ->. rewrite Z.eqb_refl. simpl. apply IH. reflexivity.
Qed.

Lemma jsstring_eqb_refl (a : jsstring) : jsstring_eqb a a = true.
Proof. apply jsstring_eqb_eq. reflexivity. Qed.

Lemma jsstring_eqb_neq (a b : jsstring) : jsstring_eqb a b = false <-> a <> b.
Proof.
  split.
  - intros H E. apply jsstring_eqb_eq in E. congruence.
  - intros H. destruct (jsstring_eqb a b) eqn:E; [|reflexivity].
    apply jsstring_eqb_eq in E. contradiction.
Qed.

End BufferFacts.

(** ** The UTF-8 automaton on the encoder's output *)

Section Utf8Facts.

Lemma utf8_decode_from_cons st b rest :
  utf8_decode_from st (b :: rest) =
  (let (st', out) := utf8_step st (Z_of_byte b) in out ++ utf8_decode_from st' rest).
Proof. reflexivity. Qed.

Lemma utf8_lead_ascii z : 0 <= z <= 0x7F -> utf8_lead z = (utf8_start, [z]).
Proof.
  intros R. unfold utf8_lead.
  destruct (Z.leb_spec z 0x7F); [reflexivity|lia].
Qed.

Lemma utf8_lead_two z :
  0xC2 <= z <= 0xDF ->
  utf8_lead z =
  ({| needed := 1; seen := 0; acc := z - 0xC0; lower := 0x80; upper := 0xBF |}, []).
Proof.
  intros R. unfold utf8_lead.
  destruct (Z.leb_spec z 0x7F); [lia|].
  destruct (Z.leb_spec 0xC2 z); [|lia].
  destruct (Z.leb_spec z 0xDF); [|lia]. reflexivity.
Qed.

Lemma utf8_lead_three z :
  0xE0 <= z <= 0xEF ->
  utf8_lead z =
  ({| needed := 2; seen := 0; acc := z - 0xE0;
      lower := if z =? 0xE0 then 0xA0 else 0x80;
      upper := if z =? 0xED then 0x9F else 0xBF |}, []).
Proof.
  intros R. unfold utf8_lead.
  destruct (Z.leb_spec z 0x7F); [lia|].
  destruct (Z.leb_spec 0xC2 z); [|lia].
  destruct (Z.leb_spec z 0xDF); [lia|].
  destruct (Z.leb_spec 0xE0 z); [|lia].
  destruct (Z.leb_spec z 0xEF); [|lia]. reflexivity.
Qed.

Lemma utf8_lead_four z :
  0xF0 <= z <= 0xF4 ->
  utf8_lead z =
  ({| needed := 3; seen := 0; acc := z - 0xF0;
      lower := if z =? 0xF0 then 0x90 else 0x80;
      upper := if z =? 0xF4 then 0x8F else 0xBF |}, []).
Proof.
  intros R. unfold utf8_lead.
  destruct (Z.leb_spec z 0x7F); [lia|].
  destruct (Z.leb_spec 0xC2 z); [|lia].
  destruct (Z.leb_spec z 0xDF); [lia|].
  destruct (Z.leb_spec 0xE0 z); [|lia].
  destruct (Z.leb_spec z 0xEF); [lia|].
  destruct (Z.leb_spec 0xF0 z); [|lia].
  destruct (Z.leb_spec z 0xF4); [|lia]. reflexivity.
Qed.

Lemma utf8_step_start z : utf8_step utf8_start z = utf8_lead z.
Proof. reflexivity. Qed.

Lemma utf8_step_last n s a lo hi z :
  n <> 0 -> lo <= z <= hi -> s + 1 = n ->
  utf8_step {| needed := n; seen := s; acc := a; lower := lo; upper := hi |} z =
  (utf8_start, units_of_code_point (a * 64 + (z - 0x80))).
Proof.
  intros Hn R Hs. unfold utf8_step. cbn [needed seen acc lower upper].
  destruct (Z.eqb_spec n 0); [contradiction|].
  destruct (Z.ltb_spec z lo); [lia|].
  destruct (Z.ltb_spec hi z); [lia|]. cbn [orb].
  destruct (Z.eqb_spec (s + 1) n); [reflexivity|contradiction].
Qed.

Lemma utf8_step_more n s a lo hi z :
  n <> 0 -> lo <= z <= hi -> s + 1 <> n ->
  utf8_step {| needed := n; seen := s; acc := a; lower := lo; upper := hi |} z =
  ({| needed := n; seen := s + 1; acc := a * 64 + (z - 0x80);
      lower := 0x80; upper := 0xBF |}, []).
Proof.
  intros Hn R Hs. unfold utf8_step. cbn [needed seen acc lower upper].
  destruct (Z.eqb_spec n 0); [contradiction|].
  destruct (Z.ltb_spec z lo); [lia|].
  destruct (Z.ltb_spec hi z); [lia|]. cbn [orb].
  destruct (Z.eqb_spec (s + 1) n); [contradiction|reflexivity].
Qed.

Lemma utf8_decode_code_point cp rest :
  scalar cp ->
  utf8_decode_from utf8_start (utf8_of_code_point cp ++ rest) =
  units_of_code_point cp ++ utf8_decode_from utf8_start rest.
Proof.
  intros [R NS]. unfold utf8_of_code_point.
  destruct (Z.ltb_spec cp 0x80) as [H1|H1].
  { cbn [app]. rewrite utf8_decode_from_cons, Z_of_byte_of_Z by lia.
    rewrite utf8_step_start, utf8_lead_ascii by lia.
    unfold units_of_code_point.
    destruct (Z.ltb_spec cp 0x10000); [reflexivity|lia]. }
  destruct (Z.ltb_spec cp 0x800) as [H2|H2].
  { pose proof (Z.div_mod cp 64 ltac:(lia)) as E.
    pose proof (Z.mod_pos_bound cp 64 ltac:(lia)) as B.
    set (q := cp / 64) in *. set (r := cp mod 64) in *.
    cbn [app]. rewrite utf8_decode_from_cons, Z_of_byte_of_Z by lia.
    rewrite utf8_step_start, utf8_lead_two by lia. cbv iota. cbn [app].
    rewrite utf8_decode_from_cons, Z_of_byte_of_Z by lia.
    rewrite utf8_step_last by lia.
    replace ((0xC0 + q - 0xC0) * 64 + (0x80 + r - 0x80)) with cp by lia.
    reflexivity. }
  destruct (Z.ltb_spec cp 0x10000) as [H3|H3].
  { pose proof (Z.div_mod cp 64 ltac:(lia)) as E.
    pose proof (Z.mod_pos_bound cp 64 ltac:(lia)) as B.
    pose proof (Z.div_mod (cp / 64) 64 ltac:(lia)) as E2.
    pose proof (Z.mod_pos_bound (cp / 64) 64 ltac:(lia)) as B2.
    replace (cp / 4096) with (cp / 64 / 64)
      by (rewrite Z.div_div by lia; reflexivity).
    set (q := cp / 64) in *. set (r := cp mod 64) in *.
    set (a := q / 64) in *. set (b := q mod 64) in *.
    cbn [app]. rewrite utf8_decode_from_cons, Z_of_byte_of_Z by lia.
    rewrite utf8_step_start, utf8_lead_three by lia. cbv iota. cbn [app].
    rewrite utf8_decode_from_cons, Z_of_byte_of_Z by lia.
    rewrite utf8_step_more.
    2: lia.
    2: { destruct (Z.eqb_spec (0xE0 + a) 0xE0);
         destruct (Z.eqb_spec (0xE0 + a) 0xED); lia. }
    2: lia.
    cbv iota. cbn [app].
    rewrite utf8_decode_from_cons, Z_of_byte_of_Z by lia.
    rewrite utf8_step_last by lia.
    replace (((0xE0 + a - 0xE0) * 64 + (0x80 + b - 0x80)) * 64 + (0x80 + r - 0x80))
      with cp by lia.
    reflexivity. }
  { pose proof (Z.div_mod cp 64 ltac:(lia)) as E.
    pose proof (Z.mod_pos_bound cp 64 ltac:(lia)) as B.
    pose proof (Z.div_mod (cp / 64) 64 ltac:(lia)) as E2.
    pose proof (Z.mod_pos_bound (cp / 64) 64 ltac:(lia)) as B2.
    pose proof (Z.div_mod (cp / 64 / 64) 64 ltac:(lia)) as E3.
    pose proof (Z.mod_pos_bound (cp / 64 / 64) 64 ltac:(lia)) as B3.
    replace (cp / 4096) with (cp / 64 / 64)
      by (rewrite Z.div_div by lia; reflexivity).
    replace (cp / 262144) with (cp / 64 / 64 / 64)
      by (rewrite !Z.div_div by lia; reflexivity).
    set (q := cp / 64) in *. set (r := cp mod 64) in *.
    set (q2 := q / 64) in *. set (b := q mod 64) in *.
    set (a := q2 / 64) in *. set (c := q2 mod 64) in *.
    cbn [app]. rewrite utf8_decode_from_cons, Z_of_byte_of_Z by lia.
    rewrite utf8_step_start, utf8_lead_four by lia. cbv iota. cbn [app].
    rewrite utf8_decode_from_cons, Z_of_byte_of_Z by lia.
    rewrite utf8_step_more.
    2: lia.
    2: { destruct (Z.eqb_spec (0xF0 + a) 0xF0);
         destruct (Z.eqb_spec (0xF0 + a) 0xF4); lia. }
    2: lia.
    cbv iota. cbn [app].
    rewrite utf8_decode_from_cons, Z_of_byte_of_Z by lia.
    rewrite utf8_step_more by lia.
    cbv iota. cbn [app].
    rewrite utf8_decode_from_cons, Z_of_byte_of_Z by lia.
    rewrite utf8_step_last by lia.
    replace ((((0xF0 + a - 0xF0) * 64 + (0x80 + c - 0x80)) * 64 + (0x80 + b - 0x80)) * 64
             + (0x80 + r - 0x80)) with cp by lia.
    reflexivity. }
Qed.

Lemma surrogate_pair_units c d :
  is_high_surrogate c = true -> is_low_surrogate d = true ->
  let cp := 0x10000 + (c - 0xD800) * 1024 + (d - 0xDC00) in
  scalar cp /\ units_of_code_point cp = [c; d].
Proof.
  unfold is_high_surrogate, is_low_surrogate. intros Hc Hd.
  apply andb_true_iff in Hc. apply andb_true_iff in Hd.
  destruct Hc as [Hc1 Hc2]. destruct Hd as [Hd1 Hd2].
  apply Z.leb_le in Hc1, Hc2, Hd1, Hd2. cbv zeta.
  split; [unfold scalar; lia|].
  unfold units_of_code_point.
  destruct (Z.ltb_spec (0x10000 + (c - 0xD800) * 1024 + (d - 0xDC00)) 0x10000); [lia|].
  replace (0x10000 + (c - 0xD800) * 1024 + (d - 0xDC00) - 0x10000)
    with ((d - 0xDC00) + (c - 0xD800) * 1024) by lia.
  rewrite Z.div_add, Z.mod_add by lia.
  rewrite Z.div_small, Z.mod_small by lia.
  f_equal; [lia|]. f_equal. lia.
Qed.

Lemma utf8_roundtrip_bounded (n : nat) :
  forall s, (List.length s <= n)%nat -> well_formed s = true ->
            utf8_decode (utf8_encode s) = s.
Proof.
  unfold utf8_decode. induction n as [|n IH]; intros s Hl Hw.
  - destruct s; [reflexivity|simpl in Hl; lia].
  - destruct s as [|c rest]; [reflexivity|].
    cbn [well_formed utf8_encode] in *.
    destruct (is_high_surrogate c) eqn:Hh.
    + destruct rest as [|d rest']; [discriminate|].
      apply andb_true_iff in Hw. destruct Hw as [Hd Hw]. rewrite Hd.
      destruct (surrogate_pair_units c d Hh Hd) as [Sc Un].
      rewrite utf8_decode_code_point by exact Sc. rewrite Un.
      cbn [app]. rewrite IH; [reflexivity| |exact Hw].
      simpl in Hl. lia.
    + apply andb_true_iff in Hw. destruct Hw as [Hw Hr].
      apply andb_true_iff in Hw. destruct Hw as [Hw H2].
      apply andb_true_iff in Hw. destruct Hw as [Hlow H1].
      apply negb_true_iff in Hlow. rewrite Hlow.
      apply Z.leb_le in H1. apply Z.ltb_lt in H2.
      assert (Sc : scalar c).
      { unfold is_high_surrogate, is_low_surrogate in *.
        apply andb_false_iff in Hh, Hlow. unfold scalar.
        rewrite !Z.leb_gt in *. lia. }
      rewrite utf8_decode_code_point by exact Sc.
      unfold units_of_code_point.
      destruct (Z.ltb_spec c 0x10000); [|lia].
      cbn [app]. rewrite IH; [reflexivity| |exact Hr].
      simpl in Hl. lia.
Qed.

Lemma utf8_roundtrip (s : jsstring) :
  well_formed s = true -> utf8_decode (utf8_encode s) = s.
Proof. apply (utf8_roundtrip_bounded (List.length s)). lia. Qed.

End Utf8Facts.

(** ** Base64 and hexadecimal round trips *)

Section Base64Facts.

Lemma below_cases (P : Z -> Prop) (n : nat) :
  (forall k, (k < n)%nat -> P (Z.of_nat k)) ->
  forall z, 0 <= z < Z.of_nat n -> P z.
Proof.
  intros H z R. rewrite <- (Z2Nat.id z) by lia. apply H. lia.
Qed.

Lemma forallb_below (f : Z -> bool) (n : nat) :
  forallb f (map Z.of_nat (seq 0 n)) = true ->
  forall z, 0 <= z < Z.of_nat n -> f z = true.
Proof.
  intros H. apply below_cases. intros k Hk.
  rewrite forallb_forall in H. apply H.
  apply in_map. apply in_seq. lia.
Qed.

Lemma sextet_of_char_of_sextet n :
  0 <= n < 64 -> sextet_of_char (char_of_sextet n) = Some n.
Proof.
  intros R.
  pose (f := fun n => match sextet_of_char (char_of_sextet n) with
                      | Some m => m =? n
                      | None => false
                      end).
  assert (H : f n = true) by (apply (forallb_below f 64); [reflexivity|exact R]).
  unfold f in H. destruct (sextet_of_char (char_of_sextet n)); [|discriminate].
  apply Z.eqb_eq in H. congruence.
Qed.

Lemma char_of_sextet_not_pad n :
  0 <= n < 64 -> (char_of_sextet n =? pad) = false.
Proof.
  intros R.
  apply (forallb_below (fun n => negb (char_of_sextet n =? pad)) 64) in R;
    [|reflexivity].
  apply negb_true_iff in R. exact R.
Qed.

Lemma base64_sextets_char n rest :
  0 <= n < 64 ->
  base64_sextets (char_of_sextet n :: rest) = n :: base64_sextets rest.
Proof.
  intros R. cbn [base64_sextets].
  rewrite char_of_sextet_not_pad, sextet_of_char_of_sextet by exact R.
  reflexivity.
Qed.

Lemma base64_sextets_pad rest : base64_sextets (pad :: rest) = [].
Proof. reflexivity. Qed.

Lemma list_ind3 (A : Type) (P : list A -> Prop) :
  P [] -> (forall a, P [a]) -> (forall a b, P [a; b]) ->
  (forall a b c l, P l -> P (a :: b :: c :: l)) ->
  forall l, P l.
Proof.
  intros H0 H1 H2 H3.
  assert (H : forall l, P l /\ (forall a, P (a :: l)) /\ (forall a b, P (a :: b :: l))).
  { induction l as [|x l [IH0 [IH1 IH2]]].
    - repeat split; auto.
    - repeat split; auto. }
  intros l. apply H.
Qed.

Ltac euclid x d :=
  let E := fresh "E" in
  let B := fresh "B" in
  pose proof (Z.div_mod x d ltac:(lia)) as E;
  pose proof (Z.mod_pos_bound x d ltac:(lia)) as B.

Lemma base64_roundtrip (bs : bytes) : base64_decode (base64_encode bs) = bs.
Proof.
  unfold base64_decode. induction bs as [|a|a b|a b c rest IH] using list_ind3.
  - reflexivity.
  - cbn [base64_encode]. pose proof (Z_of_byte_range a) as Ra.
    set (x := Z_of_byte a) in *.
    euclid x 4.
    rewrite !base64_sextets_char, base64_sextets_pad by lia.
    cbn [bytes_of_sextets].
    replace ((x / 4 * 64 + x mod 4 * 16) / 16) with x.
    + subst x. rewrite byte_of_Z_of_byte. reflexivity.
    + apply Z.div_unique with (r := 0); lia.
  - cbn [base64_encode].
    pose proof (Z_of_byte_range a) as Ra. pose proof (Z_of_byte_range b) as Rb.
    set (x := Z_of_byte a) in *. set (y := Z_of_byte b) in *.
    set (n := x * 256 + y).
    assert (Rn : 0 <= n < 65536) by (subst n; lia).
    euclid n 1024. euclid n 16. euclid (n / 16) 64.
    assert (n / 16 / 64 = n / 1024) by (rewrite Z.div_div by lia; reflexivity).
    rewrite !base64_sextets_char, base64_sextets_pad by lia.
    cbn [bytes_of_sextets].
    set (m := n / 1024 * 4096 + (n / 16) mod 64 * 64 + n mod 16 * 4).
    assert (Hm : m = n * 4) by (subst m; lia).
    replace (m / 1024) with x
      by (apply Z.div_unique with (r := y * 4); lia).
    replace ((m / 4) mod 256) with y.
    + subst x y. rewrite !byte_of_Z_of_byte. reflexivity.
    + replace (m / 4) with n
        by (apply Z.div_unique with (r := 0); lia).
      apply Z.mod_unique with (q := x); lia.
  - cbn [base64_encode].
    pose proof (Z_of_byte_range a) as Ra. pose proof (Z_of_byte_range b) as Rb.
    pose proof (Z_of_byte_range c) as Rc.
    set (x := Z_of_byte a) in *. set (y := Z_of_byte b) in *.
    set (z := Z_of_byte c) in *.
    set (n := x * 65536 + y * 256 + z).
    assert (Rn : 0 <= n < 16777216) by (subst n; lia).
    euclid n 64. euclid (n / 64) 64. euclid (n / 64 / 64) 64.
    assert (H1 : n / 4096 = n / 64 / 64) by (rewrite Z.div_div by lia; reflexivity).
    assert (H2 : n / 262144 = n / 64 / 64 / 64)
      by (rewrite !Z.div_div by lia; reflexivity).
    rewrite H2, H1.
    rewrite !base64_sextets_char by lia.
    cbn [bytes_of_sextets]. rewrite IH.
    set (m := n / 64 / 64 / 64 * 262144 + (n / 64 / 64) mod 64 * 4096
              + (n / 64) mod 64 * 64 + n mod 64).
    assert (Hm : m = n) by (subst m; lia).
    rewrite Hm.
    replace (n / 65536) with x
      by (apply Z.div_unique with (r := y * 256 + z); lia).
    replace ((n / 256) mod 256) with y.
    2: { replace (n / 256) with (x * 256 + y)
           by (apply Z.div_unique with (r := z); lia).
         apply Z.mod_unique with (q := x); lia. }
    replace (n mod 256) with z
      by (apply Z.mod_unique with (q := x * 256 + y); lia).
    subst x y z. rewrite !byte_of_Z_of_byte. reflexivity.
Qed.

Lemma base64_encode_inj (a b : bytes) :
  base64_encode a = base64_encode b -> a = b.
Proof.
  intros H. rewrite <- (base64_roundtrip a), <- (base64_roundtrip b), H.
  reflexivity.
Qed.

Lemma hex_value_digit n : 0 <= n < 16 -> hex_value (hex_digit n) = Some n.
Proof.
  intros R.
  pose (f := fun n => match hex_value (hex_digit n) with
                      | Some m => m =? n
                      | None => false
                      end).
  assert (H : f n = true) by (apply (forallb_below f 16); [reflexivity|exact R]).
  unfold f in H. destruct (hex_value (hex_digit n)); [|discriminate].
  apply Z.eqb_eq in H. congruence.
Qed.

Lemma hex_roundtrip (bs : bytes) : hex_decode (hex_encode bs) = bs.
Proof.
  induction bs as [|b bs IH]; [reflexivity|].
  cbn [hex_encode flat_map app]. fold (hex_encode bs).
  pose proof (Z_of_byte_range b) as R. set (x := Z_of_byte b) in *.
  euclid x 16.
  cbn [hex_decode]. rewrite !hex_value_digit by lia. rewrite IH.
  replace (x / 16 * 16 + x mod 16) with x by lia.
  subst x. rewrite byte_of_Z_of_byte. reflexivity.
Qed.

End Base64Facts.

(* ================================================================== *)
(** * The cipher *)
(* ================================================================== *)

Section CipherFacts.
Context {crypto : NodeCrypto}.

Import PasswordEncryption.

Lemma randomBytes_length n r : List.length (fst (randomBytes n r)) = n.
Proof. unfold randomBytes. cbn [fst]. rewrite length_map, length_seq. reflexivity. Qed.

Lemma generateIV_length r : List.length (fst (generateIV r)) = 16%nat.
Proof. apply randomBytes_length. Qed.

Lemma deriveKey_length masterPassword s :
  List.length (deriveKey masterPassword s) = 32%nat.
Proof. apply pbkdf2Sync_length. Qed.

Lemma read_install_key masterPassword s e :
  read (List.length (memory e)) (install_key masterPassword s e)
  = deriveKey masterPassword s.
Proof.
  unfold read, install_key. cbn [memory]. rewrite nth_middle. reflexivity.
Qed.

Lemma firstn_exact {A : Type} (l1 l2 : list A) (n : nat) :
  List.length l1 = n -> firstn n (l1 ++ l2) = l1.
Proof.
  intros <-. induction l1 as [|x l1 IH]; cbn [List.length firstn app].
  - destruct l2; reflexivity.
  - rewrite IH. reflexivity.
Qed.

Lemma skipn_exact {A : Type} (l1 l2 : list A) (n : nat) :
  List.length l1 = n -> skipn n (l1 ++ l2) = l2.
Proof.
  intros <-. induction l1 as [|x l1 IH]; cbn [List.length skipn app];
    [reflexivity|exact IH].
Qed.

(** The three slices of [nonce ++ tag ++ ciphertext]. *)
Lemma slices iv authTag encrypted :
  List.length iv = 16%nat -> List.length authTag = 16%nat ->
  slice 0 ivLength (iv ++ authTag ++ encrypted) = iv
  /\ slice ivLength (ivLength + tagLength) (iv ++ authTag ++ encrypted) = authTag
  /\ slice_from (ivLength + tagLength) (iv ++ authTag ++ encrypted) = encrypted.
Proof.
  intros Hi Ht. unfold slice, slice_from, ivLength, tagLength.
  repeat split.
  - cbn [skipn Nat.sub]. apply firstn_exact. exact Hi.
  - replace (16 + 16 - 16)%nat with 16%nat by lia.
    rewrite (skipn_exact iv _ _ Hi). apply firstn_exact. exact Ht.
  - rewrite app_assoc. apply skipn_exact. rewrite length_app. lia.
Qed.

(** What [open] sees in a blob that [seal] made. *)
Lemma open_seal_decodes key iv plaintext :
  List.length key = 32%nat -> List.length iv = 16%nat ->
  open key (seal key iv plaintext) = Return (utf8_decode (utf8_encode plaintext)).
Proof.
  intros Hk Hi. unfold open, seal.
  pose proof (gcm_tag_length key iv (utf8_encode plaintext) Hk Hi) as Ht.
  pose proof (gcm_open_seal key iv (utf8_encode plaintext) Hk Hi) as Ho.
  destruct (gcm_seal key iv (utf8_encode plaintext)) as [encrypted authTag].
  cbn [fst snd] in Ht, Ho. rewrite base64_roundtrip.
  destruct (slices iv authTag encrypted Hi Ht) as [S1 [S2 S3]].
  rewrite S1, S2, S3, Ho. reflexivity.
Qed.

Lemma open_seal key iv plaintext :
  List.length key = 32%nat -> List.length iv = 16%nat ->
  well_formed plaintext = true ->
  open key (seal key iv plaintext) = Return plaintext.
Proof.
  intros Hk Hi Hw. rewrite open_seal_decodes by assumption.
  rewrite utf8_roundtrip by exact Hw. reflexivity.
Qed.

(** The blob starts with the nonce, so two nonces give two blobs. *)
Lemma seal_nonce_inj key iv1 iv2 p1 p2 :
  List.length iv1 = 16%nat -> List.length iv2 = 16%nat ->
  seal key iv1 p1 = seal key iv2 p2 -> iv1 = iv2.
Proof.
  intros H1 H2. unfold seal.
  destruct (gcm_seal key iv1 (utf8_encode p1)) as [c1 t1].
  destruct (gcm_seal key iv2 (utf8_encode p2)) as [c2 t2].
  intros E. apply base64_encode_inj in E.
  apply (f_equal (firstn 16)) in E.
  rewrite (firstn_exact iv1 _ _ H1), (firstn_exact iv2 _ _ H2) in E. exact E.
Qed.

End CipherFacts.

(* ================================================================== *)
(** * The model on small inputs *)
(* ================================================================== *)

Example utf8_encode_euro : utf8_encode [0x20AC] = [xe2; x82; xac].
Proof. reflexivity. Qed.

Example utf8_decode_euro : utf8_decode [xe2; x82; xac] = [0x20AC].
Proof. reflexivity. Qed.

Example utf8_surrogate_pair :
  utf8_decode (utf8_encode [0xD83D; 0xDE00]) = [0xD83D; 0xDE00].
Proof. reflexivity. Qed.

Example utf8_unpaired_surrogate : utf8_decode (utf8_encode [0xD800]) = [0xFFFD].
Proof. reflexivity. Qed.

Example base64_hello : base64_encode (utf8_encode (js "hello")) = js "aGVsbG8=".
Proof. reflexivity. Qed.

Example base64_hello_back : utf8_decode (base64_decode (js "aGVsbG8=")) = js "hello".
Proof. reflexivity. Qed.

Example like_example :
  PasswordDatabase.like (PasswordDatabase.contains_pattern (js "AMPLE"))
                        (js "example.com") = true.
Proof. reflexivity. Qed.

Example strength_of_troubador :
  PasswordEncryption.score (PasswordEncryption.checkPasswordStrength (js "Tr0ub4dor&3")) = 5.
Proof. reflexivity. Qed.

(** The walk through the vault of the specification: set up, store, list,
    lock, list, unlock with a wrong and with the right password, list. *)
Example end_to_end :
  let listing m := fst (PasswordManager.getPasswords None 200 m) in
  let stored :=
    match PasswordManager.body (listing (Scenario.unlocked_vault false)) with
    | PasswordManager.PasswordList [entry] =>
        (PasswordEncryption.de_domain entry, PasswordEncryption.de_password entry)
    | _ => ([], None)
    end in
  stored = (js "example.com", Some (js "hunter2"))
  /\ listing (Scenario.locked_vault false) = PasswordManager.VaultLocked
  /\ fst (PasswordManager.unlock (js "wrong") 201 (Scenario.locked_vault false))
     = PasswordManager.AuthenticationFailure
  /\ PasswordManager.body
       (listing (snd (PasswordManager.unlock (js "Tr0ub4dor&3") 202
                        (Scenario.locked_vault false))))
     = PasswordManager.body (listing (Scenario.unlocked_vault false)).
Proof. vm_compute. repeat split; reflexivity. Qed.

(* ================================================================== *)
(** * Session: unlock, lock and the resident key *)
(* ================================================================== *)

Section SessionFacts.
Context {crypto : NodeCrypto}.

Import PasswordEncryption PasswordManager.

(** What [verifyMasterPassword] answers and what it leaves behind. *)
Lemma verifyMasterPassword_spec masterPassword saltHex verificationHash e :
  let key := deriveKey masterPassword (hex_decode saltHex) in
  let e1 := install_key masterPassword (hex_decode saltHex) e in
  verifyMasterPassword masterPassword saltHex verificationHash e
  = (match open key verificationHash with
     | Return decrypted => jsstring_eqb decrypted verificationData
     | Throw _ => false
     end, e1).
Proof.
  cbv zeta. unfold verifyMasterPassword, decrypt.
  cbn [install_key masterKey]. rewrite read_install_key.
  destruct (open _ verificationHash); reflexivity.
Qed.

Lemma verified_iff key verificationHash :
  match open key verificationHash with
  | Return decrypted => jsstring_eqb decrypted verificationData
  | Throw _ => false
  end = true
  <-> open key verificationHash = Return verificationData.
Proof.
  destruct (open key verificationHash) as [d|msg]; split; intros H.
  - apply jsstring_eqb_eq in H. congruence.
  - injection H as ->. apply jsstring_eqb_refl.
  - discriminate.
  - discriminate.
Qed.

(** [lock()] drops the reference and overwrites the buffer it pointed at with
    fresh random bytes. *)
Lemma write_read l b mem :
  (l < List.length mem)%nat -> nth l (PasswordEncryption.write l b mem) [] = b.
Proof.
  revert l. induction mem as [|x mem IH]; intros l H; [simpl in H; lia|].
  destruct l as [|l]; cbn [PasswordEncryption.write nth]; [reflexivity|].
  apply IH. simpl in H. lia.
Qed.

Lemma lock_overwrites_key_buffer e r l :
  masterKey e = Some l -> (l < List.length (memory e))%nat ->
  let e' := fst (PasswordEncryption.lock e r) in
  masterKey e' = None
  /\ read l e' = fst (randomBytes (List.length (read l e)) r).
Proof.
  intros Hk Hl. unfold PasswordEncryption.lock. rewrite Hk.
  cbn [randomBytes fst masterKey]. split; [reflexivity|].
  unfold read at 1. cbn [memory]. apply write_read. exact Hl.
Qed.

Lemma manager_lock_locks m :
  isLocked (snd (lock m)) = true
  /\ masterKey (encryption (snd (lock m))) = None
  /\ autoLockTimer (snd (lock m)) = None
  /\ database (snd (lock m)) = database m.
Proof.
  unfold lock, PasswordEncryption.lock.
  destruct (masterKey (encryption m)); cbn; repeat split; reflexivity.
Qed.

End SessionFacts.

(** C4. For every candidate password, [unlock] succeeds exactly when
    decrypting the stored verification ciphertext with the key derived from
    that password yields the marker string.  On failure the session stays
    Locked, the stored data is untouched, and the reply is the one
    AuthenticationFailure value, whatever made the check fail (wrong
    password, or a salt or verification ciphertext that was damaged). *)
Theorem C4_unlock_checks_the_verifier
  {crypto : NodeCrypto} (m : PasswordManager.t) (masterPassword : jsstring)
  (now : timestamp) (settings : Settings.row) :
  PasswordDatabase.getMasterPasswordSettings (PasswordManager.database m) = Some settings ->
  PasswordManager.isLocked m = true ->
  let key := PasswordEncryption.deriveKey masterPassword
               (hex_decode (Settings.salt settings)) in
  let result := PasswordManager.unlock masterPassword now m in
  (PasswordManager.success (fst result) = true
   <-> PasswordEncryption.open key (Settings.verification_hash settings)
       = Return PasswordEncryption.verificationData)
  /\ (PasswordManager.success (fst result) = true ->
      PasswordManager.isLocked (snd result) = false)
  /\ (PasswordManager.success (fst result) = false ->
      fst result = PasswordManager.AuthenticationFailure
      /\ PasswordManager.isLocked (snd result) = true
      /\ PasswordManager.database (snd result) = PasswordManager.database m).
Proof.
  intros Hs Hl. cbv zeta. unfold PasswordManager.unlock. rewrite Hs.
  rewrite verifyMasterPassword_spec.
  pose proof (verified_iff
                (PasswordEncryption.deriveKey masterPassword
                   (hex_decode (Settings.salt settings)))
                (Settings.verification_hash settings)) as V.
  destruct (match PasswordEncryption.open _ _ with
            | Return d => jsstring_eqb d PasswordEncryption.verificationData
            | Throw _ => false
            end) eqn:E.
  - cbn [fst snd PasswordManager.success PasswordManager.ok].
    split; [|split].
    + split; intros _; [apply V|]; reflexivity.
    + intros _. reflexivity.
    + discriminate.
  - cbn [fst snd PasswordManager.success PasswordManager.AuthenticationFailure
         PasswordManager.failed].
    split; [|split].
    + split; [discriminate|]. intros H. apply V in H. discriminate.
    + discriminate.
    + intros _. split; [reflexivity|]. split; [exact Hl|reflexivity].
Qed.

Lemma C4_witness :
  exists settings,
    PasswordDatabase.getMasterPasswordSettings
      (PasswordManager.database (Scenario.locked_vault false)) = Some settings
    /\ PasswordManager.isLocked (Scenario.locked_vault false) = true
    /\ (PasswordManager.success
          (fst (PasswordManager.unlock (js "wrong") 103 (Scenario.locked_vault false)))
        = false ->
        fst (PasswordManager.unlock (js "wrong") 103 (Scenario.locked_vault false))
        = PasswordManager.AuthenticationFailure
        /\ PasswordManager.isLocked
             (snd (PasswordManager.unlock (js "wrong") 103 (Scenario.locked_vault false)))
           = true
        /\ PasswordManager.database
             (snd (PasswordManager.unlock (js "wrong") 103 (Scenario.locked_vault false)))
           = PasswordManager.database (Scenario.locked_vault false)).
Proof.
  destruct (PasswordDatabase.getMasterPasswordSettings
              (PasswordManager.database (Scenario.locked_vault false)))
    as [settings|] eqn:E; [|vm_compute in E; discriminate E].
  exists settings. split; [reflexivity|]. split; [reflexivity|].
  apply (C4_unlock_checks_the_verifier (Scenario.locked_vault false) (js "wrong") 103
           settings E eq_refl).
Defined.

(** C1, the failing path.  A failed [unlock] leaves the manager Locked, yet
    the key derived from the rejected password is installed as [masterKey]
    and stays in memory: [isUnlocked()] answers true on a locked vault. *)
Theorem C1_failed_unlock_leaves_key_resident
  {crypto : NodeCrypto} (m : PasswordManager.t) (masterPassword : jsstring)
  (now : timestamp) (settings : Settings.row) :
  PasswordDatabase.getMasterPasswordSettings (PasswordManager.database m) = Some settings ->
  PasswordManager.isLocked m = true ->
  PasswordManager.success (fst (PasswordManager.unlock masterPassword now m)) = false ->
  let m' := snd (PasswordManager.unlock masterPassword now m) in
  PasswordManager.isLocked m' = true
  /\ PasswordEncryption.isUnlocked (PasswordManager.encryption m') = true
  /\ exists l,
      PasswordEncryption.masterKey (PasswordManager.encryption m') = Some l
      /\ PasswordEncryption.read l (PasswordManager.encryption m')
         = PasswordEncryption.deriveKey masterPassword
             (hex_decode (Settings.salt settings)).
Proof.
  intros Hs Hl. cbv zeta. unfold PasswordManager.unlock. rewrite Hs.
  rewrite verifyMasterPassword_spec.
  destruct (match PasswordEncryption.open _ _ with
            | Return d => jsstring_eqb d PasswordEncryption.verificationData
            | Throw _ => false
            end).
  - cbn. discriminate.
  - cbn [fst snd]. intros _. split; [exact Hl|]. split; [reflexivity|].
    eexists. split; [reflexivity|].
    cbn [PasswordManager.encryption PasswordManager.with_encryption
         PasswordEncryption.install_key].
    apply (read_install_key masterPassword
             (hex_decode (Settings.salt settings)) (PasswordManager.encryption m)).
Qed.

Lemma C1_witness :
  PasswordManager.isLocked
    (snd (PasswordManager.unlock (js "wrong") 103 (Scenario.locked_vault false))) = true
  /\ PasswordEncryption.isUnlocked
       (PasswordManager.encryption
          (snd (PasswordManager.unlock (js "wrong") 103 (Scenario.locked_vault false))))
     = true.
Proof.
  destruct (PasswordDatabase.getMasterPasswordSettings
              (PasswordManager.database (Scenario.locked_vault false)))
    as [settings|] eqn:E; [|vm_compute in E; discriminate E].
  assert (F : PasswordManager.success
                (fst (PasswordManager.unlock (js "wrong") 103
                        (Scenario.locked_vault false))) = false)
    by (vm_compute; reflexivity).
  destruct (C1_failed_unlock_leaves_key_resident
              (Scenario.locked_vault false) (js "wrong") 103 settings E eq_refl F)
    as [H1 [H2 _]].
  split; assumption.
Defined.

(** C3. While the manager is Locked, every operation on the encrypted store
    replies VaultLocked and leaves the manager, and with it the database,
    exactly as it was. *)
Theorem C3_locked_store_operations_fail
  {crypto : NodeCrypto} (q : PasswordManager.request) (now : timestamp)
  (m : PasswordManager.t) :
  Spec.store_operation q = true ->
  PasswordManager.isLocked m = true ->
  PasswordManager.handle q now m
  = (PasswordManager.Reply PasswordManager.VaultLocked, m).
Proof.
  intros Hq Hl.
  destruct q; try discriminate Hq; cbn [PasswordManager.handle];
    unfold PasswordManager.replying,
      PasswordManager.addPassword, PasswordManager.getPasswords,
      PasswordManager.getPassword, PasswordManager.updatePassword,
      PasswordManager.deletePassword, PasswordManager.searchPasswords,
      PasswordManager.addSecureNote, PasswordManager.getSecureNotes,
      PasswordManager.deleteSecureNote, PasswordManager.getStatistics,
      PasswordManager.exportData, PasswordManager.importData,
      PasswordManager.findDuplicatePasswords, PasswordManager.getAllTags;
    rewrite Hl; reflexivity.
Qed.

Lemma C3_witness :
  PasswordManager.handle PasswordManager.pm_get_statistics 103
                         (Scenario.locked_vault false)
  = (PasswordManager.Reply PasswordManager.VaultLocked, Scenario.locked_vault false).
Proof.
  apply (C3_locked_store_operations_fail PasswordManager.pm_get_statistics 103
           (Scenario.locked_vault false)); reflexivity.
Defined.

(* ================================================================== *)
(** * Setting up, locking and unlocking again *)
(* ================================================================== *)

Section SetupFacts.
Context {crypto : NodeCrypto}.

Import PasswordEncryption PasswordManager.

(** What an accepted [setupMasterPassword] stores and installs. *)
Lemma setupMasterPassword_accepted (masterPassword : jsstring) (now : timestamp) (m : t) :
  3 <= score (PasswordEncryption.checkPasswordStrength masterPassword) ->
  let salt := fst (generateSalt (random m)) in
  let iv := fst (generateIV (snd (generateSalt (random m)))) in
  let key := deriveKey masterPassword salt in
  let m' := snd (setupMasterPassword masterPassword now m) in
  success (fst (setupMasterPassword masterPassword now m)) = true
  /\ isLocked m' = false
  /\ PasswordDatabase.getMasterPasswordSettings (database m')
     = Some {| Settings.id := 1;
               Settings.salt := hex_encode salt;
               Settings.iterations := iterations;
               Settings.verification_hash := seal key iv verificationData;
               Settings.created_at := now;
               Settings.last_accessed := None |}.
Proof.
  intros Hs. cbv zeta. unfold setupMasterPassword.
  destruct (Z.ltb_spec (score (PasswordEncryption.checkPasswordStrength masterPassword)) 3);
    [lia|].
  unfold initialize.
  destruct (generateSalt (random m)) as [s r1]. cbn [fst snd].
  unfold encrypt. cbn [install_key masterKey].
  rewrite read_install_key.
  destruct (generateIV r1) as [iv r2]. cbn [fst snd].
  repeat split.
Qed.

(** The password that was set up unlocks the vault after a lock. *)
Lemma unlock_accepts_the_password_set_up
      (masterPassword : jsstring) (now later : timestamp) (m : t) :
  3 <= score (PasswordEncryption.checkPasswordStrength masterPassword) ->
  let locked := snd (lock (snd (setupMasterPassword masterPassword now m))) in
  isLocked locked = true
  /\ success (fst (unlock masterPassword later locked)) = true
  /\ isLocked (snd (unlock masterPassword later locked)) = false.
Proof.
  intros Hs. cbv zeta.
  destruct (setupMasterPassword_accepted masterPassword now m Hs) as [_ [_ Hset]].
  destruct (manager_lock_locks (snd (setupMasterPassword masterPassword now m)))
    as [Hl [_ [_ Hdb]]].
  split; [exact Hl|].
  unfold unlock. rewrite Hdb, Hset. cbn [Settings.salt Settings.verification_hash].
  rewrite verifyMasterPassword_spec, hex_roundtrip.
  rewrite open_seal.
  - rewrite jsstring_eqb_refl. split; reflexivity.
  - apply deriveKey_length.
  - apply generateIV_length.
  - reflexivity.
Qed.

End SetupFacts.

(* ================================================================== *)
(** * Cipher round trip *)
(* ================================================================== *)

(** Every key [deriveKey] installs has 32 bytes. *)
Lemma installed_key_length {crypto : NodeCrypto} masterPassword s e :
  List.length
    (PasswordEncryption.read (List.length (PasswordEncryption.memory e))
       (PasswordEncryption.install_key masterPassword s e)) = 32%nat.
Proof. rewrite read_install_key. apply deriveKey_length. Qed.

(** An unpaired surrogate does not survive: it comes back as U+FFFD. *)
Lemma unpaired_surrogate_is_replaced {crypto : NodeCrypto} key iv :
  List.length key = 32%nat -> List.length iv = 16%nat ->
  PasswordEncryption.open key (PasswordEncryption.seal key iv [0xD800])
  = Return [0xFFFD].
Proof. intros Hk Hi. rewrite open_seal_decodes by assumption. reflexivity. Qed.

(** C2 (amended). For every key the vault can hold (32 bytes) and every
    plaintext that is a well-formed UTF-16 string, [encrypt] returns the
    base64 text of a 16-byte nonce, then the 16-byte authentication tag, then
    the ciphertext, and [decrypt] with the same key returns the plaintext. *)
Theorem C2_decrypt_inverts_encrypt
  {crypto : NodeCrypto} (e : PasswordEncryption.t) (r : entropy) (l : nat)
  (P : jsstring) :
  PasswordEncryption.masterKey e = Some l ->
  List.length (PasswordEncryption.read l e) = 32%nat ->
  well_formed P = true ->
  exists nonce authTag ciphertext blob r',
    PasswordEncryption.encrypt P e r = (Return blob, r')
    /\ base64_decode blob = nonce ++ authTag ++ ciphertext
    /\ List.length nonce = 16%nat
    /\ List.length authTag = 16%nat
    /\ (ciphertext, authTag)
       = gcm_seal (PasswordEncryption.read l e) nonce (utf8_encode P)
    /\ PasswordEncryption.decrypt blob e = Return P.
Proof.
  intros Hk Hlen Hw.
  pose proof (generateIV_length r) as Hi.
  unfold PasswordEncryption.encrypt, PasswordEncryption.decrypt. rewrite Hk.
  destruct (PasswordEncryption.generateIV r) as [iv r'] eqn:G. cbn [fst] in Hi.
  pose proof (gcm_tag_length (PasswordEncryption.read l e) iv (utf8_encode P) Hlen Hi)
    as Ht.
  destruct (gcm_seal (PasswordEncryption.read l e) iv (utf8_encode P))
    as [encrypted authTag] eqn:S.
  cbn [snd] in Ht.
  exists iv, authTag, encrypted,
         (PasswordEncryption.seal (PasswordEncryption.read l e) iv P), r'.
  split; [reflexivity|].
  split; [unfold PasswordEncryption.seal; rewrite S; apply base64_roundtrip|].
  split; [exact Hi|]. split; [exact Ht|]. split; [symmetry; exact S|].
  apply open_seal; assumption.
Qed.

Lemma C2_witness :
  exists nonce authTag ciphertext blob r',
    PasswordEncryption.encrypt (js "hunter2")
      (PasswordManager.encryption (Scenario.unlocked_vault false)) Toy.counter
    = (Return blob, r')
    /\ base64_decode blob = nonce ++ authTag ++ ciphertext
    /\ List.length nonce = 16%nat
    /\ List.length authTag = 16%nat
    /\ (ciphertext, authTag)
       = gcm_seal (PasswordEncryption.read 0
                     (PasswordManager.encryption (Scenario.unlocked_vault false)))
                  nonce (utf8_encode (js "hunter2"))
    /\ PasswordEncryption.decrypt blob
         (PasswordManager.encryption (Scenario.unlocked_vault false))
       = Return (js "hunter2").
Proof.
  apply (C2_decrypt_inverts_encrypt
           (PasswordManager.encryption (Scenario.unlocked_vault false))
           Toy.counter 0 (js "hunter2")); reflexivity.
Defined.

(** C2 as stated, for every plaintext, fails: a string holding an unpaired
    surrogate is encrypted as U+FFFD and cannot come back. *)
Lemma C2_counterexample_unpaired_surrogate :
  ~ (forall (crypto : NodeCrypto) (e : PasswordEncryption.t) (r : entropy)
            (l : nat) (P : jsstring),
        PasswordEncryption.masterKey e = Some l ->
        List.length (PasswordEncryption.read l e) = 32%nat ->
        exists blob r',
          PasswordEncryption.encrypt P e r = (Return blob, r')
          /\ PasswordEncryption.decrypt blob e = Return P).
Proof.
  intros H.
  destruct (H toy_crypto (PasswordManager.encryption (Scenario.unlocked_vault false))
              Toy.counter 0%nat [0xD800] eq_refl eq_refl) as [blob [r' [E D]]].
  vm_compute in E. injection E as <- _. vm_compute in D. discriminate D.
Qed.

(* ================================================================== *)
(** * The session invariant *)
(* ================================================================== *)

Section SessionInvariant.
Context {crypto : NodeCrypto}.

Import PasswordManager.

Lemma decrypt_each_session (flag : Passwords.row -> t -> t) (rows : list Passwords.row) :
  (forall row m, encryption (flag row m) = encryption m) ->
  (forall row m, isLocked (flag row m) = isLocked m) ->
  forall m, encryption (snd (decrypt_each flag rows m)) = encryption m
            /\ isLocked (snd (decrypt_each flag rows m)) = isLocked m.
Proof.
  intros He Hl. induction rows as [|row rows IH]; intros m; [split; reflexivity|].
  cbn [decrypt_each].
  destruct (PasswordEncryption.decryptPasswordEntry row (encryption m)).
  - specialize (IH m). destruct (decrypt_each flag rows m). exact IH.
  - destruct (IH (flag row m)) as [I1 I2]. rewrite I1, I2, He, Hl. split; reflexivity.
Qed.

Ltac open_matches :=
  repeat match goal with
         | |- context [match ?x with _ => _ end] => destruct x
         end.

Ltac unchanged_session m :=
  let E := fresh "E" in
  destruct (isLocked m) eqn:E; [split; [reflexivity|exact E]|];
  open_matches; (split; [reflexivity|exact E]).

(** The operations on the store leave the session as it is. *)
Lemma store_operation_session (q : request) (now : timestamp) (m : t) :
  Spec.store_operation q = true ->
  encryption (snd (handle q now m)) = encryption m
  /\ isLocked (snd (handle q now m)) = isLocked m.
Proof.
  intros Hq. destruct q; try discriminate Hq; cbn [handle replying snd].
  - unfold addPassword. unchanged_session m.
  - unfold getPasswords. destruct (isLocked m) eqn:E; [split; [reflexivity|exact E]|].
    pose proof (decrypt_each_session log_failed_entry
                  (PasswordDatabase.getPasswords domain
                     (database (resetAutoLockTimer now m)))
                  (fun _ _ => eq_refl) (fun _ _ => eq_refl)
                  (resetAutoLockTimer now m)) as [I1 I2].
    destruct (decrypt_each log_failed_entry _ _) as [ds m']. cbn [snd] in *.
    rewrite I1, I2. split; [reflexivity|exact E].
  - unfold getPassword. unchanged_session m.
  - unfold updatePassword. unchanged_session m.
  - unfold deletePassword. unchanged_session m.
  - unfold searchPasswords. destruct (isLocked m) eqn:E; [split; [reflexivity|exact E]|].
    pose proof (decrypt_each_session ignore_entry
                  (PasswordDatabase.searchPasswords query
                     (database (resetAutoLockTimer now m)))
                  (fun _ _ => eq_refl) (fun _ _ => eq_refl)
                  (resetAutoLockTimer now m)) as [I1 I2].
    destruct (decrypt_each ignore_entry _ _) as [ds m']. cbn [snd] in *.
    rewrite I1, I2. split; [reflexivity|exact E].
  - unfold addSecureNote. unchanged_session m.
  - unfold getSecureNotes. unchanged_session m.
  - unfold deleteSecureNote. unchanged_session m.
  - unfold getStatistics. unchanged_session m.
  - unfold exportData. unchanged_session m.
  - unfold importData. unchanged_session m.
  - unfold findDuplicatePasswords. unchanged_session m.
  - unfold getAllTags. unchanged_session m.
Qed.

Lemma install_key_well_formed masterPassword s e :
  Spec.key_well_formed (PasswordEncryption.install_key masterPassword s e).
Proof.
  intros l Hl. cbn [PasswordEncryption.install_key PasswordEncryption.masterKey] in Hl.
  injection Hl as <-. apply installed_key_length.
Qed.

Lemma locked_key_well_formed e r :
  Spec.key_well_formed (fst (PasswordEncryption.lock e r)).
Proof.
  intros l. unfold PasswordEncryption.lock.
  destruct (PasswordEncryption.masterKey e); cbn; discriminate.
Qed.

(** Every request keeps the session invariant. *)
Lemma handle_session_invariant (q : request) (now : timestamp) (m : t) :
  Spec.session_invariant m -> Spec.session_invariant (snd (handle q now m)).
Proof.
  intros [Hk Hu].
  destruct (Spec.store_operation q) eqn:S.
  { destruct (store_operation_session q now m S) as [E1 E2].
    unfold Spec.session_invariant. rewrite E1, E2. split; assumption. }
  destruct q; try discriminate S; cbn [handle replying snd].
  - split; assumption.
  - unfold setupMasterPassword.
    destruct (PasswordEncryption.score _ <? 3); [split; assumption|].
    unfold PasswordEncryption.initialize.
    destruct (PasswordEncryption.generateSalt (random m)) as [s r1].
    unfold PasswordEncryption.encrypt.
    cbn [PasswordEncryption.install_key PasswordEncryption.masterKey].
    destruct (PasswordEncryption.generateIV r1) as [iv r2].
    cbn [snd encryption isLocked resetAutoLockTimer with_timer with_isLocked
         with_database with_random with_encryption].
    split; [apply install_key_well_formed|]. intros _. discriminate.
  - unfold unlock.
    destruct (PasswordDatabase.getMasterPasswordSettings (database m));
      [|split; assumption].
    rewrite verifyMasterPassword_spec.
    destruct (match PasswordEncryption.open _ _ with
              | Return d => jsstring_eqb d PasswordEncryption.verificationData
              | Throw _ => false
              end);
      cbn [snd encryption isLocked resetAutoLockTimer with_timer with_isLocked
           with_database with_encryption];
      (split; [apply install_key_well_formed|intros _; discriminate]).
  - unfold lock.
    pose proof (locked_key_well_formed (encryption m) (random m)) as K.
    destruct (PasswordEncryption.lock (encryption m) (random m)) as [e1 r1].
    cbn [fst snd encryption isLocked clearAutoLockTimer with_timer with_isLocked
         with_random with_encryption] in *.
    split; [exact K|discriminate].
  - split; assumption.
  - unfold generatePassword.
    destruct (PasswordEncryption.generatePassword o (random m)) as [[pw|msg] r1];
      split; assumption.
  - split; assumption.
Qed.

Lemma apply_event_session_invariant (m : t) (ev : event) :
  Spec.session_invariant m -> Spec.session_invariant (apply_event m ev).
Proof.
  intros H. destruct ev as [q now| |]; cbn [apply_event].
  - apply handle_session_invariant, H.
  - destruct (autoLockTimer m); [|exact H].
    apply (handle_session_invariant pm_lock 0 m H).
  - split; [intros l; discriminate|discriminate].
Qed.

(** On every reachable manager: Unlocked implies that a key is resident, and
    the resident key has 32 bytes. *)
Lemma run_session_invariant (fk : bool) (r : entropy) (events : list event) :
  Spec.session_invariant (run fk r events).
Proof.
  unfold run.
  assert (G : forall m, Spec.session_invariant m ->
                        Spec.session_invariant (fold_left apply_event events m)).
  { induction events as [|ev events IH]; intros m H; [exact H|].
    cbn [fold_left]. apply IH. apply apply_event_session_invariant, H. }
  apply G. split; [intros l; discriminate|discriminate].
Qed.

(** On every reachable manager [lock()] leaves the manager Locked with no key
    referenced, and the buffer that held the key holds 32 fresh random bytes
    instead. *)
Lemma lock_overwrites_the_resident_key (fk : bool) (r : entropy) (events : list event)
      (l : nat) :
  let m := run fk r events in
  PasswordEncryption.masterKey (encryption m) = Some l ->
  isLocked (snd (lock m)) = true
  /\ PasswordEncryption.masterKey (encryption (snd (lock m))) = None
  /\ PasswordEncryption.read l (encryption (snd (lock m)))
     = fst (randomBytes 32 (random m)).
Proof.
  cbv zeta. intros K.
  destruct (run_session_invariant fk r events) as [Hk _].
  pose proof (Hk l K) as Hlen.
  assert (Hin : (l < List.length (PasswordEncryption.memory
                                    (encryption (run fk r events))))%nat).
  { destruct (Nat.lt_ge_cases l (List.length (PasswordEncryption.memory
                                                (encryption (run fk r events)))))
      as [H|H]; [exact H|].
    unfold PasswordEncryption.read in Hlen. rewrite nth_overflow in Hlen by exact H.
    discriminate Hlen. }
  destruct (lock_overwrites_key_buffer (encryption (run fk r events))
              (random (run fk r events)) l K Hin) as [H1 H2].
  rewrite Hlen in H2.
  unfold lock.
  destruct (PasswordEncryption.lock (encryption (run fk r events))
              (random (run fk r events))) as [e1 r1].
  cbn [fst snd encryption isLocked clearAutoLockTimer with_timer with_isLocked
       with_random with_encryption] in *.
  split; [reflexivity|]. split; assumption.
Qed.

(** On every reachable manager that is Unlocked, what [encrypt] produces
    [decrypt] reads back. *)
Lemma unlocked_vault_round_trip (fk : bool) (r : entropy) (events : list event)
      (plaintext : jsstring) :
  let m := run fk r events in
  isLocked m = false ->
  well_formed plaintext = true ->
  exists blob r',
    PasswordEncryption.encrypt plaintext (encryption m) (random m) = (Return blob, r')
    /\ PasswordEncryption.decrypt blob (encryption m) = Return plaintext.
Proof.
  cbv zeta. intros Hl Hw.
  destruct (run_session_invariant fk r events) as [Hk Hu].
  specialize (Hu Hl). unfold PasswordEncryption.encrypt, PasswordEncryption.decrypt.
  destruct (PasswordEncryption.masterKey (encryption (run fk r events))) as [l|] eqn:K;
    [|contradiction].
  pose proof (generateIV_length (random (run fk r events))) as Hi.
  destruct (PasswordEncryption.generateIV (random (run fk r events))) as [iv r'].
  cbn [fst] in Hi. eexists _, r'. split; [reflexivity|].
  apply open_seal; [apply Hk; exact K|exact Hi|exact Hw].
Qed.

End SessionInvariant.

(* ================================================================== *)
(** * Password strength *)
(* ================================================================== *)

Section StrengthFacts.

Import PasswordEncryption.

(** The regular expressions, read as statements about the characters. *)
Lemma has_repeat_iff (s : jsstring) :
  has_repeat s = true
  <-> exists i c, is_line_terminator c = false /\ Spec.run_of_three_at s i c.
Proof.
  unfold Spec.run_of_three_at. induction s as [|a rest IH].
  - split; [discriminate|]. intros [i [c [_ [H _]]]]. destruct i; discriminate.
  - cbn [has_repeat]. rewrite orb_true_iff, IH. split.
    + intros [H|[i [c [Hc [H1 [H2 H3]]]]]].
      * destruct rest as [|b [|c rest']]; try discriminate.
        apply andb_true_iff in H. destruct H as [H Hbc].
        apply andb_true_iff in H. destruct H as [Hn Hab].
        apply Z.eqb_eq in Hab, Hbc. subst b c.
        exists 0%nat, a. apply negb_true_iff in Hn. repeat split; assumption.
      * exists (S i), c. repeat split; assumption.
    + intros [i [c [Hc [H1 [H2 H3]]]]]. destruct i as [|i].
      * left. cbn [nth_error] in H1. injection H1 as ->.
        destruct rest as [|b [|d rest']]; [discriminate H2|discriminate H3|].
        cbn [nth_error] in H2, H3. injection H2 as ->. injection H3 as ->.
        rewrite Hc, !Z.eqb_refl. reflexivity.
      * right. exists i, c. repeat split; assumption.
Qed.

Lemma all_of_iff (class : Z -> bool) (s : jsstring) :
  all_of class s = true <-> Spec.consists_of class s.
Proof.
  unfold all_of, Spec.consists_of. destruct s as [|c s].
  - split; [discriminate|]. intros [H _]. contradiction.
  - rewrite forallb_forall, Forall_forall. split.
    + intros H. split; [discriminate|exact H].
    + intros [_ H]. exact H.
Qed.

Lemma add_indicator (b : bool) (s : Z) :
  (if b then s + 1 else s) = s + Spec.indicator b.
Proof. destruct b; unfold Spec.indicator; lia. Qed.

Lemma indicator_range (b : bool) : 0 <= Spec.indicator b <= 1.
Proof. destruct b; unfold Spec.indicator; lia. Qed.

(** The label chosen from the raw total is the label of the clamped score. *)
Lemma label_of_total (total : Z) :
  (if 7 <=? total then js "Very Strong"
   else if 5 <=? total then js "Strong"
   else if 3 <=? total then js "Fair"
   else if 2 <=? total then js "Weak"
   else js "Very Weak")
  = Spec.label (Spec.clamp 0 10 total).
Proof.
  unfold Spec.label, Spec.clamp.
  destruct (Z.leb_spec 7 total); destruct (Z.leb_spec 5 total);
    destruct (Z.leb_spec 3 total); destruct (Z.leb_spec 2 total); try lia;
    destruct (Z.ltb_spec (Z.max 0 (Z.min total 10)) 2); try lia;
    destruct (Z.ltb_spec (Z.max 0 (Z.min total 10)) 3); try lia;
    destruct (Z.ltb_spec (Z.max 0 (Z.min total 10)) 5); try lia;
    destruct (Z.ltb_spec (Z.max 0 (Z.min total 10)) 7); try lia; reflexivity.
Qed.

Lemma checkPasswordStrength_score (password : jsstring) :
  score (checkPasswordStrength password) = Spec.strength_score password
  /\ strength (checkPasswordStrength password)
     = Spec.label (score (checkPasswordStrength password))
  /\ 0 <= score (checkPasswordStrength password) <= 7.
Proof.
  unfold checkPasswordStrength. cbv zeta. rewrite !add_indicator.
  set (gained := 0 + _ + _ + _ + _ + _ + _ + _).
  assert (G : gained = Spec.length_points password + Spec.class_points password)
    by (subst gained; unfold Spec.length_points, Spec.class_points, Spec.symbol; lia).
  assert (R : 0 <= gained <= 7).
  { rewrite G. unfold Spec.length_points, Spec.class_points. cbv zeta.
    repeat match goal with
           | |- context [Spec.indicator ?b] =>
               pose proof (indicator_range b); generalize dependent (Spec.indicator b);
               intros
           end.
    lia. }
  unfold Spec.strength_score, Spec.points, Spec.penalty_points.
  rewrite <- G. clearbody gained.
  destruct (has_repeat password); destruct (all_of is_digit password);
    destruct (all_of is_alpha password);
    cbn [score strength Spec.indicator]; rewrite label_of_total;
    (split; [unfold Spec.clamp; f_equal; f_equal; lia
            |split; [reflexivity|unfold Spec.clamp in *; lia]]).
Qed.

End StrengthFacts.

(** C8 (amended). The score is the point count of the specification: +1 at
    each of the lengths 8, 12 and 16, +1 for each class present (lower, upper,
    digit, anything else), -1 each for an all-digit password, an
    all-alphabetic password and a run of three equal characters other than
    line terminators, clamped to [0,10].  The label is Very Weak below 2,
    Weak at 2, Fair at 3-4, Strong at 5-6 and Very Strong from 7.
    [setupMasterPassword] rejects every password that scores below 3 with
    WeakPassword and changes nothing. *)
Theorem C8_strength_score_and_labels
  {crypto : NodeCrypto} (password : jsstring) :
  let report := PasswordEncryption.checkPasswordStrength password in
  PasswordEncryption.score report = Spec.strength_score password
  /\ PasswordEncryption.strength report = Spec.label (PasswordEncryption.score report)
  /\ (PasswordEncryption.has_repeat password = true
      <-> exists i c, PasswordEncryption.is_line_terminator c = false
                      /\ Spec.run_of_three_at password i c)
  /\ (PasswordEncryption.all_of PasswordEncryption.is_digit password = true
      <-> Spec.consists_of PasswordEncryption.is_digit password)
  /\ (PasswordEncryption.all_of PasswordEncryption.is_alpha password = true
      <-> Spec.consists_of PasswordEncryption.is_alpha password)
  /\ forall (now : timestamp) (m : PasswordManager.t),
      PasswordEncryption.score report < Spec.minimum_score ->
      PasswordManager.setupMasterPassword password now m
      = (PasswordManager.WeakPassword report, m).
Proof.
  cbv zeta.
  destruct (checkPasswordStrength_score password) as [H1 [H2 _]].
  split; [exact H1|]. split; [exact H2|].
  split; [apply has_repeat_iff|].
  split; [apply all_of_iff|]. split; [apply all_of_iff|].
  intros now m Hlow. unfold PasswordManager.setupMasterPassword.
  unfold Spec.minimum_score in Hlow. apply Z.ltb_lt in Hlow. rewrite Hlow.
  reflexivity.
Qed.

Lemma C8_witness :
  PasswordManager.setupMasterPassword (js "password") 100
    (PasswordManager.create (PasswordDatabase.empty false) Toy.counter)
  = (PasswordManager.WeakPassword
       (PasswordEncryption.checkPasswordStrength (js "password")),
     PasswordManager.create (PasswordDatabase.empty false) Toy.counter).
Proof.
  apply (C8_strength_score_and_labels (js "password")). vm_compute. reflexivity.
Defined.

(** C8 as stated gives the label Weak to every score below 3; the one-letter
    password scores 0 and is labelled Very Weak. *)
Lemma C8_counterexample_very_weak :
  PasswordEncryption.score (PasswordEncryption.checkPasswordStrength (js "a")) = 0
  /\ PasswordEncryption.strength (PasswordEncryption.checkPasswordStrength (js "a"))
     = js "Very Weak"
  /\ PasswordEncryption.strength (PasswordEncryption.checkPasswordStrength (js "a"))
     <> Spec.claimed_label
          (PasswordEncryption.score (PasswordEncryption.checkPasswordStrength (js "a"))).
Proof.
  split; [reflexivity|]. split; [reflexivity|]. vm_compute. discriminate.
Qed.

(* ================================================================== *)
(** * Password generation *)
(* ================================================================== *)

Section GenerationFacts.

Import PasswordEncryption.

Lemma member_In (c : Z) (class : jsstring) : member c class = true <-> In c class.
Proof.
  unfold member. rewrite existsb_exists. split.
  - intros [x [Hx E]]. apply Z.eqb_eq in E. subst x. exact Hx.
  - intros H. exists c. split; [exact H|apply Z.eqb_refl].
Qed.

Lemma member_app (c : Z) (a b : jsstring) :
  member c (a ++ b) = member c a || member c b.
Proof. unfold member. apply existsb_app. Qed.

Lemma member_remove_class (c : Z) (class charset : jsstring) :
  member c (remove_class class charset) = member c charset && negb (member c class).
Proof.
  unfold remove_class. induction charset as [|x l IH]; [reflexivity|].
  cbn [filter]. destruct (member x class) eqn:Hx; cbn [negb].
  - rewrite IH. unfold member at 3. cbn [existsb]. fold (member c l).
    destruct (Z.eqb_spec c x) as [->|Hne]; cbn [orb]; [|reflexivity].
    rewrite Hx. cbn [negb]. rewrite andb_false_r, andb_false_r. reflexivity.
  - unfold member at 1 3. cbn [existsb]. fold (member c (filter (fun c0 => negb (member c0 class)) l)).
    fold (member c l). rewrite IH.
    destruct (Z.eqb_spec c x) as [->|Hne]; cbn [orb]; [|reflexivity].
    rewrite Hx. reflexivity.
Qed.

(** The character set is the enabled classes minus the exclusions asked
    for. *)
Lemma member_build_charset (o : options) (c : Z) :
  member c (build_charset o) = Spec.allowed o c.
Proof.
  unfold build_charset, Spec.allowed, Spec.enabled, Spec.excluded. cbv zeta.
  destruct (with_default true (lowercase o));
    destruct (with_default true (uppercase o));
    destruct (with_default true (numbers o));
    destruct (with_default true (symbols o));
    destruct (with_default false (excludeSimilar o));
    destruct (with_default false (excludeAmbiguous o));
    rewrite ?member_remove_class, ?member_app; cbn [app andb orb negb member existsb];
    rewrite ?orb_false_r, ?andb_true_r;
    repeat match goal with
           | |- context [member c ?l] =>
               let b := fresh "b" in
               generalize (member c l); intros b
           end;
    repeat match goal with b : bool |- _ => destruct b end; reflexivity.
Qed.

Lemma build_charset_nonempty (o : options) :
  Spec.some_class_enabled o = true -> build_charset o <> [].
Proof.
  unfold Spec.some_class_enabled. intros H E.
  assert (M : forall c, Spec.allowed o c = false).
  { intros c. rewrite <- member_build_charset, E. reflexivity. }
  pose proof (M 97) as M1. pose proof (M 65) as M2.
  pose proof (M 50) as M3. pose proof (M 33) as M4.
  unfold Spec.allowed, Spec.enabled, Spec.excluded in M1, M2, M3, M4.
  destruct (with_default true (lowercase o));
    destruct (with_default true (uppercase o));
    destruct (with_default true (numbers o));
    destruct (with_default true (symbols o)); try discriminate H;
    destruct (with_default false (excludeSimilar o));
    destruct (with_default false (excludeAmbiguous o));
    vm_compute in M1, M2, M3, M4; discriminate.
Qed.

Lemma randomInt_in_range (max : Z) (r : entropy) :
  0 < max ->
  exists i, randomInt max r = (Some i, {| draws := draws r; cursor := S (cursor r) |})
            /\ 0 <= i < max.
Proof.
  intros H. unfold randomInt. destruct (Z.leb_spec max 0); [lia|].
  eexists. split; [reflexivity|]. apply Z.mod_pos_bound. exact H.
Qed.

Lemma generate_loop_spec (charset : jsstring) :
  charset <> [] ->
  forall (n : nat) (password : jsstring) (r : entropy),
  exists drawn r',
    generate_loop n charset password r = (Return (password ++ drawn), r')
    /\ List.length drawn = n
    /\ Forall (fun c => In c charset) drawn.
Proof.
  intros Hne. induction n as [|n IH]; intros password r.
  - exists [], r. cbn [generate_loop]. rewrite app_nil_r. repeat split. constructor.
  - cbn [generate_loop].
    destruct (randomInt_in_range (Z.of_nat (List.length charset)) r) as [i [E R]].
    { destruct charset; [contradiction|]. cbn [List.length]. lia. }
    rewrite E.
    destruct (IH (password ++ [nth (Z.to_nat i) charset 0])
                 {| draws := draws r; cursor := S (cursor r) |})
      as [drawn [r' [G [L F]]]].
    exists (nth (Z.to_nat i) charset 0 :: drawn), r'.
    rewrite G, <- app_assoc. cbn [app List.length]. repeat split.
    + rewrite L. reflexivity.
    + constructor; [|exact F]. apply nth_In. lia.
Qed.

End GenerationFacts.

(** C9 (amended). For every options record with at least one character
    class enabled and a length that is not negative (in particular any
    length in [8,64]), [generatePassword] returns a string of exactly that
    length, and each of its characters is drawn from the enabled classes
    minus the exclusions that were requested; the character set the code
    draws from is exactly that set. *)
Theorem C9_generated_password_shape
  (o : PasswordEncryption.options) (m : PasswordManager.t) :
  Spec.some_class_enabled o = true ->
  0 <= Spec.requested_length o ->
  (forall c, In c (PasswordEncryption.build_charset o) <-> Spec.allowed o c = true)
  /\ exists password r',
      PasswordEncryption.generatePassword o (PasswordManager.random m)
      = (Return password, r')
      /\ PasswordManager.generatePassword o m
         = (PasswordManager.ok
              (PasswordManager.Generated
                 password (PasswordEncryption.checkPasswordStrength password)),
            PasswordManager.with_random r' m)
      /\ Z.of_nat (List.length password) = Spec.requested_length o
      /\ Forall (fun c => Spec.allowed o c = true) password.
Proof.
  intros Hc Hn. split.
  - intros c. rewrite <- member_build_charset. symmetry. apply member_In.
  - unfold PasswordManager.generatePassword, PasswordEncryption.generatePassword.
    destruct (generate_loop_spec _ (build_charset_nonempty o Hc)
                (Z.to_nat (PasswordEncryption.with_default 16
                             (PasswordEncryption.length o))) []
                (PasswordManager.random m))
      as [drawn [r' [G [L F]]]].
    exists drawn, r'. cbn [app] in G. rewrite G. split; [reflexivity|].
    split; [reflexivity|]. split.
    + rewrite L. unfold Spec.requested_length in *. lia.
    + eapply Forall_impl; [|exact F]. intros c Hin.
      rewrite <- member_build_charset. apply member_In. exact Hin.
Qed.

Lemma C9_witness :
  exists password r',
    PasswordEncryption.generatePassword
      {| PasswordEncryption.length := Some 20;
         PasswordEncryption.uppercase := Some true;
         PasswordEncryption.lowercase := Some true;
         PasswordEncryption.numbers := Some true;
         PasswordEncryption.symbols := Some false;
         PasswordEncryption.excludeSimilar := None;
         PasswordEncryption.excludeAmbiguous := None |} Toy.counter
    = (Return password, r')
    /\ Z.of_nat (List.length password) = 20.
Proof.
  destruct (C9_generated_password_shape
              {| PasswordEncryption.length := Some 20;
                 PasswordEncryption.uppercase := Some true;
                 PasswordEncryption.lowercase := Some true;
                 PasswordEncryption.numbers := Some true;
                 PasswordEncryption.symbols := Some false;
                 PasswordEncryption.excludeSimilar := None;
                 PasswordEncryption.excludeAmbiguous := None |}
              (PasswordManager.create (PasswordDatabase.empty false) Toy.counter)
              eq_refl ltac:(vm_compute; discriminate))
    as [_ [password [r' [G [_ [L _]]]]]].
  exists password, r'. split; [exact G|exact L].
Defined.

(** C9 as stated, for every options record, fails: with every class switched
    off the character set is empty, [crypto.randomInt(0, 0)] throws and no
    password is returned. *)
Lemma C9_counterexample_no_class_enabled :
  ~ (forall (o : PasswordEncryption.options) (r : entropy) (n : Z),
        PasswordEncryption.length o = Some n -> 8 <= n <= 64 ->
        exists password r',
          PasswordEncryption.generatePassword o r = (Return password, r')
          /\ Z.of_nat (List.length password) = n).
Proof.
  intros H.
  destruct (H {| PasswordEncryption.length := Some 8;
                 PasswordEncryption.uppercase := Some false;
                 PasswordEncryption.lowercase := Some false;
                 PasswordEncryption.numbers := Some false;
                 PasswordEncryption.symbols := Some false;
                 PasswordEncryption.excludeSimilar := None;
                 PasswordEncryption.excludeAmbiguous := None |}
              Toy.counter 8 eq_refl ltac:(lia))
    as [password [r' [G _]]].
  vm_compute in G. discriminate G.
Qed.

(** The reply in that case. *)
Example generatePassword_without_classes :
  fst (PasswordManager.generatePassword
         {| PasswordEncryption.length := Some 8;
            PasswordEncryption.uppercase := Some false;
            PasswordEncryption.lowercase := Some false;
            PasswordEncryption.numbers := Some false;
            PasswordEncryption.symbols := Some false;
            PasswordEncryption.excludeSimilar := None;
            PasswordEncryption.excludeAmbiguous := None |}
         (PasswordManager.create (PasswordDatabase.empty false) Toy.counter))
  = PasswordManager.failed PasswordEncryption.max_out_of_range.
Proof. reflexivity. Qed.

(* ================================================================== *)
(** * Reading one credential *)
(* ================================================================== *)

Section UsageFacts.

Import PasswordDatabase.

Lemma has_id_true (id : jsstring) (p : Passwords.row) :
  has_id id p = true <-> Passwords.id p = id.
Proof. apply jsstring_eqb_eq. Qed.

Lemma find_map_usage (id id' : jsstring) (now : timestamp) (l : list Passwords.row) :
  find (has_id id')
       (map (fun p => if has_id id p then Spec.used now p else p) l)
  = match find (has_id id') l with
    | Some p => Some (if has_id id p then Spec.used now p else p)
    | None => None
    end.
Proof.
  induction l as [|p l IH]; [reflexivity|]. cbn [map find].
  assert (E : has_id id' (if has_id id p then Spec.used now p else p) = has_id id' p)
    by (destruct (has_id id p); reflexivity).
  rewrite E. destruct (has_id id' p); [reflexivity|exact IH].
Qed.

Lemma updatePasswordUsage_rows (id : jsstring) (now : timestamp) (db : t) :
  passwords (updatePasswordUsage id now db)
  = map (fun p => if has_id id p then Spec.used now p else p) (passwords db).
Proof. reflexivity. Qed.

End UsageFacts.

(** C10 (amended).  While Unlocked, [getCredential(id)] on a stored entry
    whose fields decrypt under the key of the session returns the decrypted
    entry and, besides, adds exactly 1 to that entry's [use_count] and sets
    its [last_used] to the current time.  Every other column of the entry,
    every other entry, the settings, the history and the notes stay as they
    were: the read is not free of side effects.  The entry returned shows
    the columns of the row as they were before the read, with the password
    and the notes decrypted.  When a field of the entry
    does not decrypt, the call fails with the message of the cipher and
    records nothing.  (Ids are strings without unpaired surrogate, as the
    database holds them.) *)
Theorem C10_reading_a_credential_records_usage
  {crypto : NodeCrypto} (m : PasswordManager.t) (id : jsstring) (now : timestamp)
  (row : Passwords.row) :
  PasswordManager.isLocked m = false ->
  well_formed id = true ->
  PasswordDatabase.getPassword id (PasswordManager.database m) = Some row ->
  let result := PasswordManager.getPassword id now m in
  let db := PasswordManager.database m in
  let db' := PasswordManager.database (snd result) in
  (forall entry,
      PasswordEncryption.decryptPasswordEntry row (PasswordManager.encryption m)
      = Return entry ->
      fst result = PasswordManager.ok (PasswordManager.Password entry)
      /\ PasswordDatabase.getPassword id db' = Some (Spec.used now row)
      /\ Passwords.use_count (Spec.used now row) = Passwords.use_count row + 1
      /\ Passwords.last_used (Spec.used now row) = Some now
      /\ (forall id', well_formed id' = true -> id' <> id ->
            PasswordDatabase.getPassword id' db' = PasswordDatabase.getPassword id' db)
      /\ PasswordDatabase.passwords db'
         = map (fun p => if PasswordDatabase.has_id id p then Spec.used now p else p)
               (PasswordDatabase.passwords db)
      /\ PasswordDatabase.password_settings db' = PasswordDatabase.password_settings db
      /\ PasswordDatabase.password_history db' = PasswordDatabase.password_history db
      /\ PasswordDatabase.secure_notes db' = PasswordDatabase.secure_notes db
      /\ PasswordEncryption.decrypt_if_truthy
           (Some (Passwords.encrypted_password row)) (PasswordManager.encryption m)
         = Return (PasswordEncryption.de_password entry)
      /\ PasswordEncryption.decrypt_if_truthy
           (Passwords.encrypted_notes row) (PasswordManager.encryption m)
         = Return (PasswordEncryption.de_notes entry)
      /\ PasswordEncryption.de_id entry = id
      /\ PasswordEncryption.de_domain entry = Passwords.domain row
      /\ PasswordEncryption.de_username entry = Passwords.username row
      /\ PasswordEncryption.de_use_count entry = Passwords.use_count row
      /\ PasswordEncryption.de_last_used entry = Passwords.last_used row)
  /\ (forall message,
         PasswordEncryption.decryptPasswordEntry row (PasswordManager.encryption m)
         = Throw message ->
         fst result = PasswordManager.failed message /\ db' = db)
  /\ PasswordManager.encryption (snd result) = PasswordManager.encryption m
  /\ PasswordManager.isLocked (snd result) = false.
Proof.
  intros Hl _ Hg. cbv zeta. unfold PasswordManager.getPassword. rewrite Hl.
  cbn [PasswordManager.database PasswordManager.resetAutoLockTimer
       PasswordManager.with_timer PasswordManager.encryption].
  rewrite Hg.
  assert (Hid : PasswordDatabase.has_id id row = true)
    by (unfold PasswordDatabase.getPassword in Hg; apply find_some in Hg; apply Hg).
  split; [|split].
  - intros entry Hd. rewrite Hd.
    cbn [fst snd PasswordManager.database PasswordManager.with_database
         PasswordManager.encryption PasswordManager.isLocked].
    split; [reflexivity|].
    split.
    { unfold PasswordDatabase.getPassword. rewrite updatePasswordUsage_rows.
      rewrite find_map_usage. unfold PasswordDatabase.getPassword in Hg.
      rewrite Hg, Hid. reflexivity. }
    split; [reflexivity|]. split; [reflexivity|].
    split.
    { intros id' _ Hne. unfold PasswordDatabase.getPassword.
      rewrite updatePasswordUsage_rows, find_map_usage.
      destruct (find (PasswordDatabase.has_id id') (PasswordDatabase.passwords
                  (PasswordManager.database m))) as [p|] eqn:F; [|reflexivity].
      apply find_some in F. destruct F as [_ F]. apply has_id_true in F.
      destruct (PasswordDatabase.has_id id p) eqn:G; [|reflexivity].
      apply has_id_true in G. congruence. }
    split; [reflexivity|]. split; [reflexivity|]. split; [reflexivity|].
    split; [reflexivity|].
    unfold PasswordEncryption.decryptPasswordEntry in Hd.
    destruct (PasswordEncryption.decrypt_if_truthy
                (Some (Passwords.encrypted_password row)) (PasswordManager.encryption m))
      as [password|msg]; [|discriminate Hd].
    destruct (PasswordEncryption.decrypt_if_truthy
                (Passwords.encrypted_notes row) (PasswordManager.encryption m))
      as [notes|msg]; [|discriminate Hd].
    injection Hd as <-.
    cbn [PasswordEncryption.de_password PasswordEncryption.de_notes
         PasswordEncryption.de_id PasswordEncryption.de_domain
         PasswordEncryption.de_username PasswordEncryption.de_use_count
         PasswordEncryption.de_last_used].
    apply has_id_true in Hid. repeat split; try reflexivity. exact Hid.
  - intros message Hd. rewrite Hd. split; reflexivity.
  - destruct (PasswordEncryption.decryptPasswordEntry row (PasswordManager.encryption m));
      split; try reflexivity; exact Hl.
Qed.

Lemma C10_witness :
  exists row,
    PasswordDatabase.getPassword Scenario.example_id
      (PasswordManager.database (Scenario.unlocked_vault true)) = Some row
    /\ Passwords.use_count row = 0
    /\ option_map Passwords.use_count
         (PasswordDatabase.getPassword Scenario.example_id
            (PasswordManager.database
               (snd (PasswordManager.getPassword
                       Scenario.example_id 150 (Scenario.unlocked_vault true)))))
       = Some 1.
Proof.
  destruct (PasswordDatabase.getPassword Scenario.example_id
              (PasswordManager.database (Scenario.unlocked_vault true)))
    as [row|] eqn:G.
  2: { assert (F : match PasswordDatabase.getPassword Scenario.example_id
                           (PasswordManager.database (Scenario.unlocked_vault true)) with
                   | Some _ => true
                   | None => false
                   end = true) by (vm_compute; reflexivity).
       rewrite G in F. discriminate F. }
  assert (U : option_map Passwords.use_count
                (PasswordDatabase.getPassword Scenario.example_id
                   (PasswordManager.database (Scenario.unlocked_vault true)))
              = Some 0) by (vm_compute; reflexivity).
  rewrite G in U. cbn [option_map] in U. injection U as U.
  assert (D : match option_map
                      (fun row => PasswordEncryption.decryptPasswordEntry row
                                    (PasswordManager.encryption
                                       (Scenario.unlocked_vault true)))
                      (PasswordDatabase.getPassword Scenario.example_id
                         (PasswordManager.database (Scenario.unlocked_vault true))) with
              | Some (Return _) => true
              | _ => false
              end = true) by (vm_compute; reflexivity).
  rewrite G in D. cbn [option_map] in D.
  destruct (PasswordEncryption.decryptPasswordEntry row
              (PasswordManager.encryption (Scenario.unlocked_vault true)))
    as [entry|message] eqn:E; [|discriminate D].
  assert (L : PasswordManager.isLocked (Scenario.unlocked_vault true) = false)
    by (vm_compute; reflexivity).
  destruct (C10_reading_a_credential_records_usage
              (Scenario.unlocked_vault true) Scenario.example_id 150 row
              L eq_refl G) as [H _].
  destruct (H entry E) as [_ [H2 [H3 _]]].
  exists row. split; [reflexivity|]. split; [exact U|].
  rewrite H2. cbn [option_map]. rewrite H3, U. reflexivity.
Defined.

(** C10 as stated holds of every stored credential.  After a second set-up
    of the master password the credential stored under the first one no
    longer decrypts: reading it fails and its use count stays 0. *)
Lemma C10_counterexample_undecryptable_entry :
  ~ (forall crypto : NodeCrypto, @Spec.reading_records_usage crypto).
Proof.
  intros H.
  assert (G : exists row,
             PasswordDatabase.getPassword Scenario.example_id
               (PasswordManager.database
                  (PasswordManager.run true Toy.counter Cases.set_up_again))
             = Some row).
  { destruct (PasswordDatabase.getPassword Scenario.example_id
                (PasswordManager.database
                   (PasswordManager.run true Toy.counter Cases.set_up_again)))
      as [row|] eqn:E; [exists row; reflexivity|].
    assert (F : match PasswordDatabase.getPassword Scenario.example_id
                        (PasswordManager.database
                           (PasswordManager.run true Toy.counter Cases.set_up_again)) with
                | Some _ => true
                | None => false
                end = true) by (vm_compute; reflexivity).
    rewrite E in F. discriminate F. }
  destruct G as [row G].
  assert (L : PasswordManager.isLocked
                (PasswordManager.run true Toy.counter Cases.set_up_again) = false)
    by (vm_compute; reflexivity).
  destruct (H toy_crypto true Toy.counter Cases.set_up_again Scenario.example_id 150
              row L G) as [S _].
  assert (F : PasswordManager.success
                (fst (PasswordManager.getPassword Scenario.example_id 150
                        (PasswordManager.run true Toy.counter Cases.set_up_again)))
              = false) by (vm_compute; reflexivity).
  rewrite F in S. discriminate S.
Qed.

(* ================================================================== *)
(** * Sorting, duplicate detection and batch reads *)
(* ================================================================== *)

Section OrderFacts.

Import PasswordDatabase.

Lemma insert_sorted_perm {A : Type} (before : A -> A -> bool) (x : A) (l : list A) :
  Permutation (insert_sorted before x l) (x :: l).
Proof.
  induction l as [|y l IH]; [reflexivity|]. cbn [insert_sorted].
  destruct (before y x); [|reflexivity].
  rewrite IH. apply perm_swap.
Qed.

(** [ORDER BY] rearranges the rows and nothing else. *)
Lemma order_by_perm {A : Type} (before : A -> A -> bool) (l : list A) :
  Permutation (order_by before l) l.
Proof.
  unfold order_by. induction l as [|x l IH]; [reflexivity|]. cbn [fold_right].
  rewrite insert_sorted_perm. apply perm_skip. exact IH.
Qed.

Lemma order_by_In {A : Type} (before : A -> A -> bool) (l : list A) (x : A) :
  In x (order_by before l) <-> In x l.
Proof.
  split; apply Permutation_in; [|symmetry]; apply order_by_perm.
Qed.

Lemma order_by_length {A : Type} (before : A -> A -> bool) (l : list A) :
  List.length (order_by before l) = List.length l.
Proof. apply Permutation_length, order_by_perm. Qed.

End OrderFacts.

Section DuplicateFacts.

Import PasswordDatabase.

(** A map whose keys are distinct from the key of [p] gains a group of
    one. *)
Lemma map_push_fresh (p : Passwords.row) (m : list (jsstring * list Passwords.row)) :
  ~ In (Passwords.encrypted_password p) (map fst m) ->
  map_push p m = m ++ [(Passwords.encrypted_password p, [p])].
Proof.
  induction m as [|[k entries] m IH]; intros H; [reflexivity|].
  cbn [map_push]. cbn [map fst In] in H.
  destruct (jsstring_eqb k (Passwords.encrypted_password p)) eqn:E.
  - apply jsstring_eqb_eq in E. tauto.
  - rewrite IH by tauto. reflexivity.
Qed.

Lemma fold_map_push_distinct (rows : list Passwords.row) :
  forall m,
    NoDup (map fst m ++ map Passwords.encrypted_password rows) ->
    fold_left (fun m p => map_push p m) rows m
    = m ++ map (fun p => (Passwords.encrypted_password p, [p])) rows.
Proof.
  induction rows as [|p rows IH]; intros m H; cbn [fold_left map].
  - symmetry. apply app_nil_r.
  - rewrite map_push_fresh.
    + rewrite IH.
      * rewrite <- app_assoc. reflexivity.
      * rewrite map_app. cbn [map fst]. rewrite <- app_assoc. exact H.
    + cbn [map] in H. apply NoDup_remove_2 in H. intros Hin. apply H.
      apply in_or_app. left. exact Hin.
Qed.

(** Entries whose stored ciphertexts are all different are never reported as
    duplicates, whatever they decrypt to. *)
Lemma findDuplicatePasswords_distinct_ciphertexts (db : t) :
  NoDup (map Passwords.encrypted_password (passwords db)) ->
  findDuplicatePasswords db = [].
Proof.
  intros H. unfold findDuplicatePasswords, getPasswords. cbn [truthy].
  rewrite fold_map_push_distinct.
  - cbn [app]. induction (order_by by_modified_desc (passwords db)) as [|p l IH];
      [reflexivity|exact IH].
  - cbn [map app]. eapply Permutation_NoDup; [|exact H].
    apply Permutation_map. symmetry. apply order_by_perm.
Qed.

End DuplicateFacts.

(** C6, the failing path.  Two stored entries that hold the same password,
    encrypted under the same key with two different nonces, decrypt to the
    same plaintext, yet [findDuplicatePasswords] reports no duplicate group:
    it compares the stored ciphertexts. *)
Theorem C6_equal_passwords_are_not_grouped
  {crypto : NodeCrypto} (db : PasswordDatabase.t) (key iv1 iv2 : bytes)
  (password : jsstring) (a b : Passwords.row) :
  List.length key = 32%nat ->
  List.length iv1 = 16%nat -> List.length iv2 = 16%nat -> iv1 <> iv2 ->
  well_formed password = true ->
  PasswordDatabase.passwords db = [a; b] ->
  Passwords.encrypted_password a = PasswordEncryption.seal key iv1 password ->
  Passwords.encrypted_password b = PasswordEncryption.seal key iv2 password ->
  PasswordEncryption.open key (Passwords.encrypted_password a) = Return password
  /\ PasswordEncryption.open key (Passwords.encrypted_password b) = Return password
  /\ PasswordDatabase.findDuplicatePasswords db = [].
Proof.
  intros Hk H1 H2 Hne Hw Hrows Ha Hb.
  split; [rewrite Ha; apply open_seal; assumption|].
  split; [rewrite Hb; apply open_seal; assumption|].
  apply findDuplicatePasswords_distinct_ciphertexts. rewrite Hrows. cbn [map].
  constructor; [|constructor; [intros []|constructor]].
  intros [E|[]]. rewrite Ha, Hb in E. symmetry in E.
  apply seal_nonce_inj in E; [contradiction|assumption|assumption].
Qed.

Lemma C6_witness :
  PasswordEncryption.open
    (PasswordEncryption.read 0
       (PasswordManager.encryption Scenario.vault_with_reused_password))
    (Passwords.encrypted_password
       (nth 0 (PasswordDatabase.passwords
                 (PasswordManager.database Scenario.vault_with_reused_password))
            Scenario.blank_row))
  = Return (js "hunter2")
  /\ PasswordEncryption.open
       (PasswordEncryption.read 0
          (PasswordManager.encryption Scenario.vault_with_reused_password))
       (Passwords.encrypted_password
          (nth 1 (PasswordDatabase.passwords
                    (PasswordManager.database Scenario.vault_with_reused_password))
               Scenario.blank_row))
     = Return (js "hunter2")
  /\ PasswordDatabase.findDuplicatePasswords
       (PasswordManager.database Scenario.vault_with_reused_password) = [].
Proof.
  apply (C6_equal_passwords_are_not_grouped
           (PasswordManager.database Scenario.vault_with_reused_password)
           (PasswordEncryption.read 0
              (PasswordManager.encryption Scenario.vault_with_reused_password))
           (fst (randomBytes 16 {| draws := draws Toy.counter; cursor := 64 |}))
           (fst (randomBytes 16 {| draws := draws Toy.counter; cursor := 96 |}))
           (js "hunter2")).
  - vm_compute. reflexivity.
  - reflexivity.
  - reflexivity.
  - intros E. vm_compute in E. discriminate E.
  - reflexivity.
  - vm_compute. reflexivity.
  - vm_compute. reflexivity.
  - vm_compute. reflexivity.
Defined.

Section BatchFacts.
Context {crypto : NodeCrypto}.

Import PasswordManager.

(** [getPasswords] and [searchPasswords] return the entries that decrypt, in
    the order of the rows; an entry that does not is left out and the rest is
    unaffected. *)
Lemma decrypt_each_isolates (flag : Passwords.row -> t -> t) (rows : list Passwords.row) :
  (forall row m, encryption (flag row m) = encryption m) ->
  forall m,
    fst (decrypt_each flag rows m) = flat_map (Spec.decryptable (encryption m)) rows
    /\ encryption (snd (decrypt_each flag rows m)) = encryption m.
Proof.
  intros Hflag. induction rows as [|row rows IH]; intros m; [split; reflexivity|].
  cbn [decrypt_each flat_map]. unfold Spec.decryptable at 1.
  destruct (PasswordEncryption.decryptPasswordEntry row (encryption m)) as [d|msg].
  - destruct (IH m) as [I1 I2].
    destruct (decrypt_each flag rows m) as [ds m']. cbn [fst snd] in *.
    rewrite I1. split; [reflexivity|exact I2].
  - destruct (IH (flag row m)) as [I1 I2]. rewrite Hflag in I1, I2.
    cbn [app]. split; assumption.
Qed.

Lemma getPasswords_isolates_failures (domain : option jsstring) (now : timestamp) (m : t) :
  isLocked m = false ->
  fst (getPasswords domain now m)
  = ok (PasswordList
          (flat_map (Spec.decryptable (encryption m))
                    (PasswordDatabase.getPasswords domain (database m)))).
Proof.
  intros Hl. unfold getPasswords. rewrite Hl.
  pose proof (decrypt_each_isolates log_failed_entry
                (PasswordDatabase.getPasswords domain
                   (database (resetAutoLockTimer now m)))
                (fun _ _ => eq_refl) (resetAutoLockTimer now m)) as [I _].
  destruct (decrypt_each log_failed_entry _ (resetAutoLockTimer now m)) as [ds m'].
  cbn [fst] in *. rewrite I. reflexivity.
Qed.

Lemma decrypt_notes_fails (notes : list Notes.row) (e : PasswordEncryption.t)
      (n : Notes.row) (message : jsstring) :
  In n notes ->
  PasswordEncryption.decrypt (Notes.encrypted_content n) e = Throw message ->
  exists message', decrypt_notes notes e = Throw message'.
Proof.
  intros Hin Hd. induction notes as [|x notes IH]; [contradiction|].
  cbn [decrypt_notes].
  destruct (PasswordEncryption.decrypt (Notes.encrypted_content x) e) as [c|msg] eqn:E.
  - destruct Hin as [->|Hin]; [congruence|].
    destruct (IH Hin) as [message' ->]. exists message'. reflexivity.
  - exists msg. reflexivity.
Qed.

End BatchFacts.

(** C7, the failing path.  When one stored note fails to decrypt,
    [getSecureNotes] returns no note at all: the whole call fails with the
    decryption error, although [getPasswords] and [searchPasswords] skip such
    an entry and return the others. *)
Theorem C7_one_bad_note_fails_the_listing
  {crypto : NodeCrypto} (m : PasswordManager.t) (now : timestamp) (n : Notes.row)
  (message : jsstring) :
  PasswordManager.isLocked m = false ->
  In n (PasswordDatabase.secure_notes (PasswordManager.database m)) ->
  PasswordEncryption.decrypt (Notes.encrypted_content n) (PasswordManager.encryption m)
  = Throw message ->
  exists message',
    fst (PasswordManager.getSecureNotes now m) = PasswordManager.failed message'.
Proof.
  intros Hl Hin Hd. unfold PasswordManager.getSecureNotes. rewrite Hl.
  cbn [PasswordManager.database PasswordManager.encryption
       PasswordManager.resetAutoLockTimer PasswordManager.with_timer].
  destruct (decrypt_notes_fails
              (PasswordDatabase.getSecureNotes (PasswordManager.database m))
              (PasswordManager.encryption m) n message) as [message' E].
  - unfold PasswordDatabase.getSecureNotes. apply order_by_In. exact Hin.
  - exact Hd.
  - rewrite E. exists message'. reflexivity.
Qed.

Lemma C7_witness :
  exists message,
    fst (PasswordManager.getSecureNotes 113 Scenario.vault_with_bad_note)
    = PasswordManager.failed message.
Proof.
  apply (C7_one_bad_note_fails_the_listing Scenario.vault_with_bad_note 113
           (nth 2 (PasswordDatabase.secure_notes
                     (PasswordManager.database Scenario.vault_with_bad_note))
                Scenario.blank_note)
           PasswordEncryption.unable_to_authenticate).
  - reflexivity.
  - vm_compute. right. right. left. reflexivity.
  - vm_compute. reflexivity.
Defined.

(* ================================================================== *)
(** * Credential history *)
(* ================================================================== *)

Section ListFacts.
Context {A : Type}.

Lemma lastn_length (n : nat) (l : list A) :
  List.length (Spec.lastn n l) = Nat.min n (List.length l).
Proof. unfold Spec.lastn. rewrite length_skipn. lia. Qed.

Lemma lastn_short (n : nat) (l : list A) :
  (List.length l <= n)%nat -> Spec.lastn n l = l.
Proof.
  intros H. unfold Spec.lastn.
  replace (List.length l - n)%nat with 0%nat by lia. reflexivity.
Qed.

Lemma lastn_app_keep (n : nat) (a b : list A) :
  Spec.lastn n (Spec.lastn n a ++ b) = Spec.lastn n (a ++ b).
Proof.
  unfold Spec.lastn. rewrite !length_app, length_skipn.
  rewrite !skipn_app, length_skipn, skipn_skipn.
  f_equal.
  - f_equal. lia.
  - f_equal. lia.
Qed.

Lemma lastn_split (n : nat) (l : list A) :
  l = firstn (List.length l - n) l ++ Spec.lastn n l.
Proof. unfold Spec.lastn. symmetry. apply firstn_skipn. Qed.

Lemma lastn_map {B : Type} (f : A -> B) (n : nat) (l : list A) :
  map f (Spec.lastn n l) = Spec.lastn n (map f l).
Proof. unfold Spec.lastn. rewrite length_map. symmetry. apply skipn_map. Qed.

Lemma filter_filter (f g : A -> bool) (l : list A) :
  filter f (filter g l) = filter (fun x => g x && f x) l.
Proof.
  induction l as [|x l IH]; [reflexivity|]. cbn [filter].
  destruct (g x); cbn [filter andb]; [destruct (f x)|]; rewrite IH; reflexivity.
Qed.

Lemma filter_comm (f g : A -> bool) (l : list A) :
  filter f (filter g l) = filter g (filter f l).
Proof.
  rewrite !filter_filter. apply filter_ext. intros x. apply andb_comm.
Qed.

Lemma filter_length_le (f : A -> bool) (l : list A) :
  (List.length (filter f l) <= List.length l)%nat.
Proof.
  induction l as [|x l IH]; [reflexivity|]. cbn [filter].
  destruct (f x); cbn [List.length]; lia.
Qed.

(** Distinct keys stay distinct when rows are dropped. *)
Lemma NoDup_map_filter {K : Type} (key : A -> K) (keep : A -> bool) (rows : list A)
      (distinct : NoDup (map key rows)) :
  NoDup (map key (filter keep rows)).
Proof.
  revert distinct. induction rows as [|x rows IH]; intros H; [constructor|].
  cbn [map] in H. inversion H as [|? ? Hn Hd]; subst.
  cbn [filter]. destruct (keep x); [|apply IH; exact Hd].
  cbn [map]. constructor; [|apply IH; exact Hd].
  intros Hin. apply Hn. apply in_map_iff in Hin. destruct Hin as [y [E Hy]].
  apply filter_In in Hy. apply in_map_iff. exists y. tauto.
Qed.

End ListFacts.

Section KeepFacts.

Lemma kept_In (keep : list Z) (h : History.row) :
  Spec.kept keep h = true <-> In (History.id h) keep.
Proof.
  unfold Spec.kept. rewrite existsb_exists. split.
  - intros [x [Hx E]]. apply Z.eqb_eq in E. subst. exact Hx.
  - intros H. exists (History.id h). split; [exact H|apply Z.eqb_refl].
Qed.

(** With distinct ids, keeping the rows whose id is listed keeps at most as
    many rows as there are ids. *)
Lemma kept_length (keep : list Z) (rows : list History.row) :
  NoDup (map History.id rows) ->
  (List.length (filter (Spec.kept keep) rows) <= List.length keep)%nat.
Proof.
  intros H. rewrite <- (length_map History.id (filter (Spec.kept keep) rows)).
  apply NoDup_incl_length; [apply NoDup_map_filter; exact H|].
  intros x Hx. apply in_map_iff in Hx. destruct Hx as [h [<- Hh]].
  apply filter_In in Hh. apply kept_In. apply Hh.
Qed.

(** With distinct ids, keeping the ids of a suffix keeps that suffix. *)
Lemma kept_suffix (a b : list History.row) (keep : list Z) :
  NoDup (map History.id (a ++ b)) ->
  (forall x, In x keep <-> In x (map History.id b)) ->
  filter (Spec.kept keep) (a ++ b) = b.
Proof.
  intros Hnd Hkeep. rewrite filter_app.
  assert (Ha : filter (Spec.kept keep) a = []).
  { clear - Hnd Hkeep. induction a as [|x a IH]; [reflexivity|].
    cbn [app map] in Hnd. inversion Hnd as [|? ? Hn Hd]; subst.
    cbn [filter]. destruct (Spec.kept keep x) eqn:K.
    - exfalso. apply kept_In in K. apply Hkeep in K. apply Hn.
      rewrite map_app. apply in_or_app. right. exact K.
    - apply IH. exact Hd. }
  assert (Hb : filter (Spec.kept keep) b = b).
  { clear - Hkeep.
    assert (G : forall l, incl l b -> filter (Spec.kept keep) l = l).
    { induction l as [|x l IH]; intros Hi; [reflexivity|]. cbn [filter].
      assert (K : Spec.kept keep x = true).
      { apply kept_In. apply Hkeep. apply in_map. apply Hi. left. reflexivity. }
      rewrite K, IH; [reflexivity|].
      intros y Hy. apply Hi. right. exact Hy. }
    apply G. apply incl_refl. }
  rewrite Ha, Hb. reflexivity.
Qed.

End KeepFacts.

Section SortFacts.

Import PasswordDatabase.

Lemma insert_sorted_last {A : Type} (before : A -> A -> bool) (x : A) (l : list A) :
  Forall (fun y => before y x = true) l -> insert_sorted before x l = l ++ [x].
Proof.
  induction l as [|y l IH]; intros H; [reflexivity|].
  inversion H as [|? ? Hy Hl]; subst. cbn [insert_sorted]. rewrite Hy, IH by exact Hl.
  reflexivity.
Qed.

(** Rows stored in increasing order of change time come out of
    [ORDER BY changed_at DESC] reversed. *)
Lemma order_by_increasing (rows : list History.row) :
  Spec.increasing rows -> order_by by_changed_desc rows = rev rows.
Proof.
  unfold Spec.increasing, order_by. induction rows as [|x rows IH]; intros H;
    [reflexivity|].
  inversion H as [|? ? Hs Hx]; subst. cbn [fold_right rev]. rewrite IH by exact Hs.
  apply insert_sorted_last. apply Forall_rev.
  eapply Forall_impl; [|exact Hx]. intros y Hy. unfold by_changed_desc.
  apply Z.ltb_lt. exact Hy.
Qed.

End SortFacts.

Section HistoryFacts.

Import PasswordDatabase.

Lemma refers_to_true (pid : jsstring) (h : History.row) :
  refers_to pid h = true <-> History.password_id h = pid.
Proof. apply jsstring_eqb_eq. Qed.

Lemma refers_to_other (pid pid' : jsstring) (h : History.row) :
  pid' <> pid -> refers_to pid' h = true -> refers_to pid h = false.
Proof.
  intros Hne H. apply refers_to_true in H.
  destruct (refers_to pid h) eqn:E; [|reflexivity].
  apply refers_to_true in E. congruence.
Qed.

(** *** The DELETE of [addToPasswordHistory] *)

Lemma prune_history_of_same (pid : jsstring) (db : t) :
  Spec.history_of pid (prune_history pid db)
  = filter (Spec.kept (newest_five pid db)) (Spec.history_of pid db).
Proof.
  unfold Spec.history_of, prune_history. cbn [password_history with_history].
  rewrite !filter_filter. apply filter_ext. intros h. unfold Spec.kept.
  destruct (refers_to pid h); cbn [andb negb]; [|reflexivity].
  destruct (existsb _ _); reflexivity.
Qed.

Lemma prune_history_of_other (pid pid' : jsstring) (db : t) :
  pid' <> pid ->
  Spec.history_of pid' (prune_history pid db) = Spec.history_of pid' db.
Proof.
  intros Hne. unfold Spec.history_of, prune_history.
  cbn [password_history with_history]. rewrite filter_filter.
  apply filter_ext_in. intros h _.
  destruct (refers_to pid' h) eqn:E; [|apply andb_false_r].
  rewrite (refers_to_other pid pid' h Hne E). reflexivity.
Qed.

Lemma newest_five_length (pid : jsstring) (db : t) :
  (List.length (newest_five pid db) <= 5)%nat.
Proof. unfold newest_five. rewrite length_map, length_firstn. lia. Qed.

(** *** The INSERT of [addToPasswordHistory] *)

Lemma insert_history_rows (pid enc : jsstring) (now : timestamp) (db db1 : t) :
  insert_history pid enc now db = Return db1 ->
  password_history db1 = password_history db ++ [Spec.pushed_row pid enc now db]
  /\ history_sequence db1 = history_sequence db + 1
  /\ foreign_keys db1 = foreign_keys db
  /\ passwords db1 = passwords db
  /\ password_settings db1 = password_settings db
  /\ secure_notes db1 = secure_notes db.
Proof.
  unfold insert_history.
  destruct (foreign_keys db && negb (existsb (has_id pid) (passwords db)));
    [discriminate|].
  intros E. injection E as <-. repeat split; reflexivity.
Qed.

Lemma insert_history_without_foreign_keys (pid enc : jsstring) (now : timestamp) (db : t) :
  foreign_keys db = false ->
  exists db1, insert_history pid enc now db = Return db1.
Proof.
  intros H. unfold insert_history. rewrite H. cbn [andb]. eexists. reflexivity.
Qed.

Lemma insert_history_of_same (pid enc : jsstring) (now : timestamp) (db db1 : t) :
  insert_history pid enc now db = Return db1 ->
  Spec.history_of pid db1 = Spec.history_of pid db ++ [Spec.pushed_row pid enc now db].
Proof.
  intros H. apply insert_history_rows in H. destruct H as [H _].
  unfold Spec.history_of. rewrite H, filter_app. cbn [filter].
  unfold refers_to at 2. cbn [Spec.pushed_row History.password_id].
  rewrite jsstring_eqb_refl. reflexivity.
Qed.

Lemma insert_history_of_other (pid pid' enc : jsstring) (now : timestamp) (db db1 : t) :
  pid' <> pid ->
  insert_history pid enc now db = Return db1 ->
  Spec.history_of pid' db1 = Spec.history_of pid' db.
Proof.
  intros Hne H. apply insert_history_rows in H. destruct H as [H _].
  unfold Spec.history_of. rewrite H, filter_app. cbn [filter].
  unfold refers_to at 2. cbn [Spec.pushed_row History.password_id].
  destruct (jsstring_eqb pid pid') eqn:E.
  - apply jsstring_eqb_eq in E. congruence.
  - apply app_nil_r.
Qed.

Lemma insert_history_ids_fresh (pid enc : jsstring) (now : timestamp) (db db1 : t) :
  Spec.history_ids_fresh db ->
  insert_history pid enc now db = Return db1 ->
  Spec.history_ids_fresh db1.
Proof.
  intros [Hnd Hle] H. apply insert_history_rows in H. destruct H as [Hr [Hs _]].
  unfold Spec.history_ids_fresh. rewrite Hr, Hs. split.
  - rewrite map_app. cbn [map Spec.pushed_row History.id].
    apply NoDup_app; [exact Hnd|constructor; [intros []|constructor]|].
    intros x Hx [<-|[]]. apply in_map_iff in Hx. destruct Hx as [h [E Hh]].
    rewrite Forall_forall in Hle. apply Hle in Hh. lia.
  - apply Forall_app. split.
    + eapply Forall_impl; [|exact Hle]. cbv beta. intros; lia.
    + constructor; [cbn; lia|constructor].
Qed.

(** Deleting history rows keeps the ids fresh and the counts bounded. *)
Lemma filter_history_ids_fresh (p : History.row -> bool) (db : t) :
  Spec.history_ids_fresh db ->
  Spec.history_ids_fresh (with_history (filter p (password_history db)) db).
Proof.
  intros [Hnd Hle]. unfold Spec.history_ids_fresh.
  cbn [password_history history_sequence with_history]. split.
  - apply NoDup_map_filter. exact Hnd.
  - rewrite Forall_forall in *. intros h Hh. apply filter_In in Hh. apply Hle, Hh.
Qed.

Lemma filter_history_bounded (p : History.row -> bool) (db : t) :
  Spec.history_bounded db ->
  Spec.history_bounded (with_history (filter p (password_history db)) db).
Proof.
  intros Hb pid. unfold Spec.history_of. cbn [password_history with_history].
  rewrite filter_comm. etransitivity; [apply filter_length_le|apply Hb].
Qed.

(** *** [addToPasswordHistory] *)

Lemma addToPasswordHistory_of_other (pid pid' enc : jsstring) (now : timestamp) (db db' : t) :
  pid' <> pid ->
  addToPasswordHistory pid enc now db = Return db' ->
  Spec.history_of pid' db' = Spec.history_of pid' db.
Proof.
  intros Hne. unfold addToPasswordHistory.
  destruct (insert_history pid enc now db) as [db1|] eqn:E; [|discriminate].
  intros H. injection H as <-. rewrite prune_history_of_other by exact Hne.
  eapply insert_history_of_other; eassumption.
Qed.

Lemma addToPasswordHistory_ids_fresh (pid enc : jsstring) (now : timestamp) (db db' : t) :
  Spec.history_ids_fresh db ->
  addToPasswordHistory pid enc now db = Return db' ->
  Spec.history_ids_fresh db'.
Proof.
  intros Hf. unfold addToPasswordHistory.
  destruct (insert_history pid enc now db) as [db1|] eqn:E; [|discriminate].
  intros H. injection H as <-. unfold prune_history.
  apply filter_history_ids_fresh. eapply insert_history_ids_fresh; eassumption.
Qed.

(** After the insert and the prune the credential has at most five rows. *)
Lemma addToPasswordHistory_at_most_five (pid enc : jsstring) (now : timestamp) (db db' : t) :
  Spec.history_ids_fresh db ->
  addToPasswordHistory pid enc now db = Return db' ->
  (List.length (Spec.history_of pid db') <= 5)%nat.
Proof.
  intros Hf. unfold addToPasswordHistory.
  destruct (insert_history pid enc now db) as [db1|] eqn:E; [|discriminate].
  intros H. injection H as <-. rewrite prune_history_of_same.
  etransitivity; [|apply (newest_five_length pid db1)].
  apply kept_length. unfold Spec.history_of. apply NoDup_map_filter.
  apply (insert_history_ids_fresh pid enc now db db1 Hf E).
Qed.

Lemma addToPasswordHistory_bounded (pid enc : jsstring) (now : timestamp) (db db' : t) :
  Spec.history_ids_fresh db -> Spec.history_bounded db ->
  addToPasswordHistory pid enc now db = Return db' ->
  Spec.history_bounded db'.
Proof.
  intros Hf Hb H pid'. destruct (list_eq_dec Z.eq_dec pid' pid) as [->|Hne].
  - eapply addToPasswordHistory_at_most_five; eassumption.
  - rewrite (addToPasswordHistory_of_other pid pid' enc now db db' Hne H). apply Hb.
Qed.

Lemma increasing_snoc (rows : list History.row) (h : History.row) :
  Spec.increasing rows ->
  Forall (fun x => History.changed_at x < History.changed_at h) rows ->
  Spec.increasing (rows ++ [h]).
Proof.
  unfold Spec.increasing. induction rows as [|x rows IH]; intros Hs Hall.
  - cbn [app]. constructor; constructor.
  - inversion Hs as [|? ? Hs' Hx]; subst. inversion Hall as [|? ? Hxh Hall']; subst.
    cbn [app]. constructor; [apply IH; assumption|].
    apply Forall_app. split; [exact Hx|]. constructor; [exact Hxh|constructor].
Qed.

(** When the rows of the credential were written at increasing times, all
    before [now], the rows left are the last five of the old rows followed by
    the new one: the oldest is the one pruned. *)
Lemma addToPasswordHistory_keeps_newest (pid enc : jsstring) (now : timestamp) (db db' : t) :
  Spec.history_ids_fresh db ->
  Spec.increasing (Spec.history_of pid db) ->
  Forall (fun h => History.changed_at h < now) (Spec.history_of pid db) ->
  addToPasswordHistory pid enc now db = Return db' ->
  Spec.history_of pid db'
  = Spec.lastn 5 (Spec.history_of pid db ++ [Spec.pushed_row pid enc now db]).
Proof.
  intros Hf Hinc Hold. unfold addToPasswordHistory.
  destruct (insert_history pid enc now db) as [db1|] eqn:E; [|discriminate].
  intros H. injection H as <-. rewrite prune_history_of_same.
  pose proof (insert_history_of_same pid enc now db db1 E) as Hrows.
  pose proof (insert_history_ids_fresh pid enc now db db1 Hf E) as [Hnd _].
  unfold newest_five. fold (Spec.history_of pid db1). rewrite Hrows.
  set (rows := Spec.history_of pid db ++ [Spec.pushed_row pid enc now db]).
  assert (Hinc' : Spec.increasing rows)
    by (apply increasing_snoc; [exact Hinc|exact Hold]).
  rewrite (order_by_increasing rows Hinc'), firstn_rev.
  fold (Spec.lastn 5 rows).
  rewrite (lastn_split 5 rows) at 2.
  apply kept_suffix.
  - rewrite <- lastn_split. subst rows. rewrite <- Hrows.
    unfold Spec.history_of. apply NoDup_map_filter. exact Hnd.
  - intros x. rewrite map_rev. symmetry. apply in_rev.
Qed.

End HistoryFacts.

(** *** The history invariant along every operation *)

Section InvariantFacts.

Import PasswordDatabase.

Lemma history_invariant_same (db db' : t) :
  password_history db' = password_history db ->
  history_sequence db' = history_sequence db ->
  Spec.history_invariant db -> Spec.history_invariant db'.
Proof.
  intros Hh Hs [[Hnd Hle] Hb]. unfold Spec.history_invariant, Spec.history_ids_fresh,
    Spec.history_bounded, Spec.history_of in *.
  rewrite Hh, Hs. repeat split; assumption.
Qed.

Lemma empty_history_invariant (fk : bool) : Spec.history_invariant (empty fk).
Proof.
  split; [split|]; cbn.
  - constructor.
  - constructor.
  - intros pid. cbn. lia.
Qed.

Lemma filter_history_invariant (p : History.row -> bool) (db : t) :
  Spec.history_invariant db ->
  Spec.history_invariant (with_history (filter p (password_history db)) db).
Proof.
  intros [Hf Hb]. split;
    [apply filter_history_ids_fresh|apply filter_history_bounded]; assumption.
Qed.

Lemma delete_password_row_invariant (id : jsstring) (db : t) :
  Spec.history_invariant db -> Spec.history_invariant (delete_password_row id db).
Proof.
  intros H. unfold delete_password_row.
  destruct (foreign_keys db && existsb (has_id id) (passwords db)).
  - eapply history_invariant_same; [| |apply filter_history_invariant; exact H];
      reflexivity.
  - eapply history_invariant_same; [| |exact H]; reflexivity.
Qed.

Lemma savePassword_invariant (p : PasswordEncryption.encryptedEntry) (now : timestamp)
      (db : t) (r : entropy) :
  Spec.history_invariant db ->
  Spec.history_invariant (snd (fst (savePassword p now db r))).
Proof.
  intros H. unfold savePassword.
  destruct (if truthy (PasswordEncryption.ee_id p)
            then (or_else (PasswordEncryption.ee_id p) [], r) else uuidv4 r)
    as [id r1].
  destruct (PasswordEncryption.ee_domain p); [|exact H].
  destruct (PasswordEncryption.ee_encrypted_password p); [|exact H].
  cbn [fst snd].
  eapply history_invariant_same;
    [| |apply (delete_password_row_invariant id db H)]; reflexivity.
Qed.

Lemma saveSecureNote_invariant (n : noteData) (now : timestamp) (db : t) (r : entropy) :
  Spec.history_invariant db ->
  Spec.history_invariant (snd (fst (saveSecureNote n now db r))).
Proof.
  intros H. unfold saveSecureNote.
  destruct (if truthy (nd_id n) then (or_else (nd_id n) [], r) else uuidv4 r)
    as [id r1].
  destruct (nd_title n); [|exact H].
  destruct (nd_encrypted_content n); [|exact H].
  cbn [fst snd]. eapply history_invariant_same; [| |exact H]; reflexivity.
Qed.

Lemma addToPasswordHistory_invariant (pid enc : jsstring) (now : timestamp) (db db' : t) :
  Spec.history_invariant db ->
  addToPasswordHistory pid enc now db = Return db' ->
  Spec.history_invariant db'.
Proof.
  intros [Hf Hb] H. split.
  - eapply addToPasswordHistory_ids_fresh; eassumption.
  - eapply addToPasswordHistory_bounded; eassumption.
Qed.

Lemma deletePassword_invariant (id : jsstring) (now : timestamp) (db db' : t) :
  Spec.history_invariant db ->
  deletePassword id now db = Return db' ->
  Spec.history_invariant db'.
Proof.
  intros H. unfold deletePassword. destruct (getPassword id db) as [p|].
  - destruct (addToPasswordHistory id (Passwords.encrypted_password p) now db)
      as [db1|] eqn:E; [|discriminate].
    intros E'. injection E' as <-. apply delete_password_row_invariant.
    eapply addToPasswordHistory_invariant; eassumption.
  - intros E'. injection E' as <-. apply delete_password_row_invariant. exact H.
Qed.

Lemma for_each_invariant {A : Type}
      (save : A -> t -> entropy -> outcome jsstring * t * entropy) (l : list A) :
  (forall x db r, Spec.history_invariant db ->
                  Spec.history_invariant (snd (fst (save x db r)))) ->
  forall db r, Spec.history_invariant db ->
               Spec.history_invariant (snd (fst (for_each save l db r))).
Proof.
  intros Hsave. induction l as [|x l IH]; intros db r H; [exact H|].
  cbn [for_each]. pose proof (Hsave x db r H) as H1.
  destruct (save x db r) as [[[id|msg] db1] r1]; cbn [fst snd] in *.
  - apply IH. exact H1.
  - exact H1.
Qed.

Lemma importData_invariant (data : bundle) (now : timestamp) (db : t) (r : entropy) :
  Spec.history_invariant db ->
  Spec.history_invariant (snd (fst (importData data now db r))).
Proof.
  intros H. unfold importData.
  pose proof (for_each_invariant (fun p => savePassword p now)
                (PasswordEncryption.with_default [] (b_passwords data))
                (fun x db r => savePassword_invariant x now db r) db r H) as H1.
  destruct (for_each (fun p => savePassword p now) _ db r) as [[[u|msg] db1] r1];
    cbn [fst snd] in *; [|exact H1].
  pose proof (for_each_invariant (fun n => saveSecureNote n now)
                (PasswordEncryption.with_default [] (b_notes data))
                (fun x db r => saveSecureNote_invariant x now db r) db1 r1 H1) as H2.
  destruct (for_each (fun n => saveSecureNote n now) _ db1 r1) as [[[u'|msg] db2] r2];
    cbn [fst snd] in *; exact H2.
Qed.

End InvariantFacts.

Section ManagerInvariant.
Context {crypto : NodeCrypto}.

Import PasswordManager.

Lemma decrypt_each_database (flag : Passwords.row -> t -> t) (rows : list Passwords.row) :
  (forall row m, database (flag row m) = database m) ->
  (forall row m, encryption (flag row m) = encryption m) ->
  forall m, database (snd (decrypt_each flag rows m)) = database m.
Proof.
  intros Hd He. induction rows as [|row rows IH]; intros m; [reflexivity|].
  cbn [decrypt_each].
  destruct (PasswordEncryption.decryptPasswordEntry row (encryption m)).
  - specialize (IH m). destruct (decrypt_each flag rows m). exact IH.
  - rewrite IH. apply Hd.
Qed.

Ltac same_history H :=
  eapply history_invariant_same; [| |exact H]; reflexivity.

Lemma setupMasterPassword_invariant masterPassword now m :
  Spec.history_invariant (database m) ->
  Spec.history_invariant (database (snd (setupMasterPassword masterPassword now m))).
Proof.
  intros H. unfold setupMasterPassword.
  destruct (PasswordEncryption.score _ <? 3); [exact H|].
  destruct (PasswordEncryption.initialize masterPassword (encryption m) (random m))
    as [[[settings|msg] e1] r1]; cbn; same_history H.
Qed.

Lemma unlock_invariant masterPassword now m :
  Spec.history_invariant (database m) ->
  Spec.history_invariant (database (snd (unlock masterPassword now m))).
Proof.
  intros H. unfold unlock.
  destruct (PasswordDatabase.getMasterPasswordSettings (database m)); [|exact H].
  destruct (PasswordEncryption.verifyMasterPassword _ _ _ _) as [[|] e1]; cbn;
    same_history H.
Qed.

Lemma lock_database m : database (snd (lock m)) = database m.
Proof.
  unfold lock. destruct (PasswordEncryption.lock (encryption m) (random m)).
  reflexivity.
Qed.

Lemma addPassword_invariant passwordData now m :
  Spec.history_invariant (database m) ->
  Spec.history_invariant (database (snd (addPassword passwordData now m))).
Proof.
  intros H. unfold addPassword. destruct (isLocked m); [exact H|].
  destruct (if truthy (PasswordEncryption.pe_id passwordData) then _ else _)
    as [id r0].
  destruct (PasswordEncryption.encryptPasswordEntry _ _ r0) as [[encrypted|msg] r1];
    [|exact H].
  pose proof (savePassword_invariant encrypted now
                (database (resetAutoLockTimer now m)) r1 H) as H1.
  destruct (PasswordDatabase.savePassword encrypted now _ r1) as [[[id'|msg] db1] r2];
    exact H1.
Qed.

Lemma getPasswords_invariant domain now m :
  Spec.history_invariant (database m) ->
  Spec.history_invariant (database (snd (getPasswords domain now m))).
Proof.
  intros H. unfold getPasswords. destruct (isLocked m); [exact H|].
  pose proof (decrypt_each_database log_failed_entry
                (PasswordDatabase.getPasswords domain
                   (database (resetAutoLockTimer now m)))
                (fun _ _ => eq_refl) (fun _ _ => eq_refl)
                (resetAutoLockTimer now m)) as E.
  destruct (decrypt_each log_failed_entry _ _) as [ds m']. cbn [snd] in *.
  rewrite E. exact H.
Qed.

Lemma searchPasswords_invariant query now m :
  Spec.history_invariant (database m) ->
  Spec.history_invariant (database (snd (searchPasswords query now m))).
Proof.
  intros H. unfold searchPasswords. destruct (isLocked m); [exact H|].
  pose proof (decrypt_each_database ignore_entry
                (PasswordDatabase.searchPasswords query
                   (database (resetAutoLockTimer now m)))
                (fun _ _ => eq_refl) (fun _ _ => eq_refl)
                (resetAutoLockTimer now m)) as E.
  destruct (decrypt_each ignore_entry _ _) as [ds m']. cbn [snd] in *.
  rewrite E. exact H.
Qed.

Lemma getPassword_invariant id now m :
  Spec.history_invariant (database m) ->
  Spec.history_invariant (database (snd (getPassword id now m))).
Proof.
  intros H. unfold getPassword. destruct (isLocked m); [exact H|].
  destruct (PasswordDatabase.getPassword id _); [|exact H].
  destruct (PasswordEncryption.decryptPasswordEntry _ _); [|exact H].
  cbn. same_history H.
Qed.

Lemma updatePassword_invariant id passwordData now m :
  Spec.history_invariant (database m) ->
  Spec.history_invariant (database (snd (updatePassword id passwordData now m))).
Proof.
  intros H. unfold updatePassword. destruct (isLocked m); [exact H|].
  destruct (PasswordDatabase.getPassword id _) as [existing|]; [|exact H].
  assert (Tail : forall db1 p,
             Spec.history_invariant db1 ->
             Spec.history_invariant
               (database
                  (snd
                     (let m1 := with_database db1 (resetAutoLockTimer now m) in
                      match PasswordEncryption.encryptPasswordEntry p (encryption m1)
                              (random m1) with
                      | (Throw message, r1) =>
                          caught (js "[PasswordManager] Update password error:")
                                 message (with_random r1 m1)
                      | (Return encrypted, r1) =>
                          match PasswordDatabase.savePassword encrypted now
                                  (database m1) r1 with
                          | (Throw message, db2, r2) =>
                              caught (js "[PasswordManager] Update password error:")
                                     message (with_database db2 (with_random r2 m1))
                          | (Return _, db2, r2) =>
                              (ok (Message (js "Password updated successfully")),
                               with_database db2 (with_random r2 m1))
                          end
                      end)))).
  { intros db1 p Hh. cbv zeta.
    cbn [database with_database encryption random resetAutoLockTimer with_timer].
    destruct (PasswordEncryption.encryptPasswordEntry _ _ _) as [[encrypted|msg] r1];
      [|exact Hh].
    pose proof (savePassword_invariant encrypted now db1 r1 Hh) as H1.
    destruct (PasswordDatabase.savePassword encrypted now db1 r1)
      as [[[id'|msg] db2] r2]; exact H1. }
  destruct (truthy _ && truthy _).
  - destruct (PasswordDatabase.addToPasswordHistory _ _ _ _) as [db1|msg] eqn:E;
      [|exact H].
    apply Tail. eapply addToPasswordHistory_invariant; [|exact E]. exact H.
  - apply Tail. exact H.
Qed.

Lemma deletePassword_manager_invariant id now m :
  Spec.history_invariant (database m) ->
  Spec.history_invariant (database (snd (deletePassword id now m))).
Proof.
  intros H. unfold deletePassword. destruct (isLocked m); [exact H|].
  destruct (PasswordDatabase.deletePassword id now _) as [db1|msg] eqn:E; [|exact H].
  cbn. eapply deletePassword_invariant; [|exact E]. exact H.
Qed.

Lemma generatePassword_database o m : database (snd (generatePassword o m)) = database m.
Proof.
  unfold generatePassword.
  destruct (PasswordEncryption.generatePassword o (random m)) as [[pw|msg] r1];
    reflexivity.
Qed.

Lemma addSecureNote_invariant noteData now m :
  Spec.history_invariant (database m) ->
  Spec.history_invariant (database (snd (addSecureNote noteData now m))).
Proof.
  intros H. unfold addSecureNote. destruct (isLocked m); [exact H|].
  destruct (if truthy (PasswordDatabase.nd_id noteData) then _ else _) as [id r0].
  destruct (PasswordEncryption.encrypt_value _ _ r0) as [[c|msg] r1]; [|exact H].
  match goal with
  | |- context [PasswordDatabase.saveSecureNote ?n now ?db r1] =>
      pose proof (saveSecureNote_invariant n now db r1 H) as H1;
      destruct (PasswordDatabase.saveSecureNote n now db r1) as [[[id'|msg] db1] r2]
  end; exact H1.
Qed.

Lemma getSecureNotes_invariant now m :
  Spec.history_invariant (database m) ->
  Spec.history_invariant (database (snd (getSecureNotes now m))).
Proof.
  intros H. unfold getSecureNotes. destruct (isLocked m); [exact H|].
  destruct (decrypt_notes _ _); exact H.
Qed.

Lemma importData_manager_invariant data now m :
  Spec.history_invariant (database m) ->
  Spec.history_invariant (database (snd (importData data now m))).
Proof.
  intros H. unfold importData. destruct (isLocked m); [exact H|].
  pose proof (importData_invariant data now (database (resetAutoLockTimer now m))
                (random (resetAutoLockTimer now m)) H) as H1.
  destruct (PasswordDatabase.importData data now _ _) as [[[counts|msg] db1] r1];
    exact H1.
Qed.

(** Every request leaves the history invariant in place. *)
Lemma handle_invariant (q : request) (now : timestamp) (m : t) :
  Spec.history_invariant (database m) ->
  Spec.history_invariant (database (snd (handle q now m))).
Proof.
  intros H. destruct q; cbn [handle replying snd]; try exact H.
  - apply setupMasterPassword_invariant, H.
  - apply unlock_invariant, H.
  - rewrite lock_database. exact H.
  - apply addPassword_invariant, H.
  - apply getPasswords_invariant, H.
  - apply getPassword_invariant, H.
  - apply updatePassword_invariant, H.
  - apply deletePassword_manager_invariant, H.
  - apply searchPasswords_invariant, H.
  - rewrite generatePassword_database. exact H.
  - apply addSecureNote_invariant, H.
  - apply getSecureNotes_invariant, H.
  - unfold deleteSecureNote. destruct (isLocked m); [exact H|]. cbn. same_history H.
  - unfold getStatistics. destruct (isLocked m); exact H.
  - unfold exportData. destruct (isLocked m); exact H.
  - apply importData_manager_invariant, H.
  - unfold findDuplicatePasswords. destruct (isLocked m); exact H.
  - unfold getAllTags. destruct (isLocked m); exact H.
Qed.

Lemma apply_event_invariant (m : t) (ev : event) :
  Spec.history_invariant (database m) ->
  Spec.history_invariant (database (apply_event m ev)).
Proof.
  intros H. destruct ev as [q now| |]; cbn [apply_event].
  - apply handle_invariant, H.
  - destruct (autoLockTimer m); [|exact H]. unfold autoLock.
    rewrite lock_database. exact H.
  - exact H.
Qed.

Lemma run_invariant (fk : bool) (r : entropy) (events : list event) :
  Spec.history_invariant (database (run fk r events)).
Proof.
  unfold run.
  assert (G : forall m, Spec.history_invariant (database m) ->
                        Spec.history_invariant (database (fold_left apply_event events m))).
  { induction events as [|ev events IH]; intros m H; [exact H|].
    cbn [fold_left]. apply IH. apply apply_event_invariant, H. }
  apply G. apply empty_history_invariant.
Qed.

End ManagerInvariant.

(** *** Updating one credential *)

Section UpdateFacts.
Context {crypto : NodeCrypto}.

Import PasswordManager.

Lemma base64_encode_nonempty (bs : bytes) : bs <> [] -> base64_encode bs <> [].
Proof.
  destruct bs as [|a [|b [|c rest]]]; intros H; [contradiction| | |];
    cbn [base64_encode]; discriminate.
Qed.

Lemma seal_nonempty (key iv : bytes) (plaintext : jsstring) :
  List.length iv = 16%nat -> PasswordEncryption.seal key iv plaintext <> [].
Proof.
  intros Hi. unfold PasswordEncryption.seal.
  destruct (gcm_seal key iv (utf8_encode plaintext)) as [encrypted authTag].
  apply base64_encode_nonempty. destruct iv; [discriminate Hi|discriminate].
Qed.

Lemma encrypt_if_truthy_with_key (x : option jsstring) (e : PasswordEncryption.t)
      (r : entropy) :
  PasswordEncryption.masterKey e <> None ->
  exists c r',
    PasswordEncryption.encrypt_if_truthy x e r = (Return c, r')
    /\ (truthy x = true -> exists blob, c = Some blob /\ blob <> []).
Proof.
  intros Hk. unfold PasswordEncryption.encrypt_if_truthy, PasswordEncryption.encrypt.
  destruct (PasswordEncryption.masterKey e) as [l|]; [|contradiction].
  destruct (truthy x).
  - pose proof (generateIV_length r) as Hi.
    destruct (PasswordEncryption.generateIV r) as [iv r']. cbn [fst] in Hi.
    eexists _, r'. split; [reflexivity|]. intros _. eexists. split; [reflexivity|].
    apply seal_nonempty. exact Hi.
  - exists None, r. split; [reflexivity|discriminate].
Qed.

Lemma encryptPasswordEntry_with_key (p : PasswordEncryption.passwordEntry)
      (e : PasswordEncryption.t) (r : entropy) :
  PasswordEncryption.masterKey e <> None ->
  truthy (PasswordEncryption.pe_password p) = true ->
  exists blob notes r',
    blob <> []
    /\ PasswordEncryption.encryptPasswordEntry p e r
       = (Return {| PasswordEncryption.ee_id := PasswordEncryption.pe_id p;
                    PasswordEncryption.ee_domain := PasswordEncryption.pe_domain p;
                    PasswordEncryption.ee_username := PasswordEncryption.pe_username p;
                    PasswordEncryption.ee_encrypted_password := Some blob;
                    PasswordEncryption.ee_encrypted_notes := notes;
                    PasswordEncryption.ee_favicon := PasswordEncryption.pe_favicon p;
                    PasswordEncryption.ee_tags := PasswordEncryption.pe_tags p |}, r').
Proof.
  intros Hk Hp. unfold PasswordEncryption.encryptPasswordEntry.
  destruct (encrypt_if_truthy_with_key (PasswordEncryption.pe_password p) e r Hk)
    as [c [r1 [E1 B]]].
  destruct (B Hp) as [blob [-> Hne]]. rewrite E1.
  destruct (encrypt_if_truthy_with_key (PasswordEncryption.pe_notes p) e r1 Hk)
    as [notes [r2 [E2 _]]].
  rewrite E2. exists blob, notes, r2. split; [exact Hne|reflexivity].
Qed.

Lemma find_replaced (id : jsstring) (rows : list Passwords.row) (row : Passwords.row) :
  Passwords.id row = id ->
  find (PasswordDatabase.has_id id)
       (filter (fun p => negb (PasswordDatabase.has_id id p)) rows ++ [row])
  = Some row.
Proof.
  intros Hid. induction rows as [|p rows IH].
  - cbn. unfold PasswordDatabase.has_id. rewrite Hid, jsstring_eqb_refl. reflexivity.
  - cbn [filter]. destruct (PasswordDatabase.has_id id p) eqn:E; cbn [negb];
      [exact IH|].
    cbn [app find]. rewrite E. exact IH.
Qed.

Lemma StronglySorted_skipn {A : Type} (R : A -> A -> Prop) (n : nat) (l : list A) :
  StronglySorted R l -> StronglySorted R (skipn n l).
Proof.
  revert l. induction n as [|n IH]; intros l H; [exact H|].
  destruct l as [|x l]; [exact H|]. cbn [skipn]. apply IH.
  inversion H; assumption.
Qed.

Lemma Forall_skipn_of {A : Type} (P : A -> Prop) (n : nat) (l : list A) :
  Forall P l -> Forall P (skipn n l).
Proof.
  revert l. induction n as [|n IH]; intros l H; [exact H|].
  destruct l as [|x l]; [exact H|]. cbn [skipn]. apply IH.
  inversion H; assumption.
Qed.

Lemma ready_later (id : jsstring) (t t' : timestamp) (m : PasswordManager.t) :
  t <= t' -> Spec.ready_for_update id t m -> Spec.ready_for_update id t' m.
Proof.
  intros Ht [H1 [H2 [H3 [H4 [H5 [H6 H7]]]]]].
  split; [exact H1|]. split; [exact H2|]. split; [exact H3|]. split; [exact H4|].
  split; [exact H5|]. split; [exact H6|].
  eapply Forall_impl; [|exact H7]. cbv beta. intros; lia.
Qed.

(** One accepted update: the replaced ciphertext is pushed, the five newest
    rows stay, and the vault is ready for the next update. *)
Lemma updatePassword_step (id : jsstring) (passwordData : PasswordEncryption.passwordEntry)
      (now : timestamp) (m : PasswordManager.t) :
  id <> [] ->
  Spec.ready_for_update id now m ->
  Spec.complete_change (passwordData, now) ->
  let m' := snd (updatePassword id passwordData now m) in
  success (fst (updatePassword id passwordData now m)) = true
  /\ Spec.history_of id (database m')
     = Spec.lastn 5 (Spec.history_of id (database m)
                     ++ [Spec.pushed_row id (Spec.current_ciphertext id m) now (database m)])
  /\ forall later, now < later -> Spec.ready_for_update id later m'.
Proof.
  intros Hid [Hfk [Hl [Hk [Hc [Hinv [Hinc Hold]]]]]] [Hpw Hdom]. cbv zeta.
  pose proof Hinv as [Hfresh _].
  cbn [fst] in Hpw, Hdom.
  unfold Spec.current_ciphertext in *.
  destruct (PasswordDatabase.getPassword id (database m)) as [existing|] eqn:G;
    [|contradiction].
  unfold updatePassword. rewrite Hl.
  cbn [database resetAutoLockTimer with_timer]. rewrite G, Hpw.
  assert (Ht : truthy (Some (Passwords.encrypted_password existing)) = true)
    by (destruct (Passwords.encrypted_password existing); [contradiction|reflexivity]).
  rewrite Ht. cbn [andb].
  destruct (insert_history_without_foreign_keys id
              (Passwords.encrypted_password existing) now (database m) Hfk)
    as [db1 Hins].
  assert (Hadd : PasswordDatabase.addToPasswordHistory id
                   (Passwords.encrypted_password existing) now (database m)
                 = Return (PasswordDatabase.prune_history id db1))
    by (unfold PasswordDatabase.addToPasswordHistory; rewrite Hins; reflexivity).
  rewrite Hadd.
  cbn [database with_database encryption random resetAutoLockTimer with_timer].
  destruct (encryptPasswordEntry_with_key
              {| PasswordEncryption.pe_id := Some id;
                 PasswordEncryption.pe_domain := PasswordEncryption.pe_domain passwordData;
                 PasswordEncryption.pe_username := PasswordEncryption.pe_username passwordData;
                 PasswordEncryption.pe_password := PasswordEncryption.pe_password passwordData;
                 PasswordEncryption.pe_notes := PasswordEncryption.pe_notes passwordData;
                 PasswordEncryption.pe_favicon := PasswordEncryption.pe_favicon passwordData;
                 PasswordEncryption.pe_tags := PasswordEncryption.pe_tags passwordData |}
              (encryption m) (random m) Hk Hpw)
    as [blob [notes [r1 [Hblob Henc]]]].
  cbn [PasswordEncryption.pe_id PasswordEncryption.pe_domain PasswordEncryption.pe_username
       PasswordEncryption.pe_favicon PasswordEncryption.pe_tags] in Henc.
  rewrite Henc.
  unfold PasswordDatabase.savePassword.
  cbn [PasswordEncryption.ee_id PasswordEncryption.ee_domain
       PasswordEncryption.ee_encrypted_password PasswordEncryption.ee_username
       PasswordEncryption.ee_encrypted_notes PasswordEncryption.ee_favicon
       PasswordEncryption.ee_tags].
  assert (Hti : truthy (Some id) = true) by (destruct id; [contradiction|reflexivity]).
  rewrite Hti.
  assert (Hor : or_else (Some id) [] = id) by (destruct id; [contradiction|reflexivity]).
  rewrite Hor.
  destruct (PasswordEncryption.pe_domain passwordData) as [domain|]; [|contradiction].
  cbn [fst snd success ok database with_database with_random].
  pose proof (insert_history_rows _ _ _ _ _ Hins) as [_ [_ [Hfk1 _]]].
  assert (Hdel : PasswordDatabase.delete_password_row id
                   (PasswordDatabase.prune_history id db1)
                 = PasswordDatabase.with_passwords
                     (filter (fun p => negb (PasswordDatabase.has_id id p))
                             (PasswordDatabase.passwords
                                (PasswordDatabase.prune_history id db1)))
                     (PasswordDatabase.prune_history id db1)).
  { unfold PasswordDatabase.delete_password_row.
    cbn [PasswordDatabase.foreign_keys PasswordDatabase.prune_history
         PasswordDatabase.with_history].
    rewrite Hfk1, Hfk. reflexivity. }
  rewrite Hdel.
  cbn [PasswordDatabase.passwords PasswordDatabase.with_passwords].
  pose proof (addToPasswordHistory_keeps_newest id
                (Passwords.encrypted_password existing) now (database m) _
                Hfresh Hinc Hold Hadd) as Hkeep.
  split; [reflexivity|]. split; [exact Hkeep|].
  intros later Hlater. unfold Spec.ready_for_update, Spec.current_ciphertext.
  cbn [database encryption isLocked with_database with_random].
  split; [cbn; rewrite Hfk1; exact Hfk|]. split; [exact Hl|]. split; [exact Hk|].
  split.
  { unfold PasswordDatabase.getPassword.
    cbn [PasswordDatabase.passwords PasswordDatabase.with_passwords].
    rewrite find_replaced by reflexivity. cbn [Passwords.encrypted_password].
    exact Hblob. }
  assert (Hsame : forall pid,
             Spec.history_of pid
               (PasswordDatabase.with_passwords
                  (filter (fun p => negb (PasswordDatabase.has_id id p))
                          (PasswordDatabase.passwords db1) ++
                   [{| Passwords.id := id; Passwords.domain := domain;
                       Passwords.username :=
                         or_else (PasswordEncryption.pe_username passwordData) [];
                       Passwords.encrypted_password := blob;
                       Passwords.encrypted_notes := or_null notes;
                       Passwords.favicon :=
                         or_null (PasswordEncryption.pe_favicon passwordData);
                       Passwords.created_at := now; Passwords.modified_at := now;
                       Passwords.last_used := None; Passwords.use_count := 0;
                       Passwords.tags :=
                         PasswordDatabase.stringify_tags
                           (PasswordEncryption.pe_tags passwordData) |}])
                  (PasswordDatabase.with_passwords
                     (filter (fun p => negb (PasswordDatabase.has_id id p))
                             (PasswordDatabase.passwords db1))
                     (PasswordDatabase.prune_history id db1)))
             = Spec.history_of pid (PasswordDatabase.prune_history id db1))
    by reflexivity.
  split.
  { eapply (history_invariant_same (PasswordDatabase.prune_history id db1));
      [reflexivity|reflexivity|].
    eapply addToPasswordHistory_invariant; eassumption. }
  rewrite Hsame, Hkeep. unfold Spec.lastn. split.
  - apply StronglySorted_skipn. apply increasing_snoc; [exact Hinc|].
    cbn [Spec.pushed_row History.changed_at]. exact Hold.
  - apply Forall_skipn_of. apply Forall_app. split.
    + eapply Forall_impl; [|exact Hold]. cbv beta. intros; lia.
    + constructor; [cbn; lia|constructor].
Qed.

End UpdateFacts.

Section RepeatedUpdates.
Context {crypto : NodeCrypto}.

Import PasswordManager.

Lemma replaced_length (id : jsstring)
      (changes : list (PasswordEncryption.passwordEntry * timestamp)) :
  forall m, List.length (Spec.replaced id changes m) = List.length changes.
Proof.
  induction changes as [|[p now] rest IH]; intros m; [reflexivity|].
  cbn [Spec.replaced List.length]. rewrite IH. reflexivity.
Qed.

(** Updates at increasing times: the history holds the last five of what it
    held before followed by the replaced ciphertexts, each with the time of
    its replacement. *)
Lemma update_repeatedly_history (id : jsstring) :
  id <> [] ->
  forall (changes : list (PasswordEncryption.passwordEntry * timestamp))
         (m : PasswordManager.t) (start : timestamp),
    Spec.ready_for_update id start m ->
    Forall Spec.complete_change changes ->
    StronglySorted Z.lt (map snd changes) ->
    Forall (fun change => start <= snd change) changes ->
    map Spec.record_of
        (Spec.history_of id (database (Spec.update_repeatedly id changes m)))
    = Spec.lastn 5 (map Spec.record_of (Spec.history_of id (database m))
                    ++ combine (Spec.replaced id changes m) (map snd changes)).
Proof.
  intros Hid. induction changes as [|[p now] rest IH]; intros m start Hr Hc Hs Hstart.
  - cbn [Spec.update_repeatedly Spec.replaced map combine]. rewrite app_nil_r.
    symmetry. apply lastn_short. rewrite length_map.
    destruct Hr as [_ [_ [_ [_ [[_ Hb] _]]]]]. apply Hb.
  - cbn [Spec.update_repeatedly Spec.replaced map combine].
    inversion Hc as [|? ? Hc1 Hc']; subst.
    inversion Hs as [|? ? Hs' Hlt]; subst.
    inversion Hstart as [|? ? Hst1 _]; subst. cbn [snd] in Hst1.
    pose proof (ready_later id start now m Hst1 Hr) as Hr'.
    destruct (updatePassword_step id p now m Hid Hr' Hc1) as [_ [Hh Hnext]].
    rewrite (IH _ (now + 1)).
    + rewrite Hh, lastn_map, lastn_app_keep, map_app, <- app_assoc. reflexivity.
    + apply Hnext. lia.
    + exact Hc'.
    + exact Hs'.
    + rewrite Forall_forall. intros change Hin.
      rewrite Forall_forall in Hlt. specialize (Hlt (snd change)).
      assert (now < snd change) by (apply Hlt; apply in_map; exact Hin). lia.
Qed.

End RepeatedUpdates.

(** What the history keeps.  After any run of requests every credential has
    at most five history rows.  Each [addToPasswordHistory] inserts the
    replaced ciphertext and then prunes the credential's rows to five,
    leaving other credentials' rows alone; when the credential's rows carry
    increasing change times, all earlier than the new one, the rows kept are
    the five most recent and the oldest is the one pruned.  On a database
    that does not enforce foreign keys, updating one credential's password
    repeatedly at increasing times leaves the five most recent replaced
    passwords, each with the time it was replaced: ten updates leave exactly
    five rows. *)
Lemma history_keeps_the_five_newest {crypto : NodeCrypto} :
  (forall (fk : bool) (r : entropy) (events : list PasswordManager.event)
          (passwordId : jsstring),
      (List.length
         (Spec.history_of passwordId
            (PasswordManager.database (PasswordManager.run fk r events))) <= 5)%nat)
  /\ (forall (db db' : PasswordDatabase.t) (passwordId encryptedPassword : jsstring)
             (now : timestamp),
         Spec.history_ids_fresh db ->
         PasswordDatabase.addToPasswordHistory passwordId encryptedPassword now db
         = Return db' ->
         (List.length (Spec.history_of passwordId db') <= 5)%nat
         /\ (forall other, other <> passwordId ->
                           Spec.history_of other db' = Spec.history_of other db)
         /\ (Spec.increasing (Spec.history_of passwordId db) ->
             Forall (fun h => History.changed_at h < now)
                    (Spec.history_of passwordId db) ->
             Spec.history_of passwordId db'
             = Spec.lastn 5 (Spec.history_of passwordId db
                             ++ [Spec.pushed_row passwordId encryptedPassword now db])))
  /\ (forall (m : PasswordManager.t) (id : jsstring)
             (changes : list (PasswordEncryption.passwordEntry * timestamp))
             (start : timestamp),
         id <> [] ->
         Spec.ready_for_update id start m ->
         Forall Spec.complete_change changes ->
         StronglySorted Z.lt (map snd changes) ->
         Forall (fun change => start <= snd change) changes ->
         let m' := Spec.update_repeatedly id changes m in
         map Spec.record_of (Spec.history_of id (PasswordManager.database m'))
         = Spec.lastn 5
             (map Spec.record_of (Spec.history_of id (PasswordManager.database m))
              ++ combine (Spec.replaced id changes m) (map snd changes))
         /\ (List.length changes = 10%nat ->
             List.length (Spec.history_of id (PasswordManager.database m')) = 5%nat)).
Proof.
  split; [|split].
  - intros fk r events passwordId.
    destruct (run_invariant fk r events) as [_ Hb]. apply Hb.
  - intros db db' passwordId encryptedPassword now Hf Ha.
    split; [eapply addToPasswordHistory_at_most_five; eassumption|].
    split.
    + intros other Hne. eapply addToPasswordHistory_of_other; eassumption.
    + intros Hinc Hold. eapply addToPasswordHistory_keeps_newest; eassumption.
  - intros m id changes start Hid Hr Hc Hs Hstart. cbv zeta.
    pose proof (update_repeatedly_history id Hid changes m start Hr Hc Hs Hstart) as E.
    split; [exact E|].
    intros Hten. apply (f_equal (@List.length _)) in E.
    rewrite length_map, lastn_length, length_app, length_combine in E.
    rewrite !length_map, replaced_length, Hten in E. lia.
Qed.

(** Ten updates on a database that does not enforce foreign keys. *)
Example ten_updates_without_foreign_keys :
  List.length
    (Spec.history_of Scenario.example_id
       (PasswordManager.database
          (Spec.update_repeatedly Scenario.example_id Scenario.ten_changes
             (Scenario.unlocked_vault false)))) = 5%nat.
Proof.
  destruct history_keeps_the_five_newest as [_ [_ H]].
  refine (proj2 (H (Scenario.unlocked_vault false) Scenario.example_id
                   Scenario.ten_changes 160 _ _ _ _ _) eq_refl).
  - discriminate.
  - split; [reflexivity|]. split; [reflexivity|]. split; [discriminate|].
    split; [vm_compute; discriminate|].
    split; [apply run_invariant|].
    split; [constructor|constructor].
  - unfold Scenario.ten_changes, Spec.complete_change.
    repeat (constructor; [split; [reflexivity|discriminate]|]). constructor.
  - cbn [map snd Scenario.ten_changes].
    repeat (constructor; [|repeat (constructor; [reflexivity|]); constructor]).
    constructor.
  - unfold Scenario.ten_changes.
    repeat (constructor; [cbn; lia|]). constructor.
Qed.

(** An update that names a new password but no domain, on a credential with
    five history rows: the old ciphertext is added to the history and the
    oldest row is pruned, then the rewrite of the credential fails.  The
    reply is a failure, the credential is as before, the history is not. *)
Example failed_update_prunes_history :
  let before := Scenario.vault_with_full_history in
  let result := PasswordManager.updatePassword Scenario.example_id
                  (Scenario.password_only "new") 800 before in
  PasswordManager.success (fst result) = false
  /\ PasswordManager.error (fst result)
     = Some (PasswordDatabase.not_null_failed "passwords" "domain")
  /\ PasswordDatabase.passwords (PasswordManager.database (snd result))
     = PasswordDatabase.passwords (PasswordManager.database before)
  /\ map History.changed_at
         (Spec.history_of Scenario.example_id (PasswordManager.database before))
     = [160; 220; 280; 340; 400]
  /\ map History.changed_at
         (Spec.history_of Scenario.example_id (PasswordManager.database (snd result)))
     = [220; 280; 340; 400; 800].
Proof. vm_compute. repeat split; reflexivity. Qed.

(** The update above fails after the history was written and pruned: the
    pruning and the update are not one atomic write. *)
Lemma update_is_not_atomic :
  ~ (forall crypto : NodeCrypto, @Spec.update_is_atomic crypto).
Proof.
  intros H.
  specialize (H toy_crypto Scenario.vault_with_full_history Scenario.example_id
                (Scenario.password_only "new") 800).
  assert (F : PasswordManager.success
                (fst (PasswordManager.updatePassword Scenario.example_id
                        (Scenario.password_only "new") 800
                        Scenario.vault_with_full_history)) = false)
    by (vm_compute; reflexivity).
  specialize (H F). apply (f_equal (map History.changed_at)) in H.
  vm_compute in H. discriminate H.
Qed.

(* ================================================================== *)
(** * Searching: LIKE with a pattern built from the query *)
(* ================================================================== *)

Section LikeFacts.

Import PasswordDatabase.

Lemma suffixes_app (a b : jsstring) : In b (suffixes (a ++ b)).
Proof.
  induction a as [|x a IH]; cbn [app].
  - destruct b; cbn [suffixes]; left; reflexivity.
  - cbn [suffixes]. right. exact IH.
Qed.

Lemma suffixes_nil (s : jsstring) : In [] (suffixes s).
Proof.
  pose proof (suffixes_app s []) as H. rewrite app_nil_r in H. exact H.
Qed.

Lemma like_percent (pattern text tail : jsstring) :
  In tail (suffixes text) -> like pattern tail = true ->
  like (37 :: pattern) text = true.
Proof.
  intros Hin Hl. cbn [like]. rewrite Z.eqb_refl. apply existsb_exists.
  exists tail. split; assumption.
Qed.

(** A pattern matches its own text, character for character, whatever the
    case of the letters: ['%'] and ['_'] match themselves too. *)
Lemma like_literal (query : jsstring) :
  forall (found rest text : jsstring),
    map fold_case found = map fold_case query ->
    like rest text = true ->
    like (query ++ rest) (found ++ text) = true.
Proof.
  induction query as [|c query IH]; intros found rest text Hm Hr.
  - destruct found; [exact Hr|discriminate Hm].
  - destruct found as [|x found]; [discriminate Hm|].
    cbn [map] in Hm. injection Hm as Hc Hm.
    cbn [app like]. destruct (c =? 37) eqn:E.
    + apply existsb_exists. exists (found ++ text). split.
      * apply (suffixes_app [x] (found ++ text)).
      * apply IH; assumption.
    + rewrite Hc, Z.eqb_refl, orb_true_r. cbn [andb]. apply IH; assumption.
Qed.

Lemma like_contains (query text : jsstring) :
  Behaviour.contains query text -> like (contains_pattern query) text = true.
Proof.
  intros [before [found [after [-> Hm]]]]. unfold contains_pattern. cbn [app].
  apply (like_percent _ _ (found ++ after)); [apply suffixes_app|].
  apply like_literal; [exact Hm|].
  apply (like_percent _ _ []); [apply suffixes_nil|reflexivity].
Qed.

(** The pattern of the empty query matches every text. *)
Lemma like_empty_query (text : jsstring) : like (contains_pattern []) text = true.
Proof.
  apply like_contains. exists [], [], text. split; reflexivity.
Qed.

Lemma filter_all {A : Type} (f : A -> bool) (l : list A) :
  (forall x, f x = true) -> filter f l = l.
Proof.
  intros H. induction l as [|x l IH]; [reflexivity|].
  cbn [filter]. rewrite H, IH. reflexivity.
Qed.

(** The row [getPassword] finds is a row of the table, with the id asked
    for. *)
Lemma getPassword_In (id : jsstring) (db : t) (p : Passwords.row) :
  getPassword id db = Some p -> In p (passwords db) /\ Passwords.id p = id.
Proof.
  unfold getPassword. intros G. apply find_some in G. destruct G as [Hin Hid].
  split; [exact Hin|]. apply jsstring_eqb_eq. exact Hid.
Qed.

End LikeFacts.

(** X1. What a search returns.  Take a query of at most 16000 units, none
    of them U+0000 or a surrogate.  Every entry whose domain is made of such
    units and contains the query, ASCII letters compared without regard to
    case, is among the results of [searchPasswords]; so is every entry whose
    user name is made of such units and contains the query; and
    [getPasswords(domain)] finds the entries of the first kind for a
    non-empty query.  Every result is a row of the table, and the empty
    query returns the whole table. *)
Theorem X1_search_finds_every_entry_containing_the_query
  (query : jsstring) (db : PasswordDatabase.t) :
  forallb Behaviour.simple query = true ->
  Z.of_nat (List.length query) <= Behaviour.longest_query ->
  (forall p, In p (PasswordDatabase.passwords db) ->
             forallb Behaviour.simple (Passwords.domain p) = true ->
             Behaviour.contains query (Passwords.domain p) ->
             In p (PasswordDatabase.searchPasswords query db))
  /\ (forall p, In p (PasswordDatabase.passwords db) ->
                forallb Behaviour.simple (Passwords.username p) = true ->
                Behaviour.contains query (Passwords.username p) ->
                In p (PasswordDatabase.searchPasswords query db))
  /\ (forall p, In p (PasswordDatabase.passwords db) ->
                query <> [] ->
                forallb Behaviour.simple (Passwords.domain p) = true ->
                Behaviour.contains query (Passwords.domain p) ->
                In p (PasswordDatabase.getPasswords (Some query) db))
  /\ (forall p, In p (PasswordDatabase.searchPasswords query db) ->
                In p (PasswordDatabase.passwords db))
  /\ (query = [] ->
      Permutation (PasswordDatabase.searchPasswords query db)
                  (PasswordDatabase.passwords db)).
Proof.
  intros _ _. split; [|split; [|split; [|split]]].
  - intros p Hin _ Hc. unfold PasswordDatabase.searchPasswords.
    apply order_by_In. apply filter_In. split; [exact Hin|].
    apply orb_true_iff. left. apply like_contains, Hc.
  - intros p Hin _ Hc. unfold PasswordDatabase.searchPasswords.
    apply order_by_In. apply filter_In. split; [exact Hin|].
    apply orb_true_iff. right. apply like_contains, Hc.
  - intros p Hin Hq _ Hc. unfold PasswordDatabase.getPasswords.
    destruct query as [|c query]; [contradiction|]. cbn [truthy or_else].
    apply order_by_In. apply filter_In. split; [exact Hin|]. apply like_contains, Hc.
  - intros p Hin. unfold PasswordDatabase.searchPasswords in Hin.
    apply order_by_In in Hin. apply filter_In in Hin. apply Hin.
  - intros ->. unfold PasswordDatabase.searchPasswords.
    rewrite filter_all.
    + apply order_by_perm.
    + intros p. rewrite like_empty_query. reflexivity.
Qed.

Lemma X1_search_witness :
  exists p,
    In p (PasswordDatabase.passwords (PasswordManager.database Cases.tagged_vault))
    /\ Passwords.domain p = js "GitHub.com"
    /\ In p (PasswordDatabase.searchPasswords
               (js "github") (PasswordManager.database Cases.tagged_vault)).
Proof.
  destruct (PasswordDatabase.getPassword
              (js "e1") (PasswordManager.database Cases.tagged_vault))
    as [p|] eqn:G.
  2: { assert (F : match PasswordDatabase.getPassword
                           (js "e1") (PasswordManager.database Cases.tagged_vault) with
                   | Some _ => true
                   | None => false
                   end = true) by (vm_compute; reflexivity).
       rewrite G in F. discriminate F. }
  assert (Hin : In p (PasswordDatabase.passwords
                        (PasswordManager.database Cases.tagged_vault)))
    by (exact (proj1 (getPassword_In _ _ _ G))).
  assert (Hd : option_map Passwords.domain
                 (PasswordDatabase.getPassword
                    (js "e1") (PasswordManager.database Cases.tagged_vault))
               = Some (js "GitHub.com")) by (vm_compute; reflexivity).
  rewrite G in Hd. cbn [option_map] in Hd. injection Hd as Hd.
  exists p. split; [exact Hin|]. split; [exact Hd|].
  assert (Hq : Z.of_nat (List.length (js "github")) <= Behaviour.longest_query)
    by (vm_compute; discriminate).
  refine (proj1 (X1_search_finds_every_entry_containing_the_query
                   (js "github") (PasswordManager.database Cases.tagged_vault)
                   eq_refl Hq)
                p Hin _ _).
  - rewrite Hd. reflexivity.
  - exists [], (js "GitHub"), (js ".com"). split; [exact Hd|reflexivity].
Defined.

(* ================================================================== *)
(** * Tags: the JSON text in the column, look-up and listing *)
(* ================================================================== *)

Section JsonFacts.




End JsonFacts.



Section TagOrder.

Import PasswordDatabase.

Lemma jsstring_ltb_asym (a : jsstring) :
  forall b, jsstring_ltb a b = true -> jsstring_ltb b a = false.
Proof.
  induction a as [|x a IH]; intros [|y b] H; cbn [jsstring_ltb] in *;
    try reflexivity; try discriminate.
  apply orb_true_iff in H. apply orb_false_iff.
  destruct (Z.ltb_spec x y); destruct (Z.ltb_spec y x);
    destruct (Z.eqb_spec x y); destruct (Z.eqb_spec y x); try lia;
    cbn [andb] in *; destruct H as [H|H]; try discriminate;
    split; try reflexivity.
  apply IH. exact H.
Qed.

Lemma jsstring_leb_trans (a : jsstring) :
  forall b c, jsstring_ltb b a = false -> jsstring_ltb c b = false ->
              jsstring_ltb c a = false.
Proof.
  induction a as [|x a IH]; intros [|y b] [|z c] H1 H2; cbn [jsstring_ltb] in *;
    try reflexivity; try discriminate.
  apply orb_false_iff in H1. apply orb_false_iff in H2. apply orb_false_iff.
  destruct H1 as [H1 H1']. destruct H2 as [H2 H2'].
  apply Z.ltb_ge in H1, H2.
  split; [apply Z.ltb_ge; lia|].
  destruct (Z.eqb_spec z x) as [Ezx|Hzx]; [|reflexivity]. cbn [andb].
  assert (Ey : y = x) by lia. subst z y.
  rewrite Z.eqb_refl in H1', H2'. cbn [andb] in H1', H2'.
  eapply IH; eassumption.
Qed.

Lemma jsstring_ltb_total (a : jsstring) :
  forall b, jsstring_ltb a b = false -> jsstring_ltb b a = false -> a = b.
Proof.
  induction a as [|x a IH]; intros [|y b] H1 H2; cbn [jsstring_ltb] in *;
    try reflexivity; try discriminate.
  apply orb_false_iff in H1. apply orb_false_iff in H2.
  destruct H1 as [H1 H1']. destruct H2 as [H2 H2'].
  apply Z.ltb_ge in H1, H2. assert (x = y) by lia. subst y.
  rewrite Z.eqb_refl in H1', H2'. cbn [andb] in *.
  f_equal. apply IH; assumption.
Qed.

(** [ORDER BY] and [sort()] put the rows in order, for any comparison that
    is a strict weak order. *)
Lemma insert_sorted_sorted {A : Type} (before : A -> A -> bool) :
  (forall a b, before a b = true -> before b a = false) ->
  (forall a b c, before b a = false -> before c b = false -> before c a = false) ->
  forall x l,
    StronglySorted (fun a b => before b a = false) l ->
    StronglySorted (fun a b => before b a = false) (insert_sorted before x l).
Proof.
  intros Hasym Htrans x l. induction l as [|y l IH]; intros H.
  - cbn [insert_sorted]. constructor; constructor.
  - cbn [insert_sorted]. inversion H as [|? ? Hl Hy]; subst.
    destruct (before y x) eqn:E.
    + constructor; [apply IH, Hl|].
      apply Forall_forall. intros z Hz.
      apply (Permutation_in _ (insert_sorted_perm before x l)) in Hz.
      destruct Hz as [<-|Hz]; [apply Hasym, E|].
      rewrite Forall_forall in Hy. apply Hy, Hz.
    + constructor; [exact H|]. constructor; [exact E|].
      rewrite Forall_forall in Hy |- *. intros z Hz.
      eapply Htrans; [exact E|]. apply Hy, Hz.
Qed.

Lemma order_by_sorted {A : Type} (before : A -> A -> bool) :
  (forall a b, before a b = true -> before b a = false) ->
  (forall a b c, before b a = false -> before c b = false -> before c a = false) ->
  forall l, StronglySorted (fun a b => before b a = false) (order_by before l).
Proof.
  intros Hasym Htrans l. unfold order_by. induction l as [|x l IH]; [constructor|].
  cbn [fold_right]. apply insert_sorted_sorted; assumption.
Qed.

Lemma sorted_distinct_strict (l : list jsstring) :
  StronglySorted (fun a b => jsstring_ltb b a = false) l -> NoDup l ->
  StronglySorted (fun a b => jsstring_ltb a b = true) l.
Proof.
  induction l as [|x l IH]; intros Hs Hn; [constructor|].
  inversion Hs as [|? ? Hl Hx]; subst. inversion Hn as [|? ? Hnx Hnl]; subst.
  constructor; [apply IH; assumption|].
  rewrite Forall_forall in Hx |- *. intros y Hy.
  destruct (jsstring_ltb x y) eqn:E; [reflexivity|].
  exfalso. apply Hnx.
  rewrite (jsstring_ltb_total x y E (Hx y Hy)). exact Hy.
Qed.

(** ** The set of tags *)

Lemma set_add_In (tag x : jsstring) (tagSet : list jsstring) :
  In x (set_add tag tagSet) <-> x = tag \/ In x tagSet.
Proof.
  unfold set_add. destruct (existsb (jsstring_eqb tag) tagSet) eqn:E.
  - split; [intros H; right; exact H|]. intros [->|H]; [|exact H].
    apply existsb_exists in E. destruct E as [y [Hy Ey]].
    apply jsstring_eqb_eq in Ey. subst y. exact Hy.
  - rewrite in_app_iff. cbn [In]. split.
    + intros [H|[H|[]]]; [right; exact H|left; symmetry; exact H].
    + intros [->|H]; [right; left; reflexivity|left; exact H].
Qed.

Lemma set_add_NoDup (tag : jsstring) (tagSet : list jsstring) :
  NoDup tagSet -> NoDup (set_add tag tagSet).
Proof.
  intros H. unfold set_add. destruct (existsb (jsstring_eqb tag) tagSet) eqn:E;
    [exact H|].
  apply NoDup_app; [exact H|constructor; [intros []|constructor]|].
  intros x Hx [Ex|[]]. subst x.
  assert (F : existsb (jsstring_eqb tag) tagSet = true)
    by (apply existsb_exists; exists tag; split; [exact Hx|apply jsstring_eqb_refl]).
  congruence.
Qed.

Lemma add_tags_spec (tags : list jsstring) :
  forall tagSet,
    NoDup tagSet ->
    NoDup (fold_left (fun s tag => set_add tag s) tags tagSet)
    /\ forall x, In x (fold_left (fun s tag => set_add tag s) tags tagSet)
                 <-> In x tags \/ In x tagSet.
Proof.
  induction tags as [|tag tags IH]; intros tagSet Hn.
  - cbn [fold_left]. split; [exact Hn|]. intros x. cbn [In]. tauto.
  - cbn [fold_left].
    destruct (IH (set_add tag tagSet) (set_add_NoDup tag tagSet Hn)) as [I1 I2].
    split; [exact I1|]. intros x. rewrite I2, set_add_In. cbn [In].
    split; intros H; intuition congruence.
Qed.

Lemma collect_tags_spec (rows : list Passwords.row) :
  forall tagSet,
    NoDup tagSet ->
    let collected :=
      fold_left (fun tagSet p =>
                   match Passwords.tags p with
                   | JsonArray tags => fold_left (fun s tag => set_add tag s) tags tagSet
                   | JsonString _ => tagSet
                   end) rows tagSet in
    NoDup collected
    /\ forall x, In x collected
                 <-> (exists p items, In p rows /\ Passwords.tags p = JsonArray items
                                      /\ In x items)
                     \/ In x tagSet.
Proof.
  induction rows as [|p rows IH]; intros tagSet Hn; cbv zeta.
  - cbn [fold_left]. split; [exact Hn|]. intros x. split; [intros H; right; exact H|].
    intros [[p [items [[] _]]]|H]; exact H.
  - cbn [fold_left]. destruct (Passwords.tags p) as [tags|text] eqn:T.
    + destruct (add_tags_spec tags tagSet Hn) as [A1 A2].
      destruct (IH _ A1) as [I1 I2]. split; [exact I1|].
      intros x. rewrite I2, A2. split.
      * intros [[q [items [Hq [Tq Hx]]]]|[Hx|Hx]].
        -- left. exists q, items. split; [right; exact Hq|]. split; assumption.
        -- left. exists p, tags. split; [left; reflexivity|]. split; assumption.
        -- right. exact Hx.
      * intros [[q [items [[<-|Hq] [Tq Hx]]]]|Hx].
        -- right. left. rewrite T in Tq. injection Tq as <-. exact Hx.
        -- left. exists q, items. split; [exact Hq|]. split; assumption.
        -- right. right. exact Hx.
    + destruct (IH tagSet Hn) as [I1 I2]. split; [exact I1|].
      intros x. rewrite I2. split.
      * intros [[q [items [Hq [Tq Hx]]]]|Hx]; [left|right; exact Hx].
        exists q, items. split; [right; exact Hq|]. split; assumption.
      * intros [[q [items [[<-|Hq] [Tq Hx]]]]|Hx]; [congruence| |right; exact Hx].
        left. exists q, items. split; [exact Hq|]. split; assumption.
Qed.

End TagOrder.

(** X3. The list of all tags.  [getAllTags] returns each tag that occurs in
    the tag array of some entry, once, in strictly ascending order of UTF-16
    code units; entries whose [tags] column is not an array contribute
    nothing. *)
Theorem X3_all_tags_are_sorted_and_distinct (db : PasswordDatabase.t) :
  StronglySorted (fun a b => PasswordDatabase.jsstring_ltb a b = true)
                 (PasswordDatabase.getAllTags db)
  /\ NoDup (PasswordDatabase.getAllTags db)
  /\ forall tag,
      In tag (PasswordDatabase.getAllTags db)
      <-> exists p items,
          In p (PasswordDatabase.passwords db)
          /\ Passwords.tags p = JsonArray items /\ In tag items.
Proof.
  unfold PasswordDatabase.getAllTags.
  destruct (collect_tags_spec (PasswordDatabase.getPasswords None db) [] (NoDup_nil _))
    as [Hn Hin].
  set (collected := fold_left _ _ _) in *.
  assert (Hd : NoDup (PasswordDatabase.order_by PasswordDatabase.jsstring_ltb collected)).
  { eapply Permutation_NoDup; [symmetry; apply order_by_perm|exact Hn]. }
  split; [|split; [exact Hd|]].
  - apply sorted_distinct_strict; [|exact Hd].
    apply order_by_sorted.
    + intros a b. apply jsstring_ltb_asym.
    + intros a b c. apply jsstring_leb_trans.
  - intros tag. rewrite order_by_In, Hin. split.
    + intros [[p [items [Hp [Ht Hx]]]]|[]]. exists p, items.
      unfold PasswordDatabase.getPasswords in Hp. cbn [truthy] in Hp.
      apply order_by_In in Hp. split; [exact Hp|]. split; assumption.
    + intros [p [items [Hp [Ht Hx]]]]. left. exists p, items.
      split; [|split; assumption].
      unfold PasswordDatabase.getPasswords. cbn [truthy]. apply order_by_In. exact Hp.
Qed.


(* ================================================================== *)
(** * What the requests can do to the database *)
(* ================================================================== *)

(** Every change a request makes to the database is made through a handful of
    [PasswordDatabase] methods.  A property of the database that each of
    those methods keeps is kept by every request, and so holds after every
    run of events.  [saveMasterPasswordSettings] is left to one side: only
    [pm-setup-master-password] reaches it. *)
Section StoreFrame.
Context {crypto : NodeCrypto}.

Import PasswordManager.

Variable P : PasswordDatabase.t -> Prop.

Hypothesis P_accessed :
  forall now db, P db -> P (PasswordDatabase.updateLastAccessed now db).
Hypothesis P_save :
  forall p now db r, P db -> P (snd (fst (PasswordDatabase.savePassword p now db r))).
Hypothesis P_usage :
  forall id now db, P db -> P (PasswordDatabase.updatePasswordUsage id now db).
Hypothesis P_history :
  forall id enc now db db',
    P db -> PasswordDatabase.addToPasswordHistory id enc now db = Return db' -> P db'.
Hypothesis P_delete :
  forall id now db db',
    P db -> PasswordDatabase.deletePassword id now db = Return db' -> P db'.
Hypothesis P_note :
  forall n now db r, P db -> P (snd (fst (PasswordDatabase.saveSecureNote n now db r))).
Hypothesis P_delete_note :
  forall id db, P db -> P (PasswordDatabase.deleteSecureNote id db).

Lemma for_each_keeps {A : Type}
      (save : A -> PasswordDatabase.t -> entropy
              -> outcome jsstring * PasswordDatabase.t * entropy)
      (l : list A) :
  (forall x db r, P db -> P (snd (fst (save x db r)))) ->
  forall db r, P db -> P (snd (fst (PasswordDatabase.for_each save l db r))).
Proof.
  intros Hsave. induction l as [|x l IH]; intros db r H; [exact H|].
  cbn [PasswordDatabase.for_each]. pose proof (Hsave x db r H) as H1.
  destruct (save x db r) as [[[id|msg] db1] r1]; cbn [fst snd] in *;
    [apply IH|]; exact H1.
Qed.

Lemma importData_keeps (data : PasswordDatabase.bundle) (now : timestamp)
      (db : PasswordDatabase.t) (r : entropy) :
  P db -> P (snd (fst (PasswordDatabase.importData data now db r))).
Proof.
  intros H. unfold PasswordDatabase.importData.
  pose proof (for_each_keeps (fun p => PasswordDatabase.savePassword p now)
                (PasswordEncryption.with_default [] (PasswordDatabase.b_passwords data))
                (fun x db r => P_save x now db r) db r H) as H1.
  destruct (PasswordDatabase.for_each (fun p => PasswordDatabase.savePassword p now) _ db r)
    as [[[u|msg] db1] r1]; cbn [fst snd] in *; [|exact H1].
  pose proof (for_each_keeps (fun n => PasswordDatabase.saveSecureNote n now)
                (PasswordEncryption.with_default [] (PasswordDatabase.b_notes data))
                (fun x db r => P_note x now db r) db1 r1 H1) as H2.
  destruct (PasswordDatabase.for_each (fun n => PasswordDatabase.saveSecureNote n now)
                                      _ db1 r1) as [[[u'|msg] db2] r2];
    cbn [fst snd] in *; exact H2.
Qed.

Lemma unlock_keeps masterPassword now m :
  P (database m) -> P (database (snd (unlock masterPassword now m))).
Proof.
  intros H. unfold unlock.
  destruct (PasswordDatabase.getMasterPasswordSettings (database m)); [|exact H].
  destruct (PasswordEncryption.verifyMasterPassword _ _ _ _) as [[|] e1];
    cbn [snd database resetAutoLockTimer with_timer with_database with_isLocked
         with_encryption]; [apply P_accessed|]; exact H.
Qed.

Lemma addPassword_keeps passwordData now m :
  P (database m) -> P (database (snd (addPassword passwordData now m))).
Proof.
  intros H. unfold addPassword. destruct (isLocked m); [exact H|].
  destruct (if truthy (PasswordEncryption.pe_id passwordData) then _ else _)
    as [id r0].
  destruct (PasswordEncryption.encryptPasswordEntry _ _ r0) as [[encrypted|msg] r1];
    [|exact H].
  pose proof (P_save encrypted now (database (resetAutoLockTimer now m)) r1 H) as H1.
  destruct (PasswordDatabase.savePassword encrypted now _ r1) as [[[id'|msg] db1] r2];
    exact H1.
Qed.

Lemma getPassword_keeps id now m :
  P (database m) -> P (database (snd (getPassword id now m))).
Proof.
  intros H. unfold getPassword. destruct (isLocked m); [exact H|].
  destruct (PasswordDatabase.getPassword id _); [|exact H].
  destruct (PasswordEncryption.decryptPasswordEntry _ _); [|exact H].
  cbn [snd database with_database]. apply P_usage. exact H.
Qed.

Lemma updatePassword_keeps id passwordData now m :
  P (database m) -> P (database (snd (updatePassword id passwordData now m))).
Proof.
  intros H. unfold updatePassword. destruct (isLocked m); [exact H|].
  destruct (PasswordDatabase.getPassword id _) as [existing|]; [|exact H].
  assert (Tail : forall db1 p,
             P db1 ->
             P (database
                  (snd
                     (let m1 := with_database db1 (resetAutoLockTimer now m) in
                      match PasswordEncryption.encryptPasswordEntry p (encryption m1)
                              (random m1) with
                      | (Throw message, r1) =>
                          caught (js "[PasswordManager] Update password error:")
                                 message (with_random r1 m1)
                      | (Return encrypted, r1) =>
                          match PasswordDatabase.savePassword encrypted now
                                  (database m1) r1 with
                          | (Throw message, db2, r2) =>
                              caught (js "[PasswordManager] Update password error:")
                                     message (with_database db2 (with_random r2 m1))
                          | (Return _, db2, r2) =>
                              (ok (Message (js "Password updated successfully")),
                               with_database db2 (with_random r2 m1))
                          end
                      end)))).
  { intros db1 p Hh. cbv zeta.
    cbn [database with_database encryption random resetAutoLockTimer with_timer].
    destruct (PasswordEncryption.encryptPasswordEntry _ _ _) as [[encrypted|msg] r1];
      [|exact Hh].
    pose proof (P_save encrypted now db1 r1 Hh) as H1.
    destruct (PasswordDatabase.savePassword encrypted now db1 r1)
      as [[[id'|msg] db2] r2]; exact H1. }
  destruct (truthy _ && truthy _).
  - destruct (PasswordDatabase.addToPasswordHistory _ _ _ _) as [db1|msg] eqn:E;
      [|exact H].
    apply Tail. eapply P_history; [|exact E]. exact H.
  - apply Tail. exact H.
Qed.

Lemma deletePassword_keeps id now m :
  P (database m) -> P (database (snd (deletePassword id now m))).
Proof.
  intros H. unfold deletePassword. destruct (isLocked m); [exact H|].
  destruct (PasswordDatabase.deletePassword id now _) as [db1|msg] eqn:E; [|exact H].
  cbn [snd database with_database]. eapply P_delete; [|exact E]. exact H.
Qed.

Lemma addSecureNote_keeps noteData now m :
  P (database m) -> P (database (snd (addSecureNote noteData now m))).
Proof.
  intros H. unfold addSecureNote. destruct (isLocked m); [exact H|].
  destruct (if truthy (PasswordDatabase.nd_id noteData) then _ else _) as [id r0].
  destruct (PasswordEncryption.encrypt_value _ _ r0) as [[c|msg] r1]; [|exact H].
  match goal with
  | |- context [PasswordDatabase.saveSecureNote ?n now ?db r1] =>
      pose proof (P_note n now db r1 H) as H1;
      destruct (PasswordDatabase.saveSecureNote n now db r1) as [[[id'|msg] db1] r2]
  end; exact H1.
Qed.

Lemma importData_manager_keeps data now m :
  P (database m) -> P (database (snd (importData data now m))).
Proof.
  intros H. unfold importData. destruct (isLocked m); [exact H|].
  pose proof (importData_keeps data now (database (resetAutoLockTimer now m))
                (random (resetAutoLockTimer now m)) H) as H1.
  destruct (PasswordDatabase.importData data now _ _) as [[[counts|msg] db1] r1];
    exact H1.
Qed.

(** Every request but the set-up of a master password keeps [P]. *)
Lemma handle_keeps (q : request) (now : timestamp) (m : t) :
  (forall masterPassword, q <> pm_setup_master_password masterPassword) ->
  P (database m) -> P (database (snd (handle q now m))).
Proof.
  intros Hq H. destruct q; cbn [handle replying snd].
  - exact H.
  - exfalso. eapply Hq. reflexivity.
  - apply unlock_keeps, H.
  - rewrite lock_database. exact H.
  - exact H.
  - apply addPassword_keeps, H.
  - unfold getPasswords. destruct (isLocked m); [exact H|].
    pose proof (decrypt_each_database log_failed_entry
                  (PasswordDatabase.getPasswords domain
                     (database (resetAutoLockTimer now m)))
                  (fun _ _ => eq_refl) (fun _ _ => eq_refl)
                  (resetAutoLockTimer now m)) as E.
    destruct (decrypt_each log_failed_entry _ _) as [ds m']. cbn [snd] in *.
    rewrite E. exact H.
  - apply getPassword_keeps, H.
  - apply updatePassword_keeps, H.
  - apply deletePassword_keeps, H.
  - unfold searchPasswords. destruct (isLocked m); [exact H|].
    pose proof (decrypt_each_database ignore_entry
                  (PasswordDatabase.searchPasswords query
                     (database (resetAutoLockTimer now m)))
                  (fun _ _ => eq_refl) (fun _ _ => eq_refl)
                  (resetAutoLockTimer now m)) as E.
    destruct (decrypt_each ignore_entry _ _) as [ds m']. cbn [snd] in *.
    rewrite E. exact H.
  - rewrite generatePassword_database. exact H.
  - exact H.
  - apply addSecureNote_keeps, H.
  - unfold getSecureNotes. destruct (isLocked m); [exact H|].
    destruct (decrypt_notes _ _); exact H.
  - unfold deleteSecureNote. destruct (isLocked m); [exact H|].
    cbn [snd database with_database]. apply P_delete_note. exact H.
  - unfold getStatistics. destruct (isLocked m); exact H.
  - unfold exportData. destruct (isLocked m); exact H.
  - apply importData_manager_keeps, H.
  - unfold findDuplicatePasswords. destruct (isLocked m); exact H.
  - unfold getAllTags. destruct (isLocked m); exact H.
Qed.

(** What the set-up does to the database: nothing, or one call of
    [saveMasterPasswordSettings]. *)
Lemma setupMasterPassword_database masterPassword now m :
  database (snd (setupMasterPassword masterPassword now m)) = database m
  \/ exists salt verificationHash iterations,
      database (snd (setupMasterPassword masterPassword now m))
      = PasswordDatabase.saveMasterPasswordSettings salt verificationHash iterations
          now (database m).
Proof.
  unfold setupMasterPassword.
  destruct (PasswordEncryption.score _ <? 3); [left; reflexivity|].
  destruct (PasswordEncryption.initialize masterPassword (encryption m) (random m))
    as [[[settings|msg] e1] r1]; [right|left; reflexivity].
  eexists _, _, _. reflexivity.
Qed.

Hypothesis P_settings :
  forall salt verificationHash iterations now db,
    P db ->
    P (PasswordDatabase.saveMasterPasswordSettings salt verificationHash iterations now db).

Lemma handle_keeps_all (q : request) (now : timestamp) (m : t) :
  P (database m) -> P (database (snd (handle q now m))).
Proof.
  intros H.
  assert (S : (forall masterPassword, q <> pm_setup_master_password masterPassword)
              \/ exists masterPassword, q = pm_setup_master_password masterPassword).
  { destruct q; try (left; intros ?; discriminate). right. eexists. reflexivity. }
  destruct S as [S|[masterPassword ->]]; [apply handle_keeps; assumption|].
  cbn [handle replying snd].
  destruct (setupMasterPassword_database masterPassword now m)
    as [E|[salt [verificationHash [iterations E]]]]; rewrite E;
    [|apply P_settings]; exact H.
Qed.

Lemma apply_event_keeps (m : t) (ev : event) :
  P (database m) -> P (database (apply_event m ev)).
Proof.
  intros H. destruct ev as [q now| |]; cbn [apply_event].
  - apply handle_keeps_all, H.
  - destruct (autoLockTimer m); [|exact H]. unfold autoLock.
    rewrite lock_database. exact H.
  - exact H.
Qed.

Lemma run_keeps (fk : bool) (r : entropy) (events : list event) :
  P (PasswordDatabase.empty fk) -> P (database (run fk r events)).
Proof.
  unfold run.
  assert (G : forall m, P (database m) -> P (database (fold_left apply_event events m))).
  { induction events as [|ev events IH]; intros m H; [exact H|].
    cbn [fold_left]. apply IH. apply apply_event_keeps, H. }
  intros H0. apply (G (create (PasswordDatabase.empty fk) r)). exact H0.
Qed.

End StoreFrame.

(* ================================================================== *)
(** * The master password over a run of events *)
(* ================================================================== *)

Section SettingsFrame.

Import PasswordDatabase.

Lemma delete_password_row_settings (id : jsstring) (db : t) :
  password_settings (delete_password_row id db) = password_settings db.
Proof.
  unfold delete_password_row.
  destruct (foreign_keys db && existsb (has_id id) (passwords db)); reflexivity.
Qed.

Lemma savePassword_settings (p : PasswordEncryption.encryptedEntry) (now : timestamp)
      (db : t) (r : entropy) :
  password_settings (snd (fst (savePassword p now db r))) = password_settings db.
Proof.
  unfold savePassword.
  destruct (if truthy (PasswordEncryption.ee_id p)
            then (or_else (PasswordEncryption.ee_id p) [], r) else uuidv4 r)
    as [id r1].
  destruct (PasswordEncryption.ee_domain p); [|reflexivity].
  destruct (PasswordEncryption.ee_encrypted_password p); [|reflexivity].
  cbn [fst snd with_passwords password_settings]. apply delete_password_row_settings.
Qed.

Lemma addToPasswordHistory_settings (id enc : jsstring) (now : timestamp) (db db' : t) :
  addToPasswordHistory id enc now db = Return db' ->
  password_settings db' = password_settings db.
Proof.
  unfold addToPasswordHistory, insert_history.
  destruct (foreign_keys db && negb (existsb (has_id id) (passwords db)));
    [discriminate|].
  intros E. injection E as <-. reflexivity.
Qed.

Lemma deletePassword_settings (id : jsstring) (now : timestamp) (db db' : t) :
  deletePassword id now db = Return db' ->
  password_settings db' = password_settings db.
Proof.
  unfold deletePassword. destruct (getPassword id db) as [p|].
  - destruct (addToPasswordHistory id (Passwords.encrypted_password p) now db)
      as [db1|] eqn:E; [|discriminate].
    intros E'. injection E' as <-. rewrite delete_password_row_settings.
    eapply addToPasswordHistory_settings. exact E.
  - intros E'. injection E' as <-. apply delete_password_row_settings.
Qed.

Lemma saveSecureNote_settings (n : noteData) (now : timestamp) (db : t) (r : entropy) :
  password_settings (snd (fst (saveSecureNote n now db r))) = password_settings db.
Proof.
  unfold saveSecureNote.
  destruct (if truthy (nd_id n) then (or_else (nd_id n) [], r) else uuidv4 r)
    as [id r1].
  destruct (nd_title n); [|reflexivity].
  destruct (nd_encrypted_content n); reflexivity.
Qed.

Lemma updateLastAccessed_credentials (now : timestamp) (db : t) :
  Behaviour.credentials (updateLastAccessed now db) = Behaviour.credentials db.
Proof.
  unfold Behaviour.credentials, updateLastAccessed.
  cbn [password_settings with_settings]. rewrite map_map. reflexivity.
Qed.

End SettingsFrame.

Section MasterPassword.
Context {crypto : NodeCrypto}.

Import PasswordManager.

(** No request but the set-up changes what unlocks the vault. *)
Lemma handle_credentials (q : request) (now : timestamp) (m : t) :
  (forall masterPassword, q <> pm_setup_master_password masterPassword) ->
  Behaviour.credentials (database (snd (handle q now m)))
  = Behaviour.credentials (database m).
Proof.
  intros Hq.
  apply (handle_keeps
           (fun db => Behaviour.credentials db = Behaviour.credentials (database m)));
    try exact Hq; try reflexivity; unfold Behaviour.credentials.
  - intros t db H. rewrite <- H. apply updateLastAccessed_credentials.
  - intros p t db r H. rewrite savePassword_settings. exact H.
  - intros id t db H. exact H.
  - intros id enc t db db' H E.
    rewrite (addToPasswordHistory_settings _ _ _ _ _ E). exact H.
  - intros id t db db' H E. rewrite (deletePassword_settings _ _ _ _ E). exact H.
  - intros n t db r H. rewrite saveSecureNote_settings. exact H.
  - intros id db H. exact H.
Qed.

Lemma apply_event_credentials (m : t) (ev : event) :
  Behaviour.is_setup ev = false ->
  Behaviour.credentials (database (apply_event m ev))
  = Behaviour.credentials (database m).
Proof.
  intros H. destruct ev as [q now| |]; cbn [apply_event].
  - apply handle_credentials. intros masterPassword ->. discriminate H.
  - destruct (autoLockTimer m); [|reflexivity]. unfold autoLock.
    rewrite lock_database. reflexivity.
  - reflexivity.
Qed.

Lemma events_credentials (events : list event) :
  forallb (fun ev => negb (Behaviour.is_setup ev)) events = true ->
  forall m, Behaviour.credentials (database (fold_left apply_event events m))
            = Behaviour.credentials (database m).
Proof.
  induction events as [|ev events IH]; intros H m; [reflexivity|].
  cbn [forallb] in H. apply andb_true_iff in H. destruct H as [Hev H].
  cbn [fold_left]. rewrite (IH H). apply apply_event_credentials.
  apply negb_true_iff. exact Hev.
Qed.

(** Whoever knows the password behind the stored credentials gets in. *)
Lemma unlock_with_credentials (masterPassword : jsstring) (salt iv : bytes)
      (later : timestamp) (m : t) :
  List.length iv = 16%nat ->
  Behaviour.credentials (database m)
  = [(hex_encode salt,
      PasswordEncryption.seal (PasswordEncryption.deriveKey masterPassword salt) iv
                              PasswordEncryption.verificationData)] ->
  success (fst (unlock masterPassword later m)) = true
  /\ isLocked (snd (unlock masterPassword later m)) = false.
Proof.
  intros Hiv Hc. unfold unlock, PasswordDatabase.getMasterPasswordSettings.
  unfold Behaviour.credentials in Hc.
  destruct (PasswordDatabase.password_settings (database m)) as [|s rest];
    [discriminate Hc|].
  cbn [map] in Hc. injection Hc as Hsalt Hhash _. cbn [hd_error].
  rewrite verifyMasterPassword_spec, Hsalt, Hhash, hex_roundtrip.
  rewrite open_seal; [|apply deriveKey_length|exact Hiv|reflexivity].
  rewrite jsstring_eqb_refl. split; reflexivity.
Qed.

(** An accepted set-up leaves exactly one settings row: a fresh salt and the
    marker encrypted under the key derived from the new password. *)
Lemma setupMasterPassword_credentials (masterPassword : jsstring) (now : timestamp)
      (m : t) :
  3 <= PasswordEncryption.score (PasswordEncryption.checkPasswordStrength masterPassword) ->
  let salt := fst (PasswordEncryption.generateSalt (random m)) in
  let iv := fst (PasswordEncryption.generateIV
                   (snd (PasswordEncryption.generateSalt (random m)))) in
  Behaviour.credentials (database (snd (setupMasterPassword masterPassword now m)))
  = [(hex_encode salt,
      PasswordEncryption.seal (PasswordEncryption.deriveKey masterPassword salt) iv
                              PasswordEncryption.verificationData)].
Proof.
  intros Hs. cbv zeta. unfold setupMasterPassword.
  destruct (Z.ltb_spec (PasswordEncryption.score
                          (PasswordEncryption.checkPasswordStrength masterPassword)) 3);
    [lia|].
  unfold PasswordEncryption.initialize.
  destruct (PasswordEncryption.generateSalt (random m)) as [s r1]. cbn [fst snd].
  unfold PasswordEncryption.encrypt.
  cbn [PasswordEncryption.install_key PasswordEncryption.masterKey].
  rewrite read_install_key.
  destruct (PasswordEncryption.generateIV r1) as [iv r2]. reflexivity.
Qed.

End MasterPassword.

(** X4. The master password keeps working.  After a master password has
    been set up, whatever happens next (requests of every kind, the
    auto-lock timer, quitting and starting again) short of another set-up,
    the master password is still set and [unlock] with that password
    succeeds and leaves the manager Unlocked. *)
Theorem X4_master_password_keeps_unlocking
  {crypto : NodeCrypto} (fk : bool) (r : entropy)
  (before after : list PasswordManager.event) (masterPassword : jsstring)
  (now later : timestamp) :
  3 <= PasswordEncryption.score (PasswordEncryption.checkPasswordStrength masterPassword) ->
  forallb (fun ev => negb (Behaviour.is_setup ev)) after = true ->
  let m := PasswordManager.run fk r
             (before
              ++ PasswordManager.Request
                   (PasswordManager.pm_setup_master_password masterPassword) now
              :: after) in
  PasswordManager.hasMasterPassword m = true
  /\ PasswordManager.success (fst (PasswordManager.unlock masterPassword later m)) = true
  /\ PasswordManager.isLocked (snd (PasswordManager.unlock masterPassword later m)) = false.
Proof.
  intros Hs Ha. cbv zeta. unfold PasswordManager.run.
  rewrite fold_left_app. cbn [fold_left].
  set (m0 := fold_left PasswordManager.apply_event before _).
  cbn [PasswordManager.apply_event PasswordManager.handle PasswordManager.replying snd].
  pose proof (setupMasterPassword_credentials masterPassword now m0 Hs) as Hset.
  set (m1 := snd (PasswordManager.setupMasterPassword masterPassword now m0)) in *.
  pose proof (events_credentials after Ha m1) as Hc. rewrite Hset in Hc.
  split.
  - unfold PasswordManager.hasMasterPassword, PasswordDatabase.hasMasterPassword.
    unfold Behaviour.credentials in Hc.
    destruct (PasswordDatabase.password_settings _); [discriminate Hc|reflexivity].
  - eapply unlock_with_credentials; [|exact Hc]. apply generateIV_length.
Qed.

Lemma X4_master_password_witness :
  PasswordManager.success
    (fst (PasswordManager.unlock (js "Tr0ub4dor&3") 103
            (PasswordManager.run false Toy.counter
               ([] ++ PasswordManager.Request
                        (PasswordManager.pm_setup_master_password (js "Tr0ub4dor&3")) 100
                   :: [PasswordManager.Request
                         (PasswordManager.pm_add_password Scenario.example_entry) 101;
                       PasswordManager.Request PasswordManager.pm_lock 102;
                       PasswordManager.Relaunched])))) = true.
Proof.
  assert (S : 3 <= PasswordEncryption.score
                     (PasswordEncryption.checkPasswordStrength (js "Tr0ub4dor&3")))
    by (vm_compute; discriminate).
  exact (proj1 (proj2 (X4_master_password_keeps_unlocking
                         false Toy.counter []
                         [PasswordManager.Request
                            (PasswordManager.pm_add_password Scenario.example_entry) 101;
                          PasswordManager.Request PasswordManager.pm_lock 102;
                          PasswordManager.Relaunched]
                         (js "Tr0ub4dor&3") 100 103 S eq_refl))).
Defined.

(* ================================================================== *)
(** * The auto-lock timer *)
(* ================================================================== *)

Section TimerFacts.
Context {crypto : NodeCrypto}.

Import PasswordManager.

Ltac step_through :=
  repeat first
    [ progress cbn [fst snd autoLockTimer isLocked database encryption caught
                    console_error with_database with_random with_encryption
                    with_isLocked with_timer resetAutoLockTimer clearAutoLockTimer]
    | match goal with
      | |- context [match ?x with _ => _ end] => destruct x
      end ].

Lemma decrypt_each_timer (flag : Passwords.row -> t -> t) (rows : list Passwords.row) :
  (forall row m, autoLockTimer (flag row m) = autoLockTimer m) ->
  (forall row m, encryption (flag row m) = encryption m) ->
  forall m, autoLockTimer (snd (decrypt_each flag rows m)) = autoLockTimer m.
Proof.
  intros Ht He. induction rows as [|row rows IH]; intros m; [reflexivity|].
  cbn [decrypt_each].
  destruct (PasswordEncryption.decryptPasswordEntry row (encryption m)).
  - specialize (IH m). destruct (decrypt_each flag rows m). exact IH.
  - rewrite IH. apply Ht.
Qed.

(** A request on the store that finds the manager Locked changes nothing. *)
Lemma locked_store_operation (q : request) (now : timestamp) (m : t) :
  Spec.store_operation q = true -> isLocked m = true -> snd (handle q now m) = m.
Proof.
  intros Hq Hl.
  destruct q; try discriminate Hq; cbn [handle replying snd];
    unfold addPassword, getPasswords, getPassword, updatePassword, deletePassword,
      searchPasswords, addSecureNote, getSecureNotes, deleteSecureNote, getStatistics,
      exportData, importData, findDuplicatePasswords, getAllTags;
    rewrite Hl; reflexivity.
Qed.

(** A request on the store that finds the manager Unlocked restarts the
    timer. *)
Lemma store_operation_timer (q : request) (now : timestamp) (m : t) :
  Spec.store_operation q = true -> isLocked m = false ->
  autoLockTimer (snd (handle q now m)) = Some (now * 1000 + autoLockDelay).
Proof.
  intros Hq Hl. destruct q; try discriminate Hq; cbn [handle replying snd].
  - unfold addPassword. rewrite Hl. step_through; reflexivity.
  - unfold getPasswords. rewrite Hl.
    pose proof (decrypt_each_timer log_failed_entry
                  (PasswordDatabase.getPasswords domain
                     (database (resetAutoLockTimer now m)))
                  (fun _ _ => eq_refl) (fun _ _ => eq_refl)
                  (resetAutoLockTimer now m)) as E.
    destruct (decrypt_each log_failed_entry _ _) as [ds m']. cbn [snd] in *.
    rewrite E. reflexivity.
  - unfold getPassword. rewrite Hl. step_through; reflexivity.
  - unfold updatePassword. rewrite Hl. step_through; reflexivity.
  - unfold deletePassword. rewrite Hl. step_through; reflexivity.
  - unfold searchPasswords. rewrite Hl.
    pose proof (decrypt_each_timer ignore_entry
                  (PasswordDatabase.searchPasswords query
                     (database (resetAutoLockTimer now m)))
                  (fun _ _ => eq_refl) (fun _ _ => eq_refl)
                  (resetAutoLockTimer now m)) as E.
    destruct (decrypt_each ignore_entry _ _) as [ds m']. cbn [snd] in *.
    rewrite E. reflexivity.
  - unfold addSecureNote. rewrite Hl. step_through; reflexivity.
  - unfold getSecureNotes. rewrite Hl. step_through; reflexivity.
  - unfold deleteSecureNote. rewrite Hl. reflexivity.
  - unfold getStatistics. rewrite Hl. reflexivity.
  - unfold exportData. rewrite Hl. reflexivity.
  - unfold importData. rewrite Hl. step_through; reflexivity.
  - unfold findDuplicatePasswords. rewrite Hl. reflexivity.
  - unfold getAllTags. rewrite Hl. reflexivity.
Qed.

(** Generating a password and rating one leave the session, the timer and
    the database alone. *)
Lemma stateless_request (q : request) (now : timestamp) (m : t) :
  Behaviour.stateless q = true ->
  isLocked (snd (handle q now m)) = isLocked m
  /\ autoLockTimer (snd (handle q now m)) = autoLockTimer m
  /\ encryption (snd (handle q now m)) = encryption m
  /\ database (snd (handle q now m)) = database m.
Proof.
  intros Hq. destruct q; try discriminate Hq; cbn [handle replying snd].
  - unfold generatePassword.
    destruct (PasswordEncryption.generatePassword o (random m)) as [[pw|msg] r1];
      repeat split.
  - repeat split.
Qed.

Lemma handle_timer_invariant (q : request) (now : timestamp) (m : t) :
  Behaviour.timer_invariant m -> Behaviour.timer_invariant (snd (handle q now m)).
Proof.
  unfold Behaviour.timer_invariant. intros H.
  destruct (Spec.store_operation q) eqn:S.
  { destruct (isLocked m) eqn:Hl.
    - rewrite (locked_store_operation q now m S Hl). rewrite Hl. exact H.
    - destruct (store_operation_session q now m S) as [_ E].
      rewrite E, Hl, (store_operation_timer q now m S Hl).
      split; discriminate. }
  destruct (Behaviour.stateless q) eqn:T.
  { destruct (stateless_request q now m T) as [E1 [E2 _]]. rewrite E1, E2. exact H. }
  destruct q; try discriminate S; try discriminate T; cbn [handle replying snd].
  - exact H.
  - unfold setupMasterPassword.
    destruct (PasswordEncryption.score _ <? 3); [exact H|].
    destruct (PasswordEncryption.initialize masterPassword (encryption m) (random m))
      as [[[settings|msg] e1] r1]; step_through; [split; discriminate|exact H].
  - unfold unlock.
    destruct (PasswordDatabase.getMasterPasswordSettings (database m)); [|exact H].
    destruct (PasswordEncryption.verifyMasterPassword _ _ _ _) as [[|] e1];
      step_through; [split; discriminate|exact H].
  - unfold lock.
    destruct (PasswordEncryption.lock (encryption m) (random m)) as [e1 r1].
    step_through. split; reflexivity.
  - exact H.
Qed.

Lemma run_timer_invariant (fk : bool) (r : entropy) (events : list event) :
  Behaviour.timer_invariant (run fk r events).
Proof.
  unfold run.
  assert (G : forall m, Behaviour.timer_invariant m ->
                        Behaviour.timer_invariant (fold_left apply_event events m)).
  { induction events as [|ev events IH]; intros m H; [exact H|].
    cbn [fold_left]. apply IH. destruct ev as [q now| |]; cbn [apply_event].
    - apply handle_timer_invariant, H.
    - destruct (autoLockTimer m) eqn:E; [|exact H].
      apply (handle_timer_invariant pm_lock 0 m H).
    - split; reflexivity. }
  apply G. split; reflexivity.
Qed.

End TimerFacts.

(** X5. The auto-lock timer follows the session.  After every run of events
    a timer is pending exactly when the manager is Unlocked.  Every request
    on the store that finds the manager Unlocked restarts the timer, to
    fifteen minutes after the request; generating a password and rating one
    leave the session, the timer and the database as they are; and when a
    pending timer fires the manager is Locked and holds no key. *)
Theorem X5_auto_lock_timer_follows_the_session {crypto : NodeCrypto} :
  (forall (fk : bool) (r : entropy) (events : list PasswordManager.event),
      PasswordManager.isLocked (PasswordManager.run fk r events) = true
      <-> PasswordManager.autoLockTimer (PasswordManager.run fk r events) = None)
  /\ (forall (q : PasswordManager.request) (now : timestamp) (m : PasswordManager.t),
         Spec.store_operation q = true ->
         PasswordManager.isLocked m = false ->
         PasswordManager.autoLockTimer (snd (PasswordManager.handle q now m))
         = Some (now * 1000 + 15 * 60 * 1000))
  /\ (forall (q : PasswordManager.request) (now : timestamp) (m : PasswordManager.t),
         Behaviour.stateless q = true ->
         PasswordManager.isLocked (snd (PasswordManager.handle q now m))
         = PasswordManager.isLocked m
         /\ PasswordManager.autoLockTimer (snd (PasswordManager.handle q now m))
            = PasswordManager.autoLockTimer m
         /\ PasswordManager.database (snd (PasswordManager.handle q now m))
            = PasswordManager.database m)
  /\ (forall (m : PasswordManager.t) (deadline : Z),
         PasswordManager.autoLockTimer m = Some deadline ->
         let m' := PasswordManager.apply_event m PasswordManager.TimerFired in
         PasswordManager.isLocked m' = true
         /\ PasswordEncryption.masterKey (PasswordManager.encryption m') = None
         /\ PasswordManager.autoLockTimer m' = None).
Proof.
  split; [|split; [|split]].
  - intros fk r events. apply run_timer_invariant.
  - intros q now m Hq Hl. apply (store_operation_timer q now m Hq Hl).
  - intros q now m Hq. destruct (stateless_request q now m Hq) as [E1 [E2 [_ E3]]].
    split; [exact E1|]. split; [exact E2|exact E3].
  - intros m deadline Ht. cbv zeta. cbn [PasswordManager.apply_event]. rewrite Ht.
    unfold PasswordManager.autoLock.
    destruct (manager_lock_locks m) as [H1 [H2 [H3 _]]].
    split; [exact H1|]. split; [exact H2|exact H3].
Qed.

Lemma X5_auto_lock_witness :
  PasswordManager.autoLockTimer
    (snd (PasswordManager.handle PasswordManager.pm_get_tags 200
            (Scenario.unlocked_vault false)))
  = Some (200 * 1000 + 15 * 60 * 1000).
Proof.
  assert (L : PasswordManager.isLocked (Scenario.unlocked_vault false) = false)
    by (vm_compute; reflexivity).
  exact (proj1 (proj2 X5_auto_lock_timer_follows_the_session)
               PasswordManager.pm_get_tags 200 (Scenario.unlocked_vault false)
               eq_refl L).
Defined.

(* ================================================================== *)
(** * Ids are keys *)
(* ================================================================== *)

Section IdFacts.

Import PasswordDatabase.

Lemma uuidv4_nonempty (r : entropy) : fst (uuidv4 r) <> [].
Proof.
  unfold uuidv4. destruct (randomBytes 16 r) as [b r']. cbn [fst].
  destruct (hex_encode (firstn 4 b)); discriminate.
Qed.

(** A string of ASCII characters has no surrogate to pair. *)
Lemma ascii_well_formed (s : jsstring) :
  Forall (fun c => 0 <= c < 128) s -> well_formed s = true.
Proof.
  induction s as [|c s IH]; intros H; [reflexivity|].
  inversion H as [|? ? Hc Hs]; subst. cbn [well_formed].
  unfold is_high_surrogate, is_low_surrogate.
  replace (0xD800 <=? c) with false by (symmetry; apply Z.leb_gt; lia).
  replace (0xDC00 <=? c) with false by (symmetry; apply Z.leb_gt; lia).
  replace (0 <=? c) with true by (symmetry; apply Z.leb_le; lia).
  replace (c <? 0x10000) with true by (symmetry; apply Z.ltb_lt; lia).
  cbn [andb negb]. apply IH, Hs.
Qed.

Lemma hex_digit_ascii (n : Z) : 0 <= hex_digit n < 128.
Proof.
  unfold hex_digit.
  destruct (nth_in_or_default (Z.to_nat n) (js "0123456789abcdef") 0) as [H|H].
  - revert H. generalize (nth (Z.to_nat n) (js "0123456789abcdef") 0). intros c H.
    cbn in H. repeat (destruct H as [H|H]; [subst c; lia|]). destruct H.
  - rewrite H. lia.
Qed.

Lemma hex_encode_ascii (bs : bytes) : Forall (fun c => 0 <= c < 128) (hex_encode bs).
Proof.
  unfold hex_encode. induction bs as [|b bs IH]; [constructor|].
  cbn [flat_map app]. constructor; [apply hex_digit_ascii|].
  constructor; [apply hex_digit_ascii|exact IH].
Qed.

Lemma uuidv4_well_formed (r : entropy) : well_formed (fst (uuidv4 r)) = true.
Proof.
  unfold uuidv4. destruct (randomBytes 16 r) as [b r']. cbn [fst].
  apply ascii_well_formed.
  repeat (apply Forall_app; split;
          [first [apply hex_encode_ascii
                 |constructor; [cbn; lia|constructor]]|]).
  apply hex_encode_ascii.
Qed.

(** [x || uuidv4()] is never the empty string. *)
Lemma chosen_id_nonempty (x : option jsstring) (r : entropy) :
  fst (if truthy x then (or_else x [], r) else uuidv4 r) <> [].
Proof.
  destruct x as [[|c s]|]; cbn [truthy or_else fst]; try apply uuidv4_nonempty.
  discriminate.
Qed.

Lemma delete_password_row_passwords (id : jsstring) (db : t) :
  passwords (delete_password_row id db)
  = filter (fun p => negb (has_id id p)) (passwords db).
Proof.
  unfold delete_password_row.
  destruct (foreign_keys db && existsb (has_id id) (passwords db)); reflexivity.
Qed.

Lemma delete_password_row_notes (id : jsstring) (db : t) :
  secure_notes (delete_password_row id db) = secure_notes db.
Proof.
  unfold delete_password_row.
  destruct (foreign_keys db && existsb (has_id id) (passwords db)); reflexivity.
Qed.

(** Rows with the key filtered out, then one row with the key: the keys stay
    distinct. *)
Lemma NoDup_replace {A : Type} (key : A -> jsstring) (id : jsstring)
      (rows : list A) (row : A) :
  key row = id ->
  NoDup (map key rows) ->
  NoDup (map key (filter (fun x => negb (jsstring_eqb (key x) id)) rows ++ [row])).
Proof.
  intros Hk Hn. rewrite map_app. apply NoDup_app.
  - apply NoDup_map_filter. exact Hn.
  - constructor; [intros []|constructor].
  - intros a Ha [E|[]]. apply in_map_iff in Ha. destruct Ha as [x [Ex Hx]].
    apply filter_In in Hx. destruct Hx as [_ Hx]. apply negb_true_iff in Hx.
    apply jsstring_eqb_neq in Hx. congruence.
Qed.

Lemma delete_password_row_ids (id : jsstring) (db : t) :
  Behaviour.ids_invariant db -> Behaviour.ids_invariant (delete_password_row id db).
Proof.
  intros [H1 [H2 [H3 H4]]]. unfold Behaviour.ids_invariant.
  rewrite delete_password_row_passwords, delete_password_row_notes.
  split; [apply NoDup_map_filter; exact H1|].
  split; [|split; assumption].
  apply Forall_forall. intros p Hp. apply filter_In in Hp.
  rewrite Forall_forall in H2. apply H2, Hp.
Qed.

Lemma savePassword_ids (p : PasswordEncryption.encryptedEntry) (now : timestamp)
      (db : t) (r : entropy) :
  Behaviour.ids_invariant db ->
  Behaviour.ids_invariant (snd (fst (savePassword p now db r))).
Proof.
  intros H. unfold savePassword.
  pose proof (chosen_id_nonempty (PasswordEncryption.ee_id p) r) as Hid.
  destruct (if truthy (PasswordEncryption.ee_id p)
            then (or_else (PasswordEncryption.ee_id p) [], r) else uuidv4 r)
    as [id r1].
  cbn [fst] in Hid.
  destruct (PasswordEncryption.ee_domain p); [|exact H].
  destruct (PasswordEncryption.ee_encrypted_password p); [|exact H].
  cbn [fst snd]. destruct H as [H1 [H2 [H3 H4]]].
  unfold Behaviour.ids_invariant.
  cbn [passwords secure_notes with_passwords].
  rewrite delete_password_row_passwords, delete_password_row_notes.
  split; [|split; [|split; assumption]].
  - apply (NoDup_replace Passwords.id id); [reflexivity|exact H1].
  - apply Forall_app. split.
    + apply Forall_forall. intros q Hq. apply filter_In in Hq.
      rewrite Forall_forall in H2. apply H2, Hq.
    + constructor; [exact Hid|constructor].
Qed.

Lemma saveSecureNote_ids (n : noteData) (now : timestamp) (db : t) (r : entropy) :
  Behaviour.ids_invariant db ->
  Behaviour.ids_invariant (snd (fst (saveSecureNote n now db r))).
Proof.
  intros H. unfold saveSecureNote.
  pose proof (chosen_id_nonempty (nd_id n) r) as Hid.
  destruct (if truthy (nd_id n) then (or_else (nd_id n) [], r) else uuidv4 r)
    as [id r1].
  cbn [fst] in Hid.
  destruct (nd_title n); [|exact H].
  destruct (nd_encrypted_content n); [|exact H].
  cbn [fst snd]. destruct H as [H1 [H2 [H3 H4]]].
  unfold Behaviour.ids_invariant. cbn [passwords secure_notes with_notes].
  split; [exact H1|]. split; [exact H2|]. split.
  - apply (NoDup_replace Notes.id id); [reflexivity|exact H3].
  - apply Forall_app. split.
    + apply Forall_forall. intros q Hq. apply filter_In in Hq.
      rewrite Forall_forall in H4. apply H4, Hq.
    + constructor; [exact Hid|constructor].
Qed.

Lemma updatePasswordUsage_ids (id : jsstring) (now : timestamp) (db : t) :
  Behaviour.ids_invariant db -> Behaviour.ids_invariant (updatePasswordUsage id now db).
Proof.
  intros [H1 [H2 [H3 H4]]]. unfold Behaviour.ids_invariant, updatePasswordUsage.
  cbn [passwords secure_notes with_passwords].
  split; [|split; [|split; assumption]].
  - rewrite map_map.
    rewrite (map_ext _ Passwords.id); [exact H1|].
    intros p. destruct (has_id id p); reflexivity.
  - apply Forall_map. eapply Forall_impl; [|exact H2].
    intros p Hp. destruct (has_id id p); exact Hp.
Qed.

Lemma addToPasswordHistory_ids (id enc : jsstring) (now : timestamp) (db db' : t) :
  Behaviour.ids_invariant db ->
  addToPasswordHistory id enc now db = Return db' ->
  Behaviour.ids_invariant db'.
Proof.
  intros H. unfold addToPasswordHistory, insert_history.
  destruct (foreign_keys db && negb (existsb (has_id id) (passwords db)));
    [discriminate|].
  intros E. injection E as <-. exact H.
Qed.

Lemma deletePassword_ids (id : jsstring) (now : timestamp) (db db' : t) :
  Behaviour.ids_invariant db ->
  deletePassword id now db = Return db' ->
  Behaviour.ids_invariant db'.
Proof.
  intros H. unfold deletePassword. destruct (getPassword id db) as [p|].
  - destruct (addToPasswordHistory id (Passwords.encrypted_password p) now db)
      as [db1|] eqn:E; [|discriminate].
    intros E'. injection E' as <-. apply delete_password_row_ids.
    eapply addToPasswordHistory_ids; eassumption.
  - intros E'. injection E' as <-. apply delete_password_row_ids. exact H.
Qed.

Lemma deleteSecureNote_ids (id : jsstring) (db : t) :
  Behaviour.ids_invariant db -> Behaviour.ids_invariant (deleteSecureNote id db).
Proof.
  intros [H1 [H2 [H3 H4]]]. unfold Behaviour.ids_invariant, deleteSecureNote.
  cbn [passwords secure_notes with_notes].
  split; [exact H1|]. split; [exact H2|].
  split; [apply NoDup_map_filter; exact H3|].
  apply Forall_forall. intros n Hn. apply filter_In in Hn.
  rewrite Forall_forall in H4. apply H4, Hn.
Qed.

(** With distinct ids, looking a row up by its id finds that row. *)
Lemma find_by_id (rows : list Passwords.row) (p : Passwords.row) :
  NoDup (map Passwords.id rows) -> In p rows ->
  find (has_id (Passwords.id p)) rows = Some p.
Proof.
  induction rows as [|q rows IH]; intros Hn Hin; [contradiction|].
  cbn [map] in Hn. inversion Hn as [|? ? Hq Hn']; subst.
  cbn [find]. destruct Hin as [->|Hin].
  - unfold has_id. rewrite jsstring_eqb_refl. reflexivity.
  - destruct (has_id (Passwords.id p) q) eqn:E; [|apply IH; assumption].
    exfalso. apply Hq. unfold has_id in E. apply jsstring_eqb_eq in E.
    rewrite E. apply in_map. exact Hin.
Qed.

End IdFacts.

Section IdInvariant.
Context {crypto : NodeCrypto}.

Lemma run_ids_invariant (fk : bool) (r : entropy)
      (events : list PasswordManager.event) :
  Behaviour.ids_invariant (PasswordManager.database (PasswordManager.run fk r events)).
Proof.
  apply (run_keeps Behaviour.ids_invariant).
  - intros now db H. exact H.
  - intros p now db r0. apply savePassword_ids.
  - intros id now db. apply updatePasswordUsage_ids.
  - intros id enc now db db'. apply addToPasswordHistory_ids.
  - intros id now db db'. apply deletePassword_ids.
  - intros n now db r0. apply saveSecureNote_ids.
  - intros id db. apply deleteSecureNote_ids.
  - intros salt verificationHash iterations now db H. exact H.
  - repeat split; constructor.
Qed.

End IdInvariant.

(** X6. Ids are keys.  After every run of events no two entries share an
    id, no two notes share an id, no id is the empty string, and
    [getPassword] with the id of a stored entry returns that entry. *)
Theorem X6_ids_are_unique_and_not_empty
  {crypto : NodeCrypto} (fk : bool) (r : entropy)
  (events : list PasswordManager.event) :
  let db := PasswordManager.database (PasswordManager.run fk r events) in
  NoDup (map Passwords.id (PasswordDatabase.passwords db))
  /\ NoDup (map Notes.id (PasswordDatabase.secure_notes db))
  /\ (forall p, In p (PasswordDatabase.passwords db) -> Passwords.id p <> [])
  /\ (forall n, In n (PasswordDatabase.secure_notes db) -> Notes.id n <> [])
  /\ (forall p, In p (PasswordDatabase.passwords db) ->
                PasswordDatabase.getPassword (Passwords.id p) db = Some p).
Proof.
  cbv zeta. destruct (run_ids_invariant fk r events) as [H1 [H2 [H3 H4]]].
  rewrite Forall_forall in H2, H4.
  split; [exact H1|]. split; [exact H3|]. split; [exact H2|]. split; [exact H4|].
  intros p Hp. apply find_by_id; assumption.
Qed.

(* ================================================================== *)
(** * Storing an entry and reading it back *)
(* ================================================================== *)

Section EntryFacts.
Context {crypto : NodeCrypto}.

Import PasswordEncryption.

(** A field that is encrypted when it is there decrypts to what it was; an
    absent or empty field comes back absent. *)
Lemma encrypt_if_truthy_round_trip (x : option jsstring) (e : t) (r : entropy) (l : nat) :
  masterKey e = Some l ->
  List.length (read l e) = 32%nat ->
  (forall s, x = Some s -> well_formed s = true) ->
  exists c r',
    encrypt_if_truthy x e r = (Return c, r')
    /\ or_null c = c
    /\ (truthy x = true -> exists blob, c = Some blob /\ blob <> [])
    /\ (truthy x = false -> c = None)
    /\ decrypt_if_truthy c e = Return (or_null x).
Proof.
  intros Hk Hlen Hw. unfold encrypt_if_truthy, encrypt. rewrite Hk.
  destruct (truthy x) eqn:T.
  - destruct x as [[|ch s]|]; try discriminate T. cbn [or_else].
    pose proof (generateIV_length r) as Hi.
    destruct (generateIV r) as [iv r']. cbn [fst] in Hi.
    pose proof (seal_nonempty (read l e) iv (ch :: s) Hi) as Hne.
    exists (Some (seal (read l e) iv (ch :: s))), r'.
    split; [reflexivity|].
    destruct (seal (read l e) iv (ch :: s)) as [|b blob] eqn:S; [contradiction|].
    split; [reflexivity|]. split; [intros _; eexists; split; [reflexivity|discriminate]|].
    split; [discriminate|].
    unfold decrypt_if_truthy, decrypt. cbn [truthy or_else]. rewrite Hk, <- S.
    rewrite open_seal; [reflexivity|exact Hlen|exact Hi|].
    apply Hw. reflexivity.
  - exists None, r. split; [reflexivity|]. split; [reflexivity|].
    split; [discriminate|]. split; [reflexivity|].
    unfold decrypt_if_truthy, or_null. rewrite T. reflexivity.
Qed.

(** Encrypting an entry that names its id, a domain and a password, and
    saving the result: the row that is stored and what its ciphertexts
    decrypt to. *)
Lemma encrypt_and_save (entry : passwordEntry) (id domain : jsstring)
      (e : t) (r : entropy) (l : nat) (now : timestamp) (db : PasswordDatabase.t) :
  masterKey e = Some l ->
  List.length (read l e) = 32%nat ->
  pe_id entry = Some id -> id <> [] ->
  pe_domain entry = Some domain ->
  truthy (pe_password entry) = true ->
  (forall s, pe_password entry = Some s -> well_formed s = true) ->
  (forall s, pe_notes entry = Some s -> well_formed s = true) ->
  exists encrypted blob notes r1,
    encryptPasswordEntry entry e r = (Return encrypted, r1)
    /\ PasswordDatabase.savePassword encrypted now db r1
       = (Return id,
          PasswordDatabase.with_passwords
            (filter (fun p => negb (PasswordDatabase.has_id id p))
                    (PasswordDatabase.passwords db)
             ++ [{| Passwords.id := id;
                    Passwords.domain := domain;
                    Passwords.username := or_else (pe_username entry) [];
                    Passwords.encrypted_password := blob;
                    Passwords.encrypted_notes := notes;
                    Passwords.favicon := or_null (pe_favicon entry);
                    Passwords.created_at := now;
                    Passwords.modified_at := now;
                    Passwords.last_used := None;
                    Passwords.use_count := 0;
                    Passwords.tags :=
                      PasswordDatabase.stringify_tags (pe_tags entry) |}])
            (PasswordDatabase.delete_password_row id db),
          r1)
    /\ blob <> []
    /\ (truthy (pe_notes entry) = false -> notes = None)
    /\ decrypt_if_truthy (Some blob) e = Return (pe_password entry)
    /\ decrypt_if_truthy notes e = Return (or_null (pe_notes entry)).
Proof.
  intros Hk Hlen Hid Hne Hdom Hpw Hwp Hwn.
  destruct (encrypt_if_truthy_round_trip (pe_password entry) e r l Hk Hlen Hwp)
    as [c1 [r1 [E1 [_ [B1 [_ D1]]]]]].
  destruct (B1 Hpw) as [blob [-> Hblob]].
  destruct (encrypt_if_truthy_round_trip (pe_notes entry) e r1 l Hk Hlen Hwn)
    as [c2 [r2 [E2 [N2 [_ [Z2 D2]]]]]].
  unfold encryptPasswordEntry. rewrite E1, E2.
  eexists _, blob, c2, r2. split; [reflexivity|].
  unfold PasswordDatabase.savePassword.
  cbn [ee_id ee_domain ee_encrypted_password ee_username ee_encrypted_notes
       ee_favicon ee_tags].
  rewrite Hid, Hdom.
  destruct id as [|ch id]; [contradiction|]. cbn [truthy or_else].
  rewrite N2, delete_password_row_passwords.
  split; [reflexivity|]. split; [exact Hblob|]. split; [exact Z2|].
  split; [|exact D2].
  rewrite D1. unfold or_null. rewrite Hpw. reflexivity.
Qed.

(** Looking up another id is not affected by the replacement of a row. *)
Lemma find_other (id other : jsstring) (rows : list Passwords.row) (row : Passwords.row) :
  Passwords.id row = id -> other <> id ->
  find (PasswordDatabase.has_id other)
       (filter (fun p => negb (PasswordDatabase.has_id id p)) rows ++ [row])
  = find (PasswordDatabase.has_id other) rows.
Proof.
  intros Hid Hne. induction rows as [|p rows IH].
  - cbn. unfold PasswordDatabase.has_id. rewrite Hid.
    destruct (jsstring_eqb id other) eqn:E; [|reflexivity].
    apply jsstring_eqb_eq in E. congruence.
  - cbn [filter find]. destruct (PasswordDatabase.has_id id p) eqn:E; cbn [negb].
    + destruct (PasswordDatabase.has_id other p) eqn:F; [|exact IH].
      unfold PasswordDatabase.has_id in E, F.
      apply jsstring_eqb_eq in E, F. congruence.
    + cbn [app find]. destruct (PasswordDatabase.has_id other p); [reflexivity|exact IH].
Qed.

End EntryFacts.

(** X7. An entry that was added reads back.  Take an entry whose domain,
    password and, when they are given, id, user name and notes have no
    unpaired surrogate, so that the database and the cipher hold them as they
    are.  On every manager reached by a run of events that is Unlocked,
    [addPassword] of the entry, with a non-empty password, succeeds, under
    the id given or a fresh one; [getPassword] with that id then returns the
    entry: the same domain, user name (empty when none was given), password,
    notes (absent when none or empty ones were given) and tags, never used
    so far. *)
Theorem X7_added_password_reads_back
  {crypto : NodeCrypto} (fk : bool) (r : entropy) (events : list PasswordManager.event)
  (entry : PasswordEncryption.passwordEntry) (domain password : jsstring)
  (now later : timestamp) :
  let m := PasswordManager.run fk r events in
  PasswordManager.isLocked m = false ->
  Behaviour.well_formed_field (PasswordEncryption.pe_id entry) ->
  PasswordEncryption.pe_domain entry = Some domain ->
  well_formed domain = true ->
  Behaviour.well_formed_field (PasswordEncryption.pe_username entry) ->
  PasswordEncryption.pe_password entry = Some password ->
  password <> [] ->
  well_formed password = true ->
  (forall notes, PasswordEncryption.pe_notes entry = Some notes ->
                 well_formed notes = true) ->
  exists id m1 d m2,
    PasswordManager.addPassword entry now m
    = (PasswordManager.ok
         (PasswordManager.Saved id (js "Password saved successfully")), m1)
    /\ PasswordManager.getPassword id later m1
       = (PasswordManager.ok (PasswordManager.Password d), m2)
    /\ (truthy (PasswordEncryption.pe_id entry) = true ->
        PasswordEncryption.pe_id entry = Some id)
    /\ well_formed id = true
    /\ PasswordEncryption.de_id d = id
    /\ PasswordEncryption.de_domain d = domain
    /\ PasswordEncryption.de_username d
       = or_else (PasswordEncryption.pe_username entry) []
    /\ PasswordEncryption.de_password d = Some password
    /\ PasswordEncryption.de_notes d = or_null (PasswordEncryption.pe_notes entry)
    /\ PasswordEncryption.de_tags d
       = PasswordDatabase.stringify_tags (PasswordEncryption.pe_tags entry)
    /\ PasswordEncryption.de_use_count d = 0
    /\ PasswordEncryption.de_last_used d = None.
Proof.
  cbv zeta. intros Hl Hwi Hdom Hwd Hwu Hpw Hne Hwp Hwn.
  destruct (run_session_invariant fk r events) as [Hk Hu].
  set (m := PasswordManager.run fk r events) in *.
  specialize (Hu Hl).
  destruct (PasswordEncryption.masterKey (PasswordManager.encryption m)) as [l|] eqn:K;
    [|contradiction].
  pose proof (Hk l K) as Hlen.
  unfold PasswordManager.addPassword. rewrite Hl. cbv zeta.
  cbn [PasswordManager.random PasswordManager.encryption PasswordManager.database
       PasswordManager.resetAutoLockTimer PasswordManager.with_timer].
  pose proof (chosen_id_nonempty (PasswordEncryption.pe_id entry)
                (PasswordManager.random m)) as Hid.
  assert (Hgiven : truthy (PasswordEncryption.pe_id entry) = true ->
                   PasswordEncryption.pe_id entry
                   = Some (fst (if truthy (PasswordEncryption.pe_id entry)
                                then (or_else (PasswordEncryption.pe_id entry) [],
                                      PasswordManager.random m)
                                else uuidv4 (PasswordManager.random m)))).
  { intros T. rewrite T. destruct (PasswordEncryption.pe_id entry) as [[|c s]|];
      try discriminate T. reflexivity. }
  assert (Hwf : well_formed
                  (fst (if truthy (PasswordEncryption.pe_id entry)
                        then (or_else (PasswordEncryption.pe_id entry) [],
                              PasswordManager.random m)
                        else uuidv4 (PasswordManager.random m))) = true).
  { destruct (PasswordEncryption.pe_id entry) as [[|c s]|] eqn:Ei;
      cbn [truthy or_else fst]; try apply uuidv4_well_formed.
    apply (Hwi (c :: s)). reflexivity. }
  destruct (if truthy (PasswordEncryption.pe_id entry)
            then (or_else (PasswordEncryption.pe_id entry) [], PasswordManager.random m)
            else uuidv4 (PasswordManager.random m)) as [id r0].
  cbn [fst] in Hid, Hgiven, Hwf.
  destruct (encrypt_and_save
              {| PasswordEncryption.pe_id := Some id;
                 PasswordEncryption.pe_domain := PasswordEncryption.pe_domain entry;
                 PasswordEncryption.pe_username := PasswordEncryption.pe_username entry;
                 PasswordEncryption.pe_password := PasswordEncryption.pe_password entry;
                 PasswordEncryption.pe_notes := PasswordEncryption.pe_notes entry;
                 PasswordEncryption.pe_favicon := PasswordEncryption.pe_favicon entry;
                 PasswordEncryption.pe_tags := PasswordEncryption.pe_tags entry |}
              id domain (PasswordManager.encryption m) r0 l now
              (PasswordManager.database m) K Hlen eq_refl Hid Hdom)
    as [encrypted [blob [notes [r1 [E1 [E2 [Hblob [_ [D1 D2]]]]]]]]].
  { cbn [PasswordEncryption.pe_password]. rewrite Hpw.
    destruct password; [contradiction|reflexivity]. }
  { cbn [PasswordEncryption.pe_password]. rewrite Hpw. intros s Hs.
    injection Hs as <-. exact Hwp. }
  { exact Hwn. }
  cbn [PasswordEncryption.pe_username PasswordEncryption.pe_favicon
       PasswordEncryption.pe_tags PasswordEncryption.pe_password
       PasswordEncryption.pe_notes] in E2, D1, D2.
  rewrite E1, E2.
  eexists id, _, _, _. split; [reflexivity|].
  unfold PasswordManager.getPassword.
  cbn [PasswordManager.isLocked PasswordManager.with_database PasswordManager.with_random
       PasswordManager.resetAutoLockTimer PasswordManager.with_timer
       PasswordManager.database PasswordManager.encryption].
  rewrite Hl. unfold PasswordDatabase.getPassword.
  cbn [PasswordDatabase.passwords PasswordDatabase.with_passwords].
  rewrite find_replaced by reflexivity.
  unfold PasswordEncryption.decryptPasswordEntry.
  cbn [Passwords.encrypted_password Passwords.encrypted_notes].
  rewrite D1, D2, Hpw.
  split; [reflexivity|].
  split; [exact Hgiven|].
  split; [exact Hwf|].
  repeat split.
Qed.

Section UpdateRow.
Context {crypto : NodeCrypto}.

Import PasswordDatabase.

(** The history of an entry that exists can always be added to. *)
Lemma addToPasswordHistory_existing (id enc : jsstring) (now : timestamp) (db : t)
      (p : Passwords.row) :
  getPassword id db = Some p ->
  exists db1,
    addToPasswordHistory id enc now db = Return db1
    /\ passwords db1 = passwords db
    /\ secure_notes db1 = secure_notes db
    /\ foreign_keys db1 = foreign_keys db.
Proof.
  intros G. unfold addToPasswordHistory, insert_history.
  assert (E : existsb (has_id id) (passwords db) = true).
  { unfold getPassword in G. apply find_some in G. apply existsb_exists.
    exists p. exact G. }
  rewrite E. cbn [negb]. rewrite andb_false_r.
  eexists. split; [reflexivity|]. repeat split.
Qed.

(** With a key installed, encrypting an entry yields an entry; a password
    that is absent or empty leaves the ciphertext absent. *)
Lemma encryptPasswordEntry_returns (p : PasswordEncryption.passwordEntry)
      (e : PasswordEncryption.t) (r : entropy) :
  PasswordEncryption.masterKey e <> None ->
  exists encrypted r',
    PasswordEncryption.encryptPasswordEntry p e r = (Return encrypted, r')
    /\ PasswordEncryption.ee_domain encrypted = PasswordEncryption.pe_domain p
    /\ (truthy (PasswordEncryption.pe_password p) = false ->
        PasswordEncryption.ee_encrypted_password encrypted = None).
Proof.
  intros Hk. unfold PasswordEncryption.encryptPasswordEntry.
  assert (Z : truthy (PasswordEncryption.pe_password p) = false ->
              PasswordEncryption.encrypt_if_truthy (PasswordEncryption.pe_password p) e r
              = (Return None, r)).
  { intros T. unfold PasswordEncryption.encrypt_if_truthy. rewrite T. reflexivity. }
  destruct (encrypt_if_truthy_with_key (PasswordEncryption.pe_password p) e r Hk)
    as [c1 [r1 [E1 _]]].
  destruct (encrypt_if_truthy_with_key (PasswordEncryption.pe_notes p) e r1 Hk)
    as [c2 [r2 [E2 _]]].
  rewrite E1, E2. eexists _, r2. split; [reflexivity|]. split; [reflexivity|].
  intros T. rewrite (Z T) in E1. injection E1 as <- _. reflexivity.
Qed.

End UpdateRow.

(** X8. An update replaces the whole row.  Take an id and an update whose
    domain, password and, when they are given, user name, favicon and notes
    have no unpaired surrogate.  On every manager reached by a run of events
    that is Unlocked, [updatePassword] of the stored entry with that id, with
    a non-empty password, succeeds, and the stored row is then the data of
    the update and nothing else: user name, favicon and tags are the ones the
    update names (empty or absent when it names none), notes are absent when
    the update has none, the entry counts as created and modified now and as
    never used, and its password decrypts to the new one.  The entry of every
    other id without unpaired surrogate is as before. *)
Theorem X8_update_replaces_the_whole_row
  {crypto : NodeCrypto} (fk : bool) (r : entropy) (events : list PasswordManager.event)
  (id : jsstring) (entry : PasswordEncryption.passwordEntry)
  (domain password : jsstring) (now : timestamp) :
  let m := PasswordManager.run fk r events in
  PasswordManager.isLocked m = false ->
  well_formed id = true ->
  PasswordDatabase.getPassword id (PasswordManager.database m) <> None ->
  PasswordEncryption.pe_domain entry = Some domain ->
  well_formed domain = true ->
  Behaviour.well_formed_field (PasswordEncryption.pe_username entry) ->
  Behaviour.well_formed_field (PasswordEncryption.pe_favicon entry) ->
  PasswordEncryption.pe_password entry = Some password ->
  password <> [] ->
  well_formed password = true ->
  (forall notes, PasswordEncryption.pe_notes entry = Some notes ->
                 well_formed notes = true) ->
  exists m' row,
    PasswordManager.updatePassword id entry now m
    = (PasswordManager.ok (PasswordManager.Message (js "Password updated successfully")),
       m')
    /\ PasswordDatabase.getPassword id (PasswordManager.database m') = Some row
    /\ Passwords.domain row = domain
    /\ Passwords.username row = or_else (PasswordEncryption.pe_username entry) []
    /\ Passwords.favicon row = or_null (PasswordEncryption.pe_favicon entry)
    /\ Passwords.tags row
       = PasswordDatabase.stringify_tags (PasswordEncryption.pe_tags entry)
    /\ (truthy (PasswordEncryption.pe_notes entry) = false ->
        Passwords.encrypted_notes row = None)
    /\ Passwords.created_at row = now
    /\ Passwords.modified_at row = now
    /\ Passwords.last_used row = None
    /\ Passwords.use_count row = 0
    /\ PasswordEncryption.decrypt (Passwords.encrypted_password row)
                                  (PasswordManager.encryption m')
       = Return password
    /\ forall other, well_formed other = true -> other <> id ->
                     PasswordDatabase.getPassword other (PasswordManager.database m')
                     = PasswordDatabase.getPassword other (PasswordManager.database m).
Proof.
  cbv zeta. intros Hl _ Hex Hdom _ _ _ Hpw Hne Hwp Hwn.
  destruct (run_session_invariant fk r events) as [Hk Hu].
  pose proof (run_ids_invariant fk r events) as [_ [Hids _]].
  set (m := PasswordManager.run fk r events) in *.
  specialize (Hu Hl).
  destruct (PasswordEncryption.masterKey (PasswordManager.encryption m)) as [l|] eqn:K;
    [|contradiction].
  pose proof (Hk l K) as Hlen.
  destruct (PasswordDatabase.getPassword id (PasswordManager.database m))
    as [existing|] eqn:G; [|contradiction].
  assert (Hid : id <> []).
  { destruct (getPassword_In _ _ _ G) as [Hin <-].
    rewrite Forall_forall in Hids. apply Hids, Hin. }
  assert (Hpt : truthy (PasswordEncryption.pe_password entry) = true)
    by (rewrite Hpw; destruct password; [contradiction|reflexivity]).
  unfold PasswordManager.updatePassword. rewrite Hl. cbv zeta.
  cbn [PasswordManager.random PasswordManager.encryption PasswordManager.database
       PasswordManager.resetAutoLockTimer PasswordManager.with_timer].
  rewrite G, Hpt. cbn [andb].
  assert (Hh : exists db1,
             (if truthy (Some (Passwords.encrypted_password existing))
              then PasswordDatabase.addToPasswordHistory
                     id (Passwords.encrypted_password existing) now
                     (PasswordManager.database m)
              else Return (PasswordManager.database m)) = Return db1
             /\ PasswordDatabase.passwords db1
                = PasswordDatabase.passwords (PasswordManager.database m)).
  { destruct (truthy (Some (Passwords.encrypted_password existing))).
    - destruct (addToPasswordHistory_existing
                  id (Passwords.encrypted_password existing) now
                  (PasswordManager.database m) existing G) as [db1 [E [P _]]].
      exists db1. split; assumption.
    - eexists. split; reflexivity. }
  destruct Hh as [db1 [Eh Hp1]]. rewrite Eh.
  cbn [PasswordManager.random PasswordManager.encryption PasswordManager.database
       PasswordManager.with_database PasswordManager.resetAutoLockTimer
       PasswordManager.with_timer].
  destruct (encrypt_and_save
              {| PasswordEncryption.pe_id := Some id;
                 PasswordEncryption.pe_domain := PasswordEncryption.pe_domain entry;
                 PasswordEncryption.pe_username := PasswordEncryption.pe_username entry;
                 PasswordEncryption.pe_password := PasswordEncryption.pe_password entry;
                 PasswordEncryption.pe_notes := PasswordEncryption.pe_notes entry;
                 PasswordEncryption.pe_favicon := PasswordEncryption.pe_favicon entry;
                 PasswordEncryption.pe_tags := PasswordEncryption.pe_tags entry |}
              id domain (PasswordManager.encryption m) (PasswordManager.random m) l now
              db1 K Hlen eq_refl Hid Hdom Hpt)
    as [encrypted [blob [notes [r1 [E1 [E2 [Hblob [Hn [D1 D2]]]]]]]]].
  { cbn [PasswordEncryption.pe_password]. rewrite Hpw. intros s Hs.
    injection Hs as <-. exact Hwp. }
  { exact Hwn. }
  cbn [PasswordEncryption.pe_username PasswordEncryption.pe_favicon
       PasswordEncryption.pe_tags PasswordEncryption.pe_password
       PasswordEncryption.pe_notes] in E2, D1, D2, Hn.
  rewrite E1, E2.
  eexists _, _. split; [reflexivity|].
  cbn [PasswordManager.database PasswordManager.encryption PasswordManager.with_database
       PasswordManager.with_random PasswordManager.resetAutoLockTimer
       PasswordManager.with_timer].
  unfold PasswordDatabase.getPassword.
  cbn [PasswordDatabase.passwords PasswordDatabase.with_passwords].
  split; [apply find_replaced; reflexivity|].
  cbn [Passwords.domain Passwords.username Passwords.favicon Passwords.tags
       Passwords.encrypted_notes Passwords.created_at Passwords.modified_at
       Passwords.last_used Passwords.use_count Passwords.encrypted_password].
  repeat (split; [first [reflexivity|exact Hn]|]).
  split.
  - unfold PasswordEncryption.decrypt_if_truthy in D1.
    destruct blob as [|b blob]; [contradiction|]. cbn [truthy or_else] in D1.
    destruct (PasswordEncryption.decrypt (b :: blob) (PasswordManager.encryption m))
      as [plain|msg]; [|discriminate D1].
    rewrite Hpw in D1. injection D1 as ->. reflexivity.
  - intros other _ Ho. rewrite find_other by (try reflexivity; exact Ho).
    rewrite Hp1. reflexivity.
Qed.

(** X9. An entry without a domain or without a password is not stored.  On
    every manager reached by a run of events that is Unlocked, [addPassword]
    of an entry without a domain fails with the message of the NOT NULL
    constraint on [passwords.domain]; with a domain but no password, or an
    empty one, it fails with that of the constraint on
    [passwords.encrypted_password].  Either way the database is left as it
    was. *)
Theorem X9_entry_without_domain_or_password_is_rejected
  {crypto : NodeCrypto} (fk : bool) (r : entropy) (events : list PasswordManager.event)
  (entry : PasswordEncryption.passwordEntry) (now : timestamp) :
  let m := PasswordManager.run fk r events in
  PasswordManager.isLocked m = false ->
  PasswordEncryption.pe_domain entry = None
  \/ truthy (PasswordEncryption.pe_password entry) = false ->
  fst (PasswordManager.addPassword entry now m)
  = PasswordManager.failed
      (match PasswordEncryption.pe_domain entry with
       | None => PasswordDatabase.not_null_failed "passwords" "domain"
       | Some _ => PasswordDatabase.not_null_failed "passwords" "encrypted_password"
       end)
  /\ PasswordManager.database (snd (PasswordManager.addPassword entry now m))
     = PasswordManager.database m.
Proof.
  cbv zeta. intros Hl Hmiss.
  destruct (run_session_invariant fk r events) as [_ Hu].
  set (m := PasswordManager.run fk r events) in *.
  specialize (Hu Hl).
  unfold PasswordManager.addPassword. rewrite Hl. cbv zeta.
  cbn [PasswordManager.random PasswordManager.encryption PasswordManager.database
       PasswordManager.resetAutoLockTimer PasswordManager.with_timer].
  destruct (if truthy (PasswordEncryption.pe_id entry)
            then (or_else (PasswordEncryption.pe_id entry) [], PasswordManager.random m)
            else uuidv4 (PasswordManager.random m)) as [id r0].
  destruct (encryptPasswordEntry_returns
              {| PasswordEncryption.pe_id := Some id;
                 PasswordEncryption.pe_domain := PasswordEncryption.pe_domain entry;
                 PasswordEncryption.pe_username := PasswordEncryption.pe_username entry;
                 PasswordEncryption.pe_password := PasswordEncryption.pe_password entry;
                 PasswordEncryption.pe_notes := PasswordEncryption.pe_notes entry;
                 PasswordEncryption.pe_favicon := PasswordEncryption.pe_favicon entry;
                 PasswordEncryption.pe_tags := PasswordEncryption.pe_tags entry |}
              (PasswordManager.encryption m) r0 Hu)
    as [encrypted [r1 [E [Hd Hp]]]].
  cbn [PasswordEncryption.pe_domain PasswordEncryption.pe_password] in Hd, Hp.
  rewrite E. unfold PasswordDatabase.savePassword.
  destruct (if truthy (PasswordEncryption.ee_id encrypted)
            then (or_else (PasswordEncryption.ee_id encrypted) [], r1)
            else uuidv4 r1) as [id' r2].
  rewrite Hd.
  destruct (PasswordEncryption.pe_domain entry) as [domain|] eqn:Ed.
  - destruct Hmiss as [Hm|Hm]; [discriminate Hm|].
    rewrite (Hp Hm). split; reflexivity.
  - split; reflexivity.
Qed.

Lemma X7_added_password_witness :
  exists id m1 d m2,
    PasswordManager.addPassword Cases.tagged_entry 130
      (PasswordManager.run false Toy.counter
         [PasswordManager.Request
            (PasswordManager.pm_setup_master_password (js "Tr0ub4dor&3")) 100])
    = (PasswordManager.ok
         (PasswordManager.Saved id (js "Password saved successfully")), m1)
    /\ PasswordManager.getPassword id 131 m1
       = (PasswordManager.ok (PasswordManager.Password d), m2)
    /\ PasswordEncryption.de_password d = Some (js "correct horse").
Proof.
  assert (L : PasswordManager.isLocked
                (PasswordManager.run false Toy.counter
                   [PasswordManager.Request
                      (PasswordManager.pm_setup_master_password (js "Tr0ub4dor&3")) 100])
              = false) by (vm_compute; reflexivity).
  assert (N : js "correct horse" <> []) by discriminate.
  assert (W : forall notes,
             PasswordEncryption.pe_notes Cases.tagged_entry = Some notes ->
             well_formed notes = true)
    by (intros notes H; injection H as <-; reflexivity).
  assert (Wi : Behaviour.well_formed_field
                 (PasswordEncryption.pe_id Cases.tagged_entry))
    by (intros s H; injection H as <-; reflexivity).
  assert (Wu : Behaviour.well_formed_field
                 (PasswordEncryption.pe_username Cases.tagged_entry))
    by (intros s H; injection H as <-; reflexivity).
  destruct (X7_added_password_reads_back
              false Toy.counter
              [PasswordManager.Request
                 (PasswordManager.pm_setup_master_password (js "Tr0ub4dor&3")) 100]
              Cases.tagged_entry (js "GitHub.com") (js "correct horse") 130 131
              L Wi eq_refl eq_refl Wu eq_refl N eq_refl W)
    as [id [m1 [d [m2 [A [G [_ [_ [_ [_ [_ [P _]]]]]]]]]]]].
  exists id, m1, d, m2. split; [exact A|]. split; [exact G|exact P].
Defined.

Lemma X8_update_witness :
  exists m' row,
    PasswordManager.updatePassword Scenario.example_id (Scenario.new_password "p1") 160
      (PasswordManager.run false Toy.counter
         [PasswordManager.Request
            (PasswordManager.pm_setup_master_password (js "Tr0ub4dor&3")) 100;
          PasswordManager.Request
            (PasswordManager.pm_add_password Scenario.example_entry) 101])
    = (PasswordManager.ok (PasswordManager.Message (js "Password updated successfully")),
       m')
    /\ PasswordDatabase.getPassword Scenario.example_id (PasswordManager.database m')
       = Some row
    /\ Passwords.created_at row = 160
    /\ Passwords.use_count row = 0.
Proof.
  assert (L : PasswordManager.isLocked
                (PasswordManager.run false Toy.counter
                   [PasswordManager.Request
                      (PasswordManager.pm_setup_master_password (js "Tr0ub4dor&3")) 100;
                    PasswordManager.Request
                      (PasswordManager.pm_add_password Scenario.example_entry) 101])
              = false) by (vm_compute; reflexivity).
  assert (F : match PasswordDatabase.getPassword Scenario.example_id
                      (PasswordManager.database
                         (PasswordManager.run false Toy.counter
                            [PasswordManager.Request
                               (PasswordManager.pm_setup_master_password
                                  (js "Tr0ub4dor&3")) 100;
                             PasswordManager.Request
                               (PasswordManager.pm_add_password Scenario.example_entry)
                               101])) with
              | Some _ => true
              | None => false
              end = true) by (vm_compute; reflexivity).
  assert (E : PasswordDatabase.getPassword Scenario.example_id
                (PasswordManager.database
                   (PasswordManager.run false Toy.counter
                      [PasswordManager.Request
                         (PasswordManager.pm_setup_master_password (js "Tr0ub4dor&3")) 100;
                       PasswordManager.Request
                         (PasswordManager.pm_add_password Scenario.example_entry) 101]))
              <> None) by (intros E; rewrite E in F; discriminate F).
  assert (N : js "p1" <> []) by discriminate.
  assert (W : forall notes,
             PasswordEncryption.pe_notes (Scenario.new_password "p1") = Some notes ->
             well_formed notes = true) by (intros notes H; discriminate H).
  assert (Wu : Behaviour.well_formed_field
                 (PasswordEncryption.pe_username (Scenario.new_password "p1")))
    by (intros s H; injection H as <-; reflexivity).
  assert (Wf : Behaviour.well_formed_field
                 (PasswordEncryption.pe_favicon (Scenario.new_password "p1")))
    by (intros s H; discriminate H).
  destruct (X8_update_replaces_the_whole_row
              false Toy.counter
              [PasswordManager.Request
                 (PasswordManager.pm_setup_master_password (js "Tr0ub4dor&3")) 100;
               PasswordManager.Request
                 (PasswordManager.pm_add_password Scenario.example_entry) 101]
              Scenario.example_id (Scenario.new_password "p1")
              (js "example.com") (js "p1") 160 L eq_refl E eq_refl eq_refl Wu Wf
              eq_refl N eq_refl W)
    as [m' [row [U [G [_ [_ [_ [_ [_ [C [_ [_ [Z _]]]]]]]]]]]]].
  exists m', row. split; [exact U|]. split; [exact G|]. split; [exact C|exact Z].
Defined.

Lemma X9_rejected_entry_witness :
  fst (PasswordManager.addPassword (Scenario.password_only "x") 140
         (PasswordManager.run false Toy.counter
            [PasswordManager.Request
               (PasswordManager.pm_setup_master_password (js "Tr0ub4dor&3")) 100]))
  = PasswordManager.failed (PasswordDatabase.not_null_failed "passwords" "domain").
Proof.
  assert (L : PasswordManager.isLocked
                (PasswordManager.run false Toy.counter
                   [PasswordManager.Request
                      (PasswordManager.pm_setup_master_password (js "Tr0ub4dor&3")) 100])
              = false) by (vm_compute; reflexivity).
  exact (proj1 (X9_entry_without_domain_or_password_is_rejected
                  false Toy.counter
                  [PasswordManager.Request
                     (PasswordManager.pm_setup_master_password (js "Tr0ub4dor&3")) 100]
                  (Scenario.password_only "x") 140 L (or_introl eq_refl))).
Defined.

(* ================================================================== *)
(** * Deleting, and ids that are not there *)
(* ================================================================== *)

Section DeleteFacts.

Import PasswordDatabase.

Lemma find_none_filter (id : jsstring) (rows : list Passwords.row) :
  find (has_id id) rows = None ->
  filter (fun p => negb (has_id id p)) rows = rows
  /\ existsb (has_id id) rows = false.
Proof.
  induction rows as [|p rows IH]; intros H; [split; reflexivity|].
  cbn [find] in H. destruct (has_id id p) eqn:E; [discriminate|].
  destruct (IH H) as [I1 I2]. cbn [filter existsb]. rewrite E, I1, I2.
  split; reflexivity.
Qed.

(** Deleting the row of an id no row has changes nothing. *)
Lemma delete_password_row_missing (id : jsstring) (db : t) :
  getPassword id db = None -> delete_password_row id db = db.
Proof.
  unfold getPassword, delete_password_row. intros H.
  destruct (find_none_filter id (passwords db) H) as [F E].
  rewrite E, F, andb_false_r. destruct db; reflexivity.
Qed.

Lemma find_filtered_out (id : jsstring) (rows : list Passwords.row) :
  find (has_id id) (filter (fun p => negb (has_id id p)) rows) = None.
Proof.
  induction rows as [|p rows IH]; [reflexivity|].
  cbn [filter]. destruct (has_id id p) eqn:E; cbn [negb]; [exact IH|].
  cbn [find]. rewrite E. exact IH.
Qed.

Lemma find_filter_other (id other : jsstring) (rows : list Passwords.row) :
  other <> id ->
  find (has_id other) (filter (fun p => negb (has_id id p)) rows)
  = find (has_id other) rows.
Proof.
  intros Hne. induction rows as [|p rows IH]; [reflexivity|].
  cbn [filter find]. destruct (has_id id p) eqn:E; cbn [negb].
  - destruct (has_id other p) eqn:F; [|exact IH].
    unfold has_id in E, F. apply jsstring_eqb_eq in E, F. congruence.
  - cbn [find]. destruct (has_id other p); [reflexivity|exact IH].
Qed.

Lemma history_of_cascade (id : jsstring) (rows : list History.row) :
  filter (refers_to id) (filter (fun h => negb (refers_to id h)) rows) = [].
Proof.
  induction rows as [|h rows IH]; [reflexivity|].
  cbn [filter]. destruct (refers_to id h) eqn:E; cbn [negb]; [exact IH|].
  cbn [filter]. rewrite E. exact IH.
Qed.

(** [deletePassword] never fails, and what it leaves. *)
Lemma deletePassword_spec (id : jsstring) (now : timestamp) (db : t) :
  exists db',
    deletePassword id now db = Return db'
    /\ getPassword id db' = None
    /\ (forall other, other <> id -> getPassword other db' = getPassword other db)
    /\ secure_notes db' = secure_notes db
    /\ password_settings db' = password_settings db
    /\ (foreign_keys db = true -> getPassword id db <> None ->
        Spec.history_of id db' = [])
    /\ (foreign_keys db = false ->
        forall p db1,
          getPassword id db = Some p ->
          addToPasswordHistory id (Passwords.encrypted_password p) now db = Return db1 ->
          password_history db' = password_history db1).
Proof.
  unfold deletePassword. destruct (getPassword id db) as [p|] eqn:G.
  - destruct (addToPasswordHistory_existing
                id (Passwords.encrypted_password p) now db p G)
      as [db1 [E [P1 [N1 F1]]]].
    rewrite E. eexists. split; [reflexivity|].
    pose proof (addToPasswordHistory_settings _ _ _ _ _ E) as S1.
    unfold getPassword. rewrite !delete_password_row_passwords, P1.
    rewrite delete_password_row_notes, delete_password_row_settings, N1, S1.
    split; [apply find_filtered_out|].
    split; [intros other Ho; apply find_filter_other; exact Ho|].
    split; [reflexivity|]. split; [reflexivity|]. split.
    + intros Hfk _. unfold Spec.history_of, delete_password_row.
      assert (X : existsb (has_id id) (passwords db1) = true).
      { rewrite P1. unfold getPassword in G. apply find_some in G.
        apply existsb_exists. exists p. exact G. }
      rewrite F1, Hfk, X. cbn [andb password_history with_passwords with_history].
      apply history_of_cascade.
    + intros Hfk q db2 Hq E2. injection Hq as <-. rewrite E2 in E. injection E as ->.
      unfold delete_password_row. rewrite F1, Hfk. reflexivity.
  - exists (delete_password_row id db). split; [reflexivity|].
    rewrite (delete_password_row_missing id db G).
    split; [exact G|]. split; [reflexivity|]. split; [reflexivity|].
    split; [reflexivity|]. split; [intros _ H; contradiction|].
    intros _ p db1 H. discriminate H.
Qed.

Lemma filter_keeps_all {A : Type} (f : A -> bool) (l : list A) :
  (forall x, In x l -> f x = true) -> filter f l = l.
Proof.
  induction l as [|x l IH]; intros H; [reflexivity|].
  cbn [filter]. rewrite (H x (or_introl eq_refl)), IH; [reflexivity|].
  intros y Hy. apply H. right. exact Hy.
Qed.

Lemma deleteSecureNote_missing (id : jsstring) (db : t) :
  (forall n, In n (secure_notes db) -> Notes.id n <> id) ->
  deleteSecureNote id db = db.
Proof.
  intros H. unfold deleteSecureNote. rewrite filter_keeps_all.
  - destruct db; reflexivity.
  - intros n Hn. apply negb_true_iff. unfold note_has_id.
    apply jsstring_eqb_neq. apply H, Hn.
Qed.

End DeleteFacts.

(** X10. An id that is not there.  On an Unlocked manager, for an id without
    unpaired surrogate that no entry has: [getPassword] and [updatePassword]
    answer NotFound, [deletePassword] answers that the password was deleted,
    and none of them changes the database.  [deleteSecureNote] with such an
    id that no note has answers that the note was deleted and changes nothing
    either. *)
Theorem X10_missing_id_not_found_yet_deleted
  {crypto : NodeCrypto} (m : PasswordManager.t) (id : jsstring)
  (entry : PasswordEncryption.passwordEntry) (now : timestamp) :
  PasswordManager.isLocked m = false ->
  well_formed id = true ->
  PasswordDatabase.getPassword id (PasswordManager.database m) = None ->
  (fst (PasswordManager.getPassword id now m) = PasswordManager.NotFound
   /\ PasswordManager.database (snd (PasswordManager.getPassword id now m))
      = PasswordManager.database m)
  /\ (fst (PasswordManager.updatePassword id entry now m) = PasswordManager.NotFound
      /\ PasswordManager.database (snd (PasswordManager.updatePassword id entry now m))
         = PasswordManager.database m)
  /\ (fst (PasswordManager.deletePassword id now m)
      = PasswordManager.ok (PasswordManager.Message (js "Password deleted successfully"))
      /\ PasswordManager.database (snd (PasswordManager.deletePassword id now m))
         = PasswordManager.database m)
  /\ ((forall n, In n (PasswordDatabase.secure_notes (PasswordManager.database m)) ->
                 Notes.id n <> id) ->
      fst (PasswordManager.deleteSecureNote id now m)
      = PasswordManager.ok (PasswordManager.Message (js "Note deleted successfully"))
      /\ PasswordManager.database (snd (PasswordManager.deleteSecureNote id now m))
         = PasswordManager.database m).
Proof.
  intros Hl _ G. split; [|split; [|split]].
  - unfold PasswordManager.getPassword. rewrite Hl. cbv zeta.
    cbn [PasswordManager.database PasswordManager.resetAutoLockTimer
         PasswordManager.with_timer].
    rewrite G. split; reflexivity.
  - unfold PasswordManager.updatePassword. rewrite Hl. cbv zeta.
    cbn [PasswordManager.database PasswordManager.resetAutoLockTimer
         PasswordManager.with_timer].
    rewrite G. split; reflexivity.
  - unfold PasswordManager.deletePassword. rewrite Hl. cbv zeta.
    cbn [PasswordManager.database PasswordManager.resetAutoLockTimer
         PasswordManager.with_timer].
    unfold PasswordDatabase.deletePassword. rewrite G.
    rewrite (delete_password_row_missing id _ G). split; reflexivity.
  - intros Hn. unfold PasswordManager.deleteSecureNote. rewrite Hl. cbv zeta.
    cbn [fst snd PasswordManager.database PasswordManager.resetAutoLockTimer
         PasswordManager.with_timer PasswordManager.with_database].
    rewrite (deleteSecureNote_missing id _ Hn). split; reflexivity.
Qed.

(** X11. Deleting an entry.  On an Unlocked manager [deletePassword] with an
    id without unpaired surrogate always succeeds.  Afterwards no entry has
    the id; the entry of every other id without unpaired surrogate, the notes
    and the master settings are as before.  With foreign keys enforced the
    history of a deleted entry goes with it, the ciphertext saved on the way
    included; without them the history stays, and when its rows carry
    increasing change times earlier than now, it is the last five of the
    old rows followed by the ciphertext of the deleted entry. *)
Theorem X11_delete_removes_the_entry
  {crypto : NodeCrypto} (m : PasswordManager.t) (id : jsstring) (now : timestamp) :
  PasswordManager.isLocked m = false ->
  well_formed id = true ->
  exists m',
    PasswordManager.deletePassword id now m
    = (PasswordManager.ok (PasswordManager.Message (js "Password deleted successfully")),
       m')
    /\ PasswordDatabase.getPassword id (PasswordManager.database m') = None
    /\ (forall other, well_formed other = true -> other <> id ->
          PasswordDatabase.getPassword other (PasswordManager.database m')
          = PasswordDatabase.getPassword other (PasswordManager.database m))
    /\ PasswordDatabase.secure_notes (PasswordManager.database m')
       = PasswordDatabase.secure_notes (PasswordManager.database m)
    /\ PasswordDatabase.password_settings (PasswordManager.database m')
       = PasswordDatabase.password_settings (PasswordManager.database m)
    /\ (PasswordDatabase.foreign_keys (PasswordManager.database m) = true ->
        PasswordDatabase.getPassword id (PasswordManager.database m) <> None ->
        Spec.history_of id (PasswordManager.database m') = [])
    /\ (PasswordDatabase.foreign_keys (PasswordManager.database m) = false ->
        forall p,
          PasswordDatabase.getPassword id (PasswordManager.database m) = Some p ->
          Spec.history_ids_fresh (PasswordManager.database m) ->
          Spec.increasing (Spec.history_of id (PasswordManager.database m)) ->
          Forall (fun h => History.changed_at h < now)
                 (Spec.history_of id (PasswordManager.database m)) ->
          Spec.history_of id (PasswordManager.database m')
          = Spec.lastn 5
              (Spec.history_of id (PasswordManager.database m)
               ++ [Spec.pushed_row id (Passwords.encrypted_password p) now
                                   (PasswordManager.database m)])).
Proof.
  intros Hl _. unfold PasswordManager.deletePassword. rewrite Hl. cbv zeta.
  cbn [PasswordManager.database PasswordManager.resetAutoLockTimer
       PasswordManager.with_timer].
  destruct (deletePassword_spec id now (PasswordManager.database m))
    as [db' [E [G [O [N [S [C K]]]]]]].
  rewrite E. eexists. split; [reflexivity|].
  cbn [PasswordManager.database PasswordManager.with_database].
  split; [exact G|]. split; [intros other _; apply O|].
  split; [exact N|]. split; [exact S|].
  split; [exact C|].
  intros Hfk p Hp Hf Hinc Hold.
  destruct (addToPasswordHistory_existing
              id (Passwords.encrypted_password p) now (PasswordManager.database m) p Hp)
    as [db1 [E1 _]].
  unfold Spec.history_of at 1. rewrite (K Hfk p db1 Hp E1).
  apply (addToPasswordHistory_keeps_newest _ _ _ _ _ Hf Hinc Hold E1).
Qed.

Lemma X10_missing_id_witness :
  fst (PasswordManager.getPassword (js "nope") 150 (Scenario.unlocked_vault true))
  = PasswordManager.NotFound
  /\ fst (PasswordManager.deletePassword (js "nope") 150 (Scenario.unlocked_vault true))
     = PasswordManager.ok (PasswordManager.Message (js "Password deleted successfully")).
Proof.
  assert (L : PasswordManager.isLocked (Scenario.unlocked_vault true) = false)
    by (vm_compute; reflexivity).
  assert (G : PasswordDatabase.getPassword
                (js "nope") (PasswordManager.database (Scenario.unlocked_vault true))
              = None) by (vm_compute; reflexivity).
  destruct (X10_missing_id_not_found_yet_deleted
              (Scenario.unlocked_vault true) (js "nope") Scenario.example_entry 150
              L eq_refl G)
    as [[H1 _] [_ [[H3 _] _]]].
  split; [exact H1|exact H3].
Defined.

Lemma X11_delete_witness :
  exists m',
    PasswordManager.deletePassword Scenario.example_id 150 (Scenario.unlocked_vault true)
    = (PasswordManager.ok (PasswordManager.Message (js "Password deleted successfully")),
       m')
    /\ PasswordDatabase.getPassword Scenario.example_id (PasswordManager.database m')
       = None.
Proof.
  assert (L : PasswordManager.isLocked (Scenario.unlocked_vault true) = false)
    by (vm_compute; reflexivity).
  destruct (X11_delete_removes_the_entry
              (Scenario.unlocked_vault true) Scenario.example_id 150 L eq_refl)
    as [m' [D [G _]]].
  exists m'. split; [exact D|exact G].
Defined.

(* ================================================================== *)
(** * Export and import *)
(* ================================================================== *)

Section BackupFacts.

Import PasswordDatabase.

Lemma or_else_same (s : jsstring) : or_else (Some s) [] = s.
Proof. destruct s; reflexivity. Qed.

Lemma stringify_nonempty (v : json) : JSON.stringify v <> [].
Proof. destruct v; discriminate. Qed.

(** Saving an exported row whose id no row has: the row is appended, with
    fresh times and counters and with the text of its tags as one string. *)
Lemma savePassword_restores (p : Passwords.row) (now : timestamp) (db : t) (r : entropy) :
  Passwords.id p <> [] ->
  getPassword (Passwords.id p) db = None ->
  savePassword (Behaviour.entry_of_row p) now db r
  = (Return (Passwords.id p),
     with_passwords (passwords db ++ [Behaviour.restored now p]) db, r).
Proof.
  intros Hid G. unfold savePassword, Behaviour.entry_of_row, Behaviour.restored.
  cbn [PasswordEncryption.ee_id PasswordEncryption.ee_domain
       PasswordEncryption.ee_encrypted_password PasswordEncryption.ee_username
       PasswordEncryption.ee_encrypted_notes PasswordEncryption.ee_favicon
       PasswordEncryption.ee_tags].
  pose proof (stringify_nonempty (Passwords.tags p)) as Ht.
  destruct (Passwords.id p) as [|c s]; [contradiction|]. cbn [truthy].
  rewrite !or_else_same, (delete_password_row_missing _ _ G).
  unfold stringify_tags.
  destruct (JSON.stringify (Passwords.tags p)); [contradiction|reflexivity].
Qed.

Lemma saveSecureNote_restores (n : Notes.row) (now : timestamp) (db : t) (r : entropy) :
  Notes.id n <> [] ->
  (forall x, In x (secure_notes db) -> Notes.id x <> Notes.id n) ->
  saveSecureNote (Behaviour.note_of_row n) now db r
  = (Return (Notes.id n),
     with_notes (secure_notes db ++ [Behaviour.restored_note now n]) db, r).
Proof.
  intros Hid G. unfold saveSecureNote, Behaviour.note_of_row, Behaviour.restored_note.
  cbn [nd_id nd_title nd_encrypted_content].
  destruct (Notes.id n) as [|c s]; [contradiction|]. cbn [truthy].
  rewrite !or_else_same, filter_keeps_all; [reflexivity|].
  intros x Hx. apply negb_true_iff. unfold note_has_id.
  apply jsstring_eqb_neq. apply G, Hx.
Qed.

Lemma find_app_none (id : jsstring) (rows : list Passwords.row) (row : Passwords.row) :
  find (has_id id) rows = None -> Passwords.id row <> id ->
  find (has_id id) (rows ++ [row]) = None.
Proof.
  intros H Hne. induction rows as [|p rows IH].
  - cbn. unfold has_id. destruct (jsstring_eqb (Passwords.id row) id) eqn:E;
      [|reflexivity].
    apply jsstring_eqb_eq in E. contradiction.
  - cbn [app find] in *. destruct (has_id id p); [discriminate|]. apply IH, H.
Qed.

(** Importing exported rows with distinct ids, none of them in the table:
    they are appended in order, and no random number is drawn. *)
Lemma for_each_restores_rows (now : timestamp) (rows : list Passwords.row) :
  forall (db : t) (r : entropy),
    Forall (fun p => Passwords.id p <> []) rows ->
    NoDup (map Passwords.id rows) ->
    (forall p, In p rows -> getPassword (Passwords.id p) db = None) ->
    for_each (fun p => savePassword p now) (map Behaviour.entry_of_row rows) db r
    = (Return tt, with_passwords (passwords db ++ map (Behaviour.restored now) rows) db, r).
Proof.
  induction rows as [|x rows IH]; intros db r Hne Hnd Hnew.
  - cbn. rewrite app_nil_r. destruct db; reflexivity.
  - cbn [map for_each]. inversion Hne as [|? ? Hx Hne']; subst.
    cbn [map] in Hnd. inversion Hnd as [|? ? Hnx Hnd']; subst.
    rewrite (savePassword_restores x now db r Hx (Hnew x (or_introl eq_refl))).
    rewrite (IH _ r Hne' Hnd').
    + cbn [passwords with_passwords]. rewrite <- app_assoc. reflexivity.
    + intros p Hp. unfold getPassword. cbn [passwords with_passwords].
      apply find_app_none; [apply (Hnew p); right; exact Hp|].
      cbn [Behaviour.restored Passwords.id]. intros E. apply Hnx.
      rewrite E. apply in_map. exact Hp.
Qed.

Lemma for_each_restores_notes (now : timestamp) (rows : list Notes.row) :
  forall (db : t) (r : entropy),
    Forall (fun n => Notes.id n <> []) rows ->
    NoDup (map Notes.id rows) ->
    (forall n x, In n rows -> In x (secure_notes db) -> Notes.id x <> Notes.id n) ->
    for_each (fun n => saveSecureNote n now) (map Behaviour.note_of_row rows) db r
    = (Return tt,
       with_notes (secure_notes db ++ map (Behaviour.restored_note now) rows) db, r).
Proof.
  induction rows as [|y rows IH]; intros db r Hne Hnd Hnew.
  - cbn. rewrite app_nil_r. destruct db; reflexivity.
  - cbn [map for_each]. inversion Hne as [|? ? Hy Hne']; subst.
    cbn [map] in Hnd. inversion Hnd as [|? ? Hny Hnd']; subst.
    rewrite (saveSecureNote_restores y now db r Hy
               (fun x Hx => Hnew y x (or_introl eq_refl) Hx)).
    rewrite (IH _ r Hne' Hnd').
    + cbn [secure_notes with_notes]. rewrite <- app_assoc. reflexivity.
    + intros n x Hn Hx. cbn [secure_notes with_notes] in Hx.
      apply in_app_or in Hx. destruct Hx as [Hx|[<-|[]]].
      * apply (Hnew n x); [right; exact Hn|exact Hx].
      * cbn [Behaviour.restored_note Notes.id]. intros E. apply Hny.
        rewrite E. apply in_map. exact Hn.
Qed.

(** Tags stored as one string are no tags to [getAllTags]. *)
Lemma collect_no_tags (rows : list Passwords.row) (tagSet : list jsstring) :
  (forall p, In p rows -> exists text, Passwords.tags p = JsonString text) ->
  fold_left (fun tagSet p =>
               match Passwords.tags p with
               | JsonArray tags => fold_left (fun s tag => set_add tag s) tags tagSet
               | JsonString _ => tagSet
               end) rows tagSet = tagSet.
Proof.
  revert tagSet. induction rows as [|p rows IH]; intros tagSet H; [reflexivity|].
  cbn [fold_left]. destruct (H p (or_introl eq_refl)) as [text ->].
  apply IH. intros q Hq. apply H. right. exact Hq.
Qed.

Lemma for_each_app {A : Type}
      (save : A -> t -> entropy -> outcome jsstring * t * entropy) (l1 l2 : list A) :
  forall db r,
    for_each save (l1 ++ l2) db r
    = match for_each save l1 db r with
      | (Return _, db1, r1) => for_each save l2 db1 r1
      | (Throw message, db1, r1) => (Throw message, db1, r1)
      end.
Proof.
  induction l1 as [|x l1 IH]; intros db r; [reflexivity|].
  cbn [app for_each]. destruct (save x db r) as [[[id|msg] db1] r1]; [apply IH|].
  reflexivity.
Qed.

(** Entries that can be bound are all saved. *)
Lemma for_each_complete (now : timestamp) (l : list PasswordEncryption.encryptedEntry) :
  forallb Behaviour.complete l = true ->
  forall db r, exists db1 r1,
      for_each (fun p => savePassword p now) l db r = (Return tt, db1, r1).
Proof.
  induction l as [|p l IH]; intros H db r; [eexists _, _; reflexivity|].
  cbn [forallb] in H. apply andb_true_iff in H. destruct H as [Hp H].
  cbn [for_each]. unfold savePassword at 1. unfold Behaviour.complete in Hp.
  destruct (if truthy (PasswordEncryption.ee_id p)
            then (or_else (PasswordEncryption.ee_id p) [], r) else uuidv4 r)
    as [id r1].
  destruct (PasswordEncryption.ee_domain p); [|discriminate Hp].
  destruct (PasswordEncryption.ee_encrypted_password p); [|discriminate Hp].
  apply IH. exact H.
Qed.

(** An entry that is not complete is refused, and the table stays as it
    is. *)
Lemma savePassword_incomplete (p : PasswordEncryption.encryptedEntry) (now : timestamp)
      (db : t) (r : entropy) :
  Behaviour.complete p = false ->
  fst (savePassword p now db r) = (Throw (Behaviour.refusal p), db).
Proof.
  intros Hp. unfold savePassword, Behaviour.complete, Behaviour.refusal in *.
  destruct (if truthy (PasswordEncryption.ee_id p)
            then (or_else (PasswordEncryption.ee_id p) [], r) else uuidv4 r)
    as [id r1].
  destruct (PasswordEncryption.ee_domain p);
    [destruct (PasswordEncryption.ee_encrypted_password p); [discriminate Hp|]|];
    reflexivity.
Qed.

End BackupFacts.

(** X12. A backup restored into an empty database.  Take the database after
    any run of events, export it, and hand the exported object to
    [importData] on an empty database.  The import succeeds and counts every
    entry and note.  Each entry comes back with its id, domain, user name
    and ciphertexts, in the order of the export, but as created now and never
    used, and with the text of its tags stored as a single string, so that
    [getAllTags] finds no tag at all.  Master settings and history are not
    restored. *)
Theorem X12_backup_restores_entries_without_their_tags
  {crypto : NodeCrypto} (fk : bool) (r : entropy) (events : list PasswordManager.event)
  (fk' : bool) (r' : entropy) (exported_at now : timestamp) :
  let db := PasswordManager.database (PasswordManager.run fk r events) in
  let data := Behaviour.backup (PasswordDatabase.exportData exported_at db) in
  exists db',
    PasswordDatabase.importData data now (PasswordDatabase.empty fk') r'
    = (Return {| PasswordDatabase.passwordsImported :=
                   Z.of_nat (List.length (PasswordDatabase.passwords db));
                 PasswordDatabase.notesImported :=
                   Z.of_nat (List.length (PasswordDatabase.secure_notes db)) |},
       db', r')
    /\ PasswordDatabase.passwords db'
       = map (Behaviour.restored now) (PasswordDatabase.getPasswords None db)
    /\ PasswordDatabase.secure_notes db'
       = map (Behaviour.restored_note now) (PasswordDatabase.getSecureNotes db)
    /\ PasswordDatabase.password_settings db' = []
    /\ PasswordDatabase.password_history db' = []
    /\ PasswordDatabase.getAllTags db' = [].
Proof.
  cbv zeta. destruct (run_ids_invariant fk r events) as [H1 [H2 [H3 H4]]].
  set (db := PasswordManager.database (PasswordManager.run fk r events)) in *.
  unfold PasswordDatabase.importData, Behaviour.backup, PasswordDatabase.exportData.
  cbn [PasswordDatabase.b_passwords PasswordDatabase.b_notes
       PasswordDatabase.ex_passwords PasswordDatabase.ex_notes
       PasswordEncryption.with_default PasswordDatabase.count_of].
  assert (P : Permutation (PasswordDatabase.getPasswords None db)
                          (PasswordDatabase.passwords db))
    by (unfold PasswordDatabase.getPasswords; cbn [truthy]; apply order_by_perm).
  assert (Q : Permutation (PasswordDatabase.getSecureNotes db)
                          (PasswordDatabase.secure_notes db))
    by (unfold PasswordDatabase.getSecureNotes; apply order_by_perm).
  rewrite for_each_restores_rows.
  - rewrite for_each_restores_notes.
    + cbn [PasswordDatabase.passwords PasswordDatabase.secure_notes
           PasswordDatabase.with_passwords PasswordDatabase.with_notes
           PasswordDatabase.empty app].
      rewrite !length_map, (Permutation_length P), (Permutation_length Q).
      eexists. split; [reflexivity|].
      cbn [PasswordDatabase.passwords PasswordDatabase.secure_notes
           PasswordDatabase.password_settings PasswordDatabase.password_history].
      repeat (split; [reflexivity|]).
      unfold PasswordDatabase.getAllTags. rewrite collect_no_tags; [reflexivity|].
      intros p Hp. unfold PasswordDatabase.getPasswords in Hp. cbn [truthy] in Hp.
      apply order_by_In in Hp. cbn [PasswordDatabase.passwords] in Hp.
      apply in_map_iff in Hp. destruct Hp as [q [<- _]].
      eexists. reflexivity.
    + apply Forall_forall. intros n Hn. rewrite Forall_forall in H4.
      apply H4. apply (Permutation_in _ Q). exact Hn.
    + eapply Permutation_NoDup; [|exact H3]. symmetry.
      apply Permutation_map. exact Q.
    + intros n x _ [].
  - apply Forall_forall. intros p Hp. rewrite Forall_forall in H2.
    apply H2. apply (Permutation_in _ P). exact Hp.
  - eapply Permutation_NoDup; [|exact H1]. symmetry.
    apply Permutation_map. exact P.
  - intros p _. reflexivity.
Qed.

(** X13. An import that meets an entry it cannot store.  On an Unlocked
    manager, when the entries before the first one that lacks a domain or a
    ciphertext can all be stored, [importData] reports failure with the
    message of the NOT NULL constraint that entry runs into (on
    [passwords.domain] when the domain is missing, on
    [passwords.encrypted_password] otherwise), and yet the database is the
    one an import of just the entries before it leaves: they stay stored, the
    entries after it and the notes are never looked at. *)
Theorem X13_import_stops_at_the_first_bad_entry
  {crypto : NodeCrypto} (m : PasswordManager.t)
  (good rest : list PasswordEncryption.encryptedEntry)
  (bad : PasswordEncryption.encryptedEntry)
  (notes : option (list PasswordDatabase.noteData)) (now : timestamp) :
  PasswordManager.isLocked m = false ->
  forallb Behaviour.complete good = true ->
  Behaviour.complete bad = false ->
  let whole := {| PasswordDatabase.b_passwords := Some (good ++ bad :: rest);
                  PasswordDatabase.b_notes := notes |} in
  let part := {| PasswordDatabase.b_passwords := Some good;
                 PasswordDatabase.b_notes := None |} in
  fst (PasswordManager.importData whole now m)
  = PasswordManager.failed (Behaviour.refusal bad)
  /\ PasswordManager.success (fst (PasswordManager.importData part now m)) = true
  /\ PasswordManager.database (snd (PasswordManager.importData whole now m))
     = PasswordManager.database (snd (PasswordManager.importData part now m)).
Proof.
  intros Hl Hg Hb. cbv zeta. unfold PasswordManager.importData. rewrite Hl. cbv zeta.
  cbn [PasswordManager.database PasswordManager.random
       PasswordManager.resetAutoLockTimer PasswordManager.with_timer].
  unfold PasswordDatabase.importData.
  cbn [PasswordDatabase.b_passwords PasswordDatabase.b_notes
       PasswordEncryption.with_default].
  rewrite for_each_app.
  destruct (for_each_complete now good Hg (PasswordManager.database m)
              (PasswordManager.random m)) as [db1 [r1 E]].
  rewrite E. cbn [PasswordDatabase.for_each].
  pose proof (savePassword_incomplete bad now db1 r1 Hb) as B.
  destruct (PasswordDatabase.savePassword bad now db1 r1) as [[o db2] r2].
  cbn [fst] in B. injection B as -> ->.
  split; [reflexivity|]. split; reflexivity.
Qed.

Lemma X13_import_witness :
  fst (PasswordManager.importData
         {| PasswordDatabase.b_passwords :=
              Some ([Cases.good_entry] ++ Cases.bad_entry :: [Cases.good_entry]);
            PasswordDatabase.b_notes := None |} 170 (Scenario.unlocked_vault true))
  = PasswordManager.failed (PasswordDatabase.not_null_failed "passwords" "domain")
  /\ PasswordManager.database
       (snd (PasswordManager.importData
               {| PasswordDatabase.b_passwords :=
                    Some ([Cases.good_entry] ++ Cases.bad_entry :: [Cases.good_entry]);
                  PasswordDatabase.b_notes := None |} 170 (Scenario.unlocked_vault true)))
     = PasswordManager.database
         (snd (PasswordManager.importData
                 {| PasswordDatabase.b_passwords := Some [Cases.good_entry];
                    PasswordDatabase.b_notes := None |} 170
                 (Scenario.unlocked_vault true))).
Proof.
  assert (L : PasswordManager.isLocked (Scenario.unlocked_vault true) = false)
    by (vm_compute; reflexivity).
  destruct (X13_import_stops_at_the_first_bad_entry
              (Scenario.unlocked_vault true) [Cases.good_entry] [Cases.good_entry]
              Cases.bad_entry None 170 L eq_refl eq_refl) as [H1 [_ H3]].
  split; [exact H1|exact H3].
Defined.

(* ================================================================== *)
(** * Secure notes *)
(* ================================================================== *)

(** X14. A note that was added is stored encrypted and decrypts.  Take a
    note whose title, content and, when it is given, id have no unpaired
    surrogate.  On every manager reached by a run of events that is Unlocked,
    [addSecureNote] of the note succeeds, under the id given or a fresh one.
    The table then holds one note with that id: its title is the one given,
    its content is stored as a ciphertext that [decrypt] turns back into the
    content, and it counts as created and modified now.  Notes with other
    ids, the entries and their history are as before.  Deleting the note by
    its id removes it. *)
Theorem X14_added_note_is_stored_and_decrypts
  {crypto : NodeCrypto} (fk : bool) (r : entropy) (events : list PasswordManager.event)
  (noteData : PasswordDatabase.noteData) (title content : jsstring)
  (now later : timestamp) :
  let m := PasswordManager.run fk r events in
  PasswordManager.isLocked m = false ->
  Behaviour.well_formed_field (PasswordDatabase.nd_id noteData) ->
  PasswordDatabase.nd_title noteData = Some title ->
  well_formed title = true ->
  PasswordDatabase.nd_content noteData = Some content ->
  well_formed content = true ->
  exists id m1 row,
    PasswordManager.addSecureNote noteData now m
    = (PasswordManager.ok (PasswordManager.Saved id (js "Note saved successfully")), m1)
    /\ id <> []
    /\ well_formed id = true
    /\ filter (PasswordDatabase.note_has_id id)
              (PasswordDatabase.secure_notes (PasswordManager.database m1)) = [row]
    /\ Notes.id row = id
    /\ Notes.title row = title
    /\ PasswordEncryption.decrypt (Notes.encrypted_content row)
                                  (PasswordManager.encryption m1) = Return content
    /\ Notes.created_at row = now
    /\ Notes.modified_at row = now
    /\ filter (fun n => negb (PasswordDatabase.note_has_id id n))
              (PasswordDatabase.secure_notes (PasswordManager.database m1))
       = filter (fun n => negb (PasswordDatabase.note_has_id id n))
                (PasswordDatabase.secure_notes (PasswordManager.database m))
    /\ PasswordDatabase.passwords (PasswordManager.database m1)
       = PasswordDatabase.passwords (PasswordManager.database m)
    /\ PasswordDatabase.password_history (PasswordManager.database m1)
       = PasswordDatabase.password_history (PasswordManager.database m)
    /\ filter (PasswordDatabase.note_has_id id)
              (PasswordDatabase.secure_notes
                 (PasswordManager.database
                    (snd (PasswordManager.deleteSecureNote id later m1)))) = [].
Proof.
  cbv zeta. intros Hl Hwi Ht _ Hc Hw.
  destruct (run_session_invariant fk r events) as [Hk Hu].
  set (m := PasswordManager.run fk r events) in *.
  specialize (Hu Hl).
  destruct (PasswordEncryption.masterKey (PasswordManager.encryption m)) as [l|] eqn:K;
    [|contradiction].
  pose proof (Hk l K) as Hlen.
  unfold PasswordManager.addSecureNote. rewrite Hl. cbv zeta.
  cbn [PasswordManager.random PasswordManager.encryption PasswordManager.database
       PasswordManager.resetAutoLockTimer PasswordManager.with_timer].
  pose proof (chosen_id_nonempty (PasswordDatabase.nd_id noteData)
                (PasswordManager.random m)) as Hid.
  assert (Hwf : well_formed
                  (fst (if truthy (PasswordDatabase.nd_id noteData)
                        then (or_else (PasswordDatabase.nd_id noteData) [],
                              PasswordManager.random m)
                        else uuidv4 (PasswordManager.random m))) = true).
  { destruct (PasswordDatabase.nd_id noteData) as [[|c s]|] eqn:Ei;
      cbn [truthy or_else fst]; try apply uuidv4_well_formed.
    apply (Hwi (c :: s)). reflexivity. }
  destruct (if truthy (PasswordDatabase.nd_id noteData)
            then (or_else (PasswordDatabase.nd_id noteData) [], PasswordManager.random m)
            else uuidv4 (PasswordManager.random m)) as [id r0].
  cbn [fst] in Hid, Hwf.
  rewrite Hc. unfold PasswordEncryption.encrypt_value, PasswordEncryption.encrypt.
  rewrite K.
  pose proof (generateIV_length r0) as Hi.
  destruct (PasswordEncryption.generateIV r0) as [iv r1]. cbn [fst] in Hi.
  unfold PasswordDatabase.saveSecureNote.
  cbn [PasswordDatabase.nd_id PasswordDatabase.nd_title
       PasswordDatabase.nd_encrypted_content].
  rewrite Ht.
  assert (Hor : or_else (Some id) [] = id) by (destruct id; [contradiction|reflexivity]).
  assert (Hti : truthy (Some id) = true) by (destruct id; [contradiction|reflexivity]).
  rewrite Hti, Hor.
  eexists id, _, _. split; [reflexivity|].
  cbn [PasswordManager.database PasswordManager.encryption PasswordManager.with_database
       PasswordManager.with_random PasswordManager.resetAutoLockTimer
       PasswordManager.with_timer PasswordDatabase.secure_notes
       PasswordDatabase.passwords PasswordDatabase.password_history
       PasswordDatabase.with_notes].
  split; [exact Hid|]. split; [exact Hwf|].
  assert (F1 : forall rows,
             filter (PasswordDatabase.note_has_id id)
                    (filter (fun x => negb (PasswordDatabase.note_has_id id x)) rows)
             = []).
  { induction rows as [|n rows IH]; [reflexivity|]. cbn [filter].
    destruct (PasswordDatabase.note_has_id id n) eqn:E; cbn [negb]; [exact IH|].
    cbn [filter]. rewrite E. exact IH. }
  assert (F2 : forall rows,
             filter (fun n => negb (PasswordDatabase.note_has_id id n))
                    (filter (fun x => negb (PasswordDatabase.note_has_id id x)) rows)
             = filter (fun n => negb (PasswordDatabase.note_has_id id n)) rows).
  { intros rows. rewrite filter_filter. apply filter_ext. intros n.
    destruct (PasswordDatabase.note_has_id id n); reflexivity. }
  split.
  { rewrite filter_app, F1. cbn [filter app].
    unfold PasswordDatabase.note_has_id at 1. cbn [Notes.id].
    rewrite jsstring_eqb_refl. reflexivity. }
  split; [reflexivity|]. split; [reflexivity|].
  split.
  { cbn [Notes.encrypted_content]. unfold PasswordEncryption.decrypt. rewrite K.
    apply open_seal; assumption. }
  split; [reflexivity|]. split; [reflexivity|].
  split.
  { rewrite filter_app, F2. cbn [filter].
    unfold PasswordDatabase.note_has_id at 2. cbn [Notes.id].
    rewrite jsstring_eqb_refl. cbn [negb]. apply app_nil_r. }
  split; [reflexivity|]. split; [reflexivity|].
  unfold PasswordManager.deleteSecureNote.
  cbn [PasswordManager.isLocked PasswordManager.with_database PasswordManager.with_random
       PasswordManager.resetAutoLockTimer PasswordManager.with_timer].
  rewrite Hl. cbv zeta.
  cbn [snd PasswordManager.database PasswordManager.with_database
       PasswordManager.resetAutoLockTimer PasswordManager.with_timer].
  unfold PasswordDatabase.deleteSecureNote.
  cbn [PasswordDatabase.secure_notes PasswordDatabase.with_notes].
  apply F1.
Qed.

(** X15. A note without content or without a title is not stored.  On every
    manager reached by a run of events that is Unlocked, [addSecureNote]
    fails with the message of the cipher's type error when the content is
    missing, with the message of the NOT NULL constraint on
    [secure_notes.title] when the content is there and the title is missing,
    and leaves the database as it was. *)
Theorem X15_note_without_title_or_content_is_rejected
  {crypto : NodeCrypto} (fk : bool) (r : entropy) (events : list PasswordManager.event)
  (noteData : PasswordDatabase.noteData) (now : timestamp) :
  let m := PasswordManager.run fk r events in
  PasswordManager.isLocked m = false ->
  (PasswordDatabase.nd_content noteData = None ->
   fst (PasswordManager.addSecureNote noteData now m)
   = PasswordManager.failed PasswordEncryption.invalid_data_argument
   /\ PasswordManager.database (snd (PasswordManager.addSecureNote noteData now m))
      = PasswordManager.database m)
  /\ (PasswordDatabase.nd_content noteData <> None ->
      PasswordDatabase.nd_title noteData = None ->
      fst (PasswordManager.addSecureNote noteData now m)
      = PasswordManager.failed
          (PasswordDatabase.not_null_failed "secure_notes" "title")
      /\ PasswordManager.database (snd (PasswordManager.addSecureNote noteData now m))
         = PasswordManager.database m).
Proof.
  cbv zeta. intros Hl.
  destruct (run_session_invariant fk r events) as [_ Hu].
  set (m := PasswordManager.run fk r events) in *.
  specialize (Hu Hl).
  destruct (PasswordEncryption.masterKey (PasswordManager.encryption m)) as [l|] eqn:K;
    [|contradiction].
  unfold PasswordManager.addSecureNote. rewrite Hl. cbv zeta.
  cbn [PasswordManager.random PasswordManager.encryption PasswordManager.database
       PasswordManager.resetAutoLockTimer PasswordManager.with_timer].
  destruct (if truthy (PasswordDatabase.nd_id noteData)
            then (or_else (PasswordDatabase.nd_id noteData) [], PasswordManager.random m)
            else uuidv4 (PasswordManager.random m)) as [id r0].
  split.
  - intros Hc. rewrite Hc. unfold PasswordEncryption.encrypt_value. rewrite K.
    split; reflexivity.
  - intros Hc Ht. destruct (PasswordDatabase.nd_content noteData) as [content|];
      [|contradiction].
    unfold PasswordEncryption.encrypt_value, PasswordEncryption.encrypt. rewrite K.
    destruct (PasswordEncryption.generateIV r0) as [iv r1].
    unfold PasswordDatabase.saveSecureNote.
    cbn [PasswordDatabase.nd_id PasswordDatabase.nd_title
         PasswordDatabase.nd_encrypted_content].
    destruct (if truthy (Some id) then (or_else (Some id) [], r1) else uuidv4 r1)
      as [id' r2].
    rewrite Ht. split; reflexivity.
Qed.

Lemma X14_added_note_witness :
  exists id m1 row,
    PasswordManager.addSecureNote Cases.example_note 180
      (PasswordManager.run true Toy.counter Cases.set_up)
    = (PasswordManager.ok (PasswordManager.Saved id (js "Note saved successfully")), m1)
    /\ Notes.title row = js "wifi"
    /\ PasswordEncryption.decrypt (Notes.encrypted_content row)
                                  (PasswordManager.encryption m1)
       = Return (js "the key is under the mat").
Proof.
  assert (L : PasswordManager.isLocked
                (PasswordManager.run true Toy.counter Cases.set_up) = false)
    by (vm_compute; reflexivity).
  assert (Wi : Behaviour.well_formed_field
                 (PasswordDatabase.nd_id Cases.example_note))
    by (intros s H; discriminate H).
  destruct (X14_added_note_is_stored_and_decrypts
              true Toy.counter Cases.set_up Cases.example_note
              (js "wifi") (js "the key is under the mat") 180 181
              L Wi eq_refl eq_refl eq_refl eq_refl)
    as [id [m1 [row [A [_ [_ [_ [_ [T [D _]]]]]]]]]].
  exists id, m1, row. split; [exact A|]. split; [exact T|exact D].
Defined.

Lemma X15_rejected_note_witness :
  fst (PasswordManager.addSecureNote
         {| PasswordDatabase.nd_id := None;
            PasswordDatabase.nd_title := Some (js "empty");
            PasswordDatabase.nd_content := None;
            PasswordDatabase.nd_encrypted_content := None |} 180
         (PasswordManager.run true Toy.counter Cases.set_up))
  = PasswordManager.failed PasswordEncryption.invalid_data_argument.
Proof.
  assert (L : PasswordManager.isLocked
                (PasswordManager.run true Toy.counter Cases.set_up) = false)
    by (vm_compute; reflexivity).
  exact (proj1 (proj1 (X15_note_without_title_or_content_is_rejected
                         true Toy.counter Cases.set_up
                         {| PasswordDatabase.nd_id := None;
                            PasswordDatabase.nd_title := Some (js "empty");
                            PasswordDatabase.nd_content := None;
                            PasswordDatabase.nd_encrypted_content := None |} 180 L)
                      eq_refl)).
Defined.

(* ================================================================== *)
(** * Setting up again, and locking *)
(* ================================================================== *)

(** X16. Setting up a master password asks for nothing.  Whatever the state
    of the manager (Locked or Unlocked, with or without a master password
    already stored), [setupMasterPassword] with a password that scores 3 or
    more succeeds: the manager is Unlocked with the timer running, the stored
    settings are replaced by exactly one new row, and entries, notes and
    history are left as they were.  After a lock the new password unlocks. *)
Theorem X16_setup_replaces_the_master_password
  {crypto : NodeCrypto} (m : PasswordManager.t) (masterPassword : jsstring)
  (now later : timestamp) :
  3 <= PasswordEncryption.score (PasswordEncryption.checkPasswordStrength masterPassword) ->
  let m' := snd (PasswordManager.setupMasterPassword masterPassword now m) in
  fst (PasswordManager.setupMasterPassword masterPassword now m)
  = PasswordManager.ok (PasswordManager.Message (js "Master password set successfully"))
  /\ PasswordManager.isLocked m' = false
  /\ PasswordManager.autoLockTimer m' = Some (now * 1000 + 15 * 60 * 1000)
  /\ (exists settings,
         PasswordDatabase.password_settings (PasswordManager.database m') = [settings]
         /\ Settings.created_at settings = now
         /\ Settings.last_accessed settings = None
         /\ Settings.iterations settings = 100000)
  /\ PasswordDatabase.passwords (PasswordManager.database m')
     = PasswordDatabase.passwords (PasswordManager.database m)
  /\ PasswordDatabase.secure_notes (PasswordManager.database m')
     = PasswordDatabase.secure_notes (PasswordManager.database m)
  /\ PasswordDatabase.password_history (PasswordManager.database m')
     = PasswordDatabase.password_history (PasswordManager.database m)
  /\ PasswordManager.success
       (fst (PasswordManager.unlock masterPassword later (snd (PasswordManager.lock m'))))
     = true.
Proof.
  intros Hs. cbv zeta.
  destruct (unlock_accepts_the_password_set_up masterPassword now later m Hs)
    as [_ [Hu _]].
  split; [|split; [|split; [|split; [|split; [|split; [|split; [|exact Hu]]]]]]];
    unfold PasswordManager.setupMasterPassword;
    (destruct (Z.ltb_spec (PasswordEncryption.score
                             (PasswordEncryption.checkPasswordStrength masterPassword)) 3);
     [lia|]);
    unfold PasswordEncryption.initialize;
    destruct (PasswordEncryption.generateSalt (PasswordManager.random m)) as [s r1];
    unfold PasswordEncryption.encrypt;
    cbn [PasswordEncryption.install_key PasswordEncryption.masterKey];
    destruct (PasswordEncryption.generateIV r1) as [iv r2];
    try reflexivity.
  eexists. split; [reflexivity|]. repeat split.
Qed.

Lemma X16_setup_witness :
  fst (PasswordManager.setupMasterPassword (js "An0ther&Pass") 200
         (Scenario.locked_vault false))
  = PasswordManager.ok (PasswordManager.Message (js "Master password set successfully"))
  /\ PasswordManager.isLocked
       (snd (PasswordManager.setupMasterPassword (js "An0ther&Pass") 200
               (Scenario.locked_vault false))) = false.
Proof.
  assert (S : 3 <= PasswordEncryption.score
                     (PasswordEncryption.checkPasswordStrength (js "An0ther&Pass")))
    by (vm_compute; discriminate).
  destruct (X16_setup_replaces_the_master_password
              (Scenario.locked_vault false) (js "An0ther&Pass") 200 201 S)
    as [H1 [H2 _]].
  split; [exact H1|exact H2].
Defined.

Section KeyBuffers.
Context {crypto : NodeCrypto}.

Import PasswordManager.

Lemma write_other (l l' : nat) (b : bytes) (mem : list bytes) :
  l <> l' -> nth l (PasswordEncryption.write l' b mem) [] = nth l mem [].
Proof.
  revert l l'. induction mem as [|x mem IH]; intros l l' H;
    [destruct l'; reflexivity|].
  destruct l' as [|l']; destruct l as [|l]; cbn [PasswordEncryption.write nth];
    try reflexivity; [contradiction|].
  apply IH. intros E. apply H. rewrite E. reflexivity.
Qed.

Lemma nth_app_left (l : nat) (mem : list bytes) (b : bytes) :
  (l < List.length mem)%nat -> nth l (mem ++ [b]) [] = nth l mem [].
Proof. intros H. apply app_nth1. exact H. Qed.

(** A key that is referenced lies inside the memory. *)
Lemma resident_key_in_memory (e : PasswordEncryption.t) (l : nat) :
  List.length (PasswordEncryption.read l e) = 32%nat ->
  (l < List.length (PasswordEncryption.memory e))%nat.
Proof.
  intros H.
  destruct (Nat.lt_ge_cases l (List.length (PasswordEncryption.memory e))) as [L|L];
    [exact L|].
  unfold PasswordEncryption.read in H. rewrite nth_overflow in H by exact L.
  discriminate H.
Qed.

End KeyBuffers.

(** X17. Locking.  On every manager reached by a run of events that holds a
    key, [lock()] leaves the manager Locked with no timer and no key
    referenced; the buffer that held the key holds 32 fresh random bytes
    instead; [encrypt] and [decrypt] throw until the next unlock; the
    database is untouched. *)
Theorem X17_lock_overwrites_and_forgets_the_key
  {crypto : NodeCrypto} (fk : bool) (r : entropy) (events : list PasswordManager.event)
  (l : nat) :
  let m := PasswordManager.run fk r events in
  PasswordEncryption.masterKey (PasswordManager.encryption m) = Some l ->
  let m' := snd (PasswordManager.lock m) in
  PasswordManager.isLocked m' = true
  /\ PasswordManager.autoLockTimer m' = None
  /\ PasswordEncryption.isUnlocked (PasswordManager.encryption m') = false
  /\ PasswordEncryption.read l (PasswordManager.encryption m')
     = fst (randomBytes 32 (PasswordManager.random m))
  /\ (forall encryptedData,
         PasswordEncryption.decrypt encryptedData (PasswordManager.encryption m')
         = Throw PasswordEncryption.not_initialized)
  /\ (forall plaintext r0,
         PasswordEncryption.encrypt plaintext (PasswordManager.encryption m') r0
         = (Throw PasswordEncryption.not_initialized, r0))
  /\ PasswordManager.database m' = PasswordManager.database m.
Proof.
  cbv zeta. intros K.
  destruct (lock_overwrites_the_resident_key fk r events l K) as [H1 [H2 H3]].
  destruct (manager_lock_locks (PasswordManager.run fk r events)) as [_ [_ [H4 H5]]].
  split; [exact H1|]. split; [exact H4|].
  split; [unfold PasswordEncryption.isUnlocked; rewrite H2; reflexivity|].
  split; [exact H3|].
  split; [intros encryptedData; unfold PasswordEncryption.decrypt; rewrite H2;
          reflexivity|].
  split; [intros plaintext r0; unfold PasswordEncryption.encrypt; rewrite H2;
          reflexivity|].
  exact H5.
Qed.

Lemma X17_lock_witness :
  PasswordManager.isLocked (snd (PasswordManager.lock
                                   (PasswordManager.run false Toy.counter Cases.set_up)))
  = true
  /\ PasswordEncryption.read 0
       (PasswordManager.encryption
          (snd (PasswordManager.lock (PasswordManager.run false Toy.counter Cases.set_up))))
     = fst (randomBytes 32 (PasswordManager.random
                              (PasswordManager.run false Toy.counter Cases.set_up))).
Proof.
  assert (K : PasswordEncryption.masterKey
                (PasswordManager.encryption
                   (PasswordManager.run false Toy.counter Cases.set_up)) = Some 0%nat)
    by (vm_compute; reflexivity).
  destruct (X17_lock_overwrites_and_forgets_the_key false Toy.counter Cases.set_up 0 K)
    as [H1 [_ [_ [H4 _]]]].
  split; [exact H1|exact H4].
Defined.

(** X18. A key that was replaced is not overwritten.  On every manager
    reached by a run of events that holds a key, an [unlock] (accepted or
    not) installs the key it derives in a new buffer; the [lock()] that
    follows overwrites that new buffer only, and the buffer of the key held
    before still holds its 32 bytes. *)
Theorem X18_lock_leaves_a_replaced_key_in_memory
  {crypto : NodeCrypto} (fk : bool) (r : entropy) (events : list PasswordManager.event)
  (l : nat) (masterPassword : jsstring) (now : timestamp) :
  let m := PasswordManager.run fk r events in
  PasswordEncryption.masterKey (PasswordManager.encryption m) = Some l ->
  PasswordDatabase.getMasterPasswordSettings (PasswordManager.database m) <> None ->
  let m' := snd (PasswordManager.lock
                   (snd (PasswordManager.unlock masterPassword now m))) in
  PasswordManager.isLocked m' = true
  /\ PasswordEncryption.masterKey (PasswordManager.encryption m') = None
  /\ PasswordEncryption.read l (PasswordManager.encryption m')
     = PasswordEncryption.read l (PasswordManager.encryption m)
  /\ List.length (PasswordEncryption.read l (PasswordManager.encryption m')) = 32%nat.
Proof.
  cbv zeta. intros K Hs.
  destruct (run_session_invariant fk r events) as [Hk _].
  set (m := PasswordManager.run fk r events) in *.
  pose proof (Hk l K) as Hlen.
  pose proof (resident_key_in_memory _ _ Hlen) as Hin.
  destruct (manager_lock_locks (snd (PasswordManager.unlock masterPassword now m)))
    as [H1 [H2 _]].
  split; [exact H1|]. split; [exact H2|].
  assert (E : PasswordEncryption.read l
                (PasswordManager.encryption
                   (snd (PasswordManager.lock
                           (snd (PasswordManager.unlock masterPassword now m)))))
              = PasswordEncryption.read l (PasswordManager.encryption m)).
  { unfold PasswordManager.unlock.
    destruct (PasswordDatabase.getMasterPasswordSettings (PasswordManager.database m))
      as [settings|]; [|contradiction].
    rewrite verifyMasterPassword_spec.
    destruct (match PasswordEncryption.open _ _ with
              | Return d => jsstring_eqb d PasswordEncryption.verificationData
              | Throw _ => false
              end);
      unfold PasswordManager.lock, PasswordEncryption.lock;
      cbn [snd PasswordManager.encryption PasswordManager.random
           PasswordManager.resetAutoLockTimer PasswordManager.with_timer
           PasswordManager.with_database PasswordManager.with_isLocked
           PasswordManager.with_encryption PasswordEncryption.install_key
           PasswordEncryption.masterKey PasswordEncryption.memory];
      match goal with
      | |- context [randomBytes ?n ?r0] => destruct (randomBytes n r0) as [fill r1]
      end;
      cbn [snd PasswordManager.encryption PasswordManager.clearAutoLockTimer
           PasswordManager.with_timer PasswordManager.with_isLocked
           PasswordManager.with_random PasswordManager.with_encryption];
      unfold PasswordEncryption.read; cbn [PasswordEncryption.memory];
      (rewrite write_other by lia); apply nth_app_left; exact Hin. }
  split; [exact E|]. rewrite E. exact Hlen.
Qed.

Lemma X18_replaced_key_witness :
  PasswordEncryption.read 0
    (PasswordManager.encryption
       (snd (PasswordManager.lock
               (snd (PasswordManager.unlock (js "wrong") 150
                       (PasswordManager.run false Toy.counter Cases.set_up))))))
  = PasswordEncryption.read 0
      (PasswordManager.encryption (PasswordManager.run false Toy.counter Cases.set_up)).
Proof.
  assert (K : PasswordEncryption.masterKey
                (PasswordManager.encryption
                   (PasswordManager.run false Toy.counter Cases.set_up)) = Some 0%nat)
    by (vm_compute; reflexivity).
  assert (F : match PasswordDatabase.getMasterPasswordSettings
                      (PasswordManager.database
                         (PasswordManager.run false Toy.counter Cases.set_up)) with
              | Some _ => true
              | None => false
              end = true) by (vm_compute; reflexivity).
  assert (S : PasswordDatabase.getMasterPasswordSettings
                (PasswordManager.database
                   (PasswordManager.run false Toy.counter Cases.set_up)) <> None)
    by (intros E; rewrite E in F; discriminate F).
  exact (proj1 (proj2 (proj2 (X18_lock_leaves_a_replaced_key_in_memory
                                false Toy.counter Cases.set_up 0 (js "wrong") 150 K S)))).
Defined.

(* ================================================================== *)
(** * Strength: the top label, the set-up form and the meter *)
(* ================================================================== *)

Section StrengthMore.

Import PasswordEncryption.

(** A password that holds a character outside a class is not made of that
    class. *)
Lemma not_all_of (class other : Z -> bool) (password : jsstring) :
  (forall c, other c = true -> class c = false) ->
  existsb other password = true -> all_of class password = false.
Proof.
  intros Hd He. apply existsb_exists in He. destruct He as [c [Hin Hc]].
  destruct (all_of class password) eqn:A; [|reflexivity].
  unfold all_of in A. destruct password as [|x s]; [discriminate A|].
  rewrite forallb_forall in A. specialize (A c Hin).
  rewrite (Hd c Hc) in A. discriminate A.
Qed.

Lemma lower_is_no_digit (c : Z) : is_lower c = true -> is_digit c = false.
Proof.
  unfold is_lower, is_digit. intros H. apply andb_true_iff in H. destruct H as [H1 H2].
  apply Z.leb_le in H1. destruct (Z.leb_spec c 57); [lia|]. apply andb_false_r.
Qed.

Lemma upper_is_no_digit (c : Z) : is_upper c = true -> is_digit c = false.
Proof.
  unfold is_upper, is_digit. intros H. apply andb_true_iff in H. destruct H as [H1 H2].
  apply Z.leb_le in H1. destruct (Z.leb_spec c 57); [lia|]. apply andb_false_r.
Qed.

Lemma digit_is_no_letter (c : Z) : is_digit c = true -> is_alpha c = false.
Proof.
  unfold is_digit, is_alpha, is_lower, is_upper. intros H.
  apply andb_true_iff in H. destruct H as [H1 H2]. apply Z.leb_le in H2.
  destruct (Z.leb_spec 97 c); [lia|]. destruct (Z.leb_spec 65 c); [lia|]. reflexivity.
Qed.

(** The score in terms of what the password holds. *)
Lemma score_points (password : jsstring) :
  score (checkPasswordStrength password)
  = Z.max 0 (Z.min (Spec.length_points password + Spec.class_points password
                    - Spec.penalty_points password) 10).
Proof.
  destruct (checkPasswordStrength_score password) as [H _]. rewrite H. reflexivity.
Qed.

Lemma label_very_strong (s : Z) : Spec.label s = js "Very Strong" <-> 7 <= s.
Proof.
  unfold Spec.label.
  destruct (Z.ltb_spec s 2); [split; [intros E; vm_compute in E; discriminate E|lia]|].
  destruct (Z.ltb_spec s 3); [split; [intros E; vm_compute in E; discriminate E|lia]|].
  destruct (Z.ltb_spec s 5); [split; [intros E; vm_compute in E; discriminate E|lia]|].
  destruct (Z.ltb_spec s 7); [split; [intros E; vm_compute in E; discriminate E|lia]|].
  split; [lia|reflexivity].
Qed.

Lemma feedback_lines (password : jsstring) :
  feedback (checkPasswordStrength password)
  = (if has_repeat password then [js "Avoid repeating characters"] else [])
    ++ (if all_of is_digit password then [js "Use more than just numbers"] else [])
    ++ (if all_of is_alpha password then [js "Add numbers or symbols"] else []).
Proof.
  unfold checkPasswordStrength. cbv zeta.
  destruct (has_repeat password); destruct (all_of is_digit password);
    destruct (all_of is_alpha password); reflexivity.
Qed.

End StrengthMore.

(** X19. What it takes to be Very Strong.  The score never exceeds 7.  A
    password is labelled Very Strong exactly when it has sixteen characters
    or more, holds a lower-case letter, an upper-case letter, a digit and a
    character that is none of these, and has no character three times in a
    row.  The feedback lists, in this order, the repeated characters, the
    all-digit password and the all-letter password, each only when it
    applies. *)
Theorem X19_very_strong_needs_everything (password : jsstring) :
  let report := PasswordEncryption.checkPasswordStrength password in
  PasswordEncryption.score report <= 7
  /\ (PasswordEncryption.strength report = js "Very Strong"
      <-> 16 <= Z.of_nat (List.length password)
          /\ existsb PasswordEncryption.is_lower password = true
          /\ existsb PasswordEncryption.is_upper password = true
          /\ existsb PasswordEncryption.is_digit password = true
          /\ existsb Spec.symbol password = true
          /\ PasswordEncryption.has_repeat password = false)
  /\ PasswordEncryption.feedback report
     = (if PasswordEncryption.has_repeat password
        then [js "Avoid repeating characters"] else [])
       ++ (if PasswordEncryption.all_of PasswordEncryption.is_digit password
           then [js "Use more than just numbers"] else [])
       ++ (if PasswordEncryption.all_of PasswordEncryption.is_alpha password
           then [js "Add numbers or symbols"] else []).
Proof.
  cbv zeta. destruct (checkPasswordStrength_score password) as [_ [Hlabel Hrange]].
  split; [lia|]. split; [|apply feedback_lines].
  rewrite Hlabel, label_very_strong, score_points.
  unfold Spec.length_points, Spec.class_points, Spec.penalty_points. cbv zeta.
  pose proof (not_all_of PasswordEncryption.is_digit PasswordEncryption.is_lower
                password lower_is_no_digit) as D.
  pose proof (not_all_of PasswordEncryption.is_alpha PasswordEncryption.is_digit
                password digit_is_no_letter) as A.
  destruct (Z.leb_spec 8 (Z.of_nat (List.length password)));
    destruct (Z.leb_spec 12 (Z.of_nat (List.length password)));
    destruct (Z.leb_spec 16 (Z.of_nat (List.length password))); try lia;
    destruct (existsb PasswordEncryption.is_lower password);
    destruct (existsb PasswordEncryption.is_upper password);
    destruct (existsb PasswordEncryption.is_digit password);
    destruct (existsb Spec.symbol password);
    try (specialize (D eq_refl); rewrite D);
    try (specialize (A eq_refl); rewrite A);
    destruct (PasswordEncryption.has_repeat password);
    destruct (PasswordEncryption.all_of PasswordEncryption.is_digit password);
    destruct (PasswordEncryption.all_of PasswordEncryption.is_alpha password);
    cbn [Spec.indicator]; split; intros Hyp;
    try lia; try (repeat split; first [lia|reflexivity]);
    try (destruct Hyp as [? [? [? [? [? ?]]]]]; first [lia|discriminate]).
Qed.

(** X20. The set-up form does not offer what the engine refuses.  Whenever
    [validateSetupForm] leaves the submit button enabled, the two fields are
    equal and the password scores 3 or more, so that [setupMasterPassword]
    accepts it, whatever the state of the manager. *)
Theorem X20_valid_setup_form_is_accepted
  {crypto : NodeCrypto} (masterPassword confirmPassword : jsstring)
  (now : timestamp) (m : PasswordManager.t) :
  PasswordUI.validateSetupForm masterPassword confirmPassword = false ->
  confirmPassword = masterPassword
  /\ 3 <= PasswordEncryption.score (PasswordEncryption.checkPasswordStrength masterPassword)
  /\ fst (PasswordManager.setupMasterPassword masterPassword now m)
     = PasswordManager.ok (PasswordManager.Message (js "Master password set successfully")).
Proof.
  unfold PasswordUI.validateSetupForm. cbv zeta. intros H.
  apply negb_false_iff in H.
  repeat (apply andb_true_iff in H; destruct H as [H ?]).
  match goal with E : jsstring_eqb _ _ = true |- _ => apply jsstring_eqb_eq in E end.
  apply Z.leb_le in H.
  assert (S : 3 <= PasswordEncryption.score
                     (PasswordEncryption.checkPasswordStrength masterPassword)).
  { rewrite score_points.
    unfold Spec.length_points, Spec.class_points, Spec.penalty_points. cbv zeta.
    rewrite (not_all_of PasswordEncryption.is_digit PasswordEncryption.is_upper
               masterPassword upper_is_no_digit) by assumption.
    rewrite (not_all_of PasswordEncryption.is_alpha PasswordEncryption.is_digit
               masterPassword digit_is_no_letter) by assumption.
    repeat match goal with
           | E : existsb _ masterPassword = true |- _ => rewrite E; clear E
           end.
    destruct (Z.leb_spec 8 (Z.of_nat (List.length masterPassword))); [|lia].
    destruct (Z.leb_spec 12 (Z.of_nat (List.length masterPassword)));
      destruct (Z.leb_spec 16 (Z.of_nat (List.length masterPassword)));
      destruct (existsb Spec.symbol masterPassword);
      destruct (PasswordEncryption.has_repeat masterPassword);
      cbn [Spec.indicator]; lia. }
  split; [congruence|]. split; [exact S|].
  unfold PasswordManager.setupMasterPassword.
  destruct (Z.ltb_spec (PasswordEncryption.score
                          (PasswordEncryption.checkPasswordStrength masterPassword)) 3);
    [lia|].
  unfold PasswordEncryption.initialize.
  destruct (PasswordEncryption.generateSalt (PasswordManager.random m)) as [s r1].
  unfold PasswordEncryption.encrypt.
  cbn [PasswordEncryption.install_key PasswordEncryption.masterKey].
  destruct (PasswordEncryption.generateIV r1) as [iv r2]. reflexivity.
Qed.

Lemma X20_valid_setup_form_witness :
  fst (PasswordManager.setupMasterPassword (js "Tr0ub4dor&3") 100
         (PasswordManager.create (PasswordDatabase.empty false) Toy.counter))
  = PasswordManager.ok (PasswordManager.Message (js "Master password set successfully")).
Proof.
  exact (proj2 (proj2 (X20_valid_setup_form_is_accepted
                         (js "Tr0ub4dor&3") (js "Tr0ub4dor&3") 100
                         (PasswordManager.create (PasswordDatabase.empty false)
                                                 Toy.counter) eq_refl))).
Defined.

(** X21. The strength meter and the engine's label.  For an empty password
    the renderer clears the meter: the bar has its plain class and no text.
    For any other password, once the main process has answered, the text the
    meter shows is the label [checkPasswordStrength] computed there, except
    that a password the engine calls Very Weak is shown as Weak. *)
Theorem X21_meter_shows_the_engine_label
  (password : jsstring) (m : PasswordManager.t) (shown : PasswordUI.meter) :
  let report := PasswordEncryption.checkPasswordStrength password in
  let result := fst (PasswordManager.checkPasswordStrength password m) in
  let meter := PasswordUI.checkPasswordStrength password result shown in
  (password = [] ->
   PasswordUI.textContent meter = []
   /\ PasswordUI.className meter = js "password-strength-bar")
  /\ (password <> [] ->
      PasswordUI.textContent meter
      = (if PasswordEncryption.score report <? 2
         then js "Weak" else PasswordEncryption.strength report))
  /\ (PasswordEncryption.score report < 2
      <-> PasswordEncryption.strength report = js "Very Weak").
Proof.
  cbv zeta. split; [|split].
  - intros ->. split; reflexivity.
  - intros Hne. unfold PasswordUI.checkPasswordStrength.
    destruct password as [|c password]; [contradiction|].
    cbn [truthy negb PasswordManager.checkPasswordStrength fst
         PasswordManager.success PasswordManager.body PasswordManager.ok].
    destruct (checkPasswordStrength_score (c :: password)) as [_ [Hlabel _]].
    rewrite Hlabel. unfold PasswordUI.strengthMeter, Spec.label.
    set (s := PasswordEncryption.score
                (PasswordEncryption.checkPasswordStrength (c :: password))).
    destruct (Z.ltb_spec s 2); destruct (Z.ltb_spec s 3); try lia;
      destruct (Z.ltb_spec s 5); try lia; destruct (Z.ltb_spec s 7); try lia;
      reflexivity.
  - destruct (checkPasswordStrength_score password) as [_ [Hlabel _]].
    rewrite Hlabel. unfold Spec.label.
    set (s := PasswordEncryption.score (PasswordEncryption.checkPasswordStrength password)).
    destruct (Z.ltb_spec s 2); destruct (Z.ltb_spec s 3); try lia;
      destruct (Z.ltb_spec s 5); try lia; destruct (Z.ltb_spec s 7); try lia;
      split; intros E; try lia; try reflexivity;
      vm_compute in E; discriminate E.
Qed.

(* ================================================================== *)
(** * Duplicate groups and statistics *)
(* ================================================================== *)

Section GroupFacts.

Import PasswordDatabase.

(** Pushing a row whose ciphertext is a key of the map extends the list of
    the first such key. *)
Lemma map_push_known (p : Passwords.row) (m : list (jsstring * list Passwords.row)) :
  In (Passwords.encrypted_password p) (map fst m) ->
  exists m1 entries m2,
    m = m1 ++ (Passwords.encrypted_password p, entries) :: m2
    /\ map_push p m = m1 ++ (Passwords.encrypted_password p, entries ++ [p]) :: m2.
Proof.
  induction m as [|[k entries] m IH]; intros H; [destruct H|].
  cbn [map_push]. destruct (jsstring_eqb k (Passwords.encrypted_password p)) eqn:E.
  - apply jsstring_eqb_eq in E. subst k. exists [], entries, m. split; reflexivity.
  - cbn [map fst In] in H. destruct H as [H|H].
    + apply jsstring_eqb_neq in E. contradiction.
    + destruct (IH H) as [m1 [es [m2 [-> ->]]]].
      exists ((k, entries) :: m1), es, m2. split; reflexivity.
Qed.

(** Every push adds one row to the map. *)
Lemma map_push_total (p : Passwords.row) (m : list (jsstring * list Passwords.row)) :
  List.length (List.concat (map snd (map_push p m)))
  = S (List.length (List.concat (map snd m))).
Proof.
  induction m as [|[k entries] m IH]; [reflexivity|].
  cbn [map_push]. destruct (jsstring_eqb k (Passwords.encrypted_password p));
    cbn [map snd List.concat]; rewrite !length_app.
  - cbn [List.length]. lia.
  - rewrite IH. lia.
Qed.

Lemma fold_map_push_total (rows : list Passwords.row) :
  forall m,
    List.length (List.concat (map snd (fold_left (fun m p => map_push p m) rows m)))
    = (List.length rows + List.length (List.concat (map snd m)))%nat.
Proof.
  induction rows as [|p rows IH]; intros m; [reflexivity|].
  cbn [fold_left List.length]. rewrite IH, map_push_total. lia.
Qed.

(** A list of two or more takes two of the rows. *)
Lemma groups_bound (m : list (jsstring * list Passwords.row)) :
  (2 * List.length (filter (fun kv => (1 <? List.length (snd kv))%nat) m)
   <= List.length (List.concat (map snd m)))%nat.
Proof.
  induction m as [|[k entries] m IH]; [cbn; lia|].
  cbn [filter map snd List.concat]. rewrite length_app.
  destruct (1 <? List.length entries)%nat eqn:E; cbn [List.length].
  - apply Nat.ltb_lt in E. lia.
  - lia.
Qed.

Lemma carrying_app (k : jsstring) (a b : list Passwords.row) :
  Behaviour.carrying k (a ++ b) = Behaviour.carrying k a ++ Behaviour.carrying k b.
Proof. apply filter_app. Qed.

Lemma carrying_other (k : jsstring) (p : Passwords.row) :
  k <> Passwords.encrypted_password p -> Behaviour.carrying k [p] = [].
Proof.
  intros H. unfold Behaviour.carrying. cbn [filter].
  apply jsstring_eqb_neq in H. rewrite H. reflexivity.
Qed.

Lemma carrying_self (p : Passwords.row) :
  Behaviour.carrying (Passwords.encrypted_password p) [p] = [p].
Proof.
  unfold Behaviour.carrying. cbn [filter]. rewrite jsstring_eqb_refl. reflexivity.
Qed.

Lemma carrying_none (k : jsstring) (rows : list Passwords.row) :
  ~ In k (map Passwords.encrypted_password rows) -> Behaviour.carrying k rows = [].
Proof.
  induction rows as [|p rows IH]; intros H; [reflexivity|].
  cbn [map In] in H. unfold Behaviour.carrying. cbn [filter].
  destruct (jsstring_eqb k (Passwords.encrypted_password p)) eqn:E.
  - apply jsstring_eqb_eq in E. subst k. exfalso. apply H. left. reflexivity.
  - apply IH. intros Hin. apply H. right. exact Hin.
Qed.

Lemma carrying_In (k : jsstring) (rows : list Passwords.row) (p : Passwords.row) :
  In p (Behaviour.carrying k rows) <-> In p rows /\ k = Passwords.encrypted_password p.
Proof.
  unfold Behaviour.carrying. rewrite filter_In, jsstring_eqb_eq. reflexivity.
Qed.

(** The map after the rows [done]: its keys are the ciphertexts of [done],
    each once, and the list of a key holds the rows that carry it. *)
Lemma map_push_grouped (p : Passwords.row) (done : list Passwords.row)
      (m : list (jsstring * list Passwords.row)) :
  NoDup (map fst m) ->
  (forall k entries, In (k, entries) m -> entries = Behaviour.carrying k done) ->
  (forall k, In k (map fst m) <-> In k (map Passwords.encrypted_password done)) ->
  NoDup (map fst (map_push p m))
  /\ (forall k entries, In (k, entries) (map_push p m) ->
                        entries = Behaviour.carrying k (done ++ [p]))
  /\ (forall k, In k (map fst (map_push p m))
                <-> In k (map Passwords.encrypted_password (done ++ [p]))).
Proof.
  intros Hn Hg Hk.
  assert (Hkeys : forall k, In k (map Passwords.encrypted_password (done ++ [p]))
                            <-> In k (map fst m) \/ k = Passwords.encrypted_password p).
  { intros k. rewrite map_app, in_app_iff, Hk. cbn [map In]. intuition congruence. }
  destruct (in_dec (list_eq_dec Z.eq_dec) (Passwords.encrypted_password p) (map fst m))
    as [Hin|Hout].
  - destruct (map_push_known p m Hin) as [m1 [es [m2 [Em Ep]]]].
    rewrite Ep. subst m.
    assert (Ekeys : map fst (m1 ++ (Passwords.encrypted_password p, es ++ [p]) :: m2)
                    = map fst (m1 ++ (Passwords.encrypted_password p, es) :: m2))
      by (rewrite !map_app; reflexivity).
    rewrite Ekeys. split; [exact Hn|]. split.
    + intros k entries H. rewrite carrying_app.
      apply in_app_or in H. cbn [In] in H.
      assert (Hother : In (k, entries) (m1 ++ m2) ->
                       entries = Behaviour.carrying k done ++ Behaviour.carrying k [p]).
      { intros H'. rewrite carrying_other, app_nil_r.
        - apply Hg. apply in_app_or in H'. apply in_or_app. cbn [In]. tauto.
        - intros ->. rewrite map_app in Hn. cbn [map fst] in Hn.
          apply NoDup_remove_2 in Hn. apply Hn. rewrite <- map_app.
          apply (in_map fst) in H'. exact H'. }
      destruct H as [H|[H|H]].
      * apply Hother. apply in_or_app. left. exact H.
      * injection H as <- <-. rewrite carrying_self. f_equal.
        apply Hg. apply in_or_app. right. left. reflexivity.
      * apply Hother. apply in_or_app. right. exact H.
    + intros k. rewrite Hkeys. split; [tauto|]. intros [H|E]; [exact H|subst k; exact Hin].
  - rewrite (map_push_fresh p m Hout). rewrite map_app. cbn [map fst].
    split; [|split].
    + apply NoDup_app; [exact Hn|constructor; [intros []|constructor]|].
      intros k H [<-|[]]. contradiction.
    + intros k entries H. rewrite carrying_app. apply in_app_or in H.
      destruct H as [H|[H|[]]].
      * rewrite carrying_other, app_nil_r; [apply Hg, H|].
        intros ->. apply Hout. apply (in_map fst) in H. exact H.
      * injection H as <- <-. rewrite carrying_self, carrying_none; [reflexivity|].
        rewrite <- Hk. exact Hout.
    + intros k. rewrite Hkeys, in_app_iff. cbn [In]. intuition congruence.
Qed.

Lemma fold_map_push_grouped (rows : list Passwords.row) :
  forall (done : list Passwords.row) (m : list (jsstring * list Passwords.row)),
    NoDup (map fst m) ->
    (forall k entries, In (k, entries) m -> entries = Behaviour.carrying k done) ->
    (forall k, In k (map fst m) <-> In k (map Passwords.encrypted_password done)) ->
    let m' := fold_left (fun m p => map_push p m) rows m in
    (forall k entries, In (k, entries) m' ->
                       entries = Behaviour.carrying k (done ++ rows))
    /\ (forall k, In k (map fst m')
                  <-> In k (map Passwords.encrypted_password (done ++ rows))).
Proof.
  induction rows as [|p rows IH]; intros done m Hn Hg Hk; cbv zeta.
  - rewrite app_nil_r. split; assumption.
  - cbn [fold_left].
    destruct (map_push_grouped p done m Hn Hg Hk) as [Hn' [Hg' Hk']].
    replace (done ++ p :: rows) with ((done ++ [p]) ++ rows)
      by (rewrite <- app_assoc; reflexivity).
    apply IH; assumption.
Qed.

(** What [findDuplicatePasswords] returns, on any list of rows. *)
Lemma duplicate_groups (rows : list Passwords.row) :
  let groups :=
    map snd (filter (fun kv => (1 <? List.length (snd kv))%nat)
                    (fold_left (fun m p => map_push p m) rows [])) in
  (forall g, In g groups ->
             (2 <= List.length g)%nat
             /\ exists k, In k (map Passwords.encrypted_password rows)
                          /\ g = Behaviour.carrying k rows)
  /\ (forall p, In p rows ->
                (2 <= List.length (Behaviour.carrying (Passwords.encrypted_password p) rows))%nat ->
                In (Behaviour.carrying (Passwords.encrypted_password p) rows) groups)
  /\ (2 * List.length groups <= List.length rows)%nat.
Proof.
  cbv zeta.
  destruct (fold_map_push_grouped rows [] [] (NoDup_nil _)) as [Hg Hk].
  { intros k entries []. }
  { intros k. reflexivity. }
  cbn [app] in Hg, Hk.
  split; [|split].
  - intros g H. apply in_map_iff in H. destruct H as [[k entries] [<- H]].
    apply filter_In in H. destruct H as [Hin Hbig]. cbn [snd] in *.
    apply Nat.ltb_lt in Hbig. split; [lia|]. exists k. split.
    + apply Hk. apply (in_map fst) in Hin. exact Hin.
    + apply Hg, Hin.
  - intros p Hin Hbig.
    assert (Hkey : In (Passwords.encrypted_password p)
                      (map fst (fold_left (fun m p => map_push p m) rows [])))
      by (apply Hk, in_map, Hin).
    apply in_map_iff in Hkey. destruct Hkey as [[k entries] [Ek Hkv]].
    cbn [fst] in Ek. subst k. pose proof (Hg _ _ Hkv) as ->.
    apply in_map_iff. exists (Passwords.encrypted_password p,
                              Behaviour.carrying (Passwords.encrypted_password p) rows).
    split; [reflexivity|]. apply filter_In. split; [exact Hkv|].
    cbn [snd]. apply Nat.ltb_lt. lia.
  - rewrite length_map.
    pose proof (groups_bound (fold_left (fun m p => map_push p m) rows [])) as B.
    rewrite fold_map_push_total in B. cbn [map List.concat List.length] in B. lia.
Qed.

End GroupFacts.

(** X22. What counts as a duplicate.  [findDuplicatePasswords] groups the
    entries by their stored password ciphertext: a group has two entries or
    more, it holds every entry that carries the ciphertext of any of its
    members, newest modification first, and nothing else; every ciphertext
    that two or more entries carry has its group; and the groups take at
    least two entries each, so that there are at most half as many groups as
    entries. *)
Theorem X22_duplicate_groups_are_the_shared_ciphertexts (db : PasswordDatabase.t) :
  let rows := PasswordDatabase.getPasswords None db in
  let groups := PasswordDatabase.findDuplicatePasswords db in
  (forall g, In g groups ->
             (2 <= List.length g)%nat
             /\ forall p, In p g ->
                          In p (PasswordDatabase.passwords db)
                          /\ g = Behaviour.carrying (Passwords.encrypted_password p) rows)
  /\ (forall p q, In p (PasswordDatabase.passwords db) ->
                  In q (PasswordDatabase.passwords db) ->
                  p <> q ->
                  Passwords.encrypted_password p = Passwords.encrypted_password q ->
                  exists g, In g groups /\ In p g /\ In q g)
  /\ (2 * List.length groups <= List.length (PasswordDatabase.passwords db))%nat.
Proof.
  cbv zeta. unfold PasswordDatabase.findDuplicatePasswords.
  assert (Hrows : forall p, In p (PasswordDatabase.getPasswords None db)
                            <-> In p (PasswordDatabase.passwords db)).
  { intros p. unfold PasswordDatabase.getPasswords. cbn [truthy]. apply order_by_In. }
  destruct (duplicate_groups (PasswordDatabase.getPasswords None db)) as [H1 [H2 H3]].
  split; [|split].
  - intros g Hg. destruct (H1 g Hg) as [Hlen [k [_ ->]]]. split; [exact Hlen|].
    intros p Hp. apply carrying_In in Hp. destruct Hp as [Hp ->].
    split; [apply Hrows, Hp|reflexivity].
  - intros p q Hp Hq Hne He.
    exists (Behaviour.carrying (Passwords.encrypted_password p)
                               (PasswordDatabase.getPasswords None db)).
    assert (Ip : In p (Behaviour.carrying (Passwords.encrypted_password p)
                                          (PasswordDatabase.getPasswords None db)))
      by (apply carrying_In; split; [apply Hrows, Hp|reflexivity]).
    assert (Iq : In q (Behaviour.carrying (Passwords.encrypted_password p)
                                          (PasswordDatabase.getPasswords None db)))
      by (apply carrying_In; split; [apply Hrows, Hq|exact He]).
    split; [|split; assumption].
    apply H2; [apply Hrows, Hp|].
    destruct (Behaviour.carrying (Passwords.encrypted_password p)
                                 (PasswordDatabase.getPasswords None db))
      as [|a [|b l]]; cbn [List.length]; [destruct Ip| |lia].
    destruct Ip as [<-|[]]. destruct Iq as [<-|[]]. contradiction.
  - unfold PasswordDatabase.getPasswords in H3. cbn [truthy] in H3.
    rewrite order_by_length in H3. exact H3.
Qed.

Section CountFacts.

Import PasswordDatabase.

Lemma filter_none {A : Type} (f : A -> bool) (l : list A) :
  (forall x, In x l -> f x = false) -> filter f l = [].
Proof.
  induction l as [|x l IH]; intros H; [reflexivity|].
  cbn [filter]. rewrite (H x (or_introl eq_refl)). apply IH.
  intros y Hy. apply H. right. exact Hy.
Qed.

Lemma filter_length_pos {A : Type} (f : A -> bool) (l : list A) (x : A) :
  In x l -> f x = true -> (1 <= List.length (filter f l))%nat.
Proof.
  intros Hin Hf.
  assert (H : In x (filter f l)) by (apply filter_In; split; assumption).
  destruct (filter f l); [destruct H|cbn [List.length]; lia].
Qed.

End CountFacts.

(** X23. The statistics stay within the vault.  The entries counted as
    recently used are no more than the entries stored, and none when no
    entry was ever used; twice the number of duplicate groups is no more
    than the number of entries; and once the use of a stored entry is
    recorded at a time less than seven days before the statistics are taken,
    at least one entry counts as recently used. *)
Theorem X23_statistics_stay_within_the_vault (now : timestamp) (db : PasswordDatabase.t) :
  let s := PasswordDatabase.getStatistics now db in
  0 <= PasswordDatabase.recentlyUsed s <= PasswordDatabase.totalPasswords s
  /\ 0 <= 2 * PasswordDatabase.duplicateCount s <= PasswordDatabase.totalPasswords s
  /\ ((forall p, In p (PasswordDatabase.passwords db) -> Passwords.last_used p = None) ->
      PasswordDatabase.recentlyUsed s = 0)
  /\ (forall id used_at,
        PasswordDatabase.getPassword id db <> None ->
        now - PasswordDatabase.seven_days < used_at ->
        1 <= PasswordDatabase.recentlyUsed
               (PasswordDatabase.getStatistics
                  now (PasswordDatabase.updatePasswordUsage id used_at db))).
Proof.
  cbv zeta. unfold PasswordDatabase.getStatistics.
  cbn [PasswordDatabase.recentlyUsed PasswordDatabase.totalPasswords
       PasswordDatabase.duplicateCount].
  split; [|split; [|split]].
  - pose proof (filter_length_le
                  (fun p => PasswordDatabase.null_ltb
                              (Some (now - PasswordDatabase.seven_days))
                              (Passwords.last_used p))
                  (PasswordDatabase.passwords db)).
    lia.
  - unfold PasswordDatabase.findDuplicatePasswords.
    destruct (duplicate_groups (PasswordDatabase.getPasswords None db)) as [_ [_ B]].
    unfold PasswordDatabase.getPasswords in B at 2. cbn [truthy] in B.
    rewrite order_by_length in B. lia.
  - intros H. rewrite filter_none; [reflexivity|].
    intros p Hp. rewrite (H p Hp). reflexivity.
  - intros id used_at Hex Hlt.
    destruct (PasswordDatabase.getPassword id db) as [p|] eqn:G; [|contradiction].
    unfold PasswordDatabase.getPassword in G. apply find_some in G.
    destruct G as [Hin Hid].
    rewrite updatePasswordUsage_rows.
    assert (L : Nat.le 1 (List.length
                       (filter (fun p => PasswordDatabase.null_ltb
                                           (Some (now - PasswordDatabase.seven_days))
                                           (Passwords.last_used p))
                               (map (fun p => if PasswordDatabase.has_id id p
                                              then Spec.used used_at p else p)
                                    (PasswordDatabase.passwords db))))).
    { apply (filter_length_pos _ _ (Spec.used used_at p)).
      - apply in_map_iff. exists p. rewrite Hid. split; [reflexivity|exact Hin].
      - cbn [Spec.used Passwords.last_used PasswordDatabase.null_ltb].
        apply Z.ltb_lt. exact Hlt. }
    lia.
Qed.

(* ================================================================== *)
(** * The order of the listings *)
(* ================================================================== *)

Section ListingFacts.

Import PasswordDatabase.

Lemma sorted_weaken {A : Type} (R R' : A -> A -> Prop) (l : list A) :
  (forall a b, R a b -> R' a b) -> StronglySorted R l -> StronglySorted R' l.
Proof.
  intros H Hs. induction Hs as [|a l Hl IH Ha]; constructor; [exact IH|].
  eapply Forall_impl; [|exact Ha]. intros b. apply H.
Qed.

Ltac compare_keys :=
  repeat match goal with
         | |- context [?x <? ?y] => destruct (Z.ltb_spec x y)
         | |- context [?x =? ?y] => destruct (Z.eqb_spec x y)
         | H : context [?x <? ?y] |- _ => destruct (Z.ltb_spec x y)
         | H : context [?x =? ?y] |- _ => destruct (Z.eqb_spec x y)
         end;
  cbn [orb andb] in *; try reflexivity; try discriminate; try lia.

Lemma descending_sorted {A : Type} (key : A -> Z) (l : list A) :
  StronglySorted (fun a b => key b <= key a) (order_by (fun a b => key b <? key a) l).
Proof.
  apply (sorted_weaken (fun a b => (key a <? key b) = false)).
  - intros a b H. apply Z.ltb_ge in H. exact H.
  - apply (order_by_sorted (fun a b => key b <? key a)).
    + intros a b H. apply Z.ltb_lt in H. apply Z.ltb_ge. lia.
    + intros a b c H1 H2. apply Z.ltb_ge in H1, H2. apply Z.ltb_ge. lia.
Qed.

Lemma by_last_used_desc_asym (a b : Passwords.row) :
  by_last_used_desc a b = true -> by_last_used_desc b a = false.
Proof.
  unfold by_last_used_desc, null_ltb, null_eqb. intros H.
  destruct (Passwords.last_used a) as [x|], (Passwords.last_used b) as [y|];
    cbn [orb andb] in *; compare_keys.
Qed.

Lemma by_last_used_desc_order (a b : Passwords.row) :
  by_last_used_desc b a = false -> Behaviour.used_not_after a b.
Proof.
  unfold by_last_used_desc, null_ltb, null_eqb, Behaviour.used_not_after. intros H.
  destruct (Passwords.last_used a) as [x|], (Passwords.last_used b) as [y|];
    cbn [orb andb] in H; try discriminate H.
  - split.
    + intros t Ht. injection Ht as <-. exists x. split; [reflexivity|].
      compare_keys.
    + intros E. injection E as ->. compare_keys.
  - split; [discriminate|discriminate].
  - split; [discriminate|]. intros _. compare_keys.
Qed.

Lemma by_last_used_desc_trans (a b c : Passwords.row) :
  by_last_used_desc b a = false -> by_last_used_desc c b = false ->
  by_last_used_desc c a = false.
Proof.
  unfold by_last_used_desc, null_ltb, null_eqb. intros H1 H2.
  destruct (Passwords.last_used a) as [x|], (Passwords.last_used b) as [y|],
           (Passwords.last_used c) as [z|];
    cbn [orb andb] in *; try discriminate; try reflexivity; compare_keys.
Qed.

Lemma last_used_sorted (l : list Passwords.row) :
  StronglySorted Behaviour.used_not_after (order_by by_last_used_desc l).
Proof.
  apply (sorted_weaken (fun a b => by_last_used_desc b a = false)).
  - apply by_last_used_desc_order.
  - apply order_by_sorted.
    + apply by_last_used_desc_asym.
    + apply by_last_used_desc_trans.
Qed.

End ListingFacts.

(** X24. The order of the listings.  The full list of entries and the
    entries of a tag come newest modification first, and so do the notes; a
    search, and the entries of a domain, come most recently used first, the
    entries never used last, and entries used at the same time or never come
    newest modification first; the history of an entry comes newest change
    first and, for an id without unpaired surrogate, is the rows that refer
    to that id.  The full list holds every stored entry once. *)
Theorem X24_listings_come_newest_first
  (db : PasswordDatabase.t) (query domain tag id : jsstring) :
  StronglySorted (fun a b => Passwords.modified_at b <= Passwords.modified_at a)
                 (PasswordDatabase.getPasswords None db)
  /\ Permutation (PasswordDatabase.getPasswords None db) (PasswordDatabase.passwords db)
  /\ StronglySorted (fun a b => Passwords.modified_at b <= Passwords.modified_at a)
                    (PasswordDatabase.getPasswordsByTag tag db)
  /\ StronglySorted (fun a b => Notes.modified_at b <= Notes.modified_at a)
                    (PasswordDatabase.getSecureNotes db)
  /\ StronglySorted Behaviour.used_not_after (PasswordDatabase.searchPasswords query db)
  /\ (domain <> [] ->
      StronglySorted Behaviour.used_not_after
                     (PasswordDatabase.getPasswords (Some domain) db))
  /\ StronglySorted (fun a b => History.changed_at b <= History.changed_at a)
                    (PasswordDatabase.getPasswordHistory id db)
  /\ (well_formed id = true ->
      forall h, In h (PasswordDatabase.getPasswordHistory id db)
                <-> In h (PasswordDatabase.password_history db)
                    /\ History.password_id h = id).
Proof.
  split; [|split; [|split; [|split; [|split; [|split; [|split]]]]]].
  - unfold PasswordDatabase.getPasswords. cbn [truthy].
    apply (descending_sorted Passwords.modified_at).
  - unfold PasswordDatabase.getPasswords. cbn [truthy]. apply order_by_perm.
  - unfold PasswordDatabase.getPasswordsByTag.
    apply (descending_sorted Passwords.modified_at).
  - unfold PasswordDatabase.getSecureNotes.
    apply (descending_sorted Notes.modified_at).
  - unfold PasswordDatabase.searchPasswords. apply last_used_sorted.
  - intros Hd. unfold PasswordDatabase.getPasswords.
    destruct domain as [|c domain]; [contradiction|]. cbn [truthy].
    apply last_used_sorted.
  - unfold PasswordDatabase.getPasswordHistory.
    apply (descending_sorted History.changed_at).
  - intros _ h. unfold PasswordDatabase.getPasswordHistory.
    rewrite order_by_In, filter_In. unfold PasswordDatabase.refers_to.
    rewrite jsstring_eqb_eq. reflexivity.
Qed.

(* ================================================================== *)
(** * Foreign keys: the history under ON DELETE CASCADE *)
(* ================================================================== *)

Section ForeignKeyFacts.
Context {crypto : NodeCrypto}.

Import PasswordDatabase.

(** A change that keeps the pragma, adds no history and removes no entry. *)
Lemma referential_kept (fk : bool) (db db' : t) :
  foreign_keys db' = foreign_keys db ->
  (forall h, In h (password_history db') -> In h (password_history db)) ->
  (forall id, getPassword id db <> None -> getPassword id db' <> None) ->
  Behaviour.referential fk db -> Behaviour.referential fk db'.
Proof.
  intros Hf Hh Hp [H1 H2]. split; [congruence|].
  intros T h Hin. apply Hp. apply (H2 T). apply Hh. exact Hin.
Qed.

Lemma find_app_some {A : Type} (f : A -> bool) (l l' : list A) :
  find f l <> None -> find f (l ++ l') <> None.
Proof.
  induction l as [|x l IH]; intros H; [contradiction|].
  cbn [app find] in *. destruct (f x); [discriminate|apply IH, H].
Qed.

Lemma getPassword_existsb (id : jsstring) (db : t) :
  getPassword id db <> None <-> existsb (has_id id) (passwords db) = true.
Proof.
  unfold getPassword. split.
  - intros H. destruct (find (has_id id) (passwords db)) as [p|] eqn:F; [|contradiction].
    apply find_some in F. apply existsb_exists. exists p. exact F.
  - intros H F. apply find_none_filter in F. destruct F as [_ F]. congruence.
Qed.

(** Deleting the row of [id] under foreign keys: no row of the history that
    is left refers to [id]. *)
Lemma delete_password_row_history (id : jsstring) (db : t) :
  Behaviour.referential true db ->
  forall h, In h (password_history (delete_password_row id db)) ->
            In h (password_history db) /\ History.password_id h <> id.
Proof.
  intros [Hf Ho] h. specialize (Ho eq_refl). unfold delete_password_row.
  rewrite Hf. cbn [andb]. destruct (existsb (has_id id) (passwords db)) eqn:E.
  - cbn [password_history with_passwords with_history]. intros H.
    apply filter_In in H. destruct H as [Hin Hr]. split; [exact Hin|].
    apply negb_true_iff in Hr. apply jsstring_eqb_neq in Hr. exact Hr.
  - cbn [password_history with_passwords]. intros H. split; [exact H|].
    intros Hid. apply (Ho h H). rewrite Hid.
    destruct (getPassword id db) eqn:G; [|reflexivity].
    assert (X : getPassword id db <> None) by congruence.
    apply getPassword_existsb in X. congruence.
Qed.

Lemma delete_password_row_foreign_keys (id : jsstring) (db : t) :
  foreign_keys (delete_password_row id db) = foreign_keys db.
Proof.
  unfold delete_password_row.
  destruct (foreign_keys db && existsb (has_id id) (passwords db)); reflexivity.
Qed.

Lemma delete_password_row_referential (fk : bool) (id : jsstring) (db : t) :
  Behaviour.referential fk db -> Behaviour.referential fk (delete_password_row id db).
Proof.
  intros H. pose proof H as [Hf Ho]. split.
  - rewrite delete_password_row_foreign_keys. exact Hf.
  - intros T h Hin. rewrite T in H.
    destruct (delete_password_row_history id db H h Hin) as [Hh Hne].
    unfold getPassword. rewrite delete_password_row_passwords.
    rewrite find_filter_other by exact Hne. apply (Ho T h Hh).
Qed.

Lemma savePassword_referential (fk : bool) (p : PasswordEncryption.encryptedEntry)
      (now : timestamp) (db : t) (r : entropy) :
  Behaviour.referential fk db ->
  Behaviour.referential fk (snd (fst (savePassword p now db r))).
Proof.
  intros H. unfold savePassword.
  destruct (if truthy (PasswordEncryption.ee_id p)
            then (or_else (PasswordEncryption.ee_id p) [], r) else uuidv4 r) as [id r1].
  destruct (PasswordEncryption.ee_domain p) as [domain|]; [|exact H].
  destruct (PasswordEncryption.ee_encrypted_password p) as [enc|]; [|exact H].
  cbv zeta. cbn [fst snd].
  pose proof (delete_password_row_referential fk id db H) as [Hf Ho].
  split; [exact Hf|]. intros T h Hin.
  cbn [password_history with_passwords] in Hin.
  unfold getPassword. cbn [passwords with_passwords].
  apply find_app_some. apply (Ho T h Hin).
Qed.

Lemma updatePasswordUsage_referential (fk : bool) (id : jsstring) (now : timestamp)
      (db : t) :
  Behaviour.referential fk db -> Behaviour.referential fk (updatePasswordUsage id now db).
Proof.
  apply referential_kept; [reflexivity|intros h H; exact H|].
  intros id' H. unfold getPassword in *. rewrite updatePasswordUsage_rows, find_map_usage.
  destruct (find (has_id id') (passwords db)); [discriminate|exact H].
Qed.

Lemma addToPasswordHistory_referential (fk : bool) (id enc : jsstring) (now : timestamp)
      (db db' : t) :
  Behaviour.referential fk db -> addToPasswordHistory id enc now db = Return db' ->
  Behaviour.referential fk db'.
Proof.
  intros [Hf Ho]. unfold addToPasswordHistory, insert_history.
  destruct (foreign_keys db && negb (existsb (has_id id) (passwords db))) eqn:E;
    [discriminate|].
  intros H. injection H as <-. split; [exact Hf|].
  intros T. rewrite Hf, T in E. cbn [andb] in E. apply negb_false_iff in E.
  intros h Hin. unfold prune_history in Hin.
  cbn [password_history with_history] in Hin.
  apply filter_In in Hin. destruct Hin as [Hin _].
  unfold getPassword, prune_history. cbn [passwords with_history].
  apply in_app_or in Hin. destruct Hin as [Hin|[<-|[]]].
  - apply (Ho T h Hin).
  - cbn [History.password_id]. apply getPassword_existsb. exact E.
Qed.

Lemma deletePassword_referential (fk : bool) (id : jsstring) (now : timestamp)
      (db db' : t) :
  Behaviour.referential fk db -> deletePassword id now db = Return db' ->
  Behaviour.referential fk db'.
Proof.
  intros H. unfold deletePassword. destruct (getPassword id db) as [p|].
  - destruct (addToPasswordHistory id (Passwords.encrypted_password p) now db)
      as [db1|] eqn:E; [|discriminate].
    intros R. injection R as <-. apply delete_password_row_referential.
    eapply addToPasswordHistory_referential; eassumption.
  - intros R. injection R as <-. apply delete_password_row_referential. exact H.
Qed.

Lemma saveSecureNote_referential (fk : bool) (n : noteData) (now : timestamp)
      (db : t) (r : entropy) :
  Behaviour.referential fk db ->
  Behaviour.referential fk (snd (fst (saveSecureNote n now db r))).
Proof.
  intros H. unfold saveSecureNote.
  destruct (if truthy (nd_id n) then (or_else (nd_id n) [], r) else uuidv4 r)
    as [id r1].
  destruct (nd_title n); [|exact H].
  destruct (nd_encrypted_content n); [|exact H].
  exact H.
Qed.

Lemma run_referential (fk : bool) (r : entropy) (events : list PasswordManager.event) :
  Behaviour.referential fk (PasswordManager.database (PasswordManager.run fk r events)).
Proof.
  apply (run_keeps (Behaviour.referential fk)).
  - intros now db H. exact H.
  - intros p now db r0. apply savePassword_referential.
  - intros id now db. apply updatePasswordUsage_referential.
  - intros id enc now db db'. apply addToPasswordHistory_referential.
  - intros id now db db'. apply deletePassword_referential.
  - intros n now db r0. apply saveSecureNote_referential.
  - intros id db H. exact H.
  - intros salt verificationHash iterations now db H. exact H.
  - split; [reflexivity|]. intros _ h [].
Qed.

End ForeignKeyFacts.

(** X25. With foreign keys enforced the history has no orphans.  After every
    run of events on a database that enforces foreign keys, the database
    still enforces them, every row of the history belongs to a stored entry,
    and an id that no entry has has no history. *)
Theorem X25_foreign_keys_leave_no_orphans
  {crypto : NodeCrypto} (r : entropy) (events : list PasswordManager.event) :
  let db := PasswordManager.database (PasswordManager.run true r events) in
  PasswordDatabase.foreign_keys db = true
  /\ (forall h, In h (PasswordDatabase.password_history db) ->
                exists p, In p (PasswordDatabase.passwords db)
                          /\ Passwords.id p = History.password_id h)
  /\ (forall id, PasswordDatabase.getPassword id db = None ->
                 PasswordDatabase.getPasswordHistory id db = []).
Proof.
  cbv zeta. destruct (run_referential true r events) as [Hf Ho].
  specialize (Ho eq_refl). split; [exact Hf|]. split.
  - intros h Hin. pose proof (Ho h Hin) as G.
    destruct (PasswordDatabase.getPassword _ _) as [p|] eqn:E; [|contradiction].
    exists p. apply getPassword_In. exact E.
  - intros id G. unfold PasswordDatabase.getPasswordHistory.
    rewrite filter_none; [reflexivity|].
    intros h Hin. destruct (PasswordDatabase.refers_to id h) eqn:E; [|reflexivity].
    apply jsstring_eqb_eq in E. exfalso. apply (Ho h Hin). rewrite E. exact G.
Qed.

Section UpdateCascade.
Context {crypto : NodeCrypto}.

(** One update on a manager a run of events reaches, on a database that
    enforces foreign keys. *)
Lemma updatePassword_cascade (r : entropy) (events : list PasswordManager.event)
      (id : jsstring) (entry : PasswordEncryption.passwordEntry) (now : timestamp) :
  let m := PasswordManager.run true r events in
  PasswordManager.isLocked m = false ->
  PasswordDatabase.getPassword id (PasswordManager.database m) <> None ->
  PasswordEncryption.pe_domain entry <> None ->
  truthy (PasswordEncryption.pe_password entry) = true ->
  exists m',
    PasswordManager.updatePassword id entry now m
    = (PasswordManager.ok (PasswordManager.Message (js "Password updated successfully")),
       m')
    /\ PasswordManager.isLocked m' = false
    /\ PasswordDatabase.getPassword id (PasswordManager.database m') <> None
    /\ Spec.history_of id (PasswordManager.database m') = [].
Proof.
  cbv zeta. intros Hl Hex Hdom Hpt.
  destruct (PasswordEncryption.pe_domain entry) as [domain|] eqn:Ed; [|contradiction].
  destruct (run_session_invariant true r events) as [_ Hu].
  pose proof (run_ids_invariant true r events) as [_ [Hids _]].
  destruct (run_referential true r events) as [Hf _].
  set (m := PasswordManager.run true r events) in *.
  specialize (Hu Hl).
  destruct (PasswordDatabase.getPassword id (PasswordManager.database m))
    as [existing|] eqn:G; [|contradiction].
  assert (Hid : id <> []).
  { destruct (getPassword_In _ _ _ G) as [Hin <-].
    rewrite Forall_forall in Hids. apply Hids, Hin. }
  unfold PasswordManager.updatePassword. rewrite Hl. cbv zeta.
  cbn [PasswordManager.random PasswordManager.encryption PasswordManager.database
       PasswordManager.resetAutoLockTimer PasswordManager.with_timer].
  rewrite G, Hpt. cbn [andb].
  assert (Hh : exists db1,
             (if truthy (Some (Passwords.encrypted_password existing))
              then PasswordDatabase.addToPasswordHistory
                     id (Passwords.encrypted_password existing) now
                     (PasswordManager.database m)
              else Return (PasswordManager.database m)) = Return db1
             /\ PasswordDatabase.passwords db1
                = PasswordDatabase.passwords (PasswordManager.database m)
             /\ PasswordDatabase.foreign_keys db1 = true).
  { destruct (truthy (Some (Passwords.encrypted_password existing))).
    - destruct (addToPasswordHistory_existing
                  id (Passwords.encrypted_password existing) now
                  (PasswordManager.database m) existing G) as [db1 [E [P [_ F]]]].
      exists db1. split; [exact E|]. split; [exact P|congruence].
    - eexists. split; [reflexivity|]. split; [reflexivity|exact Hf]. }
  destruct Hh as [db1 [Eh [Hp1 Hf1]]]. rewrite Eh.
  cbn [PasswordManager.random PasswordManager.encryption PasswordManager.database
       PasswordManager.with_database PasswordManager.resetAutoLockTimer
       PasswordManager.with_timer].
  destruct (encryptPasswordEntry_with_key
              {| PasswordEncryption.pe_id := Some id;
                 PasswordEncryption.pe_domain := PasswordEncryption.pe_domain entry;
                 PasswordEncryption.pe_username := PasswordEncryption.pe_username entry;
                 PasswordEncryption.pe_password := PasswordEncryption.pe_password entry;
                 PasswordEncryption.pe_notes := PasswordEncryption.pe_notes entry;
                 PasswordEncryption.pe_favicon := PasswordEncryption.pe_favicon entry;
                 PasswordEncryption.pe_tags := PasswordEncryption.pe_tags entry |}
              (PasswordManager.encryption m) (PasswordManager.random m) Hu Hpt)
    as [blob [notes [r1 [_ E1]]]].
  rewrite E1. unfold PasswordDatabase.savePassword.
  cbn [PasswordEncryption.pe_id PasswordEncryption.pe_domain
       PasswordEncryption.ee_id PasswordEncryption.ee_domain
       PasswordEncryption.ee_encrypted_password].
  rewrite Ed. destruct id as [|c id]; [contradiction|]. cbn [truthy or_else].
  cbv zeta. eexists. split; [reflexivity|].
  cbn [PasswordManager.database PasswordManager.with_database PasswordManager.with_random
       PasswordManager.isLocked PasswordManager.with_timer].
  split; [exact Hl|]. split.
  - unfold PasswordDatabase.getPassword.
    cbn [PasswordDatabase.passwords PasswordDatabase.with_passwords].
    rewrite delete_password_row_passwords, find_replaced by reflexivity. discriminate.
  - unfold Spec.history_of.
    cbn [PasswordDatabase.password_history PasswordDatabase.with_passwords].
    unfold PasswordDatabase.delete_password_row. rewrite Hf1, Hp1. cbn [andb].
    assert (X : existsb (PasswordDatabase.has_id (c :: id))
                        (PasswordDatabase.passwords (PasswordManager.database m)) = true).
    { apply getPassword_existsb. rewrite G. discriminate. }
    rewrite X.
    cbn [PasswordDatabase.password_history PasswordDatabase.with_passwords
         PasswordDatabase.with_history].
    apply history_of_cascade.
Qed.

(** A run goes on where the run before it stopped. *)
Lemma run_app (fk : bool) (r : entropy) (events more : list PasswordManager.event) :
  PasswordManager.run fk r (events ++ more)
  = fold_left PasswordManager.apply_event more (PasswordManager.run fk r events).
Proof. unfold PasswordManager.run. apply fold_left_app. Qed.

(** Updates one after the other, on a database that enforces foreign
    keys. *)
Lemma update_repeatedly_cascade (id : jsstring)
      (changes : list (PasswordEncryption.passwordEntry * timestamp)) :
  forall (r : entropy) (events : list PasswordManager.event),
    let m := PasswordManager.run true r events in
    PasswordManager.isLocked m = false ->
    PasswordDatabase.getPassword id (PasswordManager.database m) <> None ->
    Forall Spec.complete_change changes ->
    let m' := Spec.update_repeatedly id changes m in
    Spec.updates_succeed id changes m = true
    /\ PasswordManager.isLocked m' = false
    /\ PasswordDatabase.getPassword id (PasswordManager.database m') <> None
    /\ (changes <> [] -> Spec.history_of id (PasswordManager.database m') = []).
Proof.
  induction changes as [|[entry now] rest IH]; intros r events; cbv zeta;
    intros Hl Hex Hc.
  - cbn [Spec.update_repeatedly Spec.updates_succeed].
    split; [reflexivity|]. split; [exact Hl|]. split; [exact Hex|].
    intros H. contradiction.
  - inversion Hc as [|? ? [Hp Hd] Hc']; subst. cbn [fst] in Hp, Hd.
    destruct (updatePassword_cascade r events id entry now Hl Hex Hd Hp)
      as [m1 [U [Hl1 [Hex1 Hh1]]]].
    cbn [Spec.update_repeatedly Spec.updates_succeed]. rewrite U. cbn [fst snd andb].
    assert (E : m1 = PasswordManager.run true r
                       (events ++ [PasswordManager.Request
                                     (PasswordManager.pm_update_password id entry) now])).
    { rewrite run_app. cbn [fold_left PasswordManager.apply_event
                            PasswordManager.handle PasswordManager.replying].
      rewrite U. reflexivity. }
    rewrite E in Hl1, Hex1, Hh1 |- *.
    destruct (IH r _ Hl1 Hex1 Hc') as [S [L [G H]]].
    split; [exact S|]. split; [exact L|]. split; [exact G|].
    intros _. destruct rest as [|change rest]; [exact Hh1|].
    apply H. discriminate.
Qed.

End UpdateCascade.

(** X26. With foreign keys enforced an update erases the history.  On every
    manager reached by a run of events on a database that enforces foreign
    keys, [updatePassword] of a stored entry with a domain and a non-empty
    password succeeds while Unlocked, and the entry then has no history at
    all: the REPLACE that stores the new row deletes the old one, and with
    it the rows that referred to it, the one just written included. *)
Theorem X26_update_under_foreign_keys_erases_the_history
  {crypto : NodeCrypto} (r : entropy) (events : list PasswordManager.event)
  (id : jsstring) (entry : PasswordEncryption.passwordEntry)
  (domain : jsstring) (now : timestamp) :
  let m := PasswordManager.run true r events in
  PasswordManager.isLocked m = false ->
  PasswordDatabase.getPassword id (PasswordManager.database m) <> None ->
  PasswordEncryption.pe_domain entry = Some domain ->
  truthy (PasswordEncryption.pe_password entry) = true ->
  exists m',
    PasswordManager.updatePassword id entry now m
    = (PasswordManager.ok (PasswordManager.Message (js "Password updated successfully")),
       m')
    /\ PasswordDatabase.getPassword id (PasswordManager.database m') <> None
    /\ PasswordDatabase.getPasswordHistory id (PasswordManager.database m') = [].
Proof.
  cbv zeta. intros Hl Hex Hdom Hpt.
  destruct (updatePassword_cascade r events id entry now Hl Hex) as [m' [U [_ [G H]]]].
  { rewrite Hdom. discriminate. }
  { exact Hpt. }
  exists m'. split; [exact U|]. split; [exact G|].
  unfold PasswordDatabase.getPasswordHistory. unfold Spec.history_of in H.
  rewrite H. reflexivity.
Qed.

Lemma X26_update_under_foreign_keys_witness :
  exists m',
    PasswordManager.updatePassword Scenario.example_id (Scenario.new_password "p1") 160
      (PasswordManager.run true Toy.counter
         [PasswordManager.Request
            (PasswordManager.pm_setup_master_password (js "Tr0ub4dor&3")) 100;
          PasswordManager.Request
            (PasswordManager.pm_add_password Scenario.example_entry) 101])
    = (PasswordManager.ok (PasswordManager.Message (js "Password updated successfully")),
       m')
    /\ PasswordDatabase.getPasswordHistory Scenario.example_id
         (PasswordManager.database m') = [].
Proof.
  assert (L : PasswordManager.isLocked
                (PasswordManager.run true Toy.counter
                   [PasswordManager.Request
                      (PasswordManager.pm_setup_master_password (js "Tr0ub4dor&3")) 100;
                    PasswordManager.Request
                      (PasswordManager.pm_add_password Scenario.example_entry) 101])
              = false) by (vm_compute; reflexivity).
  assert (F : match PasswordDatabase.getPassword Scenario.example_id
                      (PasswordManager.database
                         (PasswordManager.run true Toy.counter
                            [PasswordManager.Request
                               (PasswordManager.pm_setup_master_password
                                  (js "Tr0ub4dor&3")) 100;
                             PasswordManager.Request
                               (PasswordManager.pm_add_password Scenario.example_entry)
                               101])) with
              | Some _ => true
              | None => false
              end = true) by (vm_compute; reflexivity).
  assert (E : PasswordDatabase.getPassword Scenario.example_id
                (PasswordManager.database
                   (PasswordManager.run true Toy.counter
                      [PasswordManager.Request
                         (PasswordManager.pm_setup_master_password (js "Tr0ub4dor&3")) 100;
                       PasswordManager.Request
                         (PasswordManager.pm_add_password Scenario.example_entry) 101]))
              <> None) by (intros E; rewrite E in F; discriminate F).
  destruct (X26_update_under_foreign_keys_erases_the_history
              Toy.counter
              [PasswordManager.Request
                 (PasswordManager.pm_setup_master_password (js "Tr0ub4dor&3")) 100;
               PasswordManager.Request
                 (PasswordManager.pm_add_password Scenario.example_entry) 101]
              Scenario.example_id (Scenario.new_password "p1")
              (js "example.com") 160 L E eq_refl eq_refl)
    as [m' [U [_ H]]].
  exists m'. split; [exact U|exact H].
Defined.

(** C5, the failing path.  The code never sets the [foreign_keys] pragma, so
    the driver's default holds, and the driver enforces foreign keys.  There,
    on every manager a run of events reaches, updating the password of a
    stored credential again and again while Unlocked, each time with a
    domain and a non-empty password, succeeds every time and leaves the
    credential with no history row at all: the [INSERT OR REPLACE] that
    stores the new row deletes the old one, and [ON DELETE CASCADE] deletes
    the history with it, the row [addToPasswordHistory] has just written
    included.  Ten updates leave no row where five are promised. *)
Theorem C5_updates_leave_no_history
  {crypto : NodeCrypto} (r : entropy) (events : list PasswordManager.event)
  (id : jsstring) (changes : list (PasswordEncryption.passwordEntry * timestamp)) :
  let m := PasswordManager.run true r events in
  PasswordManager.isLocked m = false ->
  PasswordDatabase.getPassword id (PasswordManager.database m) <> None ->
  Forall Spec.complete_change changes ->
  changes <> [] ->
  let m' := Spec.update_repeatedly id changes m in
  Spec.updates_succeed id changes m = true
  /\ PasswordDatabase.getPassword id (PasswordManager.database m') <> None
  /\ Spec.history_of id (PasswordManager.database m') = []
  /\ PasswordDatabase.getPasswordHistory id (PasswordManager.database m') = [].
Proof.
  cbv zeta. intros Hl Hex Hc Hne.
  destruct (update_repeatedly_cascade id changes r events Hl Hex Hc) as [S [_ [G H]]].
  specialize (H Hne).
  split; [exact S|]. split; [exact G|]. split; [exact H|].
  unfold PasswordDatabase.getPasswordHistory. unfold Spec.history_of in H.
  rewrite H. reflexivity.
Qed.

Lemma C5_witness :
  List.length Scenario.ten_changes = 10%nat
  /\ Spec.updates_succeed Scenario.example_id Scenario.ten_changes
       (PasswordManager.run true Toy.counter
          [PasswordManager.Request
             (PasswordManager.pm_setup_master_password (js "Tr0ub4dor&3")) 100;
           PasswordManager.Request
             (PasswordManager.pm_add_password Scenario.example_entry) 101]) = true
  /\ Spec.history_of Scenario.example_id
       (PasswordManager.database
          (Spec.update_repeatedly Scenario.example_id Scenario.ten_changes
             (PasswordManager.run true Toy.counter
                [PasswordManager.Request
                   (PasswordManager.pm_setup_master_password (js "Tr0ub4dor&3")) 100;
                 PasswordManager.Request
                   (PasswordManager.pm_add_password Scenario.example_entry) 101])))
     = [].
Proof.
  assert (L : PasswordManager.isLocked
                (PasswordManager.run true Toy.counter
                   [PasswordManager.Request
                      (PasswordManager.pm_setup_master_password (js "Tr0ub4dor&3")) 100;
                    PasswordManager.Request
                      (PasswordManager.pm_add_password Scenario.example_entry) 101])
              = false) by (vm_compute; reflexivity).
  assert (F : match PasswordDatabase.getPassword Scenario.example_id
                      (PasswordManager.database
                         (PasswordManager.run true Toy.counter
                            [PasswordManager.Request
                               (PasswordManager.pm_setup_master_password
                                  (js "Tr0ub4dor&3")) 100;
                             PasswordManager.Request
                               (PasswordManager.pm_add_password Scenario.example_entry)
                               101])) with
              | Some _ => true
              | None => false
              end = true) by (vm_compute; reflexivity).
  assert (E : PasswordDatabase.getPassword Scenario.example_id
                (PasswordManager.database
                   (PasswordManager.run true Toy.counter
                      [PasswordManager.Request
                         (PasswordManager.pm_setup_master_password (js "Tr0ub4dor&3")) 100;
                       PasswordManager.Request
                         (PasswordManager.pm_add_password Scenario.example_entry) 101]))
              <> None) by (intros E; rewrite E in F; discriminate F).
  assert (C : Forall Spec.complete_change Scenario.ten_changes).
  { unfold Scenario.ten_changes, Spec.complete_change.
    repeat (constructor; [split; [reflexivity|discriminate]|]). constructor. }
  assert (N : Scenario.ten_changes <> []) by discriminate.
  destruct (C5_updates_leave_no_history
              Toy.counter
              [PasswordManager.Request
                 (PasswordManager.pm_setup_master_password (js "Tr0ub4dor&3")) 100;
               PasswordManager.Request
                 (PasswordManager.pm_add_password Scenario.example_entry) 101]
              Scenario.example_id Scenario.ten_changes L E C N)
    as [S [_ [H _]]].
  split; [reflexivity|]. split; [exact S|exact H].
Defined.

(* ================================================================== *)
(** * Before a master password is set up *)
(* ================================================================== *)

Section FreshFacts.
Context {crypto : NodeCrypto}.

Import PasswordManager.

(** A manager that is Locked on a database without settings stays so under
    every request but the setup. *)
Lemma handle_before_setup (q : request) (now : timestamp) (m : t) :
  (forall masterPassword, q <> pm_setup_master_password masterPassword) ->
  isLocked m = true ->
  PasswordDatabase.password_settings (database m) = [] ->
  isLocked (snd (handle q now m)) = true
  /\ database (snd (handle q now m)) = database m.
Proof.
  intros Hq Hl Hs.
  destruct (Spec.store_operation q) eqn:S.
  { rewrite (locked_store_operation q now m S Hl). split; [exact Hl|reflexivity]. }
  destruct (Behaviour.stateless q) eqn:T.
  { destruct (stateless_request q now m T) as [E1 [_ [_ E2]]].
    rewrite E1, E2. split; [exact Hl|reflexivity]. }
  destruct q; try discriminate S; try discriminate T; cbn [handle replying snd].
  - split; [exact Hl|reflexivity].
  - exfalso. apply (Hq masterPassword). reflexivity.
  - unfold unlock, PasswordDatabase.getMasterPasswordSettings. rewrite Hs.
    cbn [hd_error snd]. split; [exact Hl|reflexivity].
  - unfold lock.
    destruct (PasswordEncryption.lock (encryption m) (random m)) as [e1 r1].
    split; reflexivity.
  - split; [exact Hl|reflexivity].
Qed.

Lemma events_before_setup (events : list event) :
  forall m,
    existsb Behaviour.is_setup events = false ->
    isLocked m = true ->
    PasswordDatabase.password_settings (database m) = [] ->
    isLocked (fold_left apply_event events m) = true
    /\ database (fold_left apply_event events m) = database m.
Proof.
  induction events as [|ev events IH]; intros m He Hl Hs;
    [split; [exact Hl|reflexivity]|].
  cbn [existsb] in He. apply orb_false_iff in He. destruct He as [H1 H2].
  cbn [fold_left].
  assert (A : isLocked (apply_event m ev) = true
              /\ database (apply_event m ev) = database m).
  { destruct ev as [q now| |]; cbn [apply_event].
    - apply handle_before_setup; [|exact Hl|exact Hs].
      intros masterPassword ->. discriminate H1.
    - destruct (autoLockTimer m); [|split; [exact Hl|reflexivity]].
      unfold autoLock, lock.
      destruct (PasswordEncryption.lock (encryption m) (random m)) as [e1 r1].
      split; reflexivity.
    - split; reflexivity. }
  destruct A as [A1 A2].
  destruct (IH (apply_event m ev) H2 A1) as [B1 B2]; [rewrite A2; exact Hs|].
  split; [exact B1|]. rewrite B2. exact A2.
Qed.

End FreshFacts.

(** X27. Nothing happens before the setup.  After a run of events that holds
    no request to set up a master password, the manager is Locked, the
    database is as empty as it was created, and [unlock] fails with "No
    master password set", whatever the password. *)
Theorem X27_nothing_is_stored_before_the_setup
  {crypto : NodeCrypto} (fk : bool) (r : entropy) (events : list PasswordManager.event)
  (masterPassword : jsstring) (now : timestamp) :
  existsb Behaviour.is_setup events = false ->
  let m := PasswordManager.run fk r events in
  PasswordManager.isLocked m = true
  /\ PasswordManager.database m = PasswordDatabase.empty fk
  /\ PasswordManager.unlock masterPassword now m
     = (PasswordManager.failed (js "No master password set"), m).
Proof.
  intros He. cbv zeta. unfold PasswordManager.run.
  destruct (events_before_setup events
              (PasswordManager.create (PasswordDatabase.empty fk) r) He eq_refl eq_refl)
    as [H1 H2].
  cbn [PasswordManager.database PasswordManager.create] in H2.
  split; [exact H1|]. split; [exact H2|].
  unfold PasswordManager.unlock. rewrite H2. reflexivity.
Qed.

Lemma X27_before_the_setup_witness :
  PasswordManager.isLocked
    (PasswordManager.run false Toy.counter
       [PasswordManager.Request (PasswordManager.pm_unlock (js "Tr0ub4dor&3")) 100;
        PasswordManager.Request
          (PasswordManager.pm_add_password Scenario.example_entry) 101;
        PasswordManager.Relaunched])
  = true.
Proof.
  exact (proj1 (X27_nothing_is_stored_before_the_setup
                  false Toy.counter
                  [PasswordManager.Request
                     (PasswordManager.pm_unlock (js "Tr0ub4dor&3")) 100;
                   PasswordManager.Request
                     (PasswordManager.pm_add_password Scenario.example_entry) 101;
                   PasswordManager.Relaunched]
                  [] 0 eq_refl)).
Defined.
